(* ===== verification/_CoqProject ===== *)
-Q . S2P
Prelude.v
Kbd.v
Ansikey.v
Sha256.v
MonoLe.v
Prime25519.v
Field25519.v
Fe.v
FeInv.v
X25519.v
Sha512.v
Chacha20.v
Poly1305.v
SshWire.v
Crypto.v
Rng.v
SshConn.v
CryptoImpl.v
SshKex.v
SshAuth.v
SshChan.v
Ssh.v
SshSafe.v
SshLoop.v
SshFault.v
NetSum.v
Net.v
NetInv.v
NetProps.v
Cp437.v
Render.v
Terminal.v
Mirror.v
Telnet.v
Tick.v
TelnetProps.v
Gate.v
Worker.v
WorkerProps.v
WorkerPump.v
WorkerCast.v
WorkerTotal.v
Serial.v
SerialProps.v
Cmdline.v
HostKey.v
Tsr.v
