(* ===== verification/Prelude.v ===== *)
(** * DOSSH: verification of a DOS screen-and-keyboard server

    DOSSH (src/dosshd) is a resident program for real-mode DOS that lets telnet
    and SSH clients see the text screen of the machine and type on its keyboard.
    This library models its C code as Coq functions and proves the properties
    below about them.  Everything runs from the timer interrupt: a tick polls the
    packet driver and the TCP stack (net.c), gives every slot's bytes to telnet
    (telnet.c) or SSH (ssh.c, crypto/), turns the keystrokes into key events
    (ansikey.c) that go to the BIOS ring (dosshd.c), and sends the changes of the
    screen (render.c, cp437.c) to all admitted slots.

    ** Conventions

    The code is compiled for 16 bits: [unsigned] and [size_t] are Z with [u16]
    written at every addition that can wrap, [uint32_t] and [unsigned long] with
    [u32], signed longs with [s32].  Byte buffers are [list Z].  A read or write
    outside a buffer is [None]: [rd], [rd_bytes], [poke] and the monad [M] (state
    and failure) carry it, so a theorem that gives [Some] also says that no access
    is out of bounds.  C loops are fixpoints on the count they iterate, or on
    fuel; for those on fuel a theorem says how much is enough ([input_loop]:
    [SshLoop.sealed_input_ends]; the drains of the tick: [TelnetProps.tick_total];
    [net_rx_getc] empties a ring of 512 bytes).  [wp] and [wlp] are the total and
    partial Hoare rules of [M].

    ** Files

    - Prelude: widths, buffers, the monad and its rules, rings, text.
    - Kbd: [inject_key] (dosshd.c) on the bytes of segment 0040h.
    - Ansikey: ansikey.c; terminal bytes to key events, the reboot sentinel.
    - Sha256: crypto/sha256.c, refined to FIPS 180-4.
    - MonoLe: little-endian words of crypto/monocypher.c.  Chacha20, Poly1305: the
      parts that seal packets, with their specifications (RFC 8439).
    - Prime25519, Field25519: the prime 2^255 - 19 and its field.  Fe, FeInv: the
      field elements of monocypher.c on ten limbs, inversion.  X25519: the ladder,
      with RFC 7748 as its specification.
    - Sha512: the streaming SHA-512 of monocypher-ed25519.c, refined to FIPS 180-4.
    - Crypto: the interface the server uses (crypto/crypto.h) as a class, its laws
      as a second class, and a small instance for the witnesses.
    - Rng: crypto/rng.c; the entropy pool and the ChaCha20 generator.
    - CryptoImpl: crypto/crypto.c over Chacha20, Poly1305 and Rng is an instance of
      that class with its laws; the sealed packets are those of OpenSSH.
    - SshWire: integers, strings, name-lists, key blobs, base64 and
      authorized_keys lines of ssh.c.
    - SshConn: [ssh_conn], the shared buffers of ssh.c, packet framing and sealing.
    - SshKex, SshAuth, SshChan: the handlers of the key exchange, of user
      authentication and of the session channel.
    - Ssh: dispatch, packet input, [ssh_reset], [ssh_input], [ssh_output].
    - SshSafe: the abstract protocol machine, the invariant of all connections and
      the theorem that only a credential authenticates.
    - SshLoop: the input loop: version lines, bad tags, termination, the length
      that makes it diverge.
    - SshFault: which records make the server read outside its buffers before
      authentication.
    - NetSum, Net: net.c: checksum, ARP, IP, TCP slots and rings, the slot API.
    - NetInv, NetProps: the invariant of the stack and its theorems.
    - Cp437, Render: cp437.c and render.c.
    - Terminal, Mirror: an ANSI terminal, and the theorem that what it shows after
      the renderer's bytes is the screen.
    - Telnet, Tick: telnet.c; [net_tick] and [tx_pump] of dosshd.c.
    - TelnetProps, Gate: the invariant and termination of the tick; the password gate.
    - Worker: [ssh_pump_output], [ssh_net_broadcast] and [ssh_net_worker] of
      dosshd.c, the tick of SSH mode, over Net, Ssh, Render, Ansikey, Kbd and the
      generator.
    - WorkerProps: who presses keys and what a call leaves alone, by relations
      every operation respects; WorkerPump: the pump; WorkerCast: the broadcast,
      with the invariant it needs; WorkerTotal: the drain.
    - Serial, SerialProps: the console on COM1 and SSH over COM1.
    - Cmdline: the command line of dosshd.c, from [main] to the configuration.
    - HostKey: the host key and the authorized keys on disk.
    - Tsr: INT 2Fh, installation, status and removal, the calls of the packet
      driver, the set-up of the UART.

    ** What is shown

    Authentication.  [SshSafe.authenticated_by_credential]: an SSH connection
    becomes authenticated only in a round whose sealed packet carried the password
    or a signature of an authorised key; [round_refines] and [reachable_gated] give
    the protocol machine and its invariant; [SshAuth.userauth_refines] and
    [authenticates_iff_credential] the decision itself, against RFC 4252.  [Gate.gate_closed] and
    [password_line] are the telnet counterpart;
    [Gate.evicted_slot_stays_admitted] shows a slot that keeps the permission of
    the client before.

    The SSH worker.  [WorkerProps.keys_need_authentication]: over a whole tick no
    key is pressed unless a client with a session is authenticated, whether or not
    Ctrl-D is a command;
    [WorkerCast.screen_only_to_authenticated]: the broadcast leaves a slot that is
    not alone; [WorkerCast.broadcast_exact]: it gives every ready slot exactly the
    rendered bytes, sealed for it, within its window and its send ring, and stops
    only when it must; [WorkerTotal.drain_exact] and [WorkerPump.pump_exact]: what
    happens to the keystroke ring and the output queue that all slots share.
    [SerialProps.serial_keys_need_authentication], [tx_pump_exact] and
    [console_input_exact] are the counterparts on COM1.

    Encodings and cryptography.  [Ssh.packet_roundtrip], [SshKex.exchange_hash_rfc]
    and [negotiate_exact], [SshWire]'s parsers against their formats, SHA-256,
    ChaCha20 and Poly1305 against their standards;
    [CryptoImpl.seal_is_openssh] puts the last two together,
    [Rng.rng_bytes_chain] is the generator.  [X25519.crypto_x25519_rfc]: the code
    with its ten signed limbs and its one inverse square root computes the function
    of RFC 7748; [Sha512.sha512_chunks]: the digest of FIPS 180-4 however the
    message is cut.

    Bounds and termination.  [SshWire.rd_string_exact], [SshLoop.plaintext_hang],
    [plaintext_overread] and [sealed_input_ends],
    [SshFault.fault_iff_length_wraps], [SshChan.emit_overruns_buffer] (a buffer the
    comment of the code calls large enough).

    The stack.  [NetProps]: memory safety and invariant under any frames, validity
    of everything sent (ARP and TCP, byte by byte), order of the data both ways,
    acknowledgements, and the half-open slot that its client can no longer open.

    The console.  [Mirror.mirror_exact]; [Ansikey]'s key machine and
    [Kbd.inject_key_spec]; [Gate.iac_transparent].

    The resident program.  [Tsr.install_then_remove]: after removal every vector,
    the packet driver and the memory are as before installation, and removal gives
    up when another program has hooked a vector since; [HostKey.hostkey_persists]:
    the key that the next start reads is the one in use;
    [Cmdline.command_line_meaning]: the configuration every command line sets.

    ** Not modelled

    The interrupt stubs and the other assembly (no C code), the tests.  Ed25519 is
    fields of the class [Crypto] with the documented laws of [CryptoOk]; the rest of
    the vendored Monocypher is not called by the program.  The clock, the BIOS data
    area, the ports, the screen and the disk are records whose contents the theorems
    quantify over; the entropy that [rng] gathers is an argument. *)
From Stdlib Require Import ZArith Lia Ascii.
From stdpp Require Import base list numbers.
From stdpp Require Export strings.

#[export] Set Default Goal Selector "1".
Local Open Scope Z_scope.

(** ** Machine integers

    The DOS target is compiled by Open Watcom in 16-bit mode: [unsigned] and
    [size_t] are 16 bits wide, [unsigned long] and [uint32_t] 32 bits.  A value
    of an unsigned type is a [Z] in range; every operation that can leave the
    range is written with its wrap-around. *)

Definition u8 (x : Z) : Z := x mod 256.
Definition u16 (x : Z) : Z := x mod 65536.
Definition u32 (x : Z) : Z := x mod 4294967296.
Definition u64 (x : Z) : Z := x mod 18446744073709551616.

(** The value of a 32-bit pattern read as a signed [long]: the code compares
    sequence numbers and tick counts by [(long)(a - b) > 0]. *)
Definition s32 (x : Z) : Z := (x + 2147483648) mod 4294967296 - 2147483648.

Definition is_byte (b : Z) : Prop := 0 <= b < 256.
Definition is_u16 (x : Z) : Prop := 0 <= x < 65536.
Definition is_u32 (x : Z) : Prop := 0 <= x < 4294967296.
Abbreviation all_bytes := (Forall is_byte).

Abbreviation len l := (Z.of_nat (length l)).

Ltac wrap_lia := unfold u8, u16, u32, s32, is_byte, is_u16, is_u32 in *; Z.div_mod_to_equations; lia.

Lemma u8_byte x : is_byte (u8 x).
Proof. wrap_lia. Qed.
Lemma u16_range x : is_u16 (u16 x).
Proof. wrap_lia. Qed.
Lemma u32_range x : is_u32 (u32 x).
Proof. wrap_lia. Qed.
Lemma u8_id x : is_byte x -> u8 x = x.
Proof. apply Z.mod_small. Qed.
Lemma u16_id x : is_u16 x -> u16 x = x.
Proof. apply Z.mod_small. Qed.
Lemma u32_id x : is_u32 x -> u32 x = x.
Proof. apply Z.mod_small. Qed.
Lemma u32_add_l x y : u32 (u32 x + y) = u32 (x + y).
Proof. apply Zplus_mod_idemp_l. Qed.
Lemma u32_add_r x y : u32 (x + u32 y) = u32 (x + y).
Proof. apply Zplus_mod_idemp_r. Qed.
Lemma u32_idem x : u32 (u32 x) = u32 x.
Proof. apply Zmod_mod. Qed.
Lemma u16_add_l x y : u16 (u16 x + y) = u16 (x + y).
Proof. apply Zplus_mod_idemp_l. Qed.
Lemma u16_idem x : u16 (u16 x) = u16 x.
Proof. apply Zmod_mod. Qed.

(** ** Bits and bytes *)

(** The bits of a value shifted left by [n] and those of a value below [2 ^ n]
    are disjoint. *)
Lemma land_shiftl_small a b n :
  0 <= n -> 0 <= b < 2 ^ n -> Z.land (Z.shiftl a n) b = 0.
Proof.
  intros Hn Hb. apply Z.bits_inj'; intros i Hi. rewrite Z.land_spec, Z.bits_0.
  destruct (Z.lt_ge_cases i n).
  - by rewrite Z.shiftl_spec_low by lia.
  - rewrite <- (Z.mod_small b (2 ^ n)) by lia.
    rewrite Z.mod_pow2_bits_high by lia. apply andb_false_r.
Qed.

(** A shift-and-or of disjoint parts is an addition. *)
Lemma lor_shiftl_add a b n :
  0 <= n -> 0 <= b < 2 ^ n -> Z.lor (Z.shiftl a n) b = a * 2 ^ n + b.
Proof.
  intros Hn Hb. rewrite <- Z.shiftl_mul_pow2 by lia.
  symmetry. apply Z.add_nocarry_lor. by apply land_shiftl_small.
Qed.

(** The big-endian stores and loads both protocol stacks use:
    [d[0] = (uint8_t)(v >> 24); ...] and
    [((uint32_t)d[0] << 24) | ... | d[3]]. *)
Definition be32 (v : Z) : list Z :=
  [u8 (Z.shiftr v 24); u8 (Z.shiftr v 16); u8 (Z.shiftr v 8); u8 v].
Definition un_be32 (a b c d : Z) : Z :=
  Z.lor (Z.lor (Z.lor (Z.shiftl a 24) (Z.shiftl b 16)) (Z.shiftl c 8)) d.
Definition be16 (v : Z) : list Z := [u8 (Z.shiftr v 8); u8 v].
Definition un_be16 (a b : Z) : Z := Z.lor (Z.shiftl a 8) b.

Lemma un_be16_sum a b : is_byte a -> is_byte b -> un_be16 a b = a * 256 + b.
Proof. intros. unfold un_be16. by apply (lor_shiftl_add a b 8). Qed.

Lemma un_be32_sum a b c d :
  is_byte a -> is_byte b -> is_byte c -> is_byte d ->
  un_be32 a b c d = a * 16777216 + b * 65536 + c * 256 + d.
Proof.
  unfold is_byte, un_be32; intros.
  rewrite <- Z.lor_assoc, <- Z.lor_assoc.
  rewrite (lor_shiftl_add c d 8) by lia.
  rewrite (lor_shiftl_add b _ 16) by lia.
  rewrite (lor_shiftl_add a _ 24) by lia. lia.
Qed.

Lemma bytes_u8 l : all_bytes l -> u8 <$> l = l.
Proof. induction 1 as [|x l Hx _ IH]; [done|]. cbn. by rewrite u8_id, IH. Qed.
Lemma be32_bytes v : all_bytes (be32 v).
Proof. repeat constructor; apply u8_byte. Qed.
Lemma be16_bytes v : all_bytes (be16 v).
Proof. repeat constructor; apply u8_byte. Qed.

Lemma un_be32_be32 v :
  is_u32 v ->
  un_be32 (u8 (Z.shiftr v 24)) (u8 (Z.shiftr v 16)) (u8 (Z.shiftr v 8)) (u8 v) = v.
Proof.
  intros Hv. rewrite un_be32_sum by apply u8_byte.
  rewrite !Z.shiftr_div_pow2 by lia. change (2 ^ 24) with 16777216.
  change (2 ^ 16) with 65536. change (2 ^ 8) with 256. wrap_lia.
Qed.

Lemma un_be16_be16 v : is_u16 v -> un_be16 (u8 (Z.shiftr v 8)) (u8 v) = v.
Proof.
  intros Hv. rewrite un_be16_sum by apply u8_byte.
  rewrite !Z.shiftr_div_pow2 by lia. change (2 ^ 8) with 256. wrap_lia.
Qed.

Lemma un_be32_range a b c d :
  is_byte a -> is_byte b -> is_byte c -> is_byte d -> is_u32 (un_be32 a b c d).
Proof. intros. rewrite un_be32_sum by done. wrap_lia. Qed.
Lemma un_be16_range a b : is_byte a -> is_byte b -> is_u16 (un_be16 a b).
Proof. intros. rewrite un_be16_sum by done. wrap_lia. Qed.

Lemma be32_un_be32 a b c d :
  is_byte a -> is_byte b -> is_byte c -> is_byte d ->
  be32 (un_be32 a b c d) = [a; b; c; d].
Proof.
  intros. rewrite un_be32_sum by done. unfold be32.
  rewrite !Z.shiftr_div_pow2 by lia. change (2 ^ 24) with 16777216.
  change (2 ^ 16) with 65536. change (2 ^ 8) with 256.
  repeat f_equal; wrap_lia.
Qed.

(** ** Memory accesses

    A C object is the list of its bytes.  An access outside the object is
    undefined behaviour: it is [None] in the model, never a default value. *)

(** [p[i]] *)
Definition rd (p : list Z) (i : Z) : option Z :=
  if decide (0 <= i) then p !! Z.to_nat i else None.

(** The [n] bytes at [p + off], as [memcpy] and [memcmp] read them. *)
Definition rd_bytes (p : list Z) (off n : Z) : option (list Z) :=
  if decide (0 <= off /\ 0 <= n /\ off + n <= len p)
  then Some (take (Z.to_nat n) (drop (Z.to_nat off) p)) else None.

(** [memcmp(p + off, s, strlen(s)) == 0] *)
Definition rd_is (p : list Z) (off : Z) (s : list Z) : option bool :=
  b ← rd_bytes p off (len s); Some (bool_decide (b = s)).

Lemma rd_Some_lt p i x : rd p i = Some x -> 0 <= i < len p.
Proof.
  unfold rd. case_decide; [|done]. intros Hx%lookup_lt_Some. lia.
Qed.

Lemma rd_is_Some p i : 0 <= i < len p -> exists x, rd p i = Some x.
Proof.
  intros. unfold rd. rewrite decide_True by lia.
  destruct (lookup_lt_is_Some_2 p (Z.to_nat i)) as [x Hx]; [lia|eauto].
Qed.

Lemma rd_byte p i x : all_bytes p -> rd p i = Some x -> is_byte x.
Proof.
  unfold rd. intros Hp. case_decide; [|done]. intros Hx.
  by eapply (Forall_lookup_1 is_byte).
Qed.

Lemma rd_bytes_is_Some p off n :
  0 <= off -> 0 <= n -> off + n <= len p -> exists b, rd_bytes p off n = Some b.
Proof. intros. unfold rd_bytes. rewrite decide_True by lia. eauto. Qed.

Lemma rd_bytes_Some p off n b :
  rd_bytes p off n = Some b ->
  0 <= off /\ 0 <= n /\ off + n <= len p /\ len b = n
  /\ b = take (Z.to_nat n) (drop (Z.to_nat off) p).
Proof.
  unfold rd_bytes. case_decide; [|done]. intros [= <-].
  rewrite length_take, length_drop. split_and!; try done; lia.
Qed.

Lemma rd_bytes_bytes p off n b : all_bytes p -> rd_bytes p off n = Some b -> all_bytes b.
Proof. intros Hp (?&?&?&?&->)%rd_bytes_Some. by apply Forall_take, Forall_drop. Qed.

(** Reading back a part that was laid out explicitly. *)
Lemma rd_bytes_mid l x r off n :
  len l = off -> len x = n -> rd_bytes (l ++ x ++ r) off n = Some x.
Proof.
  intros <- <-. unfold rd_bytes. rewrite !length_app, decide_True by lia.
  rewrite !Nat2Z.id, drop_app_length, take_app_length. done.
Qed.

Lemma rd_mid l x r off : len l = off -> rd (l ++ x :: r) off = Some x.
Proof.
  intros <-. unfold rd. rewrite decide_True by lia.
  by rewrite Nat2Z.id, list_lookup_middle.
Qed.

(** ** The state-and-fault monad

    Code that mutates C objects is a function from the state to the result and
    the new state, or to [None] when it accesses memory outside an object. *)

Definition M (S A : Type) : Type := S -> option (A * S).

#[export] Instance M_ret S : MRet (M S) := fun A a s => Some (a, s).
#[export] Instance M_bind S : MBind (M S) :=
  fun A B k m s => match m s with Some (a, s') => k a s' | None => None end.
Definition lift {S A} (o : option A) : M S A :=
  fun s => match o with Some a => Some (a, s) | None => None end.
Definition gets {S A} (f : S -> A) : M S A := fun s => Some (f s, s).
Definition modify {S} (f : S -> S) : M S unit := fun s => Some (tt, f s).
Definition skip {S} : M S unit := mret tt.
(** [when b m] is [if (b) m;]. *)
Definition when {S} (b : bool) (m : M S unit) : M S unit := if b then m else skip.

Notation "m1 ;; m2" := (mbind (fun _ => m2) m1)
  (at level 100, m2 at level 200, right associativity) : stdpp_scope.

(** A local array of capacity [cap] that is only appended to has been written
    out of bounds exactly when its final contents are longer than [cap]. *)
Definition fits {S} (cap : Z) (b : list Z) : M S (list Z) :=
  if decide (len b <= cap) then mret b else (fun _ => None).

(** [p[i] = v]; undefined outside the array. *)
Definition poke {S} (p : list Z) (i v : Z) : M S (list Z) :=
  if decide (0 <= i < len p) then mret (<[Z.to_nat i := v]> p) else (fun _ => None).

(** Total correctness: [m] does not fault from [s] and its outcome satisfies [Q]. *)
Definition wp {S A} (m : M S A) (Q : A -> S -> Prop) (s : S) : Prop :=
  match m s with Some (a, s') => Q a s' | None => False end.
(** Partial correctness: if [m] does not fault then its outcome satisfies [Q]. *)
Definition wlp {S A} (m : M S A) (Q : A -> S -> Prop) (s : S) : Prop :=
  match m s with Some (a, s') => Q a s' | None => True end.

Section monad.
Context {S : Type}.
Implicit Types s : S.

Lemma wp_run {A} (m : M S A) Q s :
  wp m Q s <-> exists a s', m s = Some (a, s') /\ Q a s'.
Proof.
  unfold wp. destruct (m s) as [[a s']|]; split; try done; eauto.
  - by intros (? & ? & [= -> ->] & ?).
  - by intros (? & ? & ? & ?).
Qed.
Lemma wp_ret {A} (a : A) Q s : Q a s -> wp (mret a) Q s.
Proof. done. Qed.
Lemma wp_bind {A B} (m : M S A) (k : A -> M S B) Q s :
  wp m (fun a s' => wp (k a) Q s') s -> wp (m ≫= k) Q s.
Proof. unfold wp, mbind, M_bind. by destruct (m s) as [[a s']|]. Qed.
Lemma wp_mono {A} (m : M S A) (Q Q' : A -> S -> Prop) s :
  wp m Q s -> (forall a s', Q a s' -> Q' a s') -> wp m Q' s.
Proof. unfold wp. destruct (m s) as [[a s']|]; [|done]. eauto. Qed.
Lemma wp_gets {A} (f : S -> A) Q s : Q (f s) s -> wp (gets f) Q s.
Proof. done. Qed.
Lemma wp_modify (f : S -> S) Q s : Q tt (f s) -> wp (modify f) Q s.
Proof. done. Qed.
Lemma wp_lift {A} (o : option A) a Q s : o = Some a -> Q a s -> wp (lift o) Q s.
Proof. by intros ->. Qed.
Lemma wp_fits cap b Q s : len b <= cap -> Q b s -> wp (fits cap b) Q s.
Proof. intros. unfold fits. by rewrite decide_True. Qed.

Lemma wp_poke p i v Q s : 0 <= i < len p -> Q (<[Z.to_nat i := v]> p) s -> wp (poke p i v) Q s.
Proof. intros Hi HQ. unfold poke. by rewrite decide_True. Qed.

Lemma wlp_ret {A} (a : A) Q s : Q a s -> wlp (mret a) Q s.
Proof. done. Qed.
Lemma wlp_bind {A B} (m : M S A) (k : A -> M S B) Q s :
  wlp m (fun a s' => wlp (k a) Q s') s -> wlp (m ≫= k) Q s.
Proof. unfold wlp, mbind, M_bind. by destruct (m s) as [[a s']|]. Qed.
Lemma wlp_true {A} (m : M S A) (Q : A -> S -> Prop) s : (forall a s', Q a s') -> wlp m Q s.
Proof. intros HQ. unfold wlp. by destruct (m s) as [[a s']|]. Qed.
Lemma wlp_and {A} (m : M S A) (Q1 Q2 : A -> S -> Prop) s : wlp m Q1 s -> wlp m Q2 s -> wlp m (fun a s' => Q1 a s' /\ Q2 a s') s.
Proof. unfold wlp. by destruct (m s) as [[a s']|]. Qed.
(** Total correctness from termination and partial correctness. *)
Lemma wp_both {A} (m : M S A) (Q1 Q2 : A -> S -> Prop) s : wp m Q1 s -> wlp m Q2 s -> wp m (fun a s' => Q1 a s' /\ Q2 a s') s.
Proof. unfold wp, wlp. by destruct (m s) as [[a s']|]. Qed.
Lemma wlp_mono {A} (m : M S A) (Q Q' : A -> S -> Prop) s :
  wlp m Q s -> (forall a s', Q a s' -> Q' a s') -> wlp m Q' s.
Proof. unfold wlp. destruct (m s) as [[a s']|]; [|done]. eauto. Qed.
Lemma wlp_lift {A} (o : option A) Q s :
  (forall a, o = Some a -> Q a s) -> wlp (lift o) Q s.
Proof. unfold wlp, lift. destruct o; eauto. Qed.
Lemma wlp_gets {A} (f : S -> A) Q s : Q (f s) s -> wlp (gets f) Q s.
Proof. done. Qed.
Lemma wlp_modify (f : S -> S) Q s : Q tt (f s) -> wlp (modify f) Q s.
Proof. done. Qed.
Lemma wlp_fits cap b Q s : (len b <= cap -> Q b s) -> wlp (fits cap b) Q s.
Proof. intros HQ. unfold fits. by case_decide; [apply HQ|]. Qed.
Lemma wp_wlp {A} (m : M S A) Q s : wp m Q s -> wlp m Q s.
Proof. unfold wp, wlp. by destruct (m s) as [[a s']|]. Qed.
Lemma wlp_Some {A} (m : M S A) Q s a s' : wlp m Q s -> m s = Some (a, s') -> Q a s'.
Proof. intros H E. unfold wlp in H. by rewrite E in H. Qed.

(** [m] leaves the part [f] of the state alone. *)
Definition keeps {A T} (f : S -> T) (m : M S A) : Prop :=
  forall s, wlp m (fun _ s' => f s' = f s) s.

Lemma keeps_ret {A T} (f : S -> T) (a : A) : keeps f (mret a).
Proof. done. Qed.
Lemma keeps_bind {A B T} (f : S -> T) (m : M S A) (k : A -> M S B) :
  keeps f m -> (forall a, keeps f (k a)) -> keeps f (m ≫= k).
Proof.
  intros Hm Hk s. apply wlp_bind. eapply wlp_mono; [apply Hm|].
  cbn. intros a s' <-. apply Hk.
Qed.
Lemma keeps_gets {A T} (f : S -> T) (g : S -> A) : keeps f (gets g).
Proof. done. Qed.
Lemma keeps_lift {A T} (f : S -> T) (o : option A) : keeps f (lift o).
Proof. intros s. by apply wlp_lift. Qed.
Lemma keeps_fits {T} (f : S -> T) cap b : keeps f (fits cap b).
Proof. intros s. by apply wlp_fits. Qed.
Lemma keeps_when {T} (f : S -> T) b (m : M S unit) : keeps f m -> keeps f (when b m).
Proof. by destruct b. Qed.
Lemma keeps_modify {T} (f : S -> T) (g : S -> S) :
  (forall s, f (g s) = f s) -> keeps f (modify g).
Proof. done. Qed.
End monad.

Create HintDb keeps discriminated.
#[export] Hint Resolve keeps_ret keeps_gets keeps_lift keeps_fits : keeps.

(** Prove [keeps f m] by walking over the structure of [m]; the component's
    lemmas about its own operations come from the database [keeps]. *)
Ltac keeps_step :=
  match goal with
  | |- keeps _ (mbind _ _) => apply keeps_bind; [|intros ?]
  | |- keeps _ (when _ _) => apply keeps_when
  | |- keeps _ skip => apply keeps_ret
  | |- keeps _ (modify _) => apply keeps_modify; intros ?; reflexivity
  | |- keeps _ (if ?b then _ else _) => destruct b
  | |- keeps _ (match ?x with _ => _ end) => destruct x
  | |- keeps _ _ => solve [eauto with keeps nocore]
  end.
Ltac keeps_tac := repeat keeps_step.

(** [m] relates the state before to the state after by the preorder [R]; [keeps]
    is the case of an equality of projections. *)
Definition respects {S A} (R : S -> S -> Prop) (m : M S A) : Prop :=
  forall s, wlp m (fun _ s' => R s s') s.

Section respects.
Context {S : Type} (R : S -> S -> Prop) `{!PreOrder R}.

Lemma respects_ret {A} (a : A) : respects R (mret a).
Proof. intros s. apply wlp_ret. reflexivity. Qed.
Lemma respects_bind {A B} (m : M S A) (k : A -> M S B) :
  respects R m -> (forall a, respects R (k a)) -> respects R (m ≫= k).
Proof.
  intros Hm Hk s. apply wlp_bind. eapply wlp_mono; [apply Hm|].
  cbn. intros a s' Hs. eapply wlp_mono; [apply Hk|]. cbn. intros _ s''. by etrans.
Qed.
Lemma respects_gets {A} (g : S -> A) : respects R (gets g).
Proof. intros s. apply wlp_gets. reflexivity. Qed.
Lemma respects_lift {A} (o : option A) : respects R (lift o).
Proof. intros s. apply wlp_lift. intros. reflexivity. Qed.
Lemma respects_fits cap b : respects R (fits cap b).
Proof. intros s. apply wlp_fits. intros. reflexivity. Qed.
Lemma respects_when b (m : M S unit) : respects R m -> respects R (when b m).
Proof. destruct b; [done|]. intros _. apply respects_ret. Qed.
Lemma respects_modify (g : S -> S) : (forall s, R s (g s)) -> respects R (modify g).
Proof. done. Qed.
End respects.

Create HintDb respects discriminated.
#[export] Hint Resolve respects_ret respects_gets respects_lift respects_fits : respects.

Ltac respects_step :=
  match goal with
  | |- respects _ (mbind _ _) => apply respects_bind; [exact _| |intros ?]
  | |- respects _ (when _ _) => apply respects_when; [exact _|]
  | |- respects _ skip => apply respects_ret; exact _
  | |- respects _ (mret _) => apply respects_ret; exact _
  | |- respects _ (gets _) => apply respects_gets; exact _
  | |- respects _ (lift _) => apply respects_lift; exact _
  | |- respects _ (fits _ _) => apply respects_fits; exact _
  | |- respects _ (if ?b then _ else _) => destruct b
  | |- respects _ (match ?x with _ => _ end) => destruct x
  | |- respects _ _ => solve [eauto with respects typeclass_instances nocore]
  end.
Ltac respects_tac := repeat respects_step.

(** ** Records

    [r <| f := v |>] is [r] with its field [f] replaced.  The updater of a field
    is computed from the eta-expansion of the record. *)

Class Eta (R : Type) : Type := eta_of : R -> R.
Class Upd {R T : Type} (f : R -> T) : Type := upd : T -> R -> R.
Arguments upd {R T} f {_} _ _.
Notation "r <| f := v |>" := (upd f v r)
  (at level 1, left associativity, format "r  <| f  :=  v |>") : stdpp_scope.

Ltac derive_upd f :=
  match goal with
  | |- @Upd ?R ?T _ =>
      let i := constr:(_ : Eta R) in
      let e := eval red in i in
      match eval pattern f in e with
      | ?F _ => let u := eval cbv beta in (fun (v : T) (r : R) => F (fun _ => v) r) in exact u
      end
  end.

(** Simplify a projection of an updated record. *)
Ltac is_field f :=
  lazymatch type of f with _ -> Prop => fail | _ => let _ := constr:(_ : Upd f) in idtac end.
(** The equation is proved for variables and then used to rewrite: comparing two
    concrete updates by conversion can be exponential. *)
Ltac fld_eqn f g k :=
  let E := fresh in
  first
    [ constr_eq f g;
      assert (forall v r, f (@upd _ _ g _ v r) = v) as E by (intros; reflexivity)
    | is_field f;
      assert (forall v r, f (@upd _ _ g _ v r) = f r) as E by (intros; reflexivity) ];
  k E; clear E.
Ltac fld_step :=
  match goal with
  | |- context [?f (@upd _ _ ?g _ _ _)] => fld_eqn f g ltac:(fun E => rewrite !E)
  | H : context [?f (@upd _ _ ?g _ _ _)] |- _ => fld_eqn f g ltac:(fun E => rewrite !E in H)
  end.
Ltac fld := repeat fld_step.

(** ** Rings

    Four components keep a queue in a circular buffer: the BIOS keyboard ring,
    the send and receive rings of a TCP slot and the SSH keystroke ring.  The
    queue is [n] cells from index [h], modulo the size [N]. *)

Section ring.
Context {A : Type}.
Implicit Types (get : Z -> A) (N h : Z) (n : nat).

Definition ring_list get N h n : list A :=
  (fun i => get ((h + Z.of_nat i) mod N)) <$> seq 0 n.

Lemma ring_list_length get N h n : length (ring_list get N h n) = n.
Proof. unfold ring_list. by rewrite length_fmap, length_seq. Qed.

Lemma ring_list_ext get get' N h n :
  (forall i, 0 <= i < Z.of_nat n -> get ((h + i) mod N) = get' ((h + i) mod N)) ->
  ring_list get N h n = ring_list get' N h n.
Proof.
  intros E. unfold ring_list. apply list_fmap_ext. intros i x [-> ?]%lookup_seq.
  apply E. lia.
Qed.

Lemma ring_list_snoc get N h n :
  ring_list get N h (S n) = ring_list get N h n ++ [get ((h + Z.of_nat n) mod N)].
Proof. unfold ring_list. by rewrite seq_S, fmap_app. Qed.

(** Storing in the first free cell appends, provided that cell is not in use. *)
Lemma ring_list_push get get' N h n v :
  0 < N -> Z.of_nat n < N ->
  (forall j, 0 <= j < N -> get' j = if decide (j = (h + Z.of_nat n) mod N) then v else get j) ->
  ring_list get' N h (S n) = ring_list get N h n ++ [v].
Proof.
  intros HN Hn E. rewrite ring_list_snoc. f_equal.
  - apply ring_list_ext. intros i Hi.
    rewrite E by (apply Z.mod_pos_bound; lia). apply decide_False.
    intros He. apply (f_equal (fun x => (x - h) mod N)) in He.
    rewrite !Zminus_mod_idemp_l in He.
    replace (h + i - h) with i in He by lia.
    replace (h + Z.of_nat n - h) with (Z.of_nat n) in He by lia.
    rewrite !Z.mod_small in He by lia. lia.
  - rewrite E by (apply Z.mod_pos_bound; lia). by rewrite decide_True.
Qed.

(** Taking from the front. *)
Lemma ring_list_pop get N h n :
  ring_list get N h (S n) = get (h mod N) :: ring_list get N ((h + 1) mod N) n.
Proof.
  unfold ring_list. cbn [seq fmap list_fmap].
  rewrite Z.add_0_r. f_equal.
  - rewrite <- fmap_S_seq, <- list_fmap_compose. apply list_fmap_ext.
    intros i x _. cbn -[Z.of_nat]. rewrite Zplus_mod_idemp_l. do 2 f_equal. lia.
Qed.

Lemma ring_list_drop get N h n k :
  (k <= n)%nat ->
  ring_list get N ((h + Z.of_nat k) mod N) (n - k) = drop k (ring_list get N h n).
Proof.
  revert h n. induction k as [|k IH]; intros h n Hk.
  - rewrite Nat.sub_0_r, drop_0. unfold ring_list. apply list_fmap_ext.
    intros i x _. rewrite Zplus_mod_idemp_l. do 2 f_equal. lia.
  - destruct n as [|n]; [lia|]. rewrite ring_list_pop. cbn [drop].
    rewrite <- IH, Zplus_mod_idemp_l by lia.
    replace (h + 1 + Z.of_nat k) with (h + Z.of_nat (S k)) by lia. done.
Qed.
End ring.

(** Bytes, checked by evaluation. *)
Lemma bytes_dec_iff l : forallb (fun b => (0 <=? b) && (b <? 256)) l = true -> all_bytes l.
Proof.
  induction l as [|b l IH]; cbn; intros H; [by apply Forall_nil|].
  apply andb_true_iff in H as [[H1 H2]%andb_true_iff H]. apply Forall_cons. split; [unfold is_byte; lia|auto].
Qed.

(** ** Text *)

Fixpoint text (s : string) : list Z :=
  match s with
  | EmptyString => []
  | String a s => Z.of_N (N_of_ascii a) :: text s
  end.
Arguments text s%_stdpp.

Lemma text_bytes s : all_bytes (text s).
Proof.
  induction s as [|a s IH]; constructor; [|done].
  unfold is_byte. pose proof (N_ascii_bounded a). lia.
Qed.
