(* ===== verification/Kbd.v ===== *)
(** * The BIOS data area and keyboard injection

    Models [inject_key] of src/dosshd/dosshd.c: the type-ahead ring of the BIOS
    data area (segment 0040h), into which the resident program pokes
    keystrokes.  The segment is modelled as bytes at 16-bit offsets, because
    the ring bounds, the ring indices and the ring itself live in the same
    memory. *)
From Stdlib Require Import ZArith Lia.
From stdpp Require Import base list numbers.
From S2P Require Import Prelude.
Local Open Scope Z_scope.

(** ** Segment 0040h *)

Definition mem : Type := Z -> Z.

Definition mem_rd16 (m : mem) (a : Z) : Z := m a + 256 * m (u16 (a + 1)).
Definition mem_wr16 (a v : Z) (m : mem) : mem :=
  fun x => if decide (x = a) then u8 v
           else if decide (x = u16 (a + 1)) then u8 (Z.shiftr v 8) else m x.

Definition KB_HEAD : Z := 0x1A.
Definition KB_TAIL : Z := 0x1C.
Definition KB_START : Z := 0x80.
Definition KB_END : Z := 0x82.

(** The bounds of the ring: a BIOS older than the AT does not record them. *)
Definition kb_bounds (m : mem) : Z * Z :=
  let bstart := mem_rd16 m KB_START in
  let bend := mem_rd16 m KB_END in
  if decide (bstart < 0x1E \/ bend <= bstart) then (0x1E, 0x3E) else (bstart, bend).

(** [inject_key]; it runs between [_disable()] and [_enable()]. *)
Definition inject_key (scan ascii : Z) (m : mem) : mem :=
  let '(bstart, bend) := kb_bounds m in
  let tail := mem_rd16 m KB_TAIL in
  let next := u16 (tail + 2) in
  let next := if decide (next >= bend) then bstart else next in
  if decide (next <> mem_rd16 m KB_HEAD)
  then mem_wr16 KB_TAIL next (mem_wr16 tail (u16 (Z.lor (u16 (Z.shiftl scan 8)) ascii)) m)
  else m.

(** ** The queue the ring holds *)

(** The ring is sane: its indices are word offsets inside its bounds, and it
    does not overlap the words that describe it. *)
Record kb_wf (m : mem) : Prop := {
  kb_bytes : forall a, is_byte (m a);
  kb_start_lo : 0x1E <= (kb_bounds m).1;
  kb_nonempty : (kb_bounds m).1 + 2 <= (kb_bounds m).2;
  kb_end_hi : (kb_bounds m).2 <= 65534;
  kb_apart : (kb_bounds m).2 <= 0x80 \/ 0x84 <= (kb_bounds m).1;
  kb_even : ((kb_bounds m).2 - (kb_bounds m).1) mod 2 = 0;
  kb_head_in : (kb_bounds m).1 <= mem_rd16 m KB_HEAD < (kb_bounds m).2;
  kb_head_even : (mem_rd16 m KB_HEAD - (kb_bounds m).1) mod 2 = 0;
  kb_tail_in : (kb_bounds m).1 <= mem_rd16 m KB_TAIL < (kb_bounds m).2;
  kb_tail_even : (mem_rd16 m KB_TAIL - (kb_bounds m).1) mod 2 = 0;
}.

(** Number of words of the ring; it holds one key less. *)
Definition kb_size (m : mem) : Z := ((kb_bounds m).2 - (kb_bounds m).1) / 2.
Definition kb_head_ix (m : mem) : Z := (mem_rd16 m KB_HEAD - (kb_bounds m).1) / 2.
Definition kb_count (m : mem) : nat :=
  Z.to_nat (((mem_rd16 m KB_TAIL - mem_rd16 m KB_HEAD) / 2) mod kb_size m).

(** The keys waiting to be read, oldest first. *)
Definition kb_queue (m : mem) : list Z :=
  ring_list (fun i => mem_rd16 m ((kb_bounds m).1 + 2 * i)) (kb_size m) (kb_head_ix m) (kb_count m).

(** ** Lemmas *)

Lemma mem_rd16_wr16_eq a v m :
  0 <= a < 65535 -> is_u16 v -> mem_rd16 (mem_wr16 a v m) a = v.
Proof.
  intros Ha Hv. unfold mem_rd16, mem_wr16. rewrite u16_id by wrap_lia.
  rewrite decide_True by done. rewrite decide_False by lia. rewrite decide_True by done.
  rewrite Z.shiftr_div_pow2 by lia. change (2 ^ 8) with 256. wrap_lia.
Qed.

Lemma mem_rd16_wr16_ne a b v m :
  0 <= a < 65535 -> 0 <= b < 65535 -> a + 1 < b \/ b + 1 < a ->
  mem_rd16 (mem_wr16 a v m) b = mem_rd16 m b.
Proof.
  intros Ha Hb Hab. unfold mem_rd16, mem_wr16. rewrite !u16_id by wrap_lia.
  by rewrite !decide_False by lia.
Qed.

Lemma mem_wr16_bytes a v m :
  (forall x, is_byte (m x)) -> forall x, is_byte (mem_wr16 a v m x).
Proof. intros Hm x. unfold mem_wr16. repeat case_decide; auto using u8_byte. Qed.

Lemma mem_rd16_range a m : (forall x, is_byte (m x)) -> is_u16 (mem_rd16 m a).
Proof. intros Hm. unfold mem_rd16. pose proof (Hm a). pose proof (Hm (u16 (a + 1))). wrap_lia. Qed.

(** The word [inject_key] stores. *)
Definition key_word (scan ascii : Z) : Z := scan * 256 + ascii.

Lemma key_word_eq scan ascii :
  is_byte scan -> is_byte ascii ->
  u16 (Z.lor (u16 (Z.shiftl scan 8)) ascii) = key_word scan ascii.
Proof.
  unfold is_byte. intros Hs Ha. rewrite (u16_id (Z.shiftl scan 8)).
  - rewrite (lor_shiftl_add scan ascii 8) by lia. apply u16_id. unfold is_u16, key_word. lia.
  - rewrite Z.shiftl_mul_pow2 by lia. unfold is_u16. lia.
Qed.

Lemma kb_queue_length m : length (kb_queue m) = kb_count m.
Proof. apply ring_list_length. Qed.

Section inject.
Context (m : mem) (Hwf : kb_wf m).

Let s := (kb_bounds m).1.
Let N := kb_size m.
Let hi := kb_head_ix m.
Let ti := (mem_rd16 m KB_TAIL - s) / 2.

Lemma kb_geometry :
  (kb_bounds m).2 = s + 2 * N /\ 1 <= N /\ 0x1E <= s /\ s + 2 * N <= 65534
  /\ (s + 2 * N <= 0x80 \/ 0x84 <= s)
  /\ mem_rd16 m KB_HEAD = s + 2 * hi /\ 0 <= hi < N
  /\ mem_rd16 m KB_TAIL = s + 2 * ti /\ 0 <= ti < N.
Proof.
  destruct Hwf. unfold N, hi, ti, kb_size, kb_head_ix, s in *.
  split_and!; Z.div_mod_to_equations; lia.
Qed.

Lemma kb_count_eq : Z.of_nat (kb_count m) = (ti - hi) mod N /\ (hi + Z.of_nat (kb_count m)) mod N = ti.
Proof.
  pose proof kb_geometry as (?&?&?&?&?&Hh&?&Ht&?).
  assert (Z.of_nat (kb_count m) = (ti - hi) mod N) as E.
  { unfold kb_count. rewrite Hh, Ht. fold N.
    replace (s + 2 * ti - (s + 2 * hi)) with ((ti - hi) * 2) by lia.
    rewrite Z.div_mul by lia. apply Z2Nat.id, Z.mod_pos_bound. lia. }
  split; [done|]. rewrite E, Zplus_mod_idemp_r.
  replace (hi + (ti - hi)) with ti by lia. by apply Z.mod_small.
Qed.

(** The slot after the tail, as the code computes it. *)
Let next := s + 2 * ((ti + 1) mod N).

Lemma kb_next :
  (let n := u16 (mem_rd16 m KB_TAIL + 2) in if decide (n >= (kb_bounds m).2) then s else n) = next.
Proof.
  pose proof kb_geometry as (He&?&?&?&?&Hh&?&Ht&?).
  cbn zeta. rewrite Ht, He, u16_id by (unfold is_u16; lia). unfold next.
  case_decide.
  - replace (ti + 1) with N by lia. rewrite Z.mod_same; lia.
  - rewrite Z.mod_small; lia.
Qed.

Lemma inject_key_unfold sc asc :
  is_byte sc -> is_byte asc ->
  inject_key sc asc m =
    if decide (next <> s + 2 * hi)
    then mem_wr16 KB_TAIL next (mem_wr16 (s + 2 * ti) (key_word sc asc) m) else m.
Proof.
  intros Hs Ha. pose proof kb_geometry as (He&?&?&?&?&Hh&?&Ht&?). pose proof kb_next as En.
  unfold inject_key. revert En. unfold s. destruct (kb_bounds m) as [b e] eqn:Eb. cbn [fst snd].
  intros En. cbn zeta in En. by rewrite En, Hh, Ht, key_word_eq.
Qed.

Lemma kb_full_iff : next = s + 2 * hi <-> Z.of_nat (kb_count m) = N - 1.
Proof.
  pose proof kb_geometry as (?&?&?&?&?&?&?&?&?). destruct kb_count_eq as [Ec _].
  unfold next. rewrite Ec. split; intros E.
  - assert ((ti + 1) mod N = hi) as <- by lia.
    rewrite Zminus_mod_idemp_r. replace (ti - (ti + 1)) with (-1) by lia.
    rewrite <- (Z_mod_plus_full (-1) 1). rewrite Z.mod_small; lia.
  - assert ((ti + 1) mod N = hi) as ->; [|done].
    replace (ti + 1) with (hi + ((ti - hi) + 1)) by lia.
    rewrite <- Zplus_mod_idemp_r, <- (Zplus_mod_idemp_l (ti - hi)), E.
    replace (N - 1 + 1) with N by lia. rewrite Z.mod_same, Z.add_0_r by lia. by apply Z.mod_small.
Qed.

Let m' w := mem_wr16 KB_TAIL next (mem_wr16 (s + 2 * ti) w m).

Lemma inject_rd a w :
  is_u16 w -> 0 <= a < 65535 -> a = s + 2 * ti \/ a + 1 < s + 2 * ti \/ s + 2 * ti + 1 < a ->
  a + 1 < KB_TAIL \/ KB_TAIL + 1 < a ->
  mem_rd16 (m' w) a = if decide (a = s + 2 * ti) then w else mem_rd16 m a.
Proof.
  pose proof kb_geometry as (?&?&?&?&?&?&?&?&?). intros Hw Ha Hd Ht. unfold m', KB_TAIL in *.
  rewrite mem_rd16_wr16_ne by lia. case_decide; subst.
  - rewrite mem_rd16_wr16_eq; [done|lia|done].
  - apply mem_rd16_wr16_ne; lia.
Qed.

Lemma inject_rd_other a w :
  is_u16 w -> 0 <= a < 65535 -> a + 1 < s + 2 * ti \/ s + 2 * ti + 1 < a ->
  a + 1 < KB_TAIL \/ KB_TAIL + 1 < a -> mem_rd16 (m' w) a = mem_rd16 m a.
Proof. intros. rewrite inject_rd by (done || lia). by rewrite decide_False by lia. Qed.

Lemma inject_bounds w : is_u16 w -> kb_bounds (m' w) = kb_bounds m.
Proof.
  pose proof kb_geometry as (?&?&?&?&?&?&?&?&?). intros Hw.
  unfold kb_bounds, KB_START, KB_END.
  by rewrite !inject_rd_other by (unfold KB_TAIL; lia || done).
Qed.

Lemma inject_tail w : is_u16 w -> mem_rd16 (m' w) KB_TAIL = next.
Proof.
  pose proof kb_geometry as (?&?&?&?&?&?&?&?&?). intros Hw. apply mem_rd16_wr16_eq.
  - unfold KB_TAIL. lia.
  - unfold next, is_u16. pose proof (Z.mod_pos_bound (ti + 1) N). lia.
Qed.

Lemma inject_head w : is_u16 w -> mem_rd16 (m' w) KB_HEAD = mem_rd16 m KB_HEAD.
Proof.
  pose proof kb_geometry as (?&?&?&?&?&?&?&?&?). intros Hw.
  by rewrite inject_rd_other by (unfold KB_HEAD, KB_TAIL; lia || done).
Qed.

Lemma inject_wf w : is_u16 w -> kb_wf (m' w).
Proof.
  intros Hw. pose proof kb_geometry as (?&?&?&?&?&?&?&?&?).
  pose proof (Z.mod_pos_bound (ti + 1) N).
  destruct Hwf. constructor; rewrite ?inject_bounds, ?inject_tail, ?inject_head by done; try done.
  - intros a. by repeat apply mem_wr16_bytes.
  - fold s. unfold next. lia.
  - fold s. unfold next. replace (s + 2 * _ - s) with ((ti + 1) mod N * 2) by lia. apply Z_mod_mult.
Qed.

Lemma inject_queue w :
  is_u16 w -> next <> s + 2 * hi -> kb_queue (m' w) = kb_queue m ++ [w].
Proof.
  intros Hw Hn. pose proof kb_geometry as (?&?&?&?&?&Hh&?&Ht&?).
  destruct kb_count_eq as [Ec Eti]. pose proof (Z.mod_pos_bound (ti - hi) N).
  rewrite kb_full_iff in Hn.
  assert (kb_size (m' w) = N) as EN by (unfold kb_size; by rewrite inject_bounds).
  assert (kb_count (m' w) = S (kb_count m)) as Ec'.
  { unfold kb_count at 1. rewrite EN, inject_tail, inject_head, Hh by done. unfold next.
    replace (s + 2 * ((ti + 1) mod N) - (s + 2 * hi)) with (((ti + 1) mod N - hi) * 2) by lia.
    rewrite Z.div_mul, Zminus_mod_idemp_l by lia.
    replace (ti + 1 - hi) with ((ti - hi) + 1) by lia.
    rewrite <- Zplus_mod_idemp_l, <- Ec, Z.mod_small by lia. lia. }
  assert (kb_head_ix (m' w) = hi) as Eh
    by (unfold kb_head_ix; by rewrite inject_bounds, inject_head).
  unfold kb_queue. rewrite EN, Ec', Eh, inject_bounds by done. fold s hi N.
  apply ring_list_push; [lia|lia|]. intros j Hj. rewrite Eti.
  rewrite inject_rd by (unfold KB_TAIL; lia || done).
  repeat case_decide; try done; lia.
Qed.
End inject.

(** On a sane ring [inject_key] appends the keystroke to the queue the BIOS
    reads, or drops it when the ring is full (it holds one key less than it has
    words); in both cases the ring stays sane and the queued keys are kept. *)
Theorem inject_key_spec m sc asc :
  kb_wf m -> is_byte sc -> is_byte asc ->
  kb_wf (inject_key sc asc m)
  /\ kb_queue (inject_key sc asc m) =
       if decide (Z.of_nat (length (kb_queue m)) < kb_size m - 1)
       then kb_queue m ++ [key_word sc asc] else kb_queue m.
Proof.
  intros Hwf Hs Ha. pose proof (kb_geometry m Hwf) as Hg. pose proof (kb_full_iff m Hwf) as Hfull.
  destruct (kb_count_eq m Hwf) as [Hc _]. pose proof (fun x => Z.mod_pos_bound x (kb_size m)) as Hb.
  assert (is_u16 (key_word sc asc)) by (unfold key_word, is_byte, is_u16 in *; lia).
  rewrite (inject_key_unfold m Hwf) by done. rewrite kb_queue_length.
  case_decide as Hn.
  - split; [by apply inject_wf|]. rewrite decide_True; [by apply inject_queue|].
    specialize (Hb ((mem_rd16 m KB_TAIL - (kb_bounds m).1) / 2 - kb_head_ix m)).
    rewrite Hfull in Hn. lia.
  - split; [done|]. rewrite decide_False; [done|].
    apply Hfull in Hn. lia.
Qed.

(** A data area as a PC BIOS initialises it: ring 001Eh..003Dh, empty. *)
Definition bda0 : mem :=
  mem_wr16 KB_START 0x1E (mem_wr16 KB_END 0x3E
    (mem_wr16 KB_HEAD 0x1E (mem_wr16 KB_TAIL 0x1E (fun _ => 0)))).

Lemma bda0_wf : kb_wf bda0.
Proof.
  constructor; try (vm_compute; intuition congruence).
  intros a. unfold bda0. do 4 (apply mem_wr16_bytes; intros ?). done.
Qed.

Lemma inject_key_spec_witness :
  kb_wf (inject_key 0x1E 0x61 bda0)
  /\ kb_queue (inject_key 0x1E 0x61 bda0) = [0x1E61].
Proof. exact (inject_key_spec bda0 0x1E 0x61 bda0_wf ltac:(done) ltac:(done)). Defined.

(** The ring of a stock BIOS takes fifteen keys and drops the sixteenth. *)
Example kb_capacity :
  let push m i := inject_key 0x1E i m in
  kb_queue (fold_left push (seqZ 1 16) bda0) = (fun i => key_word 0x1E i) <$> seqZ 1 15.
Proof. vm_compute. reflexivity. Qed.
