(* ===== verification/Ansikey.v ===== *)
(** * Terminal bytes to keystrokes (src/dosshd/ansikey.c)

    A byte-fed state machine: it assembles escape sequences across bytes and
    timer ticks, maps printable and control bytes through tables built at
    install time, and recognises the warm-reboot sentinel.  Its two calls into
    dosshd.c, [inject_key] and [request_reboot], are the events it emits. *)
From Stdlib Require Import ZArith Lia.
From stdpp Require Import base list numbers.
From S2P Require Import Prelude.
Local Open Scope Z_scope.

Inductive kev : Type :=
  | Inject (scan ascii : Z)
  | Reboot.

#[export] Instance kev_eq_dec : EqDecision kev.
Proof. solve_decision. Defined.

(** ** Scancode tables *)

Definition QUOTE : Z := 34.

Definition key_rows : list (list Z * Z) :=
  [ (text "1234567890-=", 0x02); (text "qwertyuiop[]", 0x10);
    (text "asdfghjkl;'`", 0x1E); (text "\zxcvbnm,./", 0x2B) ].
Definition key_sh : list Z := text "!@#$%^&*()_+{}:" ++ [QUOTE] ++ text "~<>?|".
Definition key_ba : list Z := text "1234567890-=[];'`,./\".

(** [t[c] = v] on a table of 128 bytes *)
Definition tab_set (c v : Z) (t : list Z) : list Z := <[Z.to_nat c := u8 v]> t.

Fixpoint tab_row (cs : list Z) (v : Z) (t : list Z) : list Z :=
  match cs with [] => t | c :: cs => tab_row cs (v + 1) (tab_set c v t) end.
Fixpoint tab_pairs (cs vs : list Z) (t : list Z) : list Z :=
  match cs, vs with c :: cs, v :: vs => tab_pairs cs vs (tab_set c v t) | _, _ => t end.

(** The arrays [scan] and [unshift]. *)
Record key_tables := { scan : list Z; unshift : list Z }.
Definition no_tables : key_tables := {| scan := replicate 128 0; unshift := replicate 128 0 |}.

Definition ansi_key_init (t : key_tables) : key_tables :=
  {| scan := tab_set 32 0x39 (fold_left (fun s r => tab_row r.1 r.2 s) key_rows (scan t));
     unshift := tab_pairs key_sh key_ba (unshift t) |}.

Definition tab_get (t : list Z) (c : Z) : Z := default 0 (rd t c).

(** The tables of an installed program. *)
Definition tables : key_tables := Eval vm_compute in ansi_key_init no_tables.

(** ** Key maps *)

Definition map_byte (b : Z) : list kev :=
  if decide (b = 0x0D \/ b = 0x0A) then [Inject 0x1C 0x0D]
  else if decide (b = 0x09) then [Inject 0x0F 0x09]
  else if decide (b = 0x7F \/ b = 0x08) then [Inject 0x0E 0x08]
  else if decide (32 <= b < 127) then
    let base := tab_get (unshift tables) b in
    let base := if decide (base = 0) then
                  if decide (65 <= b <= 90) then u8 (b + 32) else b
                else base in
    let sc := tab_get (scan tables) base in
    if decide (sc = 0) then [] else [Inject sc b]
  else if decide (1 <= b <= 26) then
    let sc := tab_get (scan tables) (b + 96) in
    if decide (sc = 0) then [] else [Inject sc b]
  else [].

Fixpoint switch (cases : list (Z * Z)) (x : Z) : Z :=
  match cases with
  | [] => 0
  | (k, v) :: cases => if decide (x = k) then v else switch cases x
  end.

Definition csi_final : Z -> Z :=
  switch [(65, 0x48); (66, 0x50); (67, 0x4D); (68, 0x4B); (72, 0x47); (70, 0x4F)].
Definition csi_tilde : Z -> Z :=
  switch [(1, 0x47); (2, 0x52); (3, 0x53); (4, 0x4F); (5, 0x49); (6, 0x51);
          (11, 0x3B); (12, 0x3C); (13, 0x3D); (14, 0x3E); (15, 0x3F); (17, 0x40);
          (18, 0x41); (19, 0x42); (20, 0x43); (21, 0x44); (23, 0x57); (24, 0x58)].
Definition ss3_final : Z -> Z :=
  switch [(80, 0x3B); (81, 0x3C); (82, 0x3D); (83, 0x3E); (72, 0x47); (70, 0x4F)].

(** ** The machine *)

(** [pend] holds the valid prefix of [pend[12]], so [pendlen] is its length. *)
Record ansikey := AnsiKey {
  pend : list Z;
  pend_age : Z;
  swallow : bool;
  rb_state : Z;
}.
#[export] Instance ansikey_eta : Eta ansikey :=
  fun r => AnsiKey (pend r) (pend_age r) (swallow r) (rb_state r).
#[export] Instance upd_pend : Upd pend := ltac:(derive_upd pend).
#[export] Instance upd_pend_age : Upd pend_age := ltac:(derive_upd pend_age).
#[export] Instance upd_swallow : Upd swallow := ltac:(derive_upd swallow).
#[export] Instance upd_rb_state : Upd rb_state := ltac:(derive_upd rb_state).

Definition PEND_SZ : Z := 12.
Definition ansikey0 : ansikey := AnsiKey [] 0 false 0.

Definition is_digit (b : Z) : Prop := 48 <= b <= 57.
#[export] Instance is_digit_dec b : Decision (is_digit b).
Proof. unfold is_digit. apply _. Defined.

(** The parameter of [ESC [ n ~]: decimal digits up to the first other byte,
    in a 16-bit [unsigned]. *)
Fixpoint csi_number (n : Z) (ds : list Z) : Z :=
  match ds with
  | d :: ds => if decide (is_digit d) then csi_number (u16 (n * 10 + (d - 48))) ds else n
  | [] => n
  end.

Definition finish_csi (p : list Z) (final : Z) : list kev :=
  let sc := if decide (final = 126) then csi_tilde (csi_number 0 (drop 2 p)) else csi_final final in
  if decide (sc = 0) then [] else [Inject sc 0].

Definition SENTINEL : Z := 0x1E.

(** The body of [ansi_key_byte]; [self] is its call to itself on the same byte,
    for the byte after a lone ESC. *)
Definition key_body (self : ansikey -> list kev * ansikey) (b : Z) (k : ansikey)
  : list kev * ansikey :=
  if decide (b = SENTINEL) then
    ([], if decide (rb_state k < 3) then k <| rb_state := rb_state k + 1 |> else k)
  else
    let fire := bool_decide (rb_state k >= 3 /\ (b = 89 \/ b = 121)) in
    let k := k <| rb_state := 0 |> in
    if fire then ([Reboot], k)
    else
      let eat := swallow k && bool_decide (b = 0x0A \/ b = 0x00) in
      let k := k <| swallow := false |> in
      if eat then ([], k)
      else match pend k with
      | [] =>
          if decide (b = 0x1B) then ([], k <| pend := [0x1B] |> <| pend_age := 0 |>)
          else if decide (b = 0x0D) then ([Inject 0x1C 0x0D], k <| swallow := true |>)
          else (map_byte b, k)
      | [_] =>
          let k := k <| pend_age := 0 |> in
          if decide (b = 91 \/ b = 79) then ([], k <| pend := pend k ++ [b] |>)
          else let '(ev, k) := self (k <| pend := [] |>) in (Inject 0x01 0x1B :: ev, k)
      | _ :: p1 :: _ =>
          let k := k <| pend_age := 0 |> in
          if decide (p1 = 91) then
            if decide (is_digit b \/ b = 59) then
              ([], if decide (len (pend k) < PEND_SZ) then k <| pend := pend k ++ [b] |> else k)
            else (finish_csi (pend k) b, k <| pend := [] |>)
          else if decide (p1 = 79) then
            let sc := ss3_final b in
            ((if decide (sc = 0) then [] else [Inject sc 0]), k <| pend := [] |>)
          else ([], k <| pend := [] |>)
      end.

(** With nothing pending the body does not call itself, so the recursion is at
    most two deep: fuel 1 is enough ([ansi_key_fuel] below). *)
Fixpoint key_byte (fuel : nat) (b : Z) (k : ansikey) : list kev * ansikey :=
  key_body (match fuel with O => fun k => ([], k) | S fuel => key_byte fuel b end) b k.
Definition ansi_key_byte : Z -> ansikey -> list kev * ansikey := key_byte 1.

Definition ansi_key_tick (k : ansikey) : list kev * ansikey :=
  match pend k with
  | [] => ([], k)
  | p =>
      let k := k <| pend_age := pend_age k + 1 |> in
      if decide (pend_age k >= 2)
      then ((if decide (len p = 1) then [Inject 0x01 0x1B] else []), k <| pend := [] |>)
      else ([], k)
  end.

(** Feeding a string of bytes within one tick. *)
Fixpoint key_bytes (bs : list Z) (k : ansikey) : list kev * ansikey :=
  match bs with
  | [] => ([], k)
  | b :: bs => let '(e1, k) := ansi_key_byte b k in
               let '(e2, k) := key_bytes bs k in (e1 ++ e2, k)
  end.

(** ** Inputs over time *)

(** What drives the machine: a byte from a client, or a timer tick. *)
Inductive kin : Type := Byte (b : Z) | Tick.

Definition key_step (i : kin) (k : ansikey) : list kev * ansikey :=
  match i with Byte b => ansi_key_byte b k | Tick => ansi_key_tick k end.
Fixpoint key_run (ins : list kin) (k : ansikey) : list kev * ansikey :=
  match ins with
  | [] => ([], k)
  | i :: ins => let '(e1, k) := key_step i k in
                let '(e2, k) := key_run ins k in (e1 ++ e2, k)
  end.

(** The bytes among the inputs. *)
Definition bytes_of (ins : list kin) : list Z :=
  omap (fun i => match i with Byte b => Some b | Tick => None end) ins.

(** Every reachable state: the pending sequence fits its buffer, starts with ESC
    and continues with an introducer and parameter bytes. *)
Definition pend_ok (p : list Z) : Prop :=
  len p <= PEND_SZ /\
  match p with
  | [] => True
  | [e] => e = 0x1B
  | e :: i :: ps => e = 0x1B /\ ((i = 91 /\ Forall (fun b => is_digit b \/ b = 59) ps) \/ (i = 79 /\ ps = []))
  end.
Record key_wf (k : ansikey) : Prop := {
  wf_pend : pend_ok (pend k);
  wf_age : 0 <= pend_age k <= match pend k with [] => 2 | _ => 1 end;
  wf_rb : 0 <= rb_state k <= 3;
}.

Arguments map_byte : simpl never.
Arguments finish_csi : simpl never.
Arguments ss3_final : simpl never.
Arguments is_digit : simpl never.
Arguments decide : simpl never.

Ltac cases1 :=
  match goal with
  | |- context [if decide ?P then _ else _] => destruct (decide P)
  | |- context [if bool_decide ?P then _ else _] => destruct (bool_decide P) eqn:?
  | |- context [if _ && bool_decide ?P then _ else _] => destruct (_ && bool_decide P) eqn:?
  end.

Lemma ansikey0_wf : key_wf ansikey0.
Proof. repeat split; vm_compute; congruence. Qed.

Lemma pend_ok_push e i ps b :
  pend_ok (e :: i :: ps) -> i = 91 -> is_digit b \/ b = 59 -> len (e :: i :: ps) < PEND_SZ ->
  pend_ok (e :: i :: ps ++ [b]).
Proof.
  intros [Hl [-> Hp]] -> Hb Hlt. unfold pend_ok. cbn [length] in *. rewrite length_app. cbn [length].
  split; [lia|split; [done|left]]. split; [done|]. destruct Hp as [[_ Hp]|[? _]]; [|lia].
  apply Forall_app. eauto.
Qed.

Lemma pend_ok_open e b : pend_ok [e] -> b = 91 \/ b = 79 -> pend_ok [e; b].
Proof. intros [_ He] Hb. split; [done|]. split; [done|]. destruct Hb; eauto. Qed.

Lemma key_body_wf self b k :
  (forall k', key_wf k' -> key_wf (self k').2) -> key_wf k -> key_wf (key_body self b k).2.
Proof.
  intros IH. destruct k as [[|e [|i ps]] a s r]; intros [Hp Ha Hr];
    cbn [pend pend_age rb_state] in Hp, Ha, Hr; unfold key_body; cbn.
  all: repeat cases1; try (by constructor; cbn; try lia; try done).
  all: try (constructor; cbn; try lia; first [by apply pend_ok_push|by apply pend_ok_open]).
  destruct (self _) as [ev k'] eqn:E; cbn.
  change k' with (ev, k').2. rewrite <- E. apply IH. constructor; cbn; try lia. done.
Qed.

Lemma key_byte_wf f b k : key_wf k -> key_wf (key_byte f b k).2.
Proof. revert k. induction f; intros k Hk; cbn -[key_body]; by apply key_body_wf. Qed.

Lemma key_tick_wf k : key_wf k -> key_wf (ansi_key_tick k).2.
Proof.
  destruct k as [[|e p] a s r]; intros [Hp Ha Hr]; [done|].
  cbn in Ha, Hr |- *. repeat cases1; constructor; cbn; try lia; done.
Qed.

(** A pending ESC is cleared before the call, and nothing pending means no call. *)
Lemma key_body_self self self' b k :
  (forall k', pend k' = [] -> self k' = self' k') -> key_body self b k = key_body self' b k.
Proof.
  intros E. unfold key_body. cbv zeta. by rewrite E by done.
Qed.
Lemma key_body_ground self self' b k : pend k = [] -> key_body self b k = key_body self' b k.
Proof. intros E. unfold key_body. cbn. rewrite E. done. Qed.

Lemma ansi_key_fuel f b k : key_byte (S f) b k = ansi_key_byte b k.
Proof.
  unfold ansi_key_byte. cbn [key_byte]. apply key_body_self. intros k' Hk.
  destruct f; [done|]. by apply key_body_ground.
Qed.

(** ** The warm-reboot sentinel *)

Definition is_reboot (e : kev) : Prop := e = Reboot.

Ltac no_reboot :=
  repeat first [ apply not_elem_of_nil | apply not_elem_of_cons; split; [discriminate|] ].

Lemma map_byte_no_reboot b : Reboot ∉ map_byte b.
Proof. unfold map_byte. repeat case_decide; no_reboot. Qed.
Lemma finish_csi_no_reboot p b : Reboot ∉ finish_csi p b.
Proof. unfold finish_csi. case_decide; no_reboot. Qed.

(** The sentinel counter after a byte, and when a reboot is requested. *)
Lemma key_body_rb self b k :
  (forall k', b <> SENTINEL -> rb_state k' = 0 -> rb_state (self k').2 = 0) ->
  rb_state (key_body self b k).2 =
    if decide (b = SENTINEL) then (if decide (rb_state k < 3) then rb_state k + 1 else rb_state k) else 0.
Proof.
  intros IH. destruct k as [[|e [|i ps]] a s r]; unfold key_body; cbn; repeat cases1; try done.
  match goal with |- context [self ?k] => specialize (IH k); destruct (self k); by apply IH end.
Qed.

Lemma key_body_reboot self b k :
  (forall k', rb_state k' = 0 -> Reboot ∉ (self k').1) ->
  Reboot ∈ (key_body self b k).1 <-> b <> SENTINEL /\ rb_state k >= 3 /\ (b = 89 \/ b = 121).
Proof.
  intros IH. unfold key_body. case_decide; [split; [intros []%not_elem_of_nil|tauto]|]. cbv zeta.
  case_bool_decide as Hf; [split; [done|by left]|]. split; [|tauto]. intros Hin. exfalso.
  revert Hin. clear Hf. destruct k as [[|e [|i ps]] a s r]; cbn; repeat cases1; no_reboot;
    try (apply map_byte_no_reboot || apply finish_csi_no_reboot).
  match goal with |- context [self ?k] => specialize (IH k eq_refl); destruct (self k) end.
  by no_reboot.
Qed.

Lemma key_byte_rb f b k :
  rb_state (key_byte f b k).2 =
    if decide (b = SENTINEL) then (if decide (rb_state k < 3) then rb_state k + 1 else rb_state k) else 0.
Proof.
  revert k. induction f as [|f IH]; intros k; cbn [key_byte]; apply key_body_rb; [done|].
  intros k' Hb Hk. by rewrite IH, decide_False.
Qed.

Lemma key_byte_reboot f b k :
  Reboot ∈ (key_byte f b k).1 <-> b <> SENTINEL /\ rb_state k >= 3 /\ (b = 89 \/ b = 121).
Proof.
  revert k. induction f as [|f IH]; intros k; cbn [key_byte]; apply key_body_reboot.
  - intros k' _. no_reboot.
  - intros k' Hk. rewrite IH. lia.
Qed.

Lemma key_tick_rb k : rb_state (ansi_key_tick k).2 = rb_state k /\ Reboot ∉ (ansi_key_tick k).1.
Proof.
  destruct k as [[|e p] a s r]; cbn; repeat cases1; split; try done; no_reboot.
Qed.

(** How many sentinel bytes in a row end the history (the most recent byte is
    the head of the list). *)
Fixpoint sentinels (recent : list Z) : nat :=
  match recent with
  | b :: recent => if decide (b = SENTINEL) then S (sentinels recent) else 0
  | [] => 0
  end.

Lemma key_run_app i1 i2 k :
  key_run (i1 ++ i2) k =
    ((key_run i1 k).1 ++ (key_run i2 (key_run i1 k).2).1, (key_run i2 (key_run i1 k).2).2).
Proof.
  revert k. induction i1 as [|i i1 IH]; intros k; cbn; [by destruct (key_run i2 k)|].
  destruct (key_step i k) as [e1 k1]. rewrite IH. destruct (key_run i1 k1) as [e2 k2]; cbn.
  by rewrite app_assoc.
Qed.

Lemma key_run_snoc ins i k :
  (key_run (ins ++ [i]) k).2 = (key_step i (key_run ins k).2).2.
Proof. rewrite key_run_app. cbn [key_run]. by destruct (key_step i _). Qed.

Lemma bytes_of_app i1 i2 : bytes_of (i1 ++ i2) = bytes_of i1 ++ bytes_of i2.
Proof. apply omap_app. Qed.

(** The counter saturates at three. *)
Lemma key_run_rb ins :
  rb_state (key_run ins ansikey0).2 = Z.min 3 (Z.of_nat (sentinels (reverse (bytes_of ins)))).
Proof.
  induction ins as [|i ins IH] using rev_ind; [done|].
  rewrite key_run_snoc, bytes_of_app, reverse_app. destruct i as [b|].
  - cbn [key_step]. unfold ansi_key_byte. rewrite key_byte_rb, IH. cbn. repeat case_decide; lia.
  - cbn [key_step]. by rewrite (proj1 (key_tick_rb _)), IH.
Qed.

Lemma sentinels_three l : (3 <= sentinels l)%nat <-> exists r, l = SENTINEL :: SENTINEL :: SENTINEL :: r.
Proof.
  split.
  - destruct l as [|a [|b [|c l]]]; cbn; repeat case_decide; subst; intros; try lia; eauto.
  - intros [r ->]. cbn. rewrite !decide_True by done. lia.
Qed.

(** C40: The warm reboot is requested by exactly one input: a [Y] or [y] whose three
    preceding bytes are Ctrl-^ (timer ticks in between do not matter). *)
Theorem reboot_exactly_on_sentinel ins b :
  Reboot ∈ (ansi_key_byte b (key_run ins ansikey0).2).1 <->
  (b = 89 \/ b = 121) /\ exists before, bytes_of ins = before ++ [SENTINEL; SENTINEL; SENTINEL].
Proof.
  unfold ansi_key_byte. rewrite key_byte_reboot, key_run_rb.
  assert (3 <= sentinels (reverse (bytes_of ins)) <->
    exists before, bytes_of ins = before ++ [SENTINEL; SENTINEL; SENTINEL])%nat as <-.
  { rewrite sentinels_three. split; intros [r Hr].
    - exists (reverse r). rewrite <- (reverse_involutive (bytes_of ins)), Hr.
      by rewrite !reverse_cons, <- !app_assoc.
    - exists (reverse r). rewrite Hr. by rewrite !reverse_app. }
  unfold SENTINEL. split; [intros (? & ? & ?); split; [done|lia]|].
  intros [Hb ?]. split_and!; [|lia|done]. destruct Hb; subst; done.
Qed.

Lemma reboot_exactly_on_sentinel_sample :
  (key_bytes [30; 30; 30; 30; 89; 97] ansikey0).1 = [Reboot; Inject 0x1E 97].
Proof. vm_compute. reflexivity. Qed.

(** ** Plain text *)

(** The US keyboard: for each key its make code, its character and its shifted
    character.  This is the reference the tables are compared to. *)
Definition us_keys : list (Z * (Z * Z)) :=
  zip (seqZ 0x02 12 ++ seqZ 0x10 12 ++ seqZ 0x1E 12 ++ seqZ 0x2B 11 ++ [0x39])
    (zip (text "1234567890-=" ++ text "qwertyuiop[]" ++ text "asdfghjkl;'`" ++ text "\zxcvbnm,./" ++ text " ")
         (text "!@#$%^&*()_+" ++ text "QWERTYUIOP{}" ++ text "ASDFGHJKL:" ++ [QUOTE] ++ text "~"
          ++ text "|ZXCVBNM<>?" ++ text " ")).
Definition printable (b : Z) : Prop := 32 <= b < 127.

Definition us_press (b : Z) : list kev :=
  match list_find (fun k : Z * (Z * Z) => b = k.2.1 \/ b = k.2.2) us_keys with
  | Some (_, k) => [Inject k.1 b]
  | None => []
  end.

(** Checking a decidable statement on a range of integers. *)
Lemma forall_seqZ (P : Z -> Prop) `{forall x, Decision (P x)} lo n :
  bool_decide (Forall P (seqZ lo n)) = true -> forall b, lo <= b < lo + n -> P b.
Proof.
  intros Hb%bool_decide_eq_true b Hr. rewrite Forall_forall in Hb. apply Hb.
  apply elem_of_seqZ. lia.
Qed.

Lemma map_byte_us b : printable b -> map_byte b = us_press b /\ length (us_press b) = 1%nat.
Proof. revert b. apply (forall_seqZ _ 32 95). vm_compute. reflexivity. Qed.

Lemma key_byte_ground b k :
  pend k = [] -> swallow k = false -> rb_state k < 3 -> b <> SENTINEL -> b <> 0x1B -> b <> 0x0D ->
  ansi_key_byte b k = (map_byte b, k <| rb_state := 0 |> <| swallow := false |>).
Proof.
  intros Hp Hs Hr ???. unfold ansi_key_byte, key_byte, key_body.
  rewrite decide_False by done. rewrite bool_decide_false by lia. cbn. rewrite Hp, Hs. cbn.
  by rewrite !decide_False.
Qed.

(** Typed text reaches DOS one key per character, in order: each printable byte
    becomes the make code of the US key that carries it with the byte itself as
    ASCII, and nothing is left pending. *)
Theorem typed_text bs k :
  Forall printable bs -> pend k = [] -> swallow k = false -> rb_state k < 3 ->
  (key_bytes bs k).1 = bs ≫= us_press /\ length (key_bytes bs k).1 = length bs
  /\ pend (key_bytes bs k).2 = [] /\ swallow (key_bytes bs k).2 = false.
Proof.
  intros Hbs. revert k. induction Hbs as [|b bs Hb _ IH]; intros k Hp Hs Hr; [done|].
  cbn [key_bytes]. unfold printable in Hb.
  rewrite key_byte_ground by (done || (unfold SENTINEL; lia)).
  destruct (map_byte_us b Hb) as [-> Hlen].
  destruct (IH (k <| rb_state := 0 |> <| swallow := false |>)) as (E1 & E2 & E3 & E4); [done..|].
  destruct (key_bytes bs _) as [e2 k2]. cbn in *. rewrite E1, length_app, Hlen in *. split_and!; try done. lia.
Qed.

Lemma typed_text_witness :
  (key_bytes (text "Dir *.*") ansikey0).1 =
    [Inject 0x20 68; Inject 0x17 105; Inject 0x13 114; Inject 0x39 32;
     Inject 0x09 42; Inject 0x34 46; Inject 0x09 42].
Proof.
  refine (eq_trans (proj1 (typed_text (text "Dir *.*") ansikey0 _ eq_refl eq_refl eq_refl)) _);
    [|vm_compute; reflexivity].
  apply (bool_decide_eq_true_1 (Forall (fun b => 32 <= b < 127) _)). vm_compute. reflexivity.
Defined.

(** ** Escape sequences *)

Definition is_param (b : Z) : Prop := is_digit b \/ b = 59.

(** The number a sequence of decimal digits denotes. *)
Definition decimal (ds : list Z) : Z := fold_left (fun n d => n * 10 + (d - 48)) ds 0.
Fixpoint leading_digits (ps : list Z) : list Z :=
  match ps with
  | d :: ps => if decide (is_digit d) then d :: leading_digits ps else []
  | [] => []
  end.

Lemma csi_number_decimal n ps :
  csi_number (u16 n) ps = u16 (fold_left (fun n d => n * 10 + (d - 48)) (leading_digits ps) n).
Proof.
  revert n. induction ps as [|d ps IH]; intros n; [done|]. cbn. case_decide; [|done].
  cbn. rewrite <- IH. f_equal. unfold u16. by rewrite <- Zplus_mod_idemp_l, Zmult_mod_idemp_l, Zplus_mod_idemp_l.
Qed.

(** What [ESC [ ps f] means: [~] selects a key by number, a letter directly. *)
Definition csi_meaning (ps : list Z) (f : Z) : list kev :=
  let sc := if decide (f = 126) then csi_tilde (decimal (leading_digits ps) mod 65536) else csi_final f in
  if decide (sc = 0) then [] else [Inject sc 0].

Lemma finish_csi_meaning ps f : finish_csi (27 :: 91 :: ps) f = csi_meaning ps f.
Proof.
  unfold finish_csi, csi_meaning. cbn [drop]. rewrite drop_0.
  by rewrite (csi_number_decimal 0 ps : csi_number 0 ps = _).
Qed.

Lemma key_byte_esc k :
  pend k = [] ->
  ansi_key_byte 0x1B k = ([], AnsiKey [0x1B] 0 false 0).
Proof.
  intros Hp. unfold ansi_key_byte, key_byte, key_body.
  rewrite decide_False by done. rewrite bool_decide_false by lia. cbn. rewrite Hp.
  rewrite (bool_decide_false (27 = 10 \/ 27 = 0)) by lia. by rewrite andb_false_r.
Qed.

Lemma key_byte_csi_param b ps a :
  is_param b ->
  ansi_key_byte b (AnsiKey (27 :: 91 :: ps) a false 0) =
    ([], AnsiKey (27 :: 91 :: take 10 (ps ++ [b]) ) 0 false 0) \/ (10 < length ps)%nat.
Proof.
  intros Hb. destruct (decide (10 < length ps)%nat); [by right|left].
  unfold ansi_key_byte, key_byte, key_body.
  rewrite decide_False by (unfold is_param, is_digit, SENTINEL in *; lia).
  rewrite bool_decide_false by (cbn; lia). cbn -[Z.of_nat].
  rewrite decide_True by done. rewrite decide_True by done.
  unfold PEND_SZ. destruct (decide (length ps = 10%nat)) as [E|E].
  - rewrite decide_False by lia. rewrite take_app_le by lia. by rewrite <- E, firstn_all.
  - rewrite decide_True by lia. by rewrite take_ge by (rewrite length_app; cbn; lia).
Qed.

Lemma take_take_app {A} n (l l' : list A) : take n (take n l ++ l') = take n (l ++ l').
Proof. rewrite !take_app, take_take, length_take, Nat.min_id. do 2 f_equal. lia. Qed.

Lemma key_bytes_csi_params bs ps :
  Forall is_param bs -> (length ps <= 10)%nat ->
  key_bytes bs (AnsiKey (27 :: 91 :: ps) 0 false 0) =
    ([], AnsiKey (27 :: 91 :: take 10 (ps ++ bs)) 0 false 0).
Proof.
  intros Hbs. revert ps. induction Hbs as [|b bs Hb _ IH]; intros ps Hps; cbn [key_bytes].
  - by rewrite app_nil_r, take_ge.
  - destruct (key_byte_csi_param b ps 0 Hb) as [->|]; [|lia].
    rewrite IH by (rewrite length_take; lia). cbn -[take]. by rewrite take_take_app, <- app_assoc.
Qed.

Lemma key_byte_csi_final f ps :
  ~ is_param f -> f <> SENTINEL ->
  ansi_key_byte f (AnsiKey (27 :: 91 :: ps) 0 false 0) = (csi_meaning ps f, ansikey0).
Proof.
  intros Hf Hs. unfold ansi_key_byte, key_byte, key_body. rewrite decide_False by done.
  rewrite bool_decide_false by (cbn; lia). cbn.
  rewrite decide_True by done. rewrite decide_False by done. by rewrite finish_csi_meaning.
Qed.

Lemma key_bytes_app b1 b2 k :
  key_bytes (b1 ++ b2) k =
    ((key_bytes b1 k).1 ++ (key_bytes b2 (key_bytes b1 k).2).1, (key_bytes b2 (key_bytes b1 k).2).2).
Proof.
  revert k. induction b1 as [|b b1 IH]; intros k; cbn [key_bytes app];
    [cbn; by destruct (key_bytes b2 k)|].
  destruct (ansi_key_byte b k) as [e1 k1]. rewrite IH. destruct (key_bytes b1 k1) as [e2 k2]; cbn.
  by rewrite app_assoc.
Qed.

(** A control sequence [ESC \[ parameters final], whatever its parameters and
    however long, is consumed whole: it produces at most the one extended key it
    stands for (the number read from the first ten parameter bytes, in 16 bits),
    never a character, and leaves the machine as installed. *)
Theorem csi_sequence k ps f :
  pend k = [] -> Forall is_param ps -> ~ is_param f -> f <> SENTINEL ->
  key_bytes ([0x1B; 91] ++ ps ++ [f]) k = (csi_meaning (take 10 ps) f, ansikey0)
  /\ Forall (fun e => exists sc, e = Inject sc 0 /\ sc <> 0) (csi_meaning (take 10 ps) f).
Proof.
  intros Hk Hps Hf Hs. split.
  - assert (key_bytes [0x1B; 91] k = ([], AnsiKey [27; 91] 0 false 0)) as E
      by (cbn [key_bytes]; by rewrite key_byte_esc).
    rewrite key_bytes_app, E. cbn [fst snd]. rewrite key_bytes_app.
    rewrite key_bytes_csi_params by (done || (cbn; lia)). cbn [fst snd app].
    cbn [key_bytes]. rewrite key_byte_csi_final by done. by rewrite !app_nil_r.
  - unfold csi_meaning. case_decide; repeat constructor. eauto.
Qed.

Lemma csi_sequence_witness :
  key_bytes ([0x1B; 91] ++ text "15" ++ [126]) ansikey0 = ([Inject 0x3F 0], ansikey0).
Proof.
  refine (eq_trans (proj1 (csi_sequence ansikey0 (text "15") 126 eq_refl _ _ _)) _);
    [|vm_compute; intuition congruence|done|vm_compute; reflexivity].
  repeat constructor; vm_compute; intuition congruence.
Defined.

(** ** ESC on its own *)

(** An ESC that starts no sequence is delivered once: after two ticks of
    silence, or as soon as another byte shows it stood alone, and that byte is
    then treated exactly as if the ESC had not been pending. *)
Theorem lone_escape k b :
  pend k = [] -> b <> 91 -> b <> 79 -> b <> SENTINEL ->
  key_run [Byte 0x1B; Tick; Tick] k = ([Inject 0x01 0x1B], AnsiKey [] 2 false 0)
  /\ key_bytes [0x1B; b] k =
       (Inject 0x01 0x1B :: (ansi_key_byte b ansikey0).1, (ansi_key_byte b ansikey0).2).
Proof.
  intros Hk H1 H2 H3. cbn [key_run key_step key_bytes]. rewrite key_byte_esc by done. split; [done|].
  assert (ansi_key_byte b (AnsiKey [27] 0 false 0) =
    (Inject 0x01 0x1B :: (ansi_key_byte b ansikey0).1, (ansi_key_byte b ansikey0).2)) as ->; [|cbn [app]; by rewrite app_nil_r].
  unfold ansi_key_byte at 1. cbn [key_byte]. unfold key_body at 1. rewrite decide_False by done.
  rewrite bool_decide_false by (cbn; lia). cbn. rewrite decide_False by lia.
  change ((AnsiKey [27] 0 false 0) <| rb_state := 0 |> <| swallow := false |>
            <| pend_age := 0 |> <| pend := [] |>) with ansikey0.
  rewrite <- (key_body_ground (key_byte 0 b) _ b ansikey0 eq_refl).
  change (key_body (key_byte 0 b) b ansikey0) with (ansi_key_byte b ansikey0).
  change (key_body (fun k0 => key_body (fun k1 => ([], k1)) b k0) b ansikey0)
    with (ansi_key_byte b ansikey0).
  by destruct (ansi_key_byte b ansikey0).
Qed.

Lemma lone_escape_witness :
  key_bytes [0x1B; 97] ansikey0 = ([Inject 0x01 0x1B; Inject 0x1E 97], ansikey0).
Proof.
  exact (proj2 (lone_escape ansikey0 97 eq_refl ltac:(done) ltac:(done) ltac:(done))).
Defined.

(** In every reachable state the pending sequence fits its twelve-byte buffer
    and is a prefix of a legal sequence, and the self-call never nests: no fuel
    above one changes the result. *)
Theorem key_machine_safe ins :
  key_wf (key_run ins ansikey0).2
  /\ forall f b, key_byte (S f) b (key_run ins ansikey0).2 = ansi_key_byte b (key_run ins ansikey0).2.
Proof.
  split; [|intros; apply ansi_key_fuel]. induction ins as [|i ins IH] using rev_ind.
  - apply ansikey0_wf.
  - rewrite key_run_snoc. destruct i; [by apply key_byte_wf|by apply key_tick_wf].
Qed.
