(* ===== verification/Sha256.v ===== *)
(** * SHA-256 (src/dosshd/crypto/sha256.c)

    The streaming implementation (context, update, final), and a specification
    after FIPS 180-4 that it refines: padding of the whole message, message
    schedule by recurrence, compression of the blocks in order. *)
From Stdlib Require Import ZArith Lia.
From stdpp Require Import base list numbers.
From S2P Require Import Prelude.
Local Open Scope Z_scope.

(** ** Word functions (the macros of the file) *)

Definition ROTR (x n : Z) : Z := Z.lor (Z.shiftr x n) (u32 (Z.shiftl x (32 - n))).
Definition CH (x y z : Z) : Z := Z.lxor (Z.land x y) (Z.land (u32 (Z.lnot x)) z).
Definition MAJ (x y z : Z) : Z := Z.lxor (Z.lxor (Z.land x y) (Z.land x z)) (Z.land y z).
Definition EP0 (x : Z) : Z := Z.lxor (Z.lxor (ROTR x 2) (ROTR x 13)) (ROTR x 22).
Definition EP1 (x : Z) : Z := Z.lxor (Z.lxor (ROTR x 6) (ROTR x 11)) (ROTR x 25).
Definition SIG0 (x : Z) : Z := Z.lxor (Z.lxor (ROTR x 7) (ROTR x 18)) (Z.shiftr x 3).
Definition SIG1 (x : Z) : Z := Z.lxor (Z.lxor (ROTR x 17) (ROTR x 19)) (Z.shiftr x 10).

(** The value of a string of hexadecimal digits, in groups of [n]. *)
Definition nibble (c : Z) : Z := if decide (97 <= c) then c - 87 else c - 48.
Fixpoint hex_groups (n k : nat) (acc : Z) (l : list Z) : list Z :=
  match l with
  | [] => []
  | c :: l =>
      let acc := acc * 16 + nibble c in
      match k with O => acc :: hex_groups n n 0 l | S k => hex_groups n k acc l end
  end.
Definition hex (s : string) : list Z := hex_groups 1 1 0 (text s).

(** The table of the source, four words to a line. *)
Definition K : list Z := Eval vm_compute in mjoin ((fun s => hex_groups 7 7 0 (text s)) <$> [
  "428a2f9871374491b5c0fbcfe9b5dba5";
  "3956c25b59f111f1923f82a4ab1c5ed5";
  "d807aa9812835b01243185be550c7dc3";
  "72be5d7480deb1fe9bdc06a7c19bf174";
  "e49b69c1efbe47860fc19dc6240ca1cc";
  "2de92c6f4a7484aa5cb0a9dc76f988da";
  "983e5152a831c66db00327c8bf597fc7";
  "c6e00bf3d5a7914706ca635114292967";
  "27b70a852e1b21384d2c6dfc53380d13";
  "650a7354766a0abb81c2c92e92722c85";
  "a2bfe8a1a81a664bc24b8b70c76c51a3";
  "d192e819d6990624f40e3585106aa070";
  "19a4c1161e376c082748774c34b0bcb5";
  "391c0cb34ed8aa4a5b9cca4f682e6ff3";
  "748f82ee78a5636f84c878148cc70208";
  "90befffaa4506cebbef9a3f7c67178f2"]%string).

(** ** The compression function *)

(** [t[i]] where the index is in range by construction. *)
Definition at_ (t : list Z) (i : nat) : Z := nth i t 0.

(** [m[i] = data[j] << 24 | ...] for [i < 16] *)
Definition load_word (data : list Z) (i : nat) : Z :=
  un_be32 (at_ data (4 * i)) (at_ data (4 * i + 1)) (at_ data (4 * i + 2)) (at_ data (4 * i + 3)).

(** [m[i] = SIG1(m[i - 2]) + m[i - 7] + SIG0(m[i - 15]) + m[i - 16]] for the
    [n] next indices. *)
Fixpoint extend (n : nat) (m : list Z) : list Z :=
  match n with
  | O => m
  | S n =>
      let i := length m in
      extend n (m ++ [u32 (SIG1 (at_ m (i - 2)) + at_ m (i - 7) + SIG0 (at_ m (i - 15)) + at_ m (i - 16))])
  end.

(** The eight working variables [a .. h]. *)
Record vars := Vars { va : Z; vb : Z; vc : Z; vd : Z; ve : Z; vf : Z; vg : Z; vh : Z }.

Definition round (v : vars) (k m : Z) : vars :=
  let t1 := u32 (vh v + EP1 (ve v) + CH (ve v) (vf v) (vg v) + k + m) in
  let t2 := u32 (EP0 (va v) + MAJ (va v) (vb v) (vc v)) in
  Vars (u32 (t1 + t2)) (va v) (vb v) (vc v) (u32 (vd v + t1)) (ve v) (vf v) (vg v).

Fixpoint rounds (v : vars) (ks ms : list Z) : vars :=
  match ks, ms with
  | k :: ks, m :: ms => rounds (round v k m) ks ms
  | _, _ => v
  end.

Definition add_vars (s v : vars) : vars :=
  Vars (u32 (va s + va v)) (u32 (vb s + vb v)) (u32 (vc s + vc v)) (u32 (vd s + vd v))
       (u32 (ve s + ve v)) (u32 (vf s + vf v)) (u32 (vg s + vg v)) (u32 (vh s + vh v)).

Definition sha256_transform (state : vars) (data : list Z) : vars :=
  let m := extend 48 (load_word data <$> seq 0 16) in
  add_vars state (rounds state K m).

Arguments sha256_transform : simpl never.

(** ** The streaming interface *)

Record sha256_ctx := Ctx {
  data : list Z;          (* data[64] *)
  datalen : Z;
  bitlen_lo : Z;
  bitlen_hi : Z;
  hstate : vars;          (* state[8] *)
}.
#[export] Instance sha256_ctx_eta : Eta sha256_ctx :=
  fun r => Ctx (data r) (datalen r) (bitlen_lo r) (bitlen_hi r) (hstate r).
#[export] Instance upd_data : Upd data := ltac:(derive_upd data).
#[export] Instance upd_datalen : Upd datalen := ltac:(derive_upd datalen).
#[export] Instance upd_bitlen_lo : Upd bitlen_lo := ltac:(derive_upd bitlen_lo).
#[export] Instance upd_bitlen_hi : Upd bitlen_hi := ltac:(derive_upd bitlen_hi).
#[export] Instance upd_hstate : Upd hstate := ltac:(derive_upd hstate).

Definition IV : vars :=
  Vars 0x6a09e667 0xbb67ae85 0x3c6ef372 0xa54ff53a 0x510e527f 0x9b05688c 0x1f83d9ab 0x5be0cd19.

(** [sha256_init] leaves [data] as it was. *)
Definition sha256_init (c : sha256_ctx) : sha256_ctx := Ctx (data c) 0 0 0 IV.

(** Adds [bytes * 8] to the 64-bit length kept in two words. *)
Definition sha256_addlen (bytes : Z) (c : sha256_ctx) : sha256_ctx :=
  let add := u32 (Z.shiftl bytes 3) in
  let old := bitlen_lo c in
  let c := c <| bitlen_lo := u32 (old + add) |> in
  if decide (bitlen_lo c < old) then c <| bitlen_hi := u32 (bitlen_hi c + 1) |> else c.

(** [ctx->data[i] = v] *)
Definition poke (i v : Z) (l : list Z) : list Z := <[Z.to_nat i := v]> l.

Definition update_byte (c : sha256_ctx) (b : Z) : sha256_ctx :=
  let c := c <| data := poke (datalen c) b (data c) |> <| datalen := datalen c + 1 |> in
  if decide (datalen c = 64)
  then (sha256_addlen 64 (c <| hstate := sha256_transform (hstate c) (data c) |>)) <| datalen := 0 |>
  else c.

Definition sha256_update (c : sha256_ctx) (d : list Z) : sha256_ctx := fold_left update_byte d c.

(** [while (i < e) ctx->data[i++] = 0x00;] with [n] iterations *)
Fixpoint zero_from (n : nat) (i : Z) (l : list Z) : list Z :=
  match n with O => l | S n => zero_from n (i + 1) (poke i 0 l) end.

(** The digest bytes, big-endian, word by word. *)
Definition digest (v : vars) : list Z :=
  be32 (va v) ++ be32 (vb v) ++ be32 (vc v) ++ be32 (vd v)
  ++ be32 (ve v) ++ be32 (vf v) ++ be32 (vg v) ++ be32 (vh v).

Definition put_len (c : sha256_ctx) (l : list Z) : list Z :=
  fold_left (fun l p => poke p.1 p.2 l)
    (zip (seqZ 56 8) (be32 (bitlen_hi c) ++ be32 (bitlen_lo c))) l.

Definition sha256_finish (c : sha256_ctx) : sha256_ctx :=
  let i := datalen c in
  let c := sha256_addlen (datalen c) c in
  let c :=
    if decide (datalen c < 56) then
      c <| data := zero_from (Z.to_nat (56 - (i + 1))) (i + 1) (poke i 0x80 (data c)) |>
    else
      let c := c <| data := zero_from (Z.to_nat (64 - (i + 1))) (i + 1) (poke i 0x80 (data c)) |> in
      let c := c <| hstate := sha256_transform (hstate c) (data c) |> in
      c <| data := zero_from 56 0 (data c) |> in
  let c := c <| data := put_len c (data c) |> in
  c <| hstate := sha256_transform (hstate c) (data c) |>.
(** [sha256_final] finishes the context and stores the digest. *)
Definition sha256_final (c : sha256_ctx) : list Z := digest (hstate (sha256_finish c)).

(** The one-shot function, on a context with arbitrary stack contents. *)
Definition sha256 (junk : sha256_ctx) (d : list Z) : list Z :=
  sha256_final (sha256_update (sha256_init junk) d).

Definition ctx0 : sha256_ctx := Ctx (replicate 64 0) 0 0 0 IV.

Example sha256_abc :
  sha256 ctx0 (text "abc") = hex "ba7816bf8f01cfea414140de5dae2223b00361a396177a9cb410ff61f20015ad".
Proof. vm_compute. reflexivity. Qed.
Example sha256_two_blocks :
  sha256 ctx0 (text "abcdbcdecdefdefgefghfghighijhijkijkljklmklmnlmnomnopnopq") =
  hex "248d6a61d20638b8e5c026930c3e6039a33ce45964ff2167f6ecedd419db06c1".
Proof. vm_compute. reflexivity. Qed.

(** ** The specification (FIPS 180-4) *)

Module Fips.
(** Section 3.2: rotation of a 32-bit word, as arithmetic. *)
Definition rotr (n x : Z) : Z := x / 2 ^ n + (x mod 2 ^ n) * 2 ^ (32 - n).
Definition shr (n x : Z) : Z := x / 2 ^ n.
(** Section 4.1.2: choice and majority, bit by bit. *)
Definition ch (x y z : Z) : Z := Z.lor (Z.land x y) (Z.ldiff z x).
Definition maj (x y z : Z) : Z := Z.lor (Z.lor (Z.land x y) (Z.land x z)) (Z.land y z).
Definition Sigma0 x := Z.lxor (Z.lxor (rotr 2 x) (rotr 13 x)) (rotr 22 x).
Definition Sigma1 x := Z.lxor (Z.lxor (rotr 6 x) (rotr 11 x)) (rotr 25 x).
Definition sigma0 x := Z.lxor (Z.lxor (rotr 7 x) (rotr 18 x)) (shr 3 x).
Definition sigma1 x := Z.lxor (Z.lxor (rotr 17 x) (rotr 19 x)) (shr 10 x).

(** Section 5.1.1: the padded message. *)
Definition be64 (n : Z) : list Z :=
  (fun i => n / 2 ^ (8 * (7 - i)) mod 256) <$> seqZ 0 8.
Definition pad (msg : list Z) : list Z :=
  msg ++ [0x80] ++ replicate (Z.to_nat ((55 - len msg) mod 64)) 0 ++ be64 (8 * len msg).

(** Section 6.2.2: schedule and compression of one block. *)
Definition word (block : list Z) (t : nat) : Z :=
  let b i := nth (4 * t + i) block 0 in
  b 0%nat * 16777216 + b 1%nat * 65536 + b 2%nat * 256 + b 3%nat.
Fixpoint W (block : list Z) (fuel t : nat) : Z :=
  match fuel with
  | O => 0
  | S f => if (t <? 16)%nat then word block t
           else (sigma1 (W block f (t - 2)) + W block f (t - 7)
                 + sigma0 (W block f (t - 15)) + W block f (t - 16)) mod 2 ^ 32
  end.
Definition step (v : vars) (Kt Wt : Z) : vars :=
  let T1 := vh v + Sigma1 (ve v) + ch (ve v) (vf v) (vg v) + Kt + Wt in
  let T2 := Sigma0 (va v) + maj (va v) (vb v) (vc v) in
  Vars ((T1 + T2) mod 2 ^ 32) (va v) (vb v) (vc v) ((vd v + T1) mod 2 ^ 32) (ve v) (vf v) (vg v).
Fixpoint work (H : vars) (block : list Z) (t : nat) : vars :=
  match t with
  | O => H
  | S t => step (work H block t) (nth t K 0) (W block (S t) t)
  end.
Definition compress (H : vars) (block : list Z) : vars := add_vars H (work H block 64).

(** Sections 5.2.1 and 6.2: the blocks in order. *)
Fixpoint absorb (n : nat) (H : vars) (m : list Z) : vars :=
  match n with
  | O => H
  | S n => absorb n (compress H (take 64 m)) (drop 64 m)
  end.
Definition sha256 (msg : list Z) : list Z :=
  digest (absorb (length (pad msg) / 64) IV (pad msg)).
End Fips.
Arguments Fips.compress : simpl never.

(** ** The word functions *)

Lemma ROTR_rotr n x : 0 < n < 32 -> is_u32 x -> ROTR x n = Fips.rotr n x.
Proof.
  unfold is_u32. intros Hn Hx. unfold ROTR, Fips.rotr, u32.
  pose proof (Z.pow_pos_nonneg 2 n ltac:(lia) ltac:(lia)).
  pose proof (Z.pow_pos_nonneg 2 (32 - n) ltac:(lia) ltac:(lia)).
  assert (2 ^ n * 2 ^ (32 - n) = 4294967296) as E by (rewrite <- Z.pow_add_r by lia; by replace (n + (32 - n)) with 32 by lia).
  rewrite Z.shiftr_div_pow2, Z.shiftl_mul_pow2 by lia.
  rewrite <- E, Zmult_mod_distr_r, <- Z.shiftl_mul_pow2 by lia.
  rewrite Z.lor_comm, lor_shiftl_add, Z.shiftl_mul_pow2; try lia.
  split; [apply Z.div_pos; lia|]. apply Z.div_lt_upper_bound; lia.
Qed.

Lemma shiftr_shr n x : 0 <= n -> Z.shiftr x n = Fips.shr n x.
Proof. intros. apply Z.shiftr_div_pow2. lia. Qed.

Lemma testbit_high x i : is_u32 x -> 32 <= i -> Z.testbit x i = false.
Proof.
  intros Hx Hi. rewrite <- (u32_id x) by done. change (u32 x) with (x mod 2 ^ 32).
  by apply Z.mod_pow2_bits_high.
Qed.

Lemma CH_ch x y z : is_u32 x -> is_u32 y -> is_u32 z -> CH x y z = Fips.ch x y z.
Proof.
  intros Hx Hy Hz. unfold CH, Fips.ch. apply Z.bits_inj'. intros i Hi.
  rewrite Z.lxor_spec, Z.lor_spec, !Z.land_spec, Z.ldiff_spec.
  change (u32 (Z.lnot x)) with (Z.lnot x mod 2 ^ 32).
  destruct (Z.lt_ge_cases i 32).
  - rewrite Z.mod_pow2_bits_low, Z.lnot_spec by lia.
    by destruct (Z.testbit x i), (Z.testbit y i), (Z.testbit z i).
  - rewrite !(testbit_high z), !(testbit_high x) by done. by rewrite andb_false_r.
Qed.

Lemma MAJ_maj x y z : MAJ x y z = Fips.maj x y z.
Proof.
  unfold MAJ, Fips.maj. apply Z.bits_inj'. intros i Hi.
  rewrite !Z.lxor_spec, !Z.lor_spec, !Z.land_spec.
  by destruct (Z.testbit x i), (Z.testbit y i), (Z.testbit z i).
Qed.

Lemma EP0_Sigma0 x : is_u32 x -> EP0 x = Fips.Sigma0 x.
Proof. intros. unfold EP0, Fips.Sigma0. by rewrite !ROTR_rotr by (done || lia). Qed.
Lemma EP1_Sigma1 x : is_u32 x -> EP1 x = Fips.Sigma1 x.
Proof. intros. unfold EP1, Fips.Sigma1. by rewrite !ROTR_rotr by (done || lia). Qed.
Lemma SIG0_sigma0 x : is_u32 x -> SIG0 x = Fips.sigma0 x.
Proof. intros. unfold SIG0, Fips.sigma0. by rewrite !ROTR_rotr, shiftr_shr by (done || lia). Qed.
Lemma SIG1_sigma1 x : is_u32 x -> SIG1 x = Fips.sigma1 x.
Proof. intros. unfold SIG1, Fips.sigma1. by rewrite !ROTR_rotr, shiftr_shr by (done || lia). Qed.

(** ** The schedule *)

Lemma at_range l i : Forall is_u32 l -> is_u32 (at_ l i).
Proof.
  intros Hl. unfold at_. destruct (nth_in_or_default i l 0) as [Hin| ->]; [|done].
  rewrite Forall_forall in Hl. apply Hl. by apply list_elem_of_In.
Qed.
Lemma at_byte l i : all_bytes l -> is_byte (at_ l i).
Proof.
  intros Hl. unfold at_. destruct (nth_in_or_default i l 0) as [Hin| ->]; [|done].
  rewrite Forall_forall in Hl. apply Hl. by apply list_elem_of_In.
Qed.

Lemma load_word_spec d i : all_bytes d -> load_word d i = Fips.word d i /\ is_u32 (load_word d i).
Proof.
  intros Hd. unfold load_word, Fips.word. split; [|by apply un_be32_range; apply at_byte].
  rewrite un_be32_sum by by apply at_byte. unfold at_.
  by rewrite Nat.add_0_r.
Qed.

(** A prefix of the schedule. *)
Definition sched (d : list Z) (m : list Z) : Prop :=
  (16 <= length m)%nat /\ Forall is_u32 m /\
  forall t f, (t < length m)%nat -> (t < f)%nat -> at_ m t = Fips.W d f t.

Lemma Forall_fmap_seq {A} (P : A -> Prop) (f : nat -> A) s n : (forall i, P (f i)) -> Forall P (f <$> seq s n).
Proof. intros. apply Forall_fmap. apply Forall_true. auto. Qed.

Lemma sched_load d : all_bytes d -> sched d (load_word d <$> seq 0 16).
Proof.
  intros Hd. split; [done|split].
  - apply Forall_fmap_seq. intros. by apply load_word_spec.
  - intros t [|f] Ht Hf; [lia|]. rewrite length_fmap, length_seq in Ht. cbn [Fips.W].
    replace (t <? 16)%nat with true by (symmetry; apply Nat.ltb_lt; lia).
    unfold at_. rewrite nth_lookup, list_lookup_fmap, lookup_seq_lt by lia. cbn -[load_word].
    by apply load_word_spec.
Qed.

Lemma sched_extend d n m : sched d m -> sched d (extend n m) /\ length (extend n m) = (length m + n)%nat.
Proof.
  revert m. induction n as [|n IH]; intros m Hm; [split; [done|cbn; lia]|].
  cbn [extend]. destruct Hm as (H16 & Hr & Hm).
  destruct (IH (m ++ [u32 (SIG1 (at_ m (length m - 2)) + at_ m (length m - 7)
     + SIG0 (at_ m (length m - 15)) + at_ m (length m - 16))])) as [IH1 IH2];
    [|split; [done|]; rewrite IH2, length_app; cbn; lia].
  split_and!.
  - rewrite length_app. lia.
  - apply Forall_app. split; [done|]. constructor; [apply u32_range|done].
  - intros t [|f] Ht Hf; [lia|]. rewrite length_app in Ht. cbn in Ht.
    destruct (decide (t < length m)%nat) as [Hlt|Hge].
    + unfold at_. rewrite app_nth1 by done. by apply Hm.
    + assert (t = length m) as -> by lia. unfold at_ at 1. rewrite nth_middle. cbn [Fips.W].
      replace (length m <? 16)%nat with false by (symmetry; apply Nat.ltb_ge; lia).
      rewrite SIG0_sigma0, SIG1_sigma1 by by apply at_range.
      by rewrite !(Hm _ f) by lia.
Qed.

(** ** One block *)

Definition vars_ok (v : vars) : Prop :=
  Forall is_u32 [va v; vb v; vc v; vd v; ve v; vf v; vg v; vh v].

Lemma round_step v k m : vars_ok v -> round v k m = Fips.step v k m /\ vars_ok (round v k m).
Proof.
  intros Hv. assert (Hv' := Hv). unfold vars_ok in Hv'. rewrite !Forall_cons in Hv'.
  destruct Hv' as (Ha & Hb & Hc & Hd & He & Hf & Hg & Hh & _). split.
  - unfold round, Fips.step. rewrite EP0_Sigma0, EP1_Sigma1, CH_ch, MAJ_maj by done.
    change (2 ^ 32) with 4294967296. unfold u32.
    by rewrite <- Zplus_mod, Zplus_mod_idemp_r.
  - unfold vars_ok, round; cbn. repeat (apply Forall_cons; split; [first [done|apply u32_range]|]); apply Forall_nil; done.
Qed.

Lemma rounds_snoc v ks ms k m :
  length ks = length ms -> rounds v (ks ++ [k]) (ms ++ [m]) = round (rounds v ks ms) k m.
Proof.
  revert v ms. induction ks as [|k' ks IH]; intros v [|m' ms] Hl; try done. cbn. apply IH. by injection Hl.
Qed.

Lemma take_S_at (l : list Z) t : (t < length l)%nat -> take (S t) l = take t l ++ [at_ l t].
Proof.
  intros Ht. destruct (lookup_lt_is_Some_2 l t Ht) as [x Hx]. unfold at_.
  rewrite nth_lookup, Hx. by apply take_S_r.
Qed.

Lemma rounds_work v d m t :
  vars_ok v -> sched d m -> length m = 64%nat -> (t <= 64)%nat ->
  rounds v (take t K) (take t m) = Fips.work v d t /\ vars_ok (rounds v (take t K) (take t m)).
Proof.
  intros Hv (_ & _ & Hm) Hl. induction t as [|t IH]; intros Ht; [done|].
  destruct IH as [IH1 IH2]; [lia|]. assert (length K = 64%nat) by done.
  rewrite !take_S_at by lia. rewrite rounds_snoc by (rewrite !length_take; lia).
  destruct (round_step (rounds v (take t K) (take t m)) (at_ K t) (at_ m t) IH2) as [E ?].
  split; [|done]. rewrite E, IH1. cbn [Fips.work]. by rewrite (Hm t (S t)) by lia.
Qed.

Lemma add_vars_ok s v : vars_ok (add_vars s v).
Proof. unfold vars_ok; cbn. repeat (apply Forall_cons; split; [apply u32_range|]). by apply Forall_nil. Qed.

Lemma transform_compress v d :
  vars_ok v -> all_bytes d -> sha256_transform v d = Fips.compress v d /\ vars_ok (sha256_transform v d).
Proof.
  intros Hv Hd. split; [|apply add_vars_ok]. unfold sha256_transform, Fips.compress. f_equal.
  destruct (sched_extend d 48 _ (sched_load d Hd)) as [Hs Hl].
  rewrite length_fmap, length_seq in Hl.
  destruct (rounds_work v d _ 64 Hv Hs Hl) as [E _]; [done|].
  rewrite <- E. by rewrite (take_ge K), take_ge by (done || lia).
Qed.

Lemma IV_ok : vars_ok IV.
Proof. repeat constructor; vm_compute; congruence. Qed.

(** ** Streaming *)

Lemma absorb_app n1 n2 H m1 m2 :
  length m1 = (64 * n1)%nat -> Fips.absorb (n1 + n2) H (m1 ++ m2) = Fips.absorb n2 (Fips.absorb n1 H m1) m2.
Proof.
  revert H m1. induction n1 as [|n1 IH]; intros H m1 Hl; cbn [Fips.absorb plus].
  - by destruct m1.
  - rewrite take_app_le, drop_app_le by lia. apply IH. rewrite length_drop. lia.
Qed.

Lemma absorb_prefix n H m r : length m = (64 * n)%nat -> Fips.absorb n H (m ++ r) = Fips.absorb n H m.
Proof. intros Hl. rewrite <- (Nat.add_0_r n) at 1. by rewrite absorb_app. Qed.

Definition full_blocks (msg : list Z) : nat := (length msg / 64)%nat.
(** The part of the message that fills whole blocks, and the rest. *)
Definition msg_head (msg : list Z) : list Z := take (64 * full_blocks msg) msg.
Definition msg_tail (msg : list Z) : list Z := drop (64 * full_blocks msg) msg.

Lemma length_msg_head msg : length (msg_head msg) = (64 * full_blocks msg)%nat.
Proof. unfold msg_head, full_blocks. rewrite length_take. pose proof (Nat.div_mod_eq (length msg) 64). lia. Qed.
Lemma length_msg_tail msg : (length (msg_tail msg) = length msg mod 64)%nat.
Proof. unfold msg_tail, full_blocks. rewrite length_drop. pose proof (Nat.div_mod_eq (length msg) 64). lia. Qed.
Lemma msg_head_tail msg : msg_head msg ++ msg_tail msg = msg.
Proof. apply take_drop. Qed.

(** The context after [msg]: whole blocks are compressed and counted, the rest
    is buffered. *)
Record ctx_absorbed (msg : list Z) (c : sha256_ctx) : Prop := {
  ca_data : take (length (msg_tail msg)) (data c) = msg_tail msg;
  ca_room : length (data c) = 64%nat;
  ca_bytes : all_bytes (data c);
  ca_len : datalen c = len (msg_tail msg);
  ca_state : hstate c = Fips.absorb (full_blocks msg) IV (msg_head msg);
  ca_ok : vars_ok (hstate c);
  ca_lo : is_u32 (bitlen_lo c);
  ca_bits : (bitlen_hi c * 2 ^ 32 + bitlen_lo c) mod 2 ^ 64 = 512 * Z.of_nat (full_blocks msg) mod 2 ^ 64;
}.

Lemma addlen_bits n c :
  0 <= n <= 64 -> is_u32 (bitlen_lo c) ->
  let c' := sha256_addlen n c in
  is_u32 (bitlen_lo c')
  /\ (bitlen_hi c' * 2 ^ 32 + bitlen_lo c') mod 2 ^ 64 = (bitlen_hi c * 2 ^ 32 + bitlen_lo c + 8 * n) mod 2 ^ 64
  /\ data c' = data c /\ datalen c' = datalen c /\ hstate c' = hstate c.
Proof.
  intros Hn Hlo. unfold sha256_addlen. rewrite Z.shiftl_mul_pow2 by lia. change (2 ^ 3) with 8.
  rewrite (u32_id (n * 8)) by (unfold is_u32; lia). change (2 ^ 32) with 4294967296.
  change (2 ^ 64) with 18446744073709551616. unfold is_u32 in Hlo.
  case_decide as Hc; cbn in Hc |- *; split; try apply u32_range; (split; [|done]).
  - assert (u32 (bitlen_lo c + n * 8) = bitlen_lo c + n * 8 - 4294967296) as -> by wrap_lia.
    unfold u32. wrap_lia.
  - assert (u32 (bitlen_lo c + n * 8) = bitlen_lo c + n * 8) as -> by wrap_lia. f_equal. lia.
Qed.

Lemma poke_bytes i v l : is_byte v -> all_bytes l -> all_bytes (poke i v l).
Proof. intros. by apply Forall_insert. Qed.
Lemma length_poke i v l : length (poke i v l) = length l.
Proof. apply length_insert. Qed.

(** Writing the next byte extends the written prefix. *)
Lemma poke_take (l p : list Z) v :
  take (length p) l = p -> (length p < length l)%nat ->
  take (S (length p)) (poke (len p) v l) = p ++ [v].
Proof.
  intros Hp Hl. unfold poke. rewrite Nat2Z.id.
  rewrite insert_take_drop, Hp, take_app, take_ge by lia.
  by replace (S (length p) - length p)%nat with 1%nat by lia.
Qed.

Lemma msg_snoc msg b :
  (length msg mod 64 <> 63 ->
     full_blocks (msg ++ [b]) = full_blocks msg /\ msg_head (msg ++ [b]) = msg_head msg
     /\ msg_tail (msg ++ [b]) = msg_tail msg ++ [b])%nat
  /\ (length msg mod 64 = 63 ->
     full_blocks (msg ++ [b]) = S (full_blocks msg)
     /\ msg_head (msg ++ [b]) = msg_head msg ++ (msg_tail msg ++ [b])
     /\ msg_tail (msg ++ [b]) = [])%nat.
Proof.
  pose proof (Nat.div_mod_eq (length msg) 64) as E. pose proof (Nat.mod_upper_bound (length msg) 64 ltac:(lia)).
  split; intros Hm.
  - assert (full_blocks (msg ++ [b]) = full_blocks msg) as Ef.
    { unfold full_blocks. rewrite length_app. cbn [length].
      symmetry. apply (Nat.div_unique _ 64 _ (S (length msg mod 64))); lia. }
    unfold msg_head, msg_tail. rewrite Ef. split; [done|]. unfold full_blocks.
    by rewrite take_app_le, drop_app_le by lia.
  - assert (full_blocks (msg ++ [b]) = S (full_blocks msg)) as Ef.
    { unfold full_blocks. rewrite length_app. cbn [length].
      symmetry. apply (Nat.div_unique _ 64 _ 0); lia. }
    assert (length (msg ++ [b]) = 64 * S (full_blocks msg))%nat as El
      by (rewrite length_app; unfold full_blocks; cbn [length]; lia).
    unfold msg_head at 1, msg_tail at 2. rewrite Ef, <- El, firstn_all, drop_all.
    split_and!; try done. by rewrite app_assoc, msg_head_tail.
Qed.

Lemma update_byte_absorbed msg c b :
  ctx_absorbed msg c -> is_byte b -> ctx_absorbed (msg ++ [b]) (update_byte c b).
Proof.
  intros [Hd Hr Hb Hl Hs Hok Hlo Hbits] Hbb. destruct (msg_snoc msg b) as [Hnext Hfull].
  pose proof (length_msg_tail msg) as Et. pose proof (Nat.mod_upper_bound (length msg) 64 ltac:(lia)).
  assert (length (msg_tail msg) < length (data c))%nat as Hlt by lia.
  pose proof (poke_take _ _ b Hd Hlt) as Hpk. rewrite <- Hl in Hpk.
  assert (all_bytes (poke (datalen c) b (data c))) by by apply poke_bytes.
  unfold update_byte. cbn. case_decide as H64.
  - destruct Hfull as (E1 & E2 & E3); [lia|].
    rewrite take_ge in Hpk by (rewrite length_poke; lia).
    destruct (transform_compress (hstate c) (poke (datalen c) b (data c))) as [Ec Hok']; [done..|].
    set (c1 := Ctx (poke (datalen c) b (data c)) (datalen c + 1) (bitlen_lo c) (bitlen_hi c)
                 (sha256_transform (hstate c) (poke (datalen c) b (data c)))).
    destruct (addlen_bits 64 c1) as (A1 & A2 & A3 & A4 & A5); [lia|done|]. cbn in A2.
    change ((c <| data := _ |>) <| datalen := _ |> <| hstate := _ |>) with c1.
    constructor; fld; rewrite ?A3, ?A4, ?A5, ?E1, ?E2, ?E3; cbn -[Fips.absorb full_blocks msg_head msg_tail]; rewrite ?length_poke; try done.
    + rewrite Ec, Hs, Hpk. rewrite <- (Nat.add_1_r (full_blocks msg)), absorb_app by apply length_msg_head.
      cbn [Fips.absorb]. by rewrite take_ge by (rewrite length_app; cbn [length]; lia).
    + rewrite A2. rewrite <- Zplus_mod_idemp_l, Hbits, Zplus_mod_idemp_l. f_equal. lia.
  - destruct Hnext as (E1 & E2 & E3); [lia|].
    constructor; fld; rewrite ?E1, ?E2, ?E3; cbn -[full_blocks msg_head msg_tail];
      rewrite ?length_poke, ?length_app; try done.
    + cbn [length]. by rewrite Nat.add_1_r.
    + cbn [length]. lia.
Qed.

Lemma update_absorbed msg d c :
  ctx_absorbed msg c -> all_bytes d -> ctx_absorbed (msg ++ d) (sha256_update c d).
Proof.
  intros Hc Hd. revert msg c Hc. induction Hd as [|b d Hb _ IH]; intros msg c Hc; cbn.
  - by rewrite app_nil_r.
  - rewrite cons_middle, app_assoc. apply IH. by apply update_byte_absorbed.
Qed.

Lemma init_absorbed c :
  length (data c) = 64%nat -> all_bytes (data c) -> ctx_absorbed [] (sha256_init c).
Proof. intros. constructor; try done. apply IV_ok. Qed.

(** ** Finalisation *)

Lemma zero_from_spec n (l p : list Z) :
  take (length p) l = p -> (length p + n <= length l)%nat ->
  take (length p + n) (zero_from n (len p) l) = p ++ replicate n 0
  /\ length (zero_from n (len p) l) = length l.
Proof.
  revert l p. induction n as [|n IH]; intros l p Hp Hl; cbn [zero_from].
  - by rewrite Nat.add_0_r, app_nil_r.
  - replace (len p + 1) with (len (p ++ [0])) by (rewrite length_app; cbn [length]; lia).
    destruct (IH (poke (len p) 0 l) (p ++ [0])) as [E1 E2].
    + rewrite length_app. cbn [length]. rewrite Nat.add_1_r. apply poke_take; [done|lia].
    + rewrite length_app, length_poke. cbn [length]. lia.
    + rewrite E2, length_poke. split; [|done].
      replace (length p + S n)%nat with (length (p ++ [0%Z]) + n)%nat
        by (rewrite length_app; cbn [length]; lia). by rewrite E1, <- app_assoc.
Qed.

Lemma zero_from_bytes n i l : all_bytes l -> all_bytes (zero_from n i l).
Proof. revert i l. induction n; intros i l Hl; cbn; [done|]. apply IHn. by apply poke_bytes. Qed.

(** The 0x80 byte and the zeros after the buffered bytes. *)
Lemma pad_buffer (l p : list Z) e :
  take (length p) l = p -> length l = 64%nat -> all_bytes l -> (length p < e <= 64)%nat ->
  let l' := zero_from (Z.to_nat (Z.of_nat e - (len p + 1))) (len p + 1) (poke (len p) 0x80 l) in
  take e l' = p ++ [0x80] ++ replicate (e - S (length p)) 0 /\ length l' = 64%nat /\ all_bytes l'.
Proof.
  intros Hp Hl Hb He l'. subst l'.
  replace (len p + 1) with (len (p ++ [0x80])) by (rewrite length_app; cbn [length]; lia).
  replace (Z.to_nat _) with (e - S (length p))%nat by (rewrite length_app; cbn [length]; lia).
  assert (length (p ++ [0x80]) = S (length p)) as El by (rewrite length_app; cbn [length]; lia).
  destruct (zero_from_spec (e - S (length p)) (poke (len p) 0x80 l) (p ++ [0x80])) as [E1 E2].
  - rewrite El. apply poke_take; [done|lia].
  - rewrite El, length_poke. lia.
  - rewrite El in E1 at 1. replace (S (length p) + (e - S (length p)))%nat with e in E1 by lia.
    rewrite E1, E2, length_poke, <- app_assoc. split_and!; try done.
    apply zero_from_bytes, poke_bytes; [done|done].
Qed.

Lemma put_len_spec c l :
  length l = 64%nat -> put_len c l = take 56 l ++ be32 (bitlen_hi c) ++ be32 (bitlen_lo c).
Proof. intros Hl. do 65 (destruct l as [|? l]; try done). Qed.

Lemma be32_mod n : be32 (n mod 2 ^ 32) = be32 n.
Proof.
  unfold be32, u8. rewrite !Z.shiftr_div_pow2 by lia.
  change (2 ^ 32) with 4294967296. change (2 ^ 24) with 16777216. change (2 ^ 16) with 65536.
  change (2 ^ 8) with 256. do 3 (f_equal; [Z.div_mod_to_equations; lia|]).
  f_equal. Z.div_mod_to_equations. lia.
Qed.

Lemma be64_words n : Fips.be64 n = be32 (n / 2 ^ 32) ++ be32 n.
Proof.
  unfold Fips.be64, be32, u8. rewrite !Z.shiftr_div_pow2, !Z.div_div by lia.
  change (seqZ 0 8) with [0; 1; 2; 3; 4; 5; 6; 7]. cbn [fmap list_fmap].
  change (2 ^ (8 * (7 - 7))) with 1. rewrite Z.div_1_r. done.
Qed.

Lemma be64_be32 hi lo n :
  is_u32 lo -> (hi * 2 ^ 32 + lo) mod 2 ^ 64 = n mod 2 ^ 64 -> 0 <= n < 2 ^ 64 ->
  be32 hi ++ be32 lo = Fips.be64 n.
Proof.
  intros Hlo E Hn. rewrite (Z.mod_small n) in E by done.
  assert (hi mod 2 ^ 32 = n / 2 ^ 32 /\ lo = n mod 2 ^ 32) as [Eh ->].
  { unfold is_u32 in Hlo. change (2 ^ 32) with 4294967296 in *.
    change (2 ^ 64) with 18446744073709551616 in *. Z.div_mod_to_equations. lia. }
  by rewrite be32_mod, be64_words, <- Eh, be32_mod.
Qed.

Lemma replicate_bytes n : all_bytes (replicate n 0).
Proof. by apply Forall_replicate. Qed.


(** What the padded message consists of after its whole blocks. *)
Lemma pad_split msg :
  Fips.pad msg = msg_head msg ++ (msg_tail msg ++ [0x80]
    ++ replicate (Z.to_nat ((55 - len (msg_tail msg)) mod 64)) 0 ++ Fips.be64 (8 * len msg)).
Proof.
  unfold Fips.pad. rewrite <- (msg_head_tail msg) at 1. rewrite <- app_assoc.
  do 4 f_equal. rewrite length_msg_tail. f_equal. f_equal.
  pose proof (Nat.div_mod_eq (length msg) 64). rewrite Nat2Z.inj_mod.
  Z.div_mod_to_equations. lia.
Qed.

Lemma fips_blocks msg n rest :
  Fips.pad msg = msg_head msg ++ rest -> length rest = (64 * n)%nat ->
  Fips.sha256 msg = digest (Fips.absorb n (Fips.absorb (full_blocks msg) IV (msg_head msg)) rest).
Proof.
  intros E Hr. unfold Fips.sha256. rewrite E, length_app, Hr, length_msg_head.
  replace (64 * full_blocks msg + 64 * n)%nat with ((full_blocks msg + n) * 64)%nat by lia.
  rewrite Nat.div_mul by lia. by rewrite absorb_app by apply length_msg_head.
Qed.

Lemma put_len_bytes c l : length l = 64%nat -> all_bytes l -> all_bytes (put_len c l).
Proof.
  intros Hl Hb. rewrite put_len_spec by done.
  apply Forall_app; split; [by apply Forall_take|]. apply Forall_app; split; apply be32_bytes.
Qed.

(** The length the code appends. *)
Lemma final_length msg c :
  ctx_absorbed msg c -> 8 * len msg < 2 ^ 64 ->
  let c' := sha256_addlen (datalen c) c in
  be32 (bitlen_hi c') ++ be32 (bitlen_lo c') = Fips.be64 (8 * len msg).
Proof.
  intros [Hd Hr Hb Hl Hs Hok Hlo Hbits] Hn c'.
  pose proof (length_msg_tail msg) as Et. pose proof (Nat.mod_upper_bound (length msg) 64 ltac:(lia)).
  destruct (addlen_bits (datalen c) c) as (A1 & A2 & _); [lia|done|].
  apply be64_be32; [done| |split; lia]. fold c' in A2. rewrite A2.
  rewrite <- Zplus_mod_idemp_l, Hbits, Zplus_mod_idemp_l. f_equal.
  rewrite Hl, length_msg_tail. unfold full_blocks.
  pose proof (Nat.div_mod_eq (length msg) 64). lia.
Qed.

Lemma final_fips msg c :
  ctx_absorbed msg c -> 8 * len msg < 2 ^ 64 -> sha256_final c = Fips.sha256 msg.
Proof.
  intros Hc Hn. pose proof (final_length msg c Hc Hn) as Hlen. cbv zeta in Hlen.
  destruct Hc as [Hd Hr Hb Hl Hs Hok Hlo Hbits].
  pose proof (length_msg_tail msg) as Et. pose proof (Nat.mod_upper_bound (length msg) 64 ltac:(lia)) as Hm.
  destruct (addlen_bits (datalen c) c) as (_ & _ & A3 & A4 & A5); [lia|done|].
  pose proof (pad_split msg) as Hpad. set (p := msg_tail msg) in *.
  unfold sha256_final, sha256_finish. rewrite A4. revert Hlen A3 A4 A5. generalize (sha256_addlen (datalen c) c).
  intros c' Hlen A3 A4 A5. rewrite Hl in *. case_decide as H56; fld; rewrite ?A3, ?A5.
  - destruct (pad_buffer (data c) p 56) as (E1 & E2 & E3); [done..|lia|].
    change (Z.of_nat 56) with 56 in *. revert E1 E2 E3.
    generalize (zero_from (Z.to_nat (56 - (len p + 1))) (len p + 1) (poke (len p) 128 (data c))).
    intros l E1 E2 E3. symmetry.
    assert (put_len c' l = p ++ [0x80] ++ replicate (56 - S (length p)) 0 ++ Fips.be64 (8 * len msg)) as Ep.
    { rewrite put_len_spec, E1, Hlen by done. by rewrite <- !app_assoc. }
    rewrite (fips_blocks msg 1 (put_len c' l)).
    + cbn [Fips.absorb]. rewrite Hs, take_ge.
      2: { rewrite Ep, !length_app, length_replicate. change (length (Fips.be64 _)) with 8%nat. cbn [length]. lia. }
      f_equal. symmetry. eapply transform_compress; [by rewrite <- Hs|by apply put_len_bytes].
    + rewrite Hpad, Ep. do 5 f_equal. Z.div_mod_to_equations. lia.
    + rewrite Ep, !length_app, length_replicate. change (length (Fips.be64 _)) with 8%nat. cbn [length]. lia.
  - destruct (pad_buffer (data c) p 64) as (E1 & E2 & E3); [done..|lia|].
    change (Z.of_nat 64) with 64 in *. revert E1 E2 E3.
    generalize (zero_from (Z.to_nat (64 - (len p + 1))) (len p + 1) (poke (len p) 128 (data c))).
    intros l E1 E2 E3. symmetry. rewrite take_ge in E1 by lia.
    destruct (zero_from_spec 56 l []) as [F1 F2]; [done|cbn [length]; lia|].
    change (len []) with 0 in *. cbn [length plus app] in F1.
    assert (length (zero_from 56 0 l) = 64%nat) as F3 by congruence.
    assert (put_len c' (zero_from 56 0 l) = replicate 56 0 ++ Fips.be64 (8 * len msg)) as Ep
      by by rewrite put_len_spec, F1, Hlen.
    destruct (transform_compress (hstate c) l) as [T1 T2]; [done..|].
    assert (length (put_len c' (zero_from 56 0 l)) = 64%nat) as F4 by by rewrite Ep.
    rewrite (fips_blocks msg 2 (l ++ put_len c' (zero_from 56 0 l))).
    + rewrite (absorb_app 1 1), T1 by lia. rewrite Hs. cbn [Fips.absorb].
      rewrite !take_ge by lia. f_equal. symmetry.
      eapply transform_compress; [by rewrite <- Hs, <- T1|].
      apply put_len_bytes; [done|by apply zero_from_bytes].
    + rewrite Hpad, Ep, E1, <- !app_assoc. do 3 f_equal. rewrite app_assoc. f_equal.
      rewrite <- replicate_add. f_equal. rewrite Et in *. Z.div_mod_to_equations. lia.
    + by rewrite length_app, E2, F4.
Qed.

(** ** Main results *)

Lemma streamed_fips junk chunks :
  length (data junk) = 64%nat -> all_bytes (data junk) ->
  Forall all_bytes chunks -> 8 * len (concat chunks) < 2 ^ 64 ->
  sha256_final (fold_left sha256_update chunks (sha256_init junk)) = Fips.sha256 (concat chunks).
Proof.
  intros Hl Hb Hc Hn. apply final_fips; [|done].
  assert (forall msg c, ctx_absorbed msg c ->
    ctx_absorbed (msg ++ concat chunks) (fold_left sha256_update chunks c)) as H.
  { clear Hn. induction Hc as [|ch cs Hch _ IH]; intros msg c Hm; cbn; [by rewrite app_nil_r|].
    rewrite app_assoc. apply IH. by apply update_absorbed. }
  apply (H []). by apply init_absorbed.
Qed.

(** C17: however a message is cut into chunks, feeding the chunks to
    [sha256_update] between [sha256_init] and [sha256_final] yields the FIPS
    180-4 digest of their concatenation, for every initial contents of the
    context and every message whose bit length fits in 64 bits.  In particular
    both padding branches, the carry between the two words of the length and
    the block boundary in [sha256_update] are right. *)
Theorem sha256_streaming_is_fips junk chunks :
  length (data junk) = 64%nat -> all_bytes (data junk) ->
  Forall all_bytes chunks -> 8 * len (concat chunks) < 2 ^ 64 ->
  sha256_final (fold_left sha256_update chunks (sha256_init junk)) = Fips.sha256 (concat chunks).
Proof. apply streamed_fips. Qed.

Lemma sha256_streaming_witness :
  sha256_final (fold_left sha256_update [text "ab"; []; text "c"] (sha256_init ctx0)) = Fips.sha256 (text "abc").
Proof.
  apply (sha256_streaming_is_fips ctx0 [text "ab"; []; text "c"]);
    [reflexivity|apply (@Forall_replicate _ is_byte 64 0); split; [discriminate|reflexivity]| |reflexivity].
  repeat (apply Forall_cons; split; [apply text_bytes || apply Forall_nil; exact I|]).
  apply Forall_nil. exact I.
Defined.

(** The digest is 32 bytes. *)
Lemma digest_length v : length (digest v) = 32%nat.
Proof. done. Qed.
Lemma digest_bytes v : all_bytes (digest v).
Proof. unfold digest. repeat (apply Forall_app; split; [apply be32_bytes|]). apply be32_bytes. Qed.
Lemma sha256_length junk d : length (sha256 junk d) = 32%nat.
Proof. apply digest_length. Qed.
Lemma sha256_bytes junk d : all_bytes (sha256 junk d).
Proof. apply digest_bytes. Qed.
Lemma sha256_fips junk d :
  length (data junk) = 64%nat -> all_bytes (data junk) -> all_bytes d -> 8 * len d < 2 ^ 64 ->
  sha256 junk d = Fips.sha256 d.
Proof.
  intros. pose proof (streamed_fips junk [d]) as E. cbn [concat fold_left] in E.
  rewrite app_nil_r in E. apply E; try done. by apply Forall_singleton.
Qed.
