(* ===== verification/MonoLe.v ===== *)
(** * Little-endian words (src/dosshd/crypto/monocypher.c, Utilities)

    Loads and stores of 32-bit words, rotation, and what they mean as numbers. *)
From Stdlib Require Import ZArith Lia.
From stdpp Require Import base list numbers.
From S2P Require Import Prelude.
Local Open Scope Z_scope.

Definition load32_le (s : list Z) (o : Z) : option Z :=
  b0 ← rd s o; b1 ← rd s (o + 1); b2 ← rd s (o + 2); b3 ← rd s (o + 3);
  Some (Z.lor (Z.lor (Z.lor b0 (Z.shiftl b1 8)) (Z.shiftl b2 16)) (Z.shiftl b3 24)).
Definition store32_le (v : Z) : list Z :=
  [Z.land v 0xff; Z.land (Z.shiftr v 8) 0xff; Z.land (Z.shiftr v 16) 0xff; Z.land (Z.shiftr v 24) 0xff].
(** [size] words from [src + o] on. *)
Definition load32_le_buf (src : list Z) (o : Z) (size : Z) : option (list Z) :=
  mapM (fun i => load32_le src (o + i * 4)) (seqZ 0 size).
Definition store32_le_buf (src : list Z) : list Z := mjoin (store32_le <$> src).
Definition rotl32 (x n : Z) : Z := Z.lxor (u32 (Z.shiftl x n)) (Z.shiftr x (32 - n)).
(** [(~x + 1) & (pow_2 - 1)] of a 16-bit [size_t] *)
Definition gap (x pow_2 : Z) : Z := Z.land (u16 (u16 (Z.lnot x) + 1)) (pow_2 - 1).

(** ** As numbers *)

Fixpoint le_value (l : list Z) : Z := match l with [] => 0 | b :: l => b + 256 * le_value l end.
Fixpoint le_bytes (n : nat) (v : Z) : list Z := match n with O => [] | S n => v mod 256 :: le_bytes n (v / 256) end.

Lemma le_bytes_length n v : length (le_bytes n v) = n.
Proof. revert v. induction n as [|n IH]; intros v; cbn; [done|]. by rewrite IH. Qed.
Lemma le_bytes_bytes n v : all_bytes (le_bytes n v).
Proof. revert v. induction n as [|n IH]; intros v; cbn; [done|]. constructor; [apply u8_byte|apply IH]. Qed.
Lemma le_value_app l k : le_value (l ++ k) = le_value l + 256 ^ len l * le_value k.
Proof.
  induction l as [|b l IH]; [cbn; lia|]. cbn [app le_value length]. rewrite IH, Nat2Z.inj_succ, Z.pow_succ_r by lia. lia.
Qed.
Lemma le_value_range l : all_bytes l -> 0 <= le_value l < 256 ^ len l.
Proof.
  induction 1 as [|b l Hb _ IH]; [done|]. cbn [le_value length]. rewrite Nat2Z.inj_succ, Z.pow_succ_r by lia. unfold is_byte in Hb. lia.
Qed.
Lemma le_value_bytes n v : le_value (le_bytes n v) = v mod 256 ^ Z.of_nat n.
Proof.
  revert v. induction n as [|n IH]; intros v; cbn [le_bytes le_value]; [by rewrite Z.mod_1_r|].
  rewrite IH, Nat2Z.inj_succ, Z.pow_succ_r by lia. rewrite Z.rem_mul_r by lia. lia.
Qed.
Lemma le_bytes_value l : all_bytes l -> le_bytes (length l) (le_value l) = l.
Proof.
  induction 1 as [|b l Hb _ IH]; [done|]. cbn [length le_bytes le_value]. unfold is_byte in Hb.
  rewrite (Z.mul_comm 256), Z.mod_add, Z.div_add, Z.mod_small, Z.div_small by lia. by rewrite Z.add_0_l, IH.
Qed.
Lemma lxor_mod a b n : 0 <= n -> Z.lxor a b mod 2 ^ n = Z.lxor (a mod 2 ^ n) (b mod 2 ^ n).
Proof.
  intros Hn. rewrite <- !Z.land_ones by done. apply Z.bits_inj'. intros i Hi. rewrite !Z.land_spec, !Z.lxor_spec, !Z.land_spec.
  by destruct (Z.testbit a i), (Z.testbit b i), (Z.testbit (Z.ones n) i).
Qed.
Lemma le_bytes_lxor n : forall a b, le_bytes n (Z.lxor a b) = zip_with Z.lxor (le_bytes n a) (le_bytes n b).
Proof.
  induction n as [|n IH]; intros a b; cbn [le_bytes zip_with]; [done|]. rewrite <- IH. change 256 with (2 ^ 8).
  rewrite (lxor_mod a b 8), <- !Z.shiftr_div_pow2, Z.shiftr_lxor by lia. done.
Qed.
Lemma le_bytes_mod n v m : (Z.of_nat n <= m) -> le_bytes n (v mod 256 ^ m) = le_bytes n v.
Proof.
  revert v m. induction n as [|n IH]; intros v m Hm; cbn [le_bytes]; [done|].
  replace m with (Z.succ (m - 1)) by lia. rewrite Z.pow_succ_r by lia. rewrite Z.rem_mul_r by lia.
  rewrite (Z.mul_comm 256 (_ mod _)), Z.mod_add, Z.div_add, Z.mod_mod, (Z.div_small (v mod 256)) by (try apply Z.mod_pos_bound; lia).
  by rewrite Z.add_0_l, IH by lia.
Qed.

Lemma store32_le_bytes v : store32_le v = le_bytes 4 v.
Proof.
  unfold store32_le. cbn [le_bytes]. change 0xff with (Z.ones 8). rewrite !Z.land_ones, !Z.shiftr_div_pow2 by lia.
  rewrite !Z.div_div by lia. done.
Qed.
Lemma store32_u32 v : store32_le (u32 v) = store32_le v.
Proof. rewrite !store32_le_bytes. by apply (le_bytes_mod 4 v 4). Qed.

Lemma load32_le_spec s o :
  all_bytes s -> 0 <= o -> o + 4 <= len s -> load32_le s o = Some (le_value (take 4 (drop (Z.to_nat o) s))).
Proof.
  intros Hs Ho Hl.
  assert (exists a b c d r, drop (Z.to_nat o) s = a :: b :: c :: d :: r) as (a & b & c & d & r & E).
  { assert (4 <= length (drop (Z.to_nat o) s))%nat as H by (rewrite length_drop; lia).
    destruct (drop (Z.to_nat o) s) as [|a [|b [|c [|d r]]]]; cbn in H; try lia. eauto 8. }
  assert (all_bytes (drop (Z.to_nat o) s)) as Hb by (by apply Forall_drop). rewrite E in Hb.
  apply Forall_cons in Hb as [Ba Hb]. apply Forall_cons in Hb as [Bb Hb]. apply Forall_cons in Hb as [Bc Hb]. apply Forall_cons in Hb as [Bd _].
  assert (forall k x, 0 <= k < 4 -> drop (Z.to_nat o) s !! Z.to_nat k = Some x -> rd s (o + k) = Some x) as Hrd.
  { intros k x Hk Hx. unfold rd. rewrite decide_True by lia. rewrite lookup_drop in Hx.
    replace (Z.to_nat (o + k)) with (Z.to_nat o + Z.to_nat k)%nat by lia. done. }
  rewrite E in Hrd. unfold load32_le. rewrite <- (Z.add_0_r o) at 1.
  rewrite (Hrd 0 a), (Hrd 1 b), (Hrd 2 c), (Hrd 3 d) by (lia || done). cbn [mbind option_bind].
  rewrite E. cbn [take le_value]. f_equal. unfold is_byte in *.
  assert (Z.lor (Z.lor (Z.lor a (Z.shiftl b 8)) (Z.shiftl c 16)) (Z.shiftl d 24)
    = Z.lor (Z.shiftl d 24) (Z.lor (Z.shiftl c 16) (Z.lor (Z.shiftl b 8) a))) as ->.
  { rewrite (Z.lor_comm _ (Z.shiftl d 24)). f_equal. rewrite (Z.lor_comm _ (Z.shiftl c 16)). f_equal. apply Z.lor_comm. }
  rewrite (lor_shiftl_add b a 8) by lia. rewrite (lor_shiftl_add c _ 16) by lia. rewrite (lor_shiftl_add d _ 24) by lia.
  rewrite take_0. cbn [le_value]. lia.
Qed.

(** ** Words and bytes *)

(** The words of a string of bytes. *)
Fixpoint words (l : list Z) : list Z :=
  match l with a :: b :: c :: d :: l => le_value [a; b; c; d] :: words l | _ => [] end.

Lemma words_cons d n : (4 <= length d)%nat -> words (take (4 * S n) d) = le_value (take 4 d) :: words (take (4 * n) (drop 4 d)).
Proof.
  intros L. destruct d as [|a [|b [|c [|d r]]]]; cbn in L; try lia. replace (4 * S n)%nat with (S (S (S (S (4 * n))))) by lia.
  cbn [take words drop]. by rewrite take_0.
Qed.
Lemma words_length n l : length l = (4 * n)%nat -> length (words l) = n.
Proof.
  revert l. induction n as [|n IH]; intros l L; [by destruct l|].
  destruct l as [|a [|b [|c [|d l]]]]; cbn in L; try lia. cbn [words length]. f_equal. apply IH. lia.
Qed.
Lemma words_u32 n l : length l = (4 * n)%nat -> all_bytes l -> Forall is_u32 (words l).
Proof.
  revert l. induction n as [|n IH]; intros l L H; [by destruct l|].
  destruct l as [|a [|b [|c [|d l]]]]; cbn in L; try lia. cbn [words].
  apply Forall_cons in H as [Ha H]. apply Forall_cons in H as [Hb H]. apply Forall_cons in H as [Hc H]. apply Forall_cons in H as [Hd H].
  apply Forall_cons. split; [|apply IH; [lia|done]].
  assert (all_bytes [a; b; c; d]) as H4 by (repeat (apply Forall_cons; split; [done|]); done).
  pose proof (le_value_range _ H4) as R. change (256 ^ len [a; b; c; d]) with 4294967296 in R. exact R.
Qed.
Lemma load_words src o n : all_bytes src -> 0 <= o -> 0 <= n -> o + 4 * n <= len src ->
  load32_le_buf src o n = Some (words (take (4 * Z.to_nat n) (drop (Z.to_nat o) src))).
Proof.
  intros Hs Ho Hn Hl. unfold load32_le_buf.
  enough (forall (m : nat) k, 0 <= k -> o + 4 * (k + Z.of_nat m) <= len src ->
    mapM (fun i => load32_le src (o + i * 4)) (seqZ k (Z.of_nat m)) = Some (words (take (4 * m) (drop (Z.to_nat (o + 4 * k)) src)))) as H.
  { specialize (H (Z.to_nat n) 0 ltac:(lia) ltac:(lia)). rewrite Z2Nat.id in H by done. rewrite H.
    do 4 f_equal. lia. }
  induction m as [|m IH]; intros k Hk Hb; [done|]. rewrite seqZ_cons by lia.
  rewrite words_cons by (rewrite length_drop; lia). cbn [mapM mbind option_bind].
  rewrite load32_le_spec by (done || lia). rewrite drop_drop.
  replace (Z.pred (Z.of_nat (S m))) with (Z.of_nat m) by lia. cbn [mbind option_bind].
  rewrite IH by lia. cbn. do 3 f_equal.
  - do 3 f_equal. lia.
  - do 3 f_equal. lia.
Qed.
Lemma mjoin_fmap_cons {A} (f : A -> list Z) w ws : mjoin (f <$> w :: ws) = f w ++ mjoin (f <$> ws).
Proof. done. Qed.
Lemma store_buf_bytes ws : store32_le_buf ws = mjoin (le_bytes 4 <$> ws).
Proof. unfold store32_le_buf. f_equal. apply list_fmap_ext. intros. apply store32_le_bytes. Qed.

(** The number a list of 32-bit words stands for. *)
Fixpoint words_value (l : list Z) : Z := match l with [] => 0 | w :: l => w + 2 ^ 32 * words_value l end.
Lemma words_value_range l : Forall is_u32 l -> 0 <= words_value l < 2 ^ (32 * len l).
Proof.
  induction 1 as [|w l Hw _ IH]; [done|]. cbn [words_value length]. rewrite Nat2Z.inj_succ.
  replace (32 * Z.succ (len l)) with (32 + 32 * len l) by lia. rewrite Z.pow_add_r by lia. unfold is_u32 in Hw. lia.
Qed.
Lemma words_value_bytes n : forall l, length l = (4 * n)%nat -> words_value (words l) = le_value l.
Proof.
  induction n as [|n IH]; intros l L; [by destruct l|].
  destruct l as [|a [|b [|c [|d l]]]]; cbn in L; try lia. cbn [words words_value le_value]. rewrite IH by lia. ring.
Qed.
Lemma le_bytes_app n m v : le_bytes (n + m) v = le_bytes n v ++ le_bytes m (v / 256 ^ Z.of_nat n).
Proof.
  revert v. induction n as [|n IH]; intros v; [cbn; by rewrite Z.div_1_r|]. cbn [Nat.add le_bytes app]. rewrite IH.
  by rewrite Nat2Z.inj_succ, Z.pow_succ_r, Z.div_div by lia.
Qed.
