(* ===== verification/Prime25519.v ===== *)
(** * The primes of Curve25519

    2^255 - 19 is prime, by a chain of Pocklington certificates that the kernel
    evaluates.  The field files need it: an inverse is a power, a square root is
    unique up to sign, a product is zero only if a factor is. *)
From Stdlib Require Import ZArith Zmod Zstar Lia List.
Import ListNotations.
Local Open Scope bool_scope.
Local Open Scope Z_scope.

(** [a ^ e] modulo [n], by repeated squaring. *)
Fixpoint powm_pos (a : Z) (e : positive) (n : Z) : Z :=
  match e with
  | xH => a mod n
  | xO e => let x := powm_pos a e n in (x * x) mod n
  | xI e => let x := powm_pos a e n in (x * x * a) mod n
  end.
Definition powm (a e n : Z) : Z := match e with Z.pos e => powm_pos a e n | _ => 1 mod n end.

Lemma powm_pos_spec a n e : powm_pos a e n = a ^ Z.pos e mod n.
Proof.
  induction e as [e IH|e IH|]; cbn [powm_pos]; [| |now rewrite Z.pow_1_r].
  - rewrite IH. replace (Z.pos e~1) with (Z.pos e + Z.pos e + 1) by lia. rewrite !Z.pow_add_r, Z.pow_1_r by lia.
    now rewrite Zmult_mod, <- (Zmult_mod (a ^ Z.pos e) (a ^ Z.pos e)), <- Zmult_mod.
  - rewrite IH. replace (Z.pos e~0) with (Z.pos e + Z.pos e) by lia. rewrite !Z.pow_add_r by lia. now rewrite <- Zmult_mod.
Qed.
Lemma powm_spec a e n : 0 <= e -> powm a e n = a ^ e mod n.
Proof. intros. destruct e as [|e|e]; [reflexivity|apply powm_pos_spec|lia]. Qed.

(** In the units modulo a prime [r], an element whose order divides [q * k] and
    not [k] makes the prime [q] divide [r - 1]. *)
Lemma order_divides r q k a : Z.prime r -> Z.prime q -> 0 < k ->
  a ^ (q * k) mod r = 1 -> a ^ k mod r <> 1 -> (q | r - 1).
Proof.
  intros Pr Pq Hk H1 H2. destruct (Z.BoolSpec_divide q (r - 1)) as [D|D]; [exact D|exfalso; apply H2].
  pose proof (Z.prime_ge_2 _ Pr). pose proof (Z.prime_ge_2 _ Pq).
  assert (Z.coprime a r) as Ca.
  { symmetry. apply Z.coprime_prime_l; [exact Pr|]. intros Da.
    assert (a ^ (q * k) mod r = 0) as E; [|lia]. apply Z.mod_divide; [lia|].
    replace (q * k) with (1 + (q * k - 1)) by lia. rewrite Z.pow_add_r, Z.pow_1_r by nia. now apply Z.divide_mul_l. }
  set (A := Zstar.of_Zmod (Zmod.of_Z r a)).
  assert (forall e, 0 <= e -> Zmod.to_Z (Zstar.to_Zmod (Zstar.pow A e)) = a ^ e mod r) as HA.
  { intros e He. unfold A. rewrite Zstar.to_Zmod_pow, Zstar.to_Zmod_of_Zmod, Zmod.to_Z_pow_nonneg_r, Zmod.to_Z_of_Z by
      (exact He || (rewrite Zmod.to_Z_of_Z; now apply Z.coprime_mod_l_iff)). apply Z.mod_pow_l. }
  assert (Zstar.pow A (q * k) = Zstar.one) as O1.
  { apply Zstar.to_Zmod_inj, Zmod.to_Z_inj. rewrite HA, Zstar.to_Zmod_1, Zmod.to_Z_1_pos by nia. exact H1. }
  assert (Zstar.pow A (r - 1) = Zstar.one) as O2 by (rewrite <- (Zstar.fermat A Pr); f_equal; lia).
  destruct (proj1 (Z.Bezout_coprime_iff _ _) (Z.coprime_prime_l _ _ Pq D)) as (u & v & E).
  rewrite <- HA by lia. replace k with (q * k * u + (r - 1) * (k * v)) by (transitivity (k * (u * q + v * (r - 1))); [ring|rewrite E; ring]).
  rewrite Zstar.pow_add_r, (Zstar.pow_mul_r A (q * k)), (Zstar.pow_mul_r A (r - 1)), O1, O2, !Zstar.pow_1_l, Zstar.mul_1_l, Zstar.to_Zmod_1. apply Zmod.to_Z_1_pos. lia.
Qed.

(** Every integer above 1 has a prime divisor, and a composite one has a prime
    divisor no greater than its square root. *)
Lemma prime_divisor n : 1 < n -> exists r, Z.prime r /\ (r | n).
Proof.
  intros Hn. assert (0 <= n) as H0 by lia. revert Hn. pattern n. apply Z_lt_induction; [|exact H0]. clear n H0. intros n IH Hn.
  destruct (Znumtheory.prime_dec n) as [P|P].
  - exists n. split; [|apply Z.divide_refl]. apply Znumtheory.prime_alt in P. exact P.
  - destruct (Znumtheory.not_prime_divide n Hn P) as (d & Hd & D). destruct (IH d ltac:(lia) ltac:(lia)) as (r & Pr & Dr).
    exists r. split; [exact Pr|]. now apply Z.divide_trans with d.
Qed.
Lemma small_prime_divisor n : 1 < n -> ~ Z.prime n -> exists r, Z.prime r /\ (r | n) /\ r * r <= n.
Proof.
  intros Hn P. assert (exists d, 1 < d < n /\ (d | n)) as (d & Hd & D).
  { destruct (Znumtheory.prime_dec n) as [Q|Q]; [apply Znumtheory.prime_alt in Q; contradiction|].
    now apply Znumtheory.not_prime_divide. }
  destruct D as [e E]. assert (1 < e < n) by nia.
  destruct (Z.le_gt_cases d e).
  - destruct (prime_divisor d ltac:(lia)) as (r & Pr & Dr). exists r. split; [exact Pr|]. split; [apply Z.divide_trans with d; [exact Dr|now exists e]|].
    apply Z.divide_pos_le in Dr; [|lia]. pose proof (Z.prime_ge_2 _ Pr). nia.
  - destruct (prime_divisor e ltac:(lia)) as (r & Pr & Dr). exists r. split; [exact Pr|]. split; [apply Z.divide_trans with e; [exact Dr|exists d; lia]|].
    apply Z.divide_pos_le in Dr; [|lia]. pose proof (Z.prime_ge_2 _ Pr). nia.
Qed.

(** ** Certificates *)

(** Trial division. *)
Fixpoint no_divisor (n d : Z) (fuel : nat) : bool :=
  match fuel with
  | O => false
  | S fuel => if n <? d * d then true else negb (n mod d =? 0) && no_divisor n (d + 1) fuel
  end.
Lemma no_divisor_spec n fuel : forall d, 1 < d -> no_divisor n d fuel = true -> forall e, d <= e -> e * e <= n -> ~ (e | n).
Proof.
  induction fuel as [|fuel IH]; intros d Hd H e He Hn D; cbn in H; [discriminate|].
  destruct (Z.ltb_spec n (d * d)); [nia|]. apply andb_prop in H as [H1 H2]. destruct (Z.eq_dec e d) as [->|].
  - apply Z.mod_divide in D; [|lia]. rewrite D in H1. discriminate.
  - apply (IH (d + 1) ltac:(lia) H2 e ltac:(lia) Hn D).
Qed.
Lemma trial n fuel : (1 <? n) && no_divisor n 2 fuel = true -> Z.prime n.
Proof.
  intros [H1 H2]%andb_prop. apply Z.ltb_lt in H1.
  destruct (Znumtheory.prime_dec n) as [Q|Q]; [apply Znumtheory.prime_alt in Q; exact Q|].
  assert (~ Z.prime n) as N by (intros P; apply Q, Znumtheory.prime_alt, P).
  destruct (small_prime_divisor n H1 N) as (r & Pr & Dr & Hr). pose proof (Z.prime_ge_2 _ Pr).
  now destruct (no_divisor_spec n fuel 2 ltac:(lia) H2 r ltac:(lia) Hr).
Qed.

(** Pocklington: [qs] are distinct primes that divide [n - 1], their product is
    above the square root of [n], and [a] has the order to show it.  The powers
    share the base [b = a ^ ((n - 1) / f)]. *)
Definition pocklington (n a : Z) (qs : list Z) : bool :=
  let f := fold_right Z.mul 1 qs in
  let b := powm a ((n - 1) / f) n in
  (1 <? n) && (n <? f * f) && ((n - 1) mod f =? 0) && (powm b f n =? 1)
  && forallb (fun q => (f mod q =? 0) && (Z.gcd (powm b (f / q) n - 1) n =? 1)) qs.

Lemma coprime_primes p q : Z.prime p -> Z.prime q -> p <> q -> Z.coprime p q.
Proof.
  intros Pp Pq N. apply Z.coprime_prime_l; [exact Pp|]. intros D. apply Z.divide_prime_r in D; [|exact Pq].
  pose proof (Z.prime_ge_2 _ Pp). pose proof (Z.prime_ge_2 _ Pq). lia.
Qed.
Lemma divide_product qs m : Forall Z.prime qs -> NoDup qs -> Forall (fun q => (q | m)) qs -> (fold_right Z.mul 1 qs | m).
Proof.
  induction qs as [|q qs IH]; intros P N D; cbn; [apply Z.divide_1_l|].
  inversion P as [|? ? P1 P2]. inversion N as [|? ? N1 N2]. inversion D as [|? ? D1 D2]. subst.
  destruct (IH P2 N2 D2) as [c E]. rewrite E in D1 |- *. apply Z.mul_divide_mono_r. apply Z.gauss with (fold_right Z.mul 1 qs); [now rewrite Z.mul_comm|].
  assert (forall l, Forall Z.prime l -> ~ In q l -> Z.coprime q (fold_right Z.mul 1 l)) as C; [|now apply C].
  clear - P1. induction l as [|x l IH]; intros F I; cbn; [apply Z.coprime_1_r|]. inversion F; subst.
  apply Z.coprime_mul_r; [apply coprime_primes; [easy..|]; intros ->; apply I; now left|apply IH; [easy|]; intros J; apply I; now right].
Qed.
Theorem pocklington_prime n a qs : Forall Z.prime qs -> NoDup qs -> pocklington n a qs = true -> Z.prime n.
Proof.
  unfold pocklington. set (f := fold_right Z.mul 1 qs). intros P N H.
  apply andb_prop in H as [H Hq]. apply andb_prop in H as [H H4]. apply andb_prop in H as [H H3]. apply andb_prop in H as [H1 H2].
  apply Z.ltb_lt in H1, H2. apply Z.eqb_eq in H3, H4.
  assert (0 < f) as Hf.
  { unfold f. clear - P. induction P as [|q qs P _ IH]; cbn; [lia|]. pose proof (Z.prime_ge_2 _ P). nia. }
  apply Z.mod_divide in H3; [|lia]. destruct H3 as [k Ek]. assert (0 < k) as Hk by nia.
  rewrite Ek, Z.div_mul in H4, Hq by lia. set (b := powm a k n) in *. rewrite powm_spec in H4 by lia.
  destruct (Znumtheory.prime_dec n) as [Q|Q]; [apply Znumtheory.prime_alt in Q; exact Q|exfalso].
  assert (~ Z.prime n) as NP by (intros Pn; apply Q, Znumtheory.prime_alt, Pn).
  destruct (small_prime_divisor n H1 NP) as (r & Pr & Dr & Hr). pose proof (Z.prime_ge_2 _ Pr).
  assert (forall x, x mod n = 1 -> x mod r = 1) as Hmod.
  { intros x Hx. destruct Dr as [c ->]. rewrite (Z.div_mod x (c * r)), Hx by nia.
    replace (c * r * (x / (c * r)) + 1) with (1 + (c * (x / (c * r))) * r) by ring. rewrite Z.mod_add, Z.mod_1_l; lia. }
  assert (f | r - 1) as D; [|apply Z.divide_pos_le in D; nia].
  apply divide_product; [exact P|exact N|]. rewrite Forall_forall in *. rewrite forallb_forall in Hq. intros q I.
  specialize (Hq q I). specialize (P q I). pose proof (Z.prime_ge_2 _ P). apply andb_prop in Hq as [Q1 Q2]. apply Z.eqb_eq in Q1, Q2.
  apply Z.mod_divide in Q1; [|lia]. destruct Q1 as [j Ej]. rewrite Ej, Z.div_mul in Q2 by lia. assert (0 < j) by nia.
  rewrite powm_spec in Q2 by lia.
  apply (order_divides r q j b Pr P); [easy|rewrite Z.mul_comm, <- Ej; now apply Hmod|].
  intros E. assert (r | 1) as D1; [|apply Z.divide_pos_le in D1; lia].
  rewrite <- Q2. apply Z.gcd_greatest; [|exact Dr].
  destruct Dr as [c Ec]. rewrite Z.mod_eq by lia. apply Z.mod_divide; [lia|].
  generalize (b ^ j / n). intros y. assert (n * y = c * r * y) as E3 by now rewrite <- Ec.
  replace (b ^ j - n * y - 1) with (b ^ j - 1 + (- (c * y)) * r) by lia.
  rewrite Z.mod_add, Zminus_mod, E, Z.mod_1_l by lia. reflexivity.
Qed.

Ltac pock a qs := apply (pocklington_prime _ a qs); [repeat first [apply Forall_nil|apply Forall_cons]|repeat constructor; cbn; intuition discriminate|vm_cast_no_check (eq_refl true)].
Ltac by_trial k := apply (trial _ k); vm_cast_no_check (eq_refl true).

Definition p25519 : Z := 2 ^ 255 - 19.

Lemma prime_a : Z.prime 75445702479781427272750846543864801.
Proof.
  pock 2 [1919519569386763; 72106336199].
  - pock 2 [8574133; 127]; [by_trial 3000%nat|by_trial 20%nat].
  - pock 2 [2773320623]. pock 2 [569003]. by_trial 1000%nat.
Qed.
Lemma prime_b : Z.prime 74058212732561358302231226437062788676166966415465897661863160754340907.
Proof. pock 2 [75445702479781427272750846543864801; 1923133]; [exact prime_a|by_trial 2000%nat]. Qed.
Theorem p25519_prime : Z.prime p25519.
Proof. pock 2 [74058212732561358302231226437062788676166966415465897661863160754340907]. exact prime_b. Qed.
#[export] Existing Instance p25519_prime.
