(* ===== verification/Field25519.v ===== *)
(** * The field of 2^255 - 19 elements

    Powers, square roots and inverses in [Zmod p25519]: what the
    exponentiations of crypto/monocypher.c compute. *)
From Stdlib Require Import ZArith Zmod Lia Field.
From stdpp Require Import base.
From S2P Require Import Prelude Prime25519.
Local Open Scope Z_scope.

Abbreviation F := (Zmod p25519).
Abbreviation of_Z := (Zmod.of_Z p25519).

Add Field F25519 : (Zmod.field_theory p25519 p25519_prime).

#[export] Instance F_eq_dec : EqDecision F.
Proof.
  intros x y. destruct (Z.eq_dec (Zmod.to_Z x) (Zmod.to_Z y)) as [E|E]; [left; by apply Zmod.to_Z_inj|right; by intros ->].
Defined.

Local Open Scope Zmod_scope.
Implicit Types x y z : F.

Lemma F_one_zero : (1 : F) <> 0.
Proof. apply Zmod.one_neq_zero. done. Qed.
Lemma F_mul_zero x y : x * y = 0 <-> x = 0 \/ y = 0.
Proof. apply Zmod.mul_0_iff_prime, p25519_prime. Qed.
Lemma F_cancel x y z : x <> 0 -> x * y = x * z -> y = z.
Proof. apply Zmod.mul_cancel_l_prime, p25519_prime. Qed.
Lemma F_square_eq x y : x * x = y * y <-> x = y \/ x = - y.
Proof. rewrite <- !Zmod.pow_2_r. apply Zmod.square_roots_opp_prime, p25519_prime. Qed.
Lemma F_inv x : x <> 0 -> x * Zmod.inv x = 1.
Proof. intros H. by apply Zmod.mul_inv_same_r_prime; [apply p25519_prime|]. Qed.

(** *** Powers *)

(** Comparisons of closed integers. *)
Ltac closed_le := apply Z.leb_le; vm_compute; reflexivity.

Lemma pow_add x (a b : Z) : (0 <= a)%Z -> (0 <= b)%Z -> x ^ a * x ^ b = x ^ (a + b).
Proof. intros. by rewrite Zmod.pow_add_r_nonneg. Qed.
Lemma pow_pow x (a b : Z) : (0 <= a)%Z -> (0 <= b)%Z -> (x ^ a) ^ b = x ^ (a * b).
Proof. intros. by rewrite Zmod.pow_mul_r_nonneg. Qed.
Lemma pow_prod x y (a : Z) : (0 <= a)%Z -> (x * y) ^ a = x ^ a * y ^ a.
Proof. intros. by rewrite Zmod.pow_mul_l_nonneg. Qed.
Lemma pow_one (a : Z) : (1 : F) ^ a = 1.
Proof. apply Zmod.pow_1_l. Qed.

(** [x ^ (p - 2)] is the inverse, and 0 for 0. *)
Lemma pow_inverse x : x <> 0 -> x ^ (p25519 - 2) = Zmod.inv x.
Proof. intros H. by apply Zmod.fermat_inv; [|apply p25519_prime]. Qed.
Lemma pow_order x : x <> 0 -> x ^ (p25519 - 1) = 1.
Proof. intros H. rewrite <- (Zmod.fermat_nz x H p25519_prime). f_equal. Qed.

(** *** Square roots *)

(** The constant [sqrtm1] of the code. *)
Definition root_m1 : F := of_Z 19681161376707505956807079304988542015446066515923890162744021073123829784752.
Lemma root_m1_square : root_m1 * root_m1 = - (1).
Proof. unfold root_m1. apply Zmod.to_Z_inj. vm_compute. reflexivity. Qed.

Definition is_square x : Prop := exists r, r * r = x.

(** Euler's criterion: the power (p - 1) / 2 of a square is 1. *)
Lemma square_power x : x <> 0 -> is_square x -> x ^ ((p25519 - 1) / 2)%Z = 1.
Proof.
  intros H [r <-]. assert (r <> 0) as Hr by (intros ->; apply H; apply Zmod.mul_0_l).
  rewrite <- Zmod.pow_2_r, pow_pow by closed_le. rewrite <- (pow_order r Hr). f_equal.
Qed.

(** The quartic character: the power (p - 1) / 4 of a nonzero element is one of the
    four roots of unity, and says whether the element is a square. *)
Lemma quartic_cases x : x <> 0 ->
  let q := x ^ ((p25519 - 1) / 4)%Z in
  (is_square x /\ (q = 1 \/ q = - (1))) \/ (~ is_square x /\ (q = root_m1 \/ q = - root_m1)).
Proof.
  intros H q. set (t := x ^ ((p25519 - 5) / 8)%Z).
  assert (q = t * t * x) as Eq.
  { unfold q, t. rewrite <- (Zmod.pow_1_r x) at 4. rewrite !pow_add by closed_le. f_equal. }
  assert (q * q = x ^ ((p25519 - 1) / 2)%Z) as Eh by (unfold q; rewrite pow_add by closed_le; f_equal).
  clearbody q t.
  assert (q * q = 1 \/ q * q = - (1)) as [E|E].
  { apply F_square_eq. rewrite Eh, pow_add by closed_le. rewrite Zmod.mul_1_l. by apply pow_order. }
  - left. assert (q = 1 \/ q = - (1)) as C by (apply F_square_eq; rewrite E; ring). split; [|exact C].
    exists (q * Zmod.inv t * (if decide (q = 1) then 1 else root_m1)).
    assert (t <> 0) as Ht. { intros Et. rewrite Et in Eq. apply F_one_zero. rewrite <- E, Eq. ring. }
    pose proof root_m1_square as Hm. destruct (decide (q = 1)) as [E1|E1].
    + rewrite E1 in *. apply (F_cancel (t * t)); [rewrite F_mul_zero; tauto|]. rewrite <- Eq. field. done.
    + destruct C as [C|C]; [contradiction|]. rewrite C in *. apply (F_cancel (t * t)); [rewrite F_mul_zero; tauto|]. rewrite <- Eq.
      transitivity (root_m1 * root_m1); [field; done|exact Hm].
  - right. split.
    + intros Sq. apply F_one_zero. pose proof (square_power x H Sq) as P. rewrite <- Eh, E in P.
      exfalso. apply (f_equal Zmod.to_Z) in P. vm_compute in P. discriminate.
    + apply F_square_eq. by rewrite E, root_m1_square.
Qed.
