(* ===== verification/Fe.v ===== *)
(** * Arithmetic modulo 2^255 - 19 (src/dosshd/crypto/monocypher.c)

    A field element is ten signed limbs of alternately 26 and 25 bits.  Products
    are 64-bit sums, carried back to small limbs by [FE_CARRY].  The model wraps
    at every assignment; the theorems show that on the limbs the callers use
    nothing wraps, that the carried limbs are small again, and what each operation
    computes modulo 2^255 - 19. *)
From Stdlib Require Import ZArith Zmod Lia.
From stdpp Require Import base list numbers.
From S2P Require Import Prelude MonoLe Prime25519 Field25519.
Local Open Scope Z_scope.

(** 64-bit signed arithmetic. *)
Definition s64 (x : Z) : Z := (x + 9223372036854775808) mod 18446744073709551616 - 9223372036854775808.

Lemma s64_id x : -9223372036854775808 <= x < 9223372036854775808 -> s64 x = x.
Proof. intros H. unfold s64. rewrite Z.mod_small; lia. Qed.
Lemma s32_id x : -2147483648 <= x < 2147483648 -> s32 x = x.
Proof. intros H. unfold s32. rewrite Z.mod_small; lia. Qed.

(** ** Data *)

(** An [fe] is ten [i32] *)
Record fe := Fe { h0 : Z; h1 : Z; h2 : Z; h3 : Z; h4 : Z; h5 : Z; h6 : Z; h7 : Z; h8 : Z; h9 : Z }.

Definition fe_map (k : Z -> Z) (f : fe) : fe :=
  Fe (k (h0 f)) (k (h1 f)) (k (h2 f)) (k (h3 f)) (k (h4 f)) (k (h5 f)) (k (h6 f)) (k (h7 f)) (k (h8 f)) (k (h9 f)).
Definition fe_map2 (k : Z -> Z -> Z) (f g : fe) : fe :=
  Fe (k (h0 f) (h0 g)) (k (h1 f) (h1 g)) (k (h2 f) (h2 g)) (k (h3 f) (h3 g)) (k (h4 f) (h4 g))
     (k (h5 f) (h5 g)) (k (h6 f) (h6 g)) (k (h7 f) (h7 g)) (k (h8 f) (h8 g)) (k (h9 f) (h9 g)).

Definition fe_0 : fe := Fe 0 0 0 0 0 0 0 0 0 0.
Definition fe_1 : fe := Fe 1 0 0 0 0 0 0 0 0 0.
Definition sqrtm1 : fe := Fe (-32595792) (-7943725) 9377950 3500415 12389472 (-272473) (-25146209) (-2005654) 326686 11406482.
Definition fe_neg (f : fe) : fe := fe_map (fun x => s32 (- x)) f.
Definition fe_add (f g : fe) : fe := fe_map2 (fun x y => s32 (x + y)) f g.
Definition fe_sub (f g : fe) : fe := fe_map2 (fun x y => s32 (x - y)) f g.

(** [x = (f ^ g) & mask], then [f ^ x] and [g ^ x]. *)
Definition fe_cswap (f g : fe) (b : Z) : fe * fe :=
  let mask := s32 (- b) in
  let x := fe_map2 (fun a c => Z.land (Z.lxor a c) mask) f g in
  (fe_map2 Z.lxor f x, fe_map2 Z.lxor g x).
Definition fe_ccopy (f g : fe) (b : Z) : fe :=
  let mask := s32 (- b) in
  let x := fe_map2 (fun a c => Z.land (Z.lxor a c) mask) f g in
  fe_map2 Z.lxor f x.

(** One line of [FE_CARRY]: [c = (t + (1 << (w - 1))) >> w; t -= c * (1 << w); u += c * m]. *)
Definition carry (w m t u : Z) : Z * Z :=
  let c := Z.shiftr (s64 (t + Z.shiftl 1 (w - 1))) w in
  (s64 (t - s64 (c * Z.shiftl 1 w)), s64 (u + s64 (c * m))).

(** [FE_CARRY] *)
Definition fe_carry (t : fe) : fe :=
  let '(Fe t0 t1 t2 t3 t4 t5 t6 t7 t8 t9) := t in
  let '(t0, t1) := carry 26 1 t0 t1 in
  let '(t4, t5) := carry 26 1 t4 t5 in
  let '(t1, t2) := carry 25 1 t1 t2 in
  let '(t5, t6) := carry 25 1 t5 t6 in
  let '(t2, t3) := carry 26 1 t2 t3 in
  let '(t6, t7) := carry 26 1 t6 t7 in
  let '(t3, t4) := carry 25 1 t3 t4 in
  let '(t7, t8) := carry 25 1 t7 t8 in
  let '(t4, t5) := carry 26 1 t4 t5 in
  let '(t8, t9) := carry 26 1 t8 t9 in
  let '(t9, t0) := carry 25 19 t9 t0 in
  let '(t0, t1) := carry 26 1 t0 t1 in
  fe_map s32 (Fe t0 t1 t2 t3 t4 t5 t6 t7 t8 t9).

Definition load24_le (s : list Z) (o : Z) : option Z :=
  b0 ← rd s o; b1 ← rd s (o + 1); b2 ← rd s (o + 2);
  Some (Z.lor (Z.lor b0 (Z.shiftl b1 8)) (Z.shiftl b2 16)).

Definition fe_frombytes_mask (s : list Z) (nb_mask : Z) : option fe :=
  let mask := Z.shiftr 0xffffff nb_mask in
  t0 ← load32_le s 0;
  t1 ← load24_le s 4; let t1 := u32 (Z.shiftl t1 6) in
  t2 ← load24_le s 7; let t2 := u32 (Z.shiftl t2 5) in
  t3 ← load24_le s 10; let t3 := u32 (Z.shiftl t3 3) in
  t4 ← load24_le s 13; let t4 := u32 (Z.shiftl t4 2) in
  t5 ← load32_le s 16;
  t6 ← load24_le s 20; let t6 := u32 (Z.shiftl t6 7) in
  t7 ← load24_le s 23; let t7 := u32 (Z.shiftl t7 5) in
  t8 ← load24_le s 26; let t8 := u32 (Z.shiftl t8 4) in
  t9 ← load24_le s 29; let t9 := u32 (Z.shiftl (Z.land t9 mask) 2) in
  Some (fe_carry (Fe t0 t1 t2 t3 t4 t5 t6 t7 t8 t9)).
Definition fe_frombytes (s : list Z) : option fe := fe_frombytes_mask s 1.

(** The limbs with their widths. *)
Definition limbs (h : fe) : list (Z * Z) :=
  [(h0 h, 26); (h1 h, 25); (h2 h, 26); (h3 h, 25); (h4 h, 26); (h5 h, 25); (h6 h, 26); (h7 h, 25); (h8 h, 26); (h9 h, 25)].
(** The first loop of [fe_tobytes]: [q += t; q >>= w]. *)
Definition sign_loop (l : list (Z * Z)) (q : Z) : Z := fold_left (fun q '(t, w) => Z.shiftr (s32 (q + t)) w) l q.
(** The second: [t += q; q = t >> w; t -= q * (1 << w)]. *)
Fixpoint reduce_loop (l : list (Z * Z)) (q : Z) : list Z :=
  match l with
  | [] => []
  | (t, w) :: l => let t := s32 (t + q) in let q := Z.shiftr t w in s32 (t - s32 (q * Z.shiftl 1 w)) :: reduce_loop l q
  end.
Definition fe_tobytes (h : fe) : list Z :=
  let q := Z.shiftr (s32 (s32 (19 * h9 h) + Z.shiftl 1 24)) 25 in
  let q := s32 (sign_loop (limbs h) q * 19) in
  match reduce_loop (limbs h) q with
  | [t0; t1; t2; t3; t4; t5; t6; t7; t8; t9] =>
      store32_le (Z.lor (Z.shiftr (u32 t0) 0) (u32 (Z.shiftl (u32 t1) 26)))
      ++ store32_le (Z.lor (Z.shiftr (u32 t1) 6) (u32 (Z.shiftl (u32 t2) 19)))
      ++ store32_le (Z.lor (Z.shiftr (u32 t2) 13) (u32 (Z.shiftl (u32 t3) 13)))
      ++ store32_le (Z.lor (Z.shiftr (u32 t3) 19) (u32 (Z.shiftl (u32 t4) 6)))
      ++ store32_le (Z.lor (Z.shiftr (u32 t5) 0) (u32 (Z.shiftl (u32 t6) 25)))
      ++ store32_le (Z.lor (Z.shiftr (u32 t6) 7) (u32 (Z.shiftl (u32 t7) 19)))
      ++ store32_le (Z.lor (Z.shiftr (u32 t7) 13) (u32 (Z.shiftl (u32 t8) 12)))
      ++ store32_le (Z.lor (Z.shiftr (u32 t8) 20) (u32 (Z.shiftl (u32 t9) 6)))
  | _ => []
  end.

Definition fe_mul_small (f : fe) (g : Z) : fe := fe_carry (fe_map (fun x => s64 (x * g)) f).

(** The ten sums of [fe_mul] and of [fe_sq], before the carry. *)
Definition fe_mul_wide (f g : fe) : fe :=
  let '(Fe f0 f1 f2 f3 f4 f5 f6 f7 f8 f9) := f in let '(Fe g0 g1 g2 g3 g4 g5 g6 g7 g8 g9) := g in
  let F1 := s32 (f1 * 2) in let F3 := s32 (f3 * 2) in let F5 := s32 (f5 * 2) in let F7 := s32 (f7 * 2) in let F9 := s32 (f9 * 2) in
  let G1 := s32 (g1 * 19) in let G2 := s32 (g2 * 19) in let G3 := s32 (g3 * 19) in let G4 := s32 (g4 * 19) in let G5 := s32 (g5 * 19) in
  let G6 := s32 (g6 * 19) in let G7 := s32 (g7 * 19) in let G8 := s32 (g8 * 19) in let G9 := s32 (g9 * 19) in
  let t0 := s64 (f0 * g0 + F1 * G9 + f2 * G8 + F3 * G7 + f4 * G6
             + F5 * G5 + f6 * G4 + F7 * G3 + f8 * G2 + F9 * G1) in
  let t1 := s64 (f0 * g1 + f1 * g0 + f2 * G9 + f3 * G8 + f4 * G7
             + f5 * G6 + f6 * G5 + f7 * G4 + f8 * G3 + f9 * G2) in
  let t2 := s64 (f0 * g2 + F1 * g1 + f2 * g0 + F3 * G9 + f4 * G8
             + F5 * G7 + f6 * G6 + F7 * G5 + f8 * G4 + F9 * G3) in
  let t3 := s64 (f0 * g3 + f1 * g2 + f2 * g1 + f3 * g0 + f4 * G9
             + f5 * G8 + f6 * G7 + f7 * G6 + f8 * G5 + f9 * G4) in
  let t4 := s64 (f0 * g4 + F1 * g3 + f2 * g2 + F3 * g1 + f4 * g0
             + F5 * G9 + f6 * G8 + F7 * G7 + f8 * G6 + F9 * G5) in
  let t5 := s64 (f0 * g5 + f1 * g4 + f2 * g3 + f3 * g2 + f4 * g1
             + f5 * g0 + f6 * G9 + f7 * G8 + f8 * G7 + f9 * G6) in
  let t6 := s64 (f0 * g6 + F1 * g5 + f2 * g4 + F3 * g3 + f4 * g2
             + F5 * g1 + f6 * g0 + F7 * G9 + f8 * G8 + F9 * G7) in
  let t7 := s64 (f0 * g7 + f1 * g6 + f2 * g5 + f3 * g4 + f4 * g3
             + f5 * g2 + f6 * g1 + f7 * g0 + f8 * G9 + f9 * G8) in
  let t8 := s64 (f0 * g8 + F1 * g7 + f2 * g6 + F3 * g5 + f4 * g4
             + F5 * g3 + f6 * g2 + F7 * g1 + f8 * g0 + F9 * G9) in
  let t9 := s64 (f0 * g9 + f1 * g8 + f2 * g7 + f3 * g6 + f4 * g5
             + f5 * g4 + f6 * g3 + f7 * g2 + f8 * g1 + f9 * g0) in
  Fe t0 t1 t2 t3 t4 t5 t6 t7 t8 t9.
Definition fe_mul (f g : fe) : fe := fe_carry (fe_mul_wide f g).

Definition fe_sq_wide (f : fe) : fe :=
  let '(Fe f0 f1 f2 f3 f4 f5 f6 f7 f8 f9) := f in
  let f0_2 := s32 (f0 * 2) in let f1_2 := s32 (f1 * 2) in let f2_2 := s32 (f2 * 2) in let f3_2 := s32 (f3 * 2) in
  let f4_2 := s32 (f4 * 2) in let f5_2 := s32 (f5 * 2) in let f6_2 := s32 (f6 * 2) in let f7_2 := s32 (f7 * 2) in
  let f5_38 := s32 (f5 * 38) in let f6_19 := s32 (f6 * 19) in let f7_38 := s32 (f7 * 38) in let f8_19 := s32 (f8 * 19) in let f9_38 := s32 (f9 * 38) in
  let t0 := s64 (f0 * f0 + f1_2 * f9_38 + f2_2 * f8_19
             + f3_2 * f7_38 + f4_2 * f6_19 + f5 * f5_38) in
  let t1 := s64 (f0_2 * f1 + f2 * f9_38 + f3_2 * f8_19
             + f4 * f7_38 + f5_2 * f6_19) in
  let t2 := s64 (f0_2 * f2 + f1_2 * f1 + f3_2 * f9_38
             + f4_2 * f8_19 + f5_2 * f7_38 + f6 * f6_19) in
  let t3 := s64 (f0_2 * f3 + f1_2 * f2 + f4 * f9_38
             + f5_2 * f8_19 + f6 * f7_38) in
  let t4 := s64 (f0_2 * f4 + f1_2 * f3_2 + f2 * f2
             + f5_2 * f9_38 + f6_2 * f8_19 + f7 * f7_38) in
  let t5 := s64 (f0_2 * f5 + f1_2 * f4 + f2_2 * f3
             + f6 * f9_38 + f7_2 * f8_19) in
  let t6 := s64 (f0_2 * f6 + f1_2 * f5_2 + f2_2 * f4
             + f3_2 * f3 + f7_2 * f9_38 + f8 * f8_19) in
  let t7 := s64 (f0_2 * f7 + f1_2 * f6 + f2_2 * f5
             + f3_2 * f4 + f8 * f9_38) in
  let t8 := s64 (f0_2 * f8 + f1_2 * f7_2 + f2_2 * f6
             + f3_2 * f5_2 + f4 * f4 + f9 * f9_38) in
  let t9 := s64 (f0_2 * f9 + f1_2 * f8 + f2_2 * f7
             + f3_2 * f6 + f4 * f5_2) in
  Fe t0 t1 t2 t3 t4 t5 t6 t7 t8 t9.
Definition fe_sq (f : fe) : fe := fe_carry (fe_sq_wide f).
(** ** Values and bounds *)

Definition fe_val (h : fe) : Z :=
  h0 h + 2 ^ 26 * h1 h + 2 ^ 51 * h2 h + 2 ^ 77 * h3 h + 2 ^ 102 * h4 h
  + 2 ^ 128 * h5 h + 2 ^ 153 * h6 h + 2 ^ 179 * h7 h + 2 ^ 204 * h8 h + 2 ^ 230 * h9 h.
(** The field element a limb vector stands for. *)
Definition feval (h : fe) : Zmod p25519 := Zmod.of_Z p25519 (fe_val h).

(** All even limbs below [e], all odd limbs below [o], in absolute value. *)
Definition bounded (e o : Z) (h : fe) : Prop :=
  (Z.abs (h0 h) < e /\ Z.abs (h2 h) < e /\ Z.abs (h4 h) < e /\ Z.abs (h6 h) < e /\ Z.abs (h8 h) < e)
  /\ (Z.abs (h1 h) < o /\ Z.abs (h3 h) < o /\ Z.abs (h5 h) < o /\ Z.abs (h7 h) < o /\ Z.abs (h9 h) < o).
(** 1.1 * 2^25 and 1.1 * 2^24, rounded up: what [FE_CARRY] promises. *)
Definition tight : fe -> Prop := bounded 36909876 18454938.
(** 1.65 * 2^26 and 1.65 * 2^25, rounded up: what the products accept. *)
Definition loose : fe -> Prop := bounded 110729626 55364813.

Lemma tight_loose h : tight h -> loose h.
Proof. unfold tight, loose, bounded. lia. Qed.
#[local] Hint Resolve tight_loose : core.

Lemma carry_spec w m t u T U :
  (25 <=? w) && (w <=? 26) && (1 <=? m) && (m <=? 19) && (T <=? 2 ^ 62 + 2 ^ 50) && (U <=? 2 ^ 62 + 2 ^ 50) = true ->
  Z.abs t <= T -> Z.abs u <= U ->
  exists c t' u', carry w m t u = (t', u') /\ t' = t - c * 2 ^ w /\ u' = u + c * m
    /\ Z.abs t' <= 2 ^ (w - 1) /\ Z.abs u' <= U + (T / 2 ^ w + 1) * m.
Proof.
  intros H Ht Hu. repeat (apply andb_prop in H as [H ?%Z.leb_le]). apply Z.leb_le in H.
  unfold carry. rewrite !Z.shiftl_1_l. set (c := Z.shiftr _ w). exists c, (t - c * 2 ^ w), (u + c * m).
  assert (0 < 2 ^ w /\ 2 ^ w = 2 * 2 ^ (w - 1) /\ 2 ^ w <= 2 ^ 26) as (Hp & Hd & Hb).
  { split_and!; [lia|rewrite <- Z.pow_succ_r by lia; f_equal; lia|apply Z.pow_le_mono_r; lia]. }
  assert (c = (t + 2 ^ (w - 1)) / 2 ^ w) as Ec by (unfold c; rewrite s64_id by lia; apply Z.shiftr_div_pow2; lia).
  assert (- 2 ^ (w - 1) <= t - c * 2 ^ w < 2 ^ (w - 1)) as Hr by (rewrite Ec; Z.div_mod_to_equations; lia).
  assert (2 ^ 25 <= 2 ^ w) as Hl by (apply Z.pow_le_mono_r; lia).
  assert (Z.abs c <= T / 2 ^ w + 1) as Hc.
  { assert (T < (T / 2 ^ w + 1) * 2 ^ w) by (Z.div_mod_to_equations; lia). nia. }
  assert (T / 2 ^ w <= 2 ^ 38) by (apply Z.div_le_upper_bound; nia).
  assert (Z.abs (c * 2 ^ w) <= 2 ^ 62 + 2 ^ 51) by lia. assert (Z.abs (c * m) <= (T / 2 ^ w + 1) * m) by nia.
  assert (0 <= T / 2 ^ w) by (apply Z.div_pos; lia).
  assert ((T / 2 ^ w + 1) * m <= (2 ^ 38 + 1) * 19) by (apply Z.mul_le_mono_nonneg; lia).
  rewrite (s64_id (c * 2 ^ w)), (s64_id (t - _)), (s64_id (c * m)), s64_id by lia. split_and!; [done..|lia|lia].
Qed.

Ltac eval_bound B :=
  match type of B with ?x <= ?b => let v := eval vm_compute in b in change (x <= v) in B end.
Ltac by_bound := match goal with B : Z.abs ?x <= _ |- Z.abs ?x < _ => clear - B; lia end.
Ltac carry_step :=
  match goal with |- context [carry ?w ?m ?t ?u] =>
    match goal with Ht : Z.abs t <= ?T, Hu : Z.abs u <= ?U |- _ =>
      let c := fresh "c" in let t' := fresh "t" in let u' := fresh "u" in
      let E := fresh "E" in let Et := fresh "Et" in let Eu := fresh "Eu" in let Bt := fresh "B" in let Bu := fresh "B" in
      destruct (carry_spec w m t u T U ltac:(vm_compute; reflexivity) Ht Hu) as (c & t' & u' & E & Et & Eu & Bt & Bu);
      rewrite E; clear E; eval_bound Bt; eval_bound Bu
    end end.

(** The precondition of [FE_CARRY], as far as the callers need it. *)
Definition wide (t : fe) : Prop :=
  (Z.abs (h0 t) <= 2 ^ 62 /\ Z.abs (h2 t) <= 2 ^ 62 /\ Z.abs (h4 t) <= 2 ^ 62 /\ Z.abs (h6 t) <= 2 ^ 62 /\ Z.abs (h8 t) <= 2 ^ 62)
  /\ (Z.abs (h1 t) <= 2 ^ 62 /\ Z.abs (h3 t) <= 2 ^ 62 /\ Z.abs (h5 t) <= 2 ^ 62 /\ Z.abs (h7 t) <= 2 ^ 62 /\ Z.abs (h9 t) <= 2 ^ 62).

Lemma fe_carry_spec t : wide t -> tight (fe_carry t) /\ exists k, fe_val (fe_carry t) = fe_val t - k * p25519.
Proof.
  destruct t as [t0 t1 t2 t3 t4 t5 t6 t7 t8 t9]. unfold wide. cbn [h0 h1 h2 h3 h4 h5 h6 h7 h8 h9].
  intros [(B0 & B2 & B4 & B6 & B8) (B1 & B3 & B5 & B7 & B9)]. unfold fe_carry.
  do 12 carry_step. unfold fe_map. cbn [h0 h1 h2 h3 h4 h5 h6 h7 h8 h9].
  repeat match goal with |- context [s32 ?x] => match goal with B : Z.abs x <= _ |- _ => rewrite (s32_id x) by (clear - B; lia) end end.
  split; [unfold tight, bounded; cbn [h0 h1 h2 h3 h4 h5 h6 h7 h8 h9]; repeat split; by_bound|].
  exists c9. unfold fe_val, p25519. cbn [h0 h1 h2 h3 h4 h5 h6 h7 h8 h9]. subst. ring.
Qed.

(** The products.  Every sum stays below 2^62 in absolute value, so nothing wraps. *)
Lemma fe_product_bound a b A B : Z.abs a <= A -> Z.abs b <= B -> Z.abs (a * b) <= A * B.
Proof. intros. rewrite Z.abs_mul. apply Z.mul_le_mono_nonneg; lia. Qed.
Lemma add_bound a b A B : Z.abs a <= A -> Z.abs b <= B -> Z.abs (a + b) <= A + B.
Proof. lia. Qed.
Lemma s32_scale a k A : Z.abs a <= A -> (0 <? k) && (A * k <? 2147483648) = true -> s32 (a * k) = a * k /\ Z.abs (a * k) <= A * k.
Proof. intros Ha [Hk%Z.ltb_lt H%Z.ltb_lt]%andb_prop. assert (Z.abs (a * k) <= A * k) by (apply fe_product_bound; lia). split; [apply s32_id|]; lia. Qed.
Lemma s64_bound a A : Z.abs a <= A -> (A <? 9223372036854775808) = true -> s64 a = a.
Proof. intros Ha H%Z.ltb_lt. apply s64_id. lia. Qed.

(** [bound_of e]: a proof of [Z.abs e <= B] from the bounds of the variables. *)
Ltac bound_of e :=
  lazymatch e with
  | ?a + ?b => let p := bound_of a in let q := bound_of b in constr:(add_bound _ _ _ _ p q)
  | ?a * Zpos ?k => let p := bound_of a in constr:(fe_product_bound _ (Zpos k) _ (Zpos k) p (Z.le_refl _))
  | 2 ^ ?k => constr:(Z.le_refl (Z.abs (2 ^ k)))
  | ?a * ?b => let p := bound_of a in let q := bound_of b in constr:(fe_product_bound _ _ _ _ p q)
  | ?x => match goal with B : Z.abs x <= _ |- _ => B end
  end.
Ltac unwrap64 :=
  match goal with |- context [s64 ?e] =>
    let p := bound_of e in let B := fresh "W" in pose proof p as B; eval_bound B;
    rewrite (s64_bound e _ B) by (vm_compute; reflexivity)
  end.
Ltac unwrap32 :=
  match goal with |- context [s32 (?a * ?k)] =>
    match goal with B : Z.abs a <= ?A |- _ => rewrite (proj1 (s32_scale a k A B ltac:(vm_compute; reflexivity))) end
  end.
Lemma loose_le f : loose f ->
  (Z.abs (h0 f) <= 110729625 /\ Z.abs (h2 f) <= 110729625 /\ Z.abs (h4 f) <= 110729625 /\ Z.abs (h6 f) <= 110729625 /\ Z.abs (h8 f) <= 110729625)
  /\ (Z.abs (h1 f) <= 55364812 /\ Z.abs (h3 f) <= 55364812 /\ Z.abs (h5 f) <= 55364812 /\ Z.abs (h7 f) <= 55364812 /\ Z.abs (h9 f) <= 55364812).
Proof. unfold loose, bounded. lia. Qed.
Ltac with_limbs f H := let B := fresh "B" in
  apply loose_le in H; destruct f; cbn [h0 h1 h2 h3 h4 h5 h6 h7 h8 h9] in H; destruct H as [(? & ? & ? & ? & ?) (? & ? & ? & ? & ?)].

Lemma wide_of t : Forall (fun x => Z.abs x <= 2 ^ 62) [h0 t; h1 t; h2 t; h3 t; h4 t; h5 t; h6 t; h7 t; h8 t; h9 t] -> wide t.
Proof. intros H. repeat (apply Forall_cons in H as [? H]). unfold wide. tauto. Qed.
Ltac by_wide := repeat (apply Forall_cons; split); [..|apply Forall_nil; exact I]; cbv beta;
  match goal with B : Z.abs ?x <= _ |- Z.abs ?x <= _ => clear - B; lia end.

(** The part of the product above 2^255. *)
Definition high (f g : fe) : Z :=
  2 ^ 0 * (2 * (h1 f * h9 g) + h2 f * h8 g + 2 * (h3 f * h7 g) + h4 f * h6 g + 2 * (h5 f * h5 g) + h6 f * h4 g + 2 * (h7 f * h3 g) + h8 f * h2 g + 2 * (h9 f * h1 g))
  + 2 ^ 26 * (h2 f * h9 g + h3 f * h8 g + h4 f * h7 g + h5 f * h6 g + h6 f * h5 g + h7 f * h4 g + h8 f * h3 g + h9 f * h2 g)
  + 2 ^ 51 * (2 * (h3 f * h9 g) + h4 f * h8 g + 2 * (h5 f * h7 g) + h6 f * h6 g + 2 * (h7 f * h5 g) + h8 f * h4 g + 2 * (h9 f * h3 g))
  + 2 ^ 77 * (h4 f * h9 g + h5 f * h8 g + h6 f * h7 g + h7 f * h6 g + h8 f * h5 g + h9 f * h4 g)
  + 2 ^ 102 * (2 * (h5 f * h9 g) + h6 f * h8 g + 2 * (h7 f * h7 g) + h8 f * h6 g + 2 * (h9 f * h5 g))
  + 2 ^ 128 * (h6 f * h9 g + h7 f * h8 g + h8 f * h7 g + h9 f * h6 g)
  + 2 ^ 153 * (2 * (h7 f * h9 g) + h8 f * h8 g + 2 * (h9 f * h7 g))
  + 2 ^ 179 * (h8 f * h9 g + h9 f * h8 g)
  + 2 ^ 204 * (2 * (h9 f * h9 g)).
Lemma fe_mul_wide_spec f g : loose f -> loose g ->
  wide (fe_mul_wide f g) /\ fe_val (fe_mul_wide f g) = fe_val f * fe_val g - high f g * p25519.
Proof.
  intros Hf Hg. with_limbs f Hf. with_limbs g Hg. unfold fe_mul_wide. repeat unwrap32. cbv zeta. do 10 unwrap64.
  split; [apply wide_of; cbn [h0 h1 h2 h3 h4 h5 h6 h7 h8 h9]; by_wide|].
  unfold fe_val, high, p25519. cbn [h0 h1 h2 h3 h4 h5 h6 h7 h8 h9]. ring.
Qed.
Lemma fe_sq_wide_spec f : loose f ->
  wide (fe_sq_wide f) /\ fe_val (fe_sq_wide f) = fe_val f * fe_val f - high f f * p25519.
Proof.
  intros Hf. with_limbs f Hf. unfold fe_sq_wide. repeat unwrap32. cbv zeta. do 10 unwrap64.
  split; [apply wide_of; cbn [h0 h1 h2 h3 h4 h5 h6 h7 h8 h9]; by_wide|].
  unfold fe_val, high, p25519. cbn [h0 h1 h2 h3 h4 h5 h6 h7 h8 h9]. ring.
Qed.

(** *** The operations on the field elements *)

Lemma of_Z_shift x k : Zmod.of_Z p25519 (x - k * p25519) = Zmod.of_Z p25519 x.
Proof.
  apply Zmod.to_Z_inj. rewrite !Zmod.to_Z_of_Z. replace (x - k * p25519) with (x + (- k) * p25519) by lia.
  apply Z.mod_add. unfold p25519. lia.
Qed.
Lemma fe_carry_eval t : wide t -> tight (fe_carry t) /\ feval (fe_carry t) = feval t.
Proof. intros H. destruct (fe_carry_spec t H) as [T [k E]]. split; [exact T|]. unfold feval. by rewrite E, of_Z_shift. Qed.

Lemma fe_mul_spec f g : loose f -> loose g -> tight (fe_mul f g) /\ feval (fe_mul f g) = (feval f * feval g)%Zmod.
Proof.
  intros Hf Hg. destruct (fe_mul_wide_spec f g Hf Hg) as [W E]. destruct (fe_carry_eval _ W) as [T C].
  split; [exact T|]. unfold fe_mul. rewrite C. unfold feval. by rewrite E, of_Z_shift, Zmod.of_Z_mul.
Qed.
Lemma fe_sq_spec f : loose f -> tight (fe_sq f) /\ feval (fe_sq f) = (feval f * feval f)%Zmod.
Proof.
  intros Hf. destruct (fe_sq_wide_spec f Hf) as [W E]. destruct (fe_carry_eval _ W) as [T C].
  split; [exact T|]. unfold fe_sq. rewrite C. unfold feval. by rewrite E, of_Z_shift, Zmod.of_Z_mul.
Qed.
Lemma fe_mul_small_spec f g : loose f -> 0 <= g < 2 ^ 31 ->
  tight (fe_mul_small f g) /\ feval (fe_mul_small f g) = (feval f * Zmod.of_Z p25519 g)%Zmod.
Proof.
  intros Hf Hg. with_limbs f Hf. unfold fe_mul_small, fe_map. cbn [h0 h1 h2 h3 h4 h5 h6 h7 h8 h9].
  assert (Z.abs g <= 2 ^ 31) as Bg by lia. do 10 unwrap64.
  match goal with |- context [fe_carry ?t] => assert (wide t) as Hw by (apply wide_of; cbn [h0 h1 h2 h3 h4 h5 h6 h7 h8 h9]; by_wide) end.
  destruct (fe_carry_eval _ Hw) as [T ->]. split; [exact T|].
  unfold feval. rewrite <- Zmod.of_Z_mul. f_equal. unfold fe_val. cbn [h0 h1 h2 h3 h4 h5 h6 h7 h8 h9]. ring.
Qed.

Lemma bounded_le e o f : bounded (e + 1) (o + 1) f <->
  (Z.abs (h0 f) <= e /\ Z.abs (h2 f) <= e /\ Z.abs (h4 f) <= e /\ Z.abs (h6 f) <= e /\ Z.abs (h8 f) <= e)
  /\ (Z.abs (h1 f) <= o /\ Z.abs (h3 f) <= o /\ Z.abs (h5 f) <= o /\ Z.abs (h7 f) <= o /\ Z.abs (h9 f) <= o).
Proof. unfold bounded. split; lia. Qed.
Lemma s32_bound a A : Z.abs a <= A -> (A <? 2147483648) = true -> s32 a = a.
Proof. intros Ha H%Z.ltb_lt. apply s32_id. lia. Qed.
Lemma sub_bound a b A B : Z.abs a <= A -> Z.abs b <= B -> Z.abs (a - b) <= A + B.
Proof. lia. Qed.
Lemma opp_bound a A : Z.abs a <= A -> Z.abs (- a) <= A.
Proof. lia. Qed.
Ltac unwrap_sum :=
  match goal with |- context [s32 ?e] =>
    let p := lazymatch e with
      | ?a + ?b => let p := bound_of a in let q := bound_of b in constr:(add_bound _ _ _ _ p q)
      | ?a - ?b => let p := bound_of a in let q := bound_of b in constr:(sub_bound _ _ _ _ p q)
      | - ?a => let p := bound_of a in constr:(opp_bound _ _ p)
      end in
    let B := fresh "W" in pose proof p as B; eval_bound B; rewrite (s32_bound e _ B) by (vm_compute; reflexivity)
  end.
Ltac open_bounded e o H :=
  match type of H with _ ?f => apply (bounded_le e o) in H; destruct f; cbn [h0 h1 h2 h3 h4 h5 h6 h7 h8 h9] in H;
    destruct H as [(? & ? & ? & ? & ?) (? & ? & ? & ? & ?)] end.
Ltac open_tight H := open_bounded 36909875 18454937 H.
Ltac limbs_tac := unfold feval, fe_val, fe_add, fe_sub, fe_neg, fe_map2, fe_map; cbn [h0 h1 h2 h3 h4 h5 h6 h7 h8 h9];
  do 10 unwrap_sum; split;
  [unfold loose, tight, bounded; cbn [h0 h1 h2 h3 h4 h5 h6 h7 h8 h9]; repeat split; by_bound
  |f_equal; ring].

Lemma fe_add_spec f g : tight f -> tight g -> loose (fe_add f g) /\ feval (fe_add f g) = (feval f + feval g)%Zmod.
Proof. intros Hf Hg. unfold feval at 2 3. rewrite <- Zmod.of_Z_add. open_tight Hf. open_tight Hg. limbs_tac. Qed.
Lemma fe_sub_spec f g : tight f -> tight g -> loose (fe_sub f g) /\ feval (fe_sub f g) = (feval f - feval g)%Zmod.
Proof. intros Hf Hg. unfold feval at 2 3. rewrite <- Zmod.of_Z_sub. open_tight Hf. open_tight Hg. limbs_tac. Qed.
Lemma fe_neg_spec f : tight f -> tight (fe_neg f) /\ feval (fe_neg f) = (- feval f)%Zmod.
Proof. intros Hf. unfold feval at 2. rewrite <- Zmod.of_Z_opp. open_tight Hf. limbs_tac. Qed.

Lemma lxor_mask a b (c : bool) : Z.lxor a (Z.land (Z.lxor a b) (s32 (- Z.b2z c))) = if c then b else a.
Proof.
  destruct c; cbn [Z.b2z].
  - change (s32 (- (1))) with (-1). by rewrite Z.land_m1_r, <- Z.lxor_assoc, Z.lxor_nilpotent, Z.lxor_0_l.
  - change (s32 (- 0)) with 0. by rewrite Z.land_0_r, Z.lxor_0_r.
Qed.
Lemma fe_cswap_spec f g (c : bool) : fe_cswap f g (Z.b2z c) = if c then (g, f) else (f, g).
Proof.
  unfold fe_cswap, fe_map2. destruct f, g. cbn [h0 h1 h2 h3 h4 h5 h6 h7 h8 h9]. rewrite !lxor_mask.
  do 10 match goal with |- context [Z.lxor ?b (Z.land (Z.lxor ?a ?b) ?m)] => rewrite (Z.lxor_comm a b), lxor_mask end. by destruct c.
Qed.
Lemma fe_ccopy_spec f g (c : bool) : fe_ccopy f g (Z.b2z c) = if c then g else f.
Proof. unfold fe_ccopy, fe_map2. destruct f, g. cbn [h0 h1 h2 h3 h4 h5 h6 h7 h8 h9]. rewrite !lxor_mask. by destruct c. Qed.

(** *** Decoding *)

Lemma load24_le_spec s o :
  all_bytes s -> 0 <= o -> o + 3 <= len s -> load24_le s o = Some (le_value (take 3 (drop (Z.to_nat o) s))).
Proof.
  intros Hs Ho Hl. unfold load24_le.
  assert (forall i, 0 <= i < 3 -> exists x, rd s (o + i) = Some x /\ is_byte x /\ drop (Z.to_nat o) s !! Z.to_nat i = Some x) as H.
  { intros i Hi. destruct (rd_is_Some s (o + i)) as [x E]; [lia|]. exists x. split; [done|]. split; [by eapply rd_byte|].
    unfold rd in E. rewrite decide_True in E by lia. rewrite lookup_drop. replace (Z.to_nat o + Z.to_nat i)%nat with (Z.to_nat (o + i)) by lia. done. }
  destruct (H 0) as (a & Ea & Ba & La); [lia|]. destruct (H 1) as (b & Eb & Bb & Lb); [lia|]. destruct (H 2) as (c & Ec & Bc & Lc); [lia|].
  rewrite Z.add_0_r in Ea. rewrite Ea, Eb, Ec. cbn [mbind option_bind].
  destruct (drop (Z.to_nat o) s) as [|x [|y [|z r]]]; try discriminate. cbn in La, Lb, Lc. injection La as ->. injection Lb as ->. injection Lc as ->.
  cbn [take le_value]. rewrite take_0. cbn [le_value]. unfold is_byte in *. f_equal.
  rewrite (Z.lor_comm _ (Z.shiftl c 16)), (Z.lor_comm a), (lor_shiftl_add b a 8), (lor_shiftl_add c _ 16) by lia. lia.
Qed.
Lemma list32 {A} (s : list A) : length s = 32%nat -> exists a0 a1 a2 a3 a4 a5 a6 a7 a8 a9 a10 a11 a12 a13 a14 a15 a16 a17 a18 a19 a20 a21 a22 a23
  a24 a25 a26 a27 a28 a29 a30 a31, s = [a0; a1; a2; a3; a4; a5; a6; a7; a8; a9; a10; a11; a12; a13; a14; a15; a16; a17; a18; a19; a20; a21; a22; a23;
  a24; a25; a26; a27; a28; a29; a30; a31].
Proof. intros H. do 32 (destruct s as [|? s]; [discriminate|]). destruct s; [|discriminate]. by eauto 33. Qed.

Lemma fe_frombytes_spec s : length s = 32%nat -> all_bytes s ->
  exists h, fe_frombytes s = Some h /\ tight h /\ feval h = Zmod.of_Z p25519 (le_value s mod 2 ^ 255).
Proof.
  intros L B. unfold fe_frombytes, fe_frombytes_mask. change (Z.shiftr 0xffffff 1) with (Z.ones 23).
  rewrite !load32_le_spec, !load24_le_spec by (done || lia). cbn [mbind option_bind]. rewrite !Z.shiftl_mul_pow2, Z.land_ones by lia.
  destruct (list32 s L) as (a0 & a1 & a2 & a3 & a4 & a5 & a6 & a7 & a8 & a9 & a10 & a11 & a12 & a13 & a14 & a15 & a16 & a17 & a18 & a19 & a20 & a21 & a22
    & a23 & a24 & a25 & a26 & a27 & a28 & a29 & a30 & a31 & ->). clear L.
  repeat (apply Forall_cons in B as [? B]). clear B. unfold is_byte in *.
  change (Z.to_nat 0) with 0%nat. change (Z.to_nat 4) with 4%nat. change (Z.to_nat 7) with 7%nat. change (Z.to_nat 10) with 10%nat.
  change (Z.to_nat 13) with 13%nat. change (Z.to_nat 16) with 16%nat. change (Z.to_nat 20) with 20%nat. change (Z.to_nat 23) with 23%nat.
  change (Z.to_nat 26) with 26%nat. change (Z.to_nat 29) with 29%nat. cbn [drop take le_value]. rewrite !Z.mul_0_r, !Z.add_0_r.
  set (top := a29 + 256 * (a30 + 256 * a31)). assert (exists m q, top = m + 2 ^ 23 * q /\ top mod 2 ^ 23 = m /\ 0 <= m < 2 ^ 23) as (m & q & Em & -> & Bm).
  { exists (top mod 2 ^ 23), (top / 2 ^ 23). pose proof (Z.div_mod top (2 ^ 23)). pose proof (Z.mod_pos_bound top (2 ^ 23)). lia. }
  rewrite !u32_id by (unfold is_u32; lia).
  match goal with |- context [fe_carry ?t] => assert (wide t) as Hw by (apply wide_of; cbn [h0 h1 h2 h3 h4 h5 h6 h7 h8 h9]; repeat (apply Forall_cons; split); [clear Em; lia..|apply Forall_nil; exact I]) end.
  destruct (fe_carry_eval _ Hw) as [T E]. eexists. split; [reflexivity|]. split; [exact T|]. rewrite E. unfold feval. f_equal.
  unfold fe_val. cbn [h0 h1 h2 h3 h4 h5 h6 h7 h8 h9]. apply Z.mod_unique_pos with q; [lia|]. unfold top in Em. lia.
Qed.

(** *** Encoding *)

Fixpoint dval (l : list (Z * Z)) : Z := match l with [] => 0 | (t, w) :: l => t + 2 ^ w * dval l end.
Fixpoint dwidth (l : list (Z * Z)) : Z := match l with [] => 0 | (_, w) :: l => w + dwidth l end.
Definition limb_ok (x : Z * Z) : Prop := Z.abs x.1 <= 2 ^ 29 /\ 25 <= x.2 <= 26.

Lemma dwidth_nonneg l : Forall limb_ok l -> 0 <= dwidth l.
Proof. induction 1 as [|[t w] l [_ H] _ IH]; cbn in *; lia. Qed.
Lemma small_quotient x w : 25 <= w <= 26 -> Z.abs x <= 2 ^ 30 -> Z.abs (x / 2 ^ w) <= 2 ^ 5 /\ s32 x = x /\ s32 (x / 2 ^ w * 2 ^ w) = x / 2 ^ w * 2 ^ w.
Proof.
  intros Hw Hx. assert (2 ^ 25 <= 2 ^ w) by (apply Z.pow_le_mono_r; lia).
  assert (2 ^ w <= 2 ^ 26) by (apply Z.pow_le_mono_r; lia).
  pose proof (Z.div_mod x (2 ^ w) ltac:(lia)). pose proof (Z.mod_pos_bound x (2 ^ w) ltac:(lia)).
  split_and!; [|apply s32_id; lia|apply s32_id; lia]. apply Z.abs_le. split.
  - apply Z.div_le_lower_bound; nia.
  - apply Z.div_le_upper_bound; nia.
Qed.
Lemma sign_loop_spec l : Forall limb_ok l -> forall q, Z.abs q <= 2 ^ 29 -> sign_loop l q = (q + dval l) / 2 ^ dwidth l.
Proof.
  induction 1 as [|[t w] l [Ht Hw] Hl IH]; intros q Hq; cbn [dval dwidth fst snd] in *; [cbn; by rewrite Z.add_0_r, Z.div_1_r|].
  pose proof (dwidth_nonneg l Hl). destruct (small_quotient (q + t) w Hw ltac:(lia)) as (B & E & _).
  change (sign_loop ((t, w) :: l) q) with (sign_loop l (Z.shiftr (s32 (q + t)) w)). rewrite E, Z.shiftr_div_pow2, IH by lia.
  rewrite Z.pow_add_r, <- Z.div_div by lia. f_equal.
  replace (q + (t + 2 ^ w * dval l)) with (q + t + dval l * 2 ^ w) by ring. by rewrite Z.div_add by lia.
Qed.
Lemma reduce_loop_spec l : Forall limb_ok l -> forall q, Z.abs q <= 2 ^ 29 ->
  Forall2 (fun d x => 0 <= d < 2 ^ x.2) (reduce_loop l q) l
  /\ dval (zip (reduce_loop l q) l.*2) = (q + dval l) mod 2 ^ dwidth l.
Proof.
  induction 1 as [|[t w] l [Ht Hw] Hl IH]; intros q Hq; cbn [dval dwidth reduce_loop fst snd fmap list_fmap zip zip_with] in *.
  { split; [constructor|]. by rewrite Z.mod_1_r. }
  pose proof (dwidth_nonneg l Hl). destruct (small_quotient (t + q) w Hw ltac:(lia)) as (B & E & E2).
  rewrite E, Z.shiftr_div_pow2, Z.shiftl_1_l, E2 by lia. assert (0 < 2 ^ w) by (apply Z.pow_pos_nonneg; lia).
  destruct (IH ((t + q) / 2 ^ w) ltac:(lia)) as [IH1 IH2].
  assert (t + q - (t + q) / 2 ^ w * 2 ^ w = (t + q) mod 2 ^ w) as Em by (rewrite Z.mod_eq by lia; lia).
  pose proof (Z.mod_pos_bound (t + q) (2 ^ w)). assert (2 ^ w <= 2 ^ 26) by (apply Z.pow_le_mono_r; lia).
  rewrite Em, s32_id by lia. split; [constructor; [cbn; lia|exact IH1]|].
  rewrite Z.pow_add_r by lia. rewrite IH2.
  replace (q + (t + 2 ^ w * dval l)) with (t + q + dval l * 2 ^ w) by ring.
  rewrite Z.rem_mul_r by lia. rewrite Z.mod_add, Z.div_add by lia. done.
Qed.

Lemma limbs_ok h : tight h -> Forall limb_ok (limbs h) /\ dval (limbs h) = fe_val h /\ dwidth (limbs h) = 255.
Proof.
  intros H. open_tight H. unfold limbs, fe_val. cbn [h0 h1 h2 h3 h4 h5 h6 h7 h8 h9 dval]. split_and!; [|ring|reflexivity].
  repeat (apply Forall_cons; split); [..|by apply Forall_nil]; (split; cbn [fst snd]; [|lia]);
    match goal with B : Z.abs ?x <= _ |- Z.abs ?x <= _ => clear - B; lia end.
Qed.

(** The value of small limbs is below the prime, and its sign is that of the top limb. *)
Lemma fe_val_tight h : tight h -> Z.abs (fe_val h - 2 ^ 230 * h9 h) < 2 ^ 230 /\ - p25519 < fe_val h < p25519 /\ Z.abs (h9 h) <= 18454937.
Proof.
  intros H. open_tight H. unfold fe_val, p25519. cbn [h0 h1 h2 h3 h4 h5 h6 h7 h8 h9].
  match goal with |- Z.abs (?e + ?t - _) < _ /\ _ => let p := bound_of e in pose proof p as W; eval_bound W; set (low := e) in *; clearbody low end.
  match goal with B : Z.abs ?t <= ?b |- context [_ * ?t] => clear - W B end. lia.
Qed.
(** [q] is 0 or -1 after the first loop, the sign of the value. *)
Lemma sign_loop_sign h : tight h ->
  sign_loop (limbs h) (Z.shiftr (s32 (s32 (19 * h9 h) + Z.shiftl 1 24)) 25) = (if 0 <=? fe_val h then 0 else -1).
Proof.
  intros H. destruct (limbs_ok h H) as (L & V & W). destruct (fe_val_tight h H) as (B1 & B2 & B3). unfold p25519 in B2.
  change (Z.shiftl 1 24) with (2 ^ 24). rewrite (s32_id (19 * h9 h)), s32_id, Z.shiftr_div_pow2 by lia.
  assert (Z.abs ((19 * h9 h + 2 ^ 24) / 2 ^ 25) <= 16) as B4 by (Z.div_mod_to_equations; lia).
  rewrite (sign_loop_spec _ L), V, W by lia.
  destruct (Z.leb_spec 0 (fe_val h)).
  - assert (0 <= (19 * h9 h + 2 ^ 24) / 2 ^ 25) by (apply Z.div_pos; lia). apply Z.div_small. lia.
  - assert ((19 * h9 h + 2 ^ 24) / 2 ^ 25 < 1) by (apply Z.div_lt_upper_bound; lia).
    revert B4 H1. generalize ((19 * h9 h + 2 ^ 24) / 2 ^ 25). intros q0 B4 H1.
    symmetry. apply Z.div_unique_pos with (q0 + fe_val h + 2 ^ 255); lia.
Qed.

(** Two pieces of a 32-bit word. *)
Lemma word_pieces a b k : 0 <= a < 2 ^ k -> 0 <= b < 2 ^ 32 -> 0 <= k <= 32 -> Z.lor a (u32 (Z.shiftl b k)) = a + 2 ^ k * (b mod 2 ^ (32 - k)).
Proof.
  intros Ha Hb Hk. assert (u32 (Z.shiftl b k) = Z.shiftl (b mod 2 ^ (32 - k)) k) as ->.
  { unfold u32. change 4294967296 with (2 ^ 32). rewrite !Z.shiftl_mul_pow2 by lia. replace 32 with (32 - k + k) at 1 by lia.
    rewrite Z.pow_add_r, Z.mul_mod_distr_r by lia. done. }
  rewrite Z.lor_comm, lor_shiftl_add by lia. lia.
Qed.
Lemma le_value_store a l : 0 <= a < 2 ^ 32 -> le_value (store32_le a ++ l) = a + 2 ^ 32 * le_value l.
Proof.
  intros Ha. rewrite store32_le_bytes, le_value_app, le_value_bytes, le_bytes_length. change (256 ^ Z.of_nat 4) with (2 ^ 32).
  by rewrite Z.mod_small.
Qed.

(** The words that [fe_tobytes] stores. *)
Lemma limb_word a b i k : 0 <= a < 2 ^ 26 -> 0 <= b < 2 ^ 26 -> 0 <= i -> 0 <= k <= 32 -> a < 2 ^ (i + k) ->
  Z.lor (Z.shiftr (u32 a) i) (u32 (Z.shiftl (u32 b) k)) = a / 2 ^ i + 2 ^ k * (b mod 2 ^ (32 - k))
  /\ 0 <= a / 2 ^ i + 2 ^ k * (b mod 2 ^ (32 - k)) < 2 ^ 32.
Proof.
  intros Ha Hb Hi Hk Hab. rewrite (u32_id a), (u32_id b) by (unfold is_u32; lia). rewrite Z.shiftr_div_pow2 by lia.
  assert (0 < 2 ^ i) by (apply Z.pow_pos_nonneg; lia).
  assert (0 <= a / 2 ^ i < 2 ^ k) as Hq.
  { split; [apply Z.div_pos; lia|]. apply Z.div_lt_upper_bound; [lia|]. by rewrite <- Z.pow_add_r by lia. }
  split; [apply word_pieces; lia|]. assert (0 < 2 ^ (32 - k)) by (apply Z.pow_pos_nonneg; lia).
  pose proof (Z.mod_pos_bound b (2 ^ (32 - k))). assert (2 ^ 32 = 2 ^ k * 2 ^ (32 - k)) by (rewrite <- Z.pow_add_r by lia; f_equal; lia). nia.
Qed.
Ltac split_limb d m :=
  let q := fresh "q" in let r := fresh "r" in let E := fresh "E" in
  pose proof (Z.div_mod d m ltac:(discriminate)) as E; 
  revert E; generalize (d / m) (d mod m); intros q r E; subst d.
Lemma pack_limbs d0 d1 d2 d3 d4 d5 d6 d7 d8 d9 :
  0 <= d0 < 2 ^ 26 -> 0 <= d1 < 2 ^ 25 -> 0 <= d2 < 2 ^ 26 -> 0 <= d3 < 2 ^ 25 -> 0 <= d4 < 2 ^ 26 ->
  0 <= d5 < 2 ^ 25 -> 0 <= d6 < 2 ^ 26 -> 0 <= d7 < 2 ^ 25 -> 0 <= d8 < 2 ^ 26 -> 0 <= d9 < 2 ^ 25 ->
  store32_le (Z.lor (Z.shiftr (u32 d0) 0) (u32 (Z.shiftl (u32 d1) 26)))
  ++ store32_le (Z.lor (Z.shiftr (u32 d1) 6) (u32 (Z.shiftl (u32 d2) 19)))
  ++ store32_le (Z.lor (Z.shiftr (u32 d2) 13) (u32 (Z.shiftl (u32 d3) 13)))
  ++ store32_le (Z.lor (Z.shiftr (u32 d3) 19) (u32 (Z.shiftl (u32 d4) 6)))
  ++ store32_le (Z.lor (Z.shiftr (u32 d5) 0) (u32 (Z.shiftl (u32 d6) 25)))
  ++ store32_le (Z.lor (Z.shiftr (u32 d6) 7) (u32 (Z.shiftl (u32 d7) 19)))
  ++ store32_le (Z.lor (Z.shiftr (u32 d7) 13) (u32 (Z.shiftl (u32 d8) 12)))
  ++ store32_le (Z.lor (Z.shiftr (u32 d8) 20) (u32 (Z.shiftl (u32 d9) 6)))
  = le_bytes 32 (fe_val (Fe d0 d1 d2 d3 d4 d5 d6 d7 d8 d9)).
Proof.
  intros B0 B1 B2 B3 B4 B5 B6 B7 B8 B9.
  destruct (limb_word d0 d1 0 26) as [-> W0]; [lia..|].
  destruct (limb_word d1 d2 6 19) as [-> W1]; [lia..|].
  destruct (limb_word d2 d3 13 13) as [-> W2]; [lia..|].
  destruct (limb_word d3 d4 19 6) as [-> W3]; [lia..|].
  destruct (limb_word d5 d6 0 25) as [-> W4]; [lia..|].
  destruct (limb_word d6 d7 7 19) as [-> W5]; [lia..|].
  destruct (limb_word d7 d8 13 12) as [-> W6]; [lia..|].
  destruct (limb_word d8 d9 20 6) as [-> W7]; [lia..|].
  assert (forall x y : list Z, le_value x = le_value y -> all_bytes x -> all_bytes y -> length x = length y -> x = y) as Inj.
  { intros x y E Bx By L. rewrite <- (le_bytes_value x), <- (le_bytes_value y) by done. by rewrite L, E. }
  apply Inj.
  - rewrite !le_value_store by assumption. rewrite <- (app_nil_r (store32_le (_ + 2 ^ 6 * (d9 mod _)))), le_value_store by assumption.
    rewrite le_value_bytes. change (256 ^ Z.of_nat 32) with (2 ^ 256). cbn [le_value]. unfold fe_val. cbn [h0 h1 h2 h3 h4 h5 h6 h7 h8 h9].
    match goal with |- _ = ?x mod _ => rewrite (Z.mod_small x) by lia end. clear Inj W0 W1 W2 W3 W4 W5 W6 W7.
    rewrite (Z.mod_small d4), (Z.mod_small d9), !Z.div_1_r, Z.mul_0_r, Z.add_0_r by (cbn; lia).
    change (32 - 26) with 6. change (32 - 19) with 13. change (32 - 13) with 19. change (32 - 25) with 7. change (32 - 12) with 20.
    split_limb d1 (2 ^ 6). split_limb d2 (2 ^ 13). split_limb d3 (2 ^ 19). split_limb d6 (2 ^ 7). split_limb d7 (2 ^ 13). split_limb d8 (2 ^ 20). ring.
  - rewrite !store32_le_bytes. repeat (apply Forall_app; split); apply le_bytes_bytes.
  - apply le_bytes_bytes.
  - rewrite !store32_le_bytes, !length_app, !le_bytes_length. done.
Qed.

Theorem fe_tobytes_spec h : tight h -> fe_tobytes h = le_bytes 32 (fe_val h mod p25519).
Proof.
  intros H. destruct (limbs_ok h H) as (L & V & W). destruct (fe_val_tight h H) as (_ & B & _). unfold fe_tobytes.
  rewrite sign_loop_sign by done. set (s := if 0 <=? fe_val h then 0 else -1).
  assert (s32 (s * 19) = s * 19) as -> by (unfold s; by destruct (0 <=? fe_val h)).
  destruct (reduce_loop_spec _ L (s * 19)) as [R E]; [unfold s; destruct (0 <=? fe_val h); lia|].
  rewrite V, W in E.
  assert ((s * 19 + fe_val h) mod 2 ^ 255 = fe_val h mod p25519) as E2.
  { unfold s, p25519 in *. destruct (Z.leb_spec 0 (fe_val h)).
    - rewrite !Z.mod_small by lia. lia.
    - rewrite <- (Z.mod_add _ 1), <- (Z.mod_add (fe_val h) 1), !Z.mod_small by lia. lia. }
  rewrite E2 in E. clear V W E2 B. revert R E. generalize (s * 19). clear s L. intros q R E. destruct h. unfold limbs in R, E |- *. cbn [h0 h1 h2 h3 h4 h5 h6 h7 h8 h9] in R, E |- *.
  do 10 (let d := fresh "d" in let l := fresh "l" in let B := fresh "B" in
    apply Forall2_cons_inv_r in R as (d & l & B & R & El); rewrite El in E |- *; clear El; cbn [snd] in B).
  apply Forall2_nil_inv_r in R. subst. rewrite pack_limbs by done. f_equal. rewrite <- E.
  unfold fe_val. cbn [h0 h1 h2 h3 h4 h5 h6 h7 h8 h9 dval zip zip_with fmap list_fmap snd]. ring.
Qed.
