(* ===== verification/FeInv.v ===== *)
(** * Comparison, inverse square root and inverse (src/dosshd/crypto/monocypher.c)

    [crypto_verify32], [fe_isequal], [fe_isodd], [invsqrt] and [fe_invert], and
    what they compute in the field. *)
From Stdlib Require Import ZArith Zmod Lia Field.
From stdpp Require Import base list numbers.
From S2P Require Import Prelude MonoLe Prime25519 Field25519 Fe.
Local Open Scope Z_scope.

(** *** Comparison in constant time *)

Definition load64_le (s : list Z) (o : Z) : option Z :=
  lo ← load32_le s o; hi ← load32_le s (o + 4); Some (Z.lor lo (Z.shiftl hi 32)).
Definition neq0 (diff : Z) : Z :=
  let half := Z.lor (Z.shiftr diff 32) (u32 diff) in
  u64 (Z.land 1 (Z.shiftr (u64 (half - 1)) 32) - 1).
Definition x16 (a : list Z) (oa : Z) (b : list Z) (ob : Z) : option Z :=
  a0 ← load64_le a oa; b0 ← load64_le b ob; a1 ← load64_le a (oa + 8); b1 ← load64_le b (ob + 8);
  Some (Z.lor (Z.lxor a0 b0) (Z.lxor a1 b1)).
Definition x32 (a : list Z) (oa : Z) (b : list Z) (ob : Z) : option Z :=
  l ← x16 a oa b ob; h ← x16 a (oa + 16) b (ob + 16); Some (Z.lor l h).
(** The [int] of the 16-bit compiler. *)
Definition int16 (x : Z) : Z := (x + 32768) mod 65536 - 32768.
Definition crypto_verify32 (a b : list Z) : option Z := d ← x32 a 0 b 0; Some (int16 (neq0 d)).

Definition fe_isodd (f : fe) : option Z := b ← rd (fe_tobytes f) 0; Some (Z.land b 1).
Definition fe_isequal (f g : fe) : option Z := isdifferent ← crypto_verify32 (fe_tobytes f) (fe_tobytes g); Some (1 + isdifferent).

(** [FOR (i, 1, n) { fe_sq(t, t); }] *)
Definition fe_sqs (n : nat) (t : fe) : fe := Nat.iter (n - 1) fe_sq t.

(** The power (p - 5) / 8 of [x], as [invsqrt] computes it. *)
Definition pow_p58 (x : fe) : fe :=
  let t0 := fe_sq x in
  let t1 := fe_sq t0 in let t1 := fe_sq t1 in let t1 := fe_mul x t1 in
  let t0 := fe_mul t0 t1 in
  let t0 := fe_sq t0 in let t0 := fe_mul t1 t0 in
  let t1 := fe_sq t0 in let t1 := fe_sqs 5 t1 in let t0 := fe_mul t1 t0 in
  let t1 := fe_sq t0 in let t1 := fe_sqs 10 t1 in let t1 := fe_mul t1 t0 in
  let t2 := fe_sq t1 in let t2 := fe_sqs 20 t2 in let t1 := fe_mul t2 t1 in
  let t1 := fe_sq t1 in let t1 := fe_sqs 10 t1 in let t0 := fe_mul t1 t0 in
  let t1 := fe_sq t0 in let t1 := fe_sqs 50 t1 in let t1 := fe_mul t1 t0 in
  let t2 := fe_sq t1 in let t2 := fe_sqs 100 t2 in let t1 := fe_mul t2 t1 in
  let t1 := fe_sq t1 in let t1 := fe_sqs 50 t1 in let t0 := fe_mul t1 t0 in
  let t0 := fe_sq t0 in let t0 := fe_sqs 2 t0 in fe_mul t0 x.
Definition invsqrt (x : fe) : option (fe * Z) :=
  let t0 := pow_p58 x in
  let quartic := fe_mul (fe_sq t0) x in
  z0 ← fe_isequal x fe_0;
  p1 ← fe_isequal quartic fe_1;
  m1 ← fe_isequal quartic (fe_neg fe_1);
  ms ← fe_isequal quartic (fe_neg sqrtm1);
  let isr := fe_mul t0 sqrtm1 in
  let isr := fe_ccopy isr t0 (1 - Z.lor m1 ms) in
  Some (isr, Z.lor (Z.lor p1 m1) z0).

Definition fe_invert (x : fe) : option fe :=
  let tmp := fe_sq x in
  '(tmp, _) ← invsqrt tmp;
  let tmp := fe_sq tmp in
  Some (fe_mul tmp x).

(** ** Comparison *)

Lemma lxor_zero a b : Z.lxor a b = 0 <-> a = b.
Proof. split; [apply Z.lxor_eq|intros ->; apply Z.lxor_nilpotent]. Qed.
Lemma lor_range a b n : 0 <= a < 2 ^ n -> 0 <= b < 2 ^ n -> 0 <= n -> 0 <= Z.lor a b < 2 ^ n.
Proof.
  intros Ha Hb Hn. split; [apply Z.lor_nonneg; lia|].
  destruct (Z.eq_dec (Z.lor a b) 0) as [->|N]; [apply Z.pow_pos_nonneg; lia|].
  apply Z.log2_lt_pow2; [pose proof (proj2 (Z.lor_nonneg a b)); lia|]. rewrite Z.log2_lor by lia.
  apply Z.max_lub_lt.
  - destruct (Z.eq_dec a 0) as [->|]; [|apply Z.log2_lt_pow2; lia]. destruct (Z.eq_dec n 0) as [->|]; [|cbn; lia].
    exfalso. apply N. assert (b = 0) as -> by lia. done.
  - destruct (Z.eq_dec b 0) as [->|]; [|apply Z.log2_lt_pow2; lia]. destruct (Z.eq_dec n 0) as [->|]; [|cbn; lia].
    exfalso. apply N. rewrite Z.lor_0_r. lia.
Qed.
Lemma lxor_range a b n : 0 <= a < 2 ^ n -> 0 <= b < 2 ^ n -> 0 <= n -> 0 <= Z.lxor a b < 2 ^ n.
Proof.
  intros Ha Hb Hn. rewrite <- (Z.mod_small a (2 ^ n)), <- (Z.mod_small b (2 ^ n)), <- lxor_mod by lia.
  apply Z.mod_pos_bound. lia.
Qed.
Lemma load64_le_spec s o : all_bytes s -> 0 <= o -> o + 8 <= len s ->
  load64_le s o = Some (le_value (take 8 (drop (Z.to_nat o) s))) /\ 0 <= le_value (take 8 (drop (Z.to_nat o) s)) < 2 ^ 64.
Proof.
  intros Hs Ho Hl. unfold load64_le. rewrite !load32_le_spec by (done || lia). cbn [mbind option_bind].
  assert (take 8 (drop (Z.to_nat o) s) = take 4 (drop (Z.to_nat o) s) ++ take 4 (drop (Z.to_nat (o + 4)) s)) as ->.
  { replace (Z.to_nat (o + 4)) with (Z.to_nat o + 4)%nat by lia. rewrite <- drop_drop. by rewrite <- (take_take_drop _ 4 4). }
  assert (forall k, 0 <= k -> k + 4 <= len s -> 0 <= le_value (take 4 (drop (Z.to_nat k) s)) < 2 ^ 32) as R.
  { intros k Hk Hk2. pose proof (le_value_range (take 4 (drop (Z.to_nat k) s))) as R. rewrite length_take, length_drop in R.
    replace (Z.of_nat (4 `min` (length s - Z.to_nat k))) with 4 in R by lia. apply R. by apply Forall_take, Forall_drop. }
  pose proof (R o ltac:(lia) ltac:(lia)). pose proof (R (o + 4) ltac:(lia) ltac:(lia)).
  rewrite le_value_app, length_take, length_drop. replace (Z.of_nat (4 `min` (length s - Z.to_nat o))) with 4 by lia.
  rewrite Z.lor_comm, lor_shiftl_add by lia. change (256 ^ 4) with (2 ^ 32). split; [f_equal|]; lia.
Qed.
Lemma neq0_spec d : 0 <= d < 2 ^ 64 -> int16 (neq0 d) = if decide (d = 0) then 0 else -1.
Proof.
  intros Hd. case_decide as E; [by subst|]. unfold neq0.
  assert (0 <= Z.shiftr d 32 < 2 ^ 32) as H1 by (rewrite Z.shiftr_div_pow2 by lia; Z.div_mod_to_equations; lia).
  pose proof (u32_range d) as H2. unfold is_u32 in H2.
  assert (0 < Z.lor (Z.shiftr d 32) (u32 d) < 2 ^ 32) as H.
  { pose proof (lor_range _ _ 32 H1 H2 ltac:(lia)) as H3. split; [|lia]. destruct (Z.eq_dec (Z.lor (Z.shiftr d 32) (u32 d)) 0) as [E0|]; [|lia].
    apply Z.lor_eq_0_iff in E0 as [E1 E2]. rewrite Z.shiftr_div_pow2 in E1 by lia. unfold u32 in E2. exfalso. Z.div_mod_to_equations. lia. }
  unfold u64 at 2. rewrite (Z.mod_small (_ - 1)) by lia. rewrite (Z.shiftr_div_pow2 (_ - 1)), (Z.div_small (_ - 1)) by lia. reflexivity.
Qed.

(** [crypto_verify32] is 0 on equal strings and -1 on different ones. *)
Theorem crypto_verify32_spec a b : length a = 32%nat -> length b = 32%nat -> all_bytes a -> all_bytes b ->
  crypto_verify32 a b = Some (if decide (a = b) then 0 else -1).
Proof.
  intros La Lb Ba Bb. unfold crypto_verify32, x32, x16.
  assert (forall s o, length s = 32%nat -> all_bytes s -> (o = 0 \/ o = 8 \/ o = 16 \/ o = 24) ->
    load64_le s o = Some (le_value (take 8 (drop (Z.to_nat o) s))) /\ 0 <= le_value (take 8 (drop (Z.to_nat o) s)) < 2 ^ 64) as L.
  { intros s o Ls Bs Ho. apply load64_le_spec; [done|lia|lia]. }
  change (0 + 8) with 8. change (0 + 16) with 16. change (16 + 8) with 24.
  rewrite (proj1 (L a 0 La Ba ltac:(auto))), (proj1 (L b 0 Lb Bb ltac:(auto))), (proj1 (L a 8 La Ba ltac:(auto))), (proj1 (L b 8 Lb Bb ltac:(auto))),
    (proj1 (L a 16 La Ba ltac:(auto))), (proj1 (L b 16 Lb Bb ltac:(auto))), (proj1 (L a 24 La Ba ltac:(auto))), (proj1 (L b 24 Lb Bb ltac:(auto))).
  cbn [mbind option_bind]. f_equal. rewrite neq0_spec.
  2: { repeat apply lor_range; try lia; apply lxor_range; try lia; apply L; auto. }
  assert (forall o, (o = 0 \/ o = 8 \/ o = 16 \/ o = 24) ->
    Z.lxor (le_value (take 8 (drop (Z.to_nat o) a))) (le_value (take 8 (drop (Z.to_nat o) b))) = 0 <-> take 8 (drop (Z.to_nat o) a) = take 8 (drop (Z.to_nat o) b)) as X.
  { intros o Ho. rewrite lxor_zero. split; [|by intros ->]. intros E.
    rewrite <- (le_bytes_value (take 8 (drop (Z.to_nat o) a))), <- (le_bytes_value (take 8 (drop (Z.to_nat o) b))) by (by apply Forall_take, Forall_drop).
    rewrite E, !length_take, !length_drop, La, Lb. done. }
  assert (forall s : list Z, length s = 32%nat -> s = take 8 (drop (Z.to_nat 0) s) ++ take 8 (drop (Z.to_nat 8) s) ++ take 8 (drop (Z.to_nat 16) s) ++ take 8 (drop (Z.to_nat 24) s)) as Cut.
  { intros s Ls. change (Z.to_nat 0) with 0%nat. change (Z.to_nat 8) with 8%nat. change (Z.to_nat 16) with 16%nat. change (Z.to_nat 24) with 24%nat.
    rewrite <- (take_drop 8 s) at 1. f_equal. rewrite <- (take_drop 8 (drop 8 s)) at 1. rewrite drop_drop. f_equal.
    rewrite <- (take_drop 8 (drop (8 + 8) s)) at 1. rewrite drop_drop. f_equal. symmetry. apply take_ge. rewrite length_drop. lia. }
  case_decide as E; case_decide as E'; [done|exfalso; apply E'|exfalso; apply E; subst b|done].
  - apply Z.lor_eq_0_iff in E as [[E1 E2]%Z.lor_eq_0_iff [E3 E4]%Z.lor_eq_0_iff].
    rewrite X in E1, E2, E3, E4 by auto. rewrite (Cut a La), (Cut b Lb). congruence.
  - by rewrite !Z.lxor_nilpotent.
Qed.

Lemma fe_tobytes_eval f : tight f -> fe_tobytes f = le_bytes 32 (Zmod.to_Z (feval f)).
Proof. intros H. rewrite fe_tobytes_spec by done. unfold feval. by rewrite Zmod.to_Z_of_Z. Qed.
Lemma F_range (x : F) : 0 <= Zmod.to_Z x < 2 ^ 255.
Proof. pose proof (Zmod.to_Z_range x). unfold p25519 in *. lia. Qed.
Lemma F_bytes_inj (x y : F) : le_bytes 32 (Zmod.to_Z x) = le_bytes 32 (Zmod.to_Z y) <-> x = y.
Proof.
  split; [|by intros ->]. intros E%(f_equal le_value). rewrite !le_value_bytes in E. change (256 ^ Z.of_nat 32) with (2 ^ 256) in E.
  pose proof (F_range x). pose proof (F_range y). rewrite !Z.mod_small in E by lia. by apply Zmod.to_Z_inj.
Qed.
Lemma fe_isequal_spec f g : tight f -> tight g -> fe_isequal f g = Some (Z.b2z (bool_decide (feval f = feval g))).
Proof.
  intros Hf Hg. unfold fe_isequal. rewrite !fe_tobytes_eval by done.
  rewrite crypto_verify32_spec by (apply le_bytes_length || apply le_bytes_bytes). cbn [mbind option_bind]. f_equal.
  case_decide as E; case_bool_decide as E'; rewrite ?F_bytes_inj in E; done.
Qed.
Lemma fe_isodd_spec f : tight f -> fe_isodd f = Some (Zmod.to_Z (feval f) mod 2).
Proof.
  intros Hf. unfold fe_isodd. rewrite fe_tobytes_eval by done. set (v := Zmod.to_Z _). clearbody v.
  assert (rd (le_bytes 32 v) 0 = Some (v mod 256)) as -> by done. cbn [mbind option_bind]. f_equal.
  rewrite (Z.land_ones _ 1 ltac:(lia)). change (2 ^ 1) with 2. Z.div_mod_to_equations. lia.
Qed.

(** ** Powers *)

(** [t] holds the power [k] of the element of [x]. *)
Definition is_pow (x : fe) (k : Z) (t : fe) : Prop := 0 <= k /\ tight t /\ feval t = (feval x ^ k)%Zmod.

Lemma is_pow_self x : tight x -> is_pow x 1 x.
Proof. intros H. split; [lia|]. split; [done|]. by rewrite Zmod.pow_1_r. Qed.
Lemma is_pow_mul x a b s t : is_pow x a s -> is_pow x b t -> is_pow x (a + b) (fe_mul s t).
Proof.
  intros (Ha & Ts & Es) (Hb & Tt & Et). destruct (fe_mul_spec s t) as [T E]; [auto using tight_loose..|].
  split; [lia|]. split; [done|]. by rewrite E, Es, Et, pow_add.
Qed.
Lemma is_pow_sq x a t : is_pow x a t -> is_pow x (2 * a) (fe_sq t).
Proof.
  intros (Ha & Tt & Et). destruct (fe_sq_spec t) as [T E]; [auto using tight_loose|].
  split; [lia|]. split; [done|]. rewrite E, Et, pow_add by done. f_equal. lia.
Qed.
Lemma is_pow_sqs x a n t : is_pow x a t -> is_pow x (2 ^ Z.of_nat (n - 1) * a) (fe_sqs n t).
Proof.
  intros H. unfold fe_sqs. induction (n - 1)%nat as [|m IH]; [by rewrite Z.mul_1_l|].
  rewrite Nat2Z.inj_succ, Z.pow_succ_r, <- Z.mul_assoc by lia. by apply is_pow_sq.
Qed.

(** ** [invsqrt] *)


Lemma is_pow_eq x k k' t : is_pow x k t -> k = k' -> is_pow x k' t.
Proof. by intros H <-. Qed.
Lemma pow_p58_spec x : tight x -> is_pow x ((p25519 - 5) / 8) (pow_p58 x).
Proof.
  intros H. pose proof (is_pow_self x H) as P. unfold pow_p58. cbv zeta. eapply is_pow_eq.
  - repeat match goal with
    | |- is_pow _ _ (fe_mul _ _) => notypeclasses refine (is_pow_mul _ _ _ _ _ _ _)
    | |- is_pow _ _ (fe_sq _) => notypeclasses refine (is_pow_sq _ _ _ _)
    | |- is_pow _ _ (fe_sqs _ _) => notypeclasses refine (is_pow_sqs _ _ _ _ _)
    | |- _ => exact P
    end.
  - vm_compute. reflexivity.
Qed.

Lemma sqrtm1_spec : tight sqrtm1 /\ feval sqrtm1 = root_m1.
Proof. split; [repeat split|]. apply Zmod.to_Z_inj. vm_compute. reflexivity. Qed.
Lemma fe_1_spec : tight fe_1 /\ feval fe_1 = 1%Zmod.
Proof. split; [repeat split|]. apply Zmod.to_Z_inj. vm_compute. reflexivity. Qed.
Lemma fe_0_spec : tight fe_0 /\ feval fe_0 = 0%Zmod.
Proof. split; [repeat split|]. apply Zmod.to_Z_inj. vm_compute. reflexivity. Qed.

Local Open Scope Zmod_scope.

Lemma b2z_or a b : Z.lor (Z.b2z a) (Z.b2z b) = Z.b2z (a || b).
Proof. by destruct a, b. Qed.

(** The code, with its tests decided in the field. *)
Lemma invsqrt_run x : tight x ->
  let X := feval x in let t := X ^ ((p25519 - 5) / 8)%Z in let q := X ^ ((p25519 - 1) / 4)%Z in
  exists isr, invsqrt x = Some (isr, Z.b2z (bool_decide (q = 1) || bool_decide (q = - (1)) || bool_decide (X = 0))) /\ tight isr
    /\ feval isr = (if bool_decide (q = - (1)) || bool_decide (q = - root_m1) then t * root_m1 else t).
Proof.
  intros Hx X t q. destruct (pow_p58_spec x Hx) as (_ & T0 & E0). fold X t in E0. unfold invsqrt. cbv zeta.
  destruct fe_1_spec as [T1 E1], fe_0_spec as [Tz Ez], sqrtm1_spec as [Tm Em].
  destruct (fe_neg_spec fe_1 T1) as [Tn En]. destruct (fe_neg_spec sqrtm1 Tm) as [Tp Ep].
  destruct (fe_sq_spec (pow_p58 x)) as [T2 E2]; [auto using tight_loose|].
  destruct (fe_mul_spec (fe_sq (pow_p58 x)) x) as [T3 E3]; [auto using tight_loose..|].
  destruct (fe_mul_spec (pow_p58 x) sqrtm1) as [T4 E4]; [auto using tight_loose..|].
  assert (feval (fe_mul (fe_sq (pow_p58 x)) x) = q) as Eq.
  { rewrite E3, E2, E0. unfold q, t. fold X. rewrite <- (Zmod.pow_1_r X) at 3. rewrite !pow_add by closed_le. f_equal. }
  rewrite !fe_isequal_spec by done. cbn [mbind option_bind]. rewrite Eq, Ez, E1, En, Ep, E1, Em. fold X.
  set (a := bool_decide (q = 1)). set (b := bool_decide (q = - (1))). set (c := bool_decide (q = - root_m1)). set (z := bool_decide (X = 0)).
  rewrite !b2z_or. assert ((1 - Z.b2z (b || c))%Z = Z.b2z (negb (b || c))) as -> by (by destruct b, c).
  rewrite fe_ccopy_spec. eexists. split; [reflexivity|]. destruct (b || c); cbn [negb]; [|exact (conj T0 E0)].
  split; [exact T4|]. rewrite E4, E0, Em. reflexivity.
Qed.

Lemma F_neq (a b : F) : Zmod.to_Z a <> Zmod.to_Z b -> a <> b.
Proof. intros H E. apply H. by rewrite E. Qed.
Lemma roots_distinct : root_m1 <> 1 /\ root_m1 <> - (1) /\ root_m1 <> - root_m1 /\ - root_m1 <> 1 /\ - root_m1 <> - (1)
  /\ (1 : F) <> - (1) /\ (1 : F) <> - root_m1 /\ - (1) <> - root_m1.
Proof. split_and!; apply F_neq; vm_compute; discriminate. Qed.

Ltac decide_roots :=
  repeat match goal with |- context [bool_decide (?a = ?b)] =>
    first [constr_eq a b; rewrite (bool_decide_eq_true_2 (a = b)) by reflexivity
          |rewrite (bool_decide_eq_false_2 (a = b)) by (assumption || (apply not_eq_sym; assumption))] end.

(** [invsqrt]: the inverse square root of a nonzero square, 0 for 0, and for a
    non-square the root of [sqrt(-1) / x]; the result says whether [x] is a square. *)
Theorem invsqrt_spec x : tight x -> exists isr r, invsqrt x = Some (isr, r) /\ tight isr
  /\ (is_square (feval x) -> r = 1%Z) /\ (~ is_square (feval x) -> r = 0%Z)
  /\ (feval x = 0 -> feval isr = 0)
  /\ (feval x <> 0 -> is_square (feval x) -> feval isr * feval isr * feval x = 1)
  /\ (~ is_square (feval x) -> feval isr * feval isr * feval x = root_m1).
Proof.
  intros Hx. destruct (invsqrt_run x Hx) as (isr & E & T & Ei). set (X := feval x) in *.
  set (t := X ^ ((p25519 - 5) / 8)%Z) in *. set (q := X ^ ((p25519 - 1) / 4)%Z) in *.
  exists isr, (Z.b2z (bool_decide (q = 1) || bool_decide (q = - (1)) || bool_decide (X = 0))). split; [exact E|]. split; [exact T|].
  destruct (decide (X = 0)) as [Z0|NZ].
  - assert (is_square X) as S0 by (exists 0; rewrite Z0; apply Zmod.mul_0_l).
    assert (t = 0) as Et. { unfold t. rewrite Z0. apply Zmod.pow_0_l. vm_compute. discriminate. }
    rewrite (bool_decide_eq_true_2 (X = 0)) by done. rewrite orb_true_r.
    refine (conj (fun _ => eq_refl) (conj (fun N => False_ind _ (N S0)) (conj _ (conj (fun N => False_ind _ (N Z0)) (fun N => False_ind _ (N S0)))))). intros _. rewrite Ei, Et. clear. clearbody q. destruct (bool_decide (q = - (1)) || bool_decide (q = - root_m1))%bool; [apply Zmod.mul_0_l|reflexivity].
  - assert (q = t * t * X) as Eq.
    { unfold q, t. rewrite <- (Zmod.pow_1_r X) at 4. rewrite !pow_add by closed_le. f_equal. }
    pose proof (quartic_cases X NZ) as C. fold q in C. clearbody q t. rewrite (bool_decide_eq_false_2 (X = 0)) by done. rewrite orb_false_r.
    pose proof root_m1_square as Hm.
    pose proof roots_distinct as (N1 & N2 & N3 & N4 & N5 & N6 & N7 & N8).
    assert (feval isr * feval isr * X = if bool_decide (q = - (1)) || bool_decide (q = - root_m1) then - q else q) as Esq.
    { rewrite Ei. destruct (bool_decide (q = - (1)) || bool_decide (q = - root_m1))%bool; [|by rewrite Eq]. transitivity (t * t * X * (root_m1 * root_m1)); [ring|]. rewrite <- Eq, Hm. ring. }
    clear E Ei Eq T Hm. clearbody X. revert Esq.
    destruct C as [[S [Q|Q]]|[S [Q|Q]]]; rewrite Q; decide_roots; cbn [orb Z.b2z]; intros Esq; rewrite ?Zmod.opp_opp in Esq;
      (split; [intros S1; first [reflexivity|destruct (S S1)]|]; split; [intros S1; first [reflexivity|destruct (S1 S)]|];
       split; [intros Z0; destruct (NZ Z0)|]; split; [intros _ S1|intros S1]; first [exact Esq|destruct (S S1)|destruct (S1 S)]).
Qed.

(** [fe_invert] is the power p - 2: the inverse, and 0 for 0. *)
Theorem fe_invert_spec x : tight x -> exists y, fe_invert x = Some y /\ tight y /\ feval y = feval x ^ (p25519 - 2)%Z.
Proof.
  intros Hx. unfold fe_invert. destruct (fe_sq_spec x) as [T1 E1]; [auto using tight_loose|].
  destruct (invsqrt_spec (fe_sq x) T1) as (isr & r & E & T & _ & _ & H0 & H1 & _). rewrite E. cbn [mbind option_bind].
  destruct (fe_sq_spec isr) as [T2 E2]; [auto using tight_loose|].
  destruct (fe_mul_spec (fe_sq isr) x) as [T3 E3]; [auto using tight_loose..|].
  eexists. split; [reflexivity|]. split; [exact T3|]. rewrite E3, E2. rewrite E1 in H0, H1. set (X := feval x) in *.
  destruct (decide (X = 0)) as [Z0|NZ].
  - rewrite H0 by (rewrite Z0; apply Zmod.mul_0_l). rewrite Z0, Zmod.pow_0_l by (vm_compute; discriminate). rewrite !Zmod.mul_0_l. done.
  - rewrite pow_inverse by done. assert (X * X <> 0) as N2 by (rewrite F_mul_zero; tauto).
    apply (F_cancel X); [done|]. rewrite F_inv by done. rewrite <- (H1 N2 (ex_intro _ X eq_refl)). ring.
Qed.
