(* ===== verification/X25519.v ===== *)
(** * X25519 (src/dosshd/crypto/monocypher.c)

    The Montgomery ladder over the limbs, and the theorem that it computes the
    function of RFC 7748, section 5. *)
From Stdlib Require Import ZArith Zmod Lia Field.
From stdpp Require Import base list numbers.
From S2P Require Import Prelude MonoLe Prime25519 Field25519 Fe FeInv.
Local Open Scope Z_scope.

Definition crypto_eddsa_trim_scalar (i : list Z) : option (list Z) :=
  b0 ← rd i 0; b31 ← rd i 31;
  let out := <[0%nat := Z.land b0 248]> i in
  Some (<[31%nat := Z.lor (Z.land b31 127) 64]> out).

Definition scalar_bit (s : list Z) (i : Z) : option Z :=
  if decide (i < 0) then Some 0
  else b ← rd s (Z.shiftr i 3); Some (Z.land (Z.shiftr b (Z.land i 7)) 1).

(** The locals of [scalarmult] that the loop carries. *)
Record ladder := Ladder { x2 : fe; z2 : fe; x3 : fe; z3 : fe; swap : Z }.

(** The body of the loop, for the bit [b]. *)
Definition ladder_step (x1 : fe) (b : Z) (l : ladder) : ladder :=
  let swap := Z.lxor (swap l) b in
  let '(x2, x3) := fe_cswap (x2 l) (x3 l) swap in
  let '(z2, z3) := fe_cswap (z2 l) (z3 l) swap in
  let swap := b in
  let t0 := fe_sub x3 z3 in
  let t1 := fe_sub x2 z2 in
  let x2 := fe_add x2 z2 in
  let z2 := fe_add x3 z3 in
  let z3 := fe_mul t0 x2 in
  let z2 := fe_mul z2 t1 in
  let t0 := fe_sq t1 in
  let t1 := fe_sq x2 in
  let x3 := fe_add z3 z2 in
  let z2 := fe_sub z3 z2 in
  let x2 := fe_mul t1 t0 in
  let t1 := fe_sub t1 t0 in
  let z2 := fe_sq z2 in
  let z3 := fe_mul_small t1 121666 in
  let x3 := fe_sq x3 in
  let t0 := fe_add t0 z3 in
  let z3 := fe_mul x1 z2 in
  let z2 := fe_mul t1 t0 in
  Ladder x2 z2 x3 z3 swap.
(** [for (pos = nb_bits - 1; pos >= 0; --pos)] *)
Fixpoint ladder_loop (x1 : fe) (scalar : list Z) (pos : nat) (l : ladder) : option ladder :=
  match pos with
  | O => Some l
  | S pos => b ← scalar_bit scalar (Z.of_nat pos); ladder_loop x1 scalar pos (ladder_step x1 b l)
  end.
Definition scalarmult (scalar p : list Z) (nb_bits : nat) : option (list Z) :=
  x1 ← fe_frombytes p;
  l ← ladder_loop x1 scalar nb_bits (Ladder fe_1 fe_0 x1 fe_1 0);
  let '(x2, x3) := fe_cswap (x2 l) (x3 l) (swap l) in
  let '(z2, z3) := fe_cswap (z2 l) (z3 l) (swap l) in
  z2 ← fe_invert z2;
  Some (fe_tobytes (fe_mul x2 z2)).
Definition crypto_x25519 (your_secret_key their_public_key : list Z) : option (list Z) :=
  e ← crypto_eddsa_trim_scalar your_secret_key;
  scalarmult e their_public_key 255.
Definition base_point : list Z := 9 :: replicate 31 0.
Definition crypto_x25519_public_key (secret_key : list Z) : option (list Z) := crypto_x25519 secret_key base_point.

(** ** RFC 7748 *)

Section rfc.
Local Open Scope Zmod_scope.

(** One iteration of the loop of section 5, with its names. *)
Definition rfc_step (x_1 : F) (k_t : bool) (s : F * F * F * F * bool) : F * F * F * F * bool :=
  let '(x_2, z_2, x_3, z_3, swap) := s in
  let swap := xorb swap k_t in
  let '(x_2, x_3) := if swap then (x_3, x_2) else (x_2, x_3) in
  let '(z_2, z_3) := if swap then (z_3, z_2) else (z_2, z_3) in
  let A := x_2 + z_2 in let AA := A * A in
  let B := x_2 - z_2 in let BB := B * B in
  let E := AA - BB in
  let C := x_3 + z_3 in let D := x_3 - z_3 in
  let DA := D * A in let CB := C * B in
  let x_3 := (DA + CB) * (DA + CB) in
  let z_3 := x_1 * ((DA - CB) * (DA - CB)) in
  let x_2 := AA * BB in
  let z_2 := E * (AA + of_Z 121665 * E) in
  (x_2, z_2, x_3, z_3, k_t).
Fixpoint rfc_loop (x_1 : F) (k : Z) (bits : nat) (s : F * F * F * F * bool) : F * F * F * F * bool :=
  match bits with
  | O => s
  | S t => rfc_loop x_1 k t (rfc_step x_1 (Z.testbit k (Z.of_nat t)) s)
  end.
(** The function X25519 on a scalar and a coordinate. *)
Definition rfc_x25519 (k u : Z) : F :=
  let x_1 := of_Z u in
  let '(x_2, z_2, x_3, z_3, swap) := rfc_loop x_1 k 255 (1, 0, x_1, 1, false) in
  let '(x_2, x_3) := if swap then (x_3, x_2) else (x_2, x_3) in
  let '(z_2, z_3) := if swap then (z_3, z_2) else (z_2, z_3) in
  x_2 * z_2 ^ (p25519 - 2)%Z.
End rfc.

(** decodeScalar25519, decodeUCoordinate and encodeUCoordinate, as numbers: bits 0
    to 2 and 255 are cleared and bit 254 is set; bit 255 is ignored. *)
Definition decode_scalar (s : list Z) : Z := 2 ^ 254 + 8 * (le_value s mod 2 ^ 254 / 8).
Definition decode_u (s : list Z) : Z := le_value s mod 2 ^ 255.
Definition encode_u (x : F) : list Z := le_bytes 32 (Zmod.to_Z x).

(** ** The bits of the scalar *)

Lemma le_value_testbit l : forall (i : nat) x, all_bytes l -> l !! (i / 8)%nat = Some x ->
  Z.testbit (le_value l) (Z.of_nat i) = Z.testbit x (Z.of_nat (i mod 8)).
Proof.
  induction l as [|b l IH]; intros i x Hl E; [discriminate|]. apply Forall_cons in Hl as [Hb Hl]. cbn [le_value].
  unfold is_byte in Hb. replace (b + 256 * le_value l) with (le_value l * 2 ^ 8 + b) by lia.
  rewrite <- lor_shiftl_add, Z.lor_spec by lia. destruct (Nat.lt_ge_cases i 8) as [H|H].
  - rewrite Nat.div_small in E by lia. injection E as ->. by rewrite Z.shiftl_spec_low, Nat.mod_small by lia.
  - assert ((i / 8 = S ((i - 8) / 8))%nat /\ (i mod 8 = (i - 8) mod 8)%nat) as [E1 E2].
    { assert (i = (i - 8) + 1 * 8)%nat as Ei by lia. rewrite Ei at 1 3. rewrite Nat.div_add, Nat.Div0.mod_add by lia. lia. }
    rewrite E1 in E. rewrite E2. rewrite Z.shiftl_spec by lia. replace (Z.of_nat i - 8) with (Z.of_nat (i - 8)) by lia. rewrite (IH (i - 8)%nat x Hl E).
    assert (Z.testbit b (Z.of_nat i) = false) as ->; [|apply orb_false_r].
    rewrite <- (Z.mod_small b (2 ^ 8)) by lia. apply Z.mod_pow2_bits_high. lia.
Qed.
Lemma scalar_bit_spec s (i : nat) : all_bytes s -> (i < 8 * length s)%nat ->
  scalar_bit s (Z.of_nat i) = Some (Z.b2z (Z.testbit (le_value s) (Z.of_nat i))).
Proof.
  intros Hs Hi. unfold scalar_bit. rewrite decide_False by lia. rewrite Z.shiftr_div_pow2 by lia.
  assert ((i / 8 < length s)%nat) as Hq by (apply Nat.Div0.div_lt_upper_bound; lia).
  replace (Z.of_nat i / 2 ^ 3) with (Z.of_nat (i / 8)) by (change (2 ^ 3) with (Z.of_nat 8); by rewrite Nat2Z.inj_div).
  destruct (lookup_lt_is_Some_2 s (i / 8)%nat Hq) as [x E]. unfold rd. rewrite decide_True by lia. rewrite Nat2Z.id, E. cbn [mbind option_bind].
  f_equal. rewrite (le_value_testbit s i x Hs E). change 7 with (Z.ones 3). rewrite (Z.land_ones (Z.shiftr x _) 1 ltac:(lia)), (Z.land_ones (Z.of_nat i) 3) by lia.
  change (2 ^ 3) with (Z.of_nat 8). rewrite <- Nat2Z.inj_mod. rewrite <- Z.bit0_mod, Z.shiftr_spec by lia. done.
Qed.

(** A property of all bytes, by trying them. *)
Lemma byte_check (k : Z -> bool) b : forallb k (seqZ 0 256) = true -> is_byte b -> k b = true.
Proof. intros H Hb. rewrite forallb_forall in H. apply H, list_elem_of_In, elem_of_seqZ. unfold is_byte in Hb. lia. Qed.
(** [crypto_eddsa_trim_scalar] is decodeScalar25519. *)
Lemma list_ends {A} (s : list A) n : length s = S (S n) -> exists a l b, s = a :: l ++ [b] /\ length l = n.
Proof.
  intros H. destruct s as [|a s]; [discriminate|]. destruct (exists_last (l := s)) as (l & b & ->); [by intros ->|].
  exists a, l, b. cbn in H. rewrite length_app in H. cbn in H. split; [done|lia].
Qed.
Lemma trim_scalar_spec s : length s = 32%nat -> all_bytes s ->
  exists e, crypto_eddsa_trim_scalar s = Some e /\ length e = 32%nat /\ all_bytes e /\ le_value e = decode_scalar s.
Proof.
  intros L B. destruct (list_ends s 30 L) as (a0 & m & a31 & -> & Lm). apply Forall_cons in B as [B0 B]. apply Forall_app in B as [Bm B31].
  apply Forall_cons in B31 as [B31 _].
  assert (rd (a0 :: m ++ [a31]) 31 = Some a31) as E31.
  { change (a0 :: m ++ [a31]) with ((a0 :: m) ++ a31 :: []). apply rd_mid. cbn. lia. }
  unfold crypto_eddsa_trim_scalar. rewrite E31. cbn [mbind option_bind]. rewrite (eq_refl : rd (a0 :: m ++ [a31]) 0 = Some a0). cbn [mbind option_bind].
  change (<[0%nat := Z.land a0 248]> (a0 :: m ++ [a31])) with (Z.land a0 248 :: m ++ [a31]).
  change (Z.land a0 248 :: m ++ [a31]) with ((Z.land a0 248 :: m) ++ [a31]). rewrite insert_app_r_alt by (cbn; lia). rewrite length_cons, Lm. cbn [insert list_insert Nat.sub].
  assert (Z.land a0 248 = 8 * (a0 / 8)) as E0 by (apply Z.eqb_eq; by apply (byte_check (fun b => Z.land b 248 =? 8 * (b / 8)))).
  assert (Z.lor (Z.land a31 127) 64 = 64 + a31 mod 64) as E by (apply Z.eqb_eq; by apply (byte_check (fun b => Z.lor (Z.land b 127) 64 =? 64 + b mod 64))).
  rewrite E0, E. unfold is_byte in *. eexists. split; [reflexivity|]. split_and!.
  - rewrite length_app. cbn. lia.
  - apply Forall_app. split; apply Forall_cons; (split; [unfold is_byte; Z.div_mod_to_equations; lia|]); [done|apply Forall_nil; exact I].
  - unfold decode_scalar. change (a0 :: m ++ [a31]) with ((a0 :: m) ++ [a31]). rewrite !le_value_app. cbn [le_value length]. rewrite !Nat2Z.inj_succ, Lm.
    change (256 ^ Z.succ (Z.of_nat 30)) with (2 ^ 248). pose proof (le_value_range m Bm) as R. rewrite Lm in R. change (256 ^ Z.of_nat 30) with (2 ^ 240) in R.
    set (v := le_value m) in *. clearbody v. rewrite !Z.mul_0_r, !Z.add_0_r.
    assert ((a0 + 256 * v + 2 ^ 248 * a31) mod 2 ^ 254 = a0 + 256 * v + 2 ^ 248 * (a31 mod 64)) as ->.
    { symmetry. apply Z.mod_unique_pos with (a31 / 64); Z.div_mod_to_equations; lia. }
    replace (a0 + 256 * v + 2 ^ 248 * (a31 mod 64)) with (a0 + (32 * v + 2 ^ 245 * (a31 mod 64)) * 8) by lia. rewrite Z.div_add by lia. lia.
Qed.

(** ** The ladder *)

(** The limbs of the loop represent the field elements of RFC 7748. *)
Definition ladder_rel (l : ladder) (s : F * F * F * F * bool) : Prop :=
  let '(x_2, z_2, x_3, z_3, sw) := s in
  (tight (x2 l) /\ tight (z2 l) /\ tight (x3 l) /\ tight (z3 l) /\ swap l = Z.b2z sw)
  /\ feval (x2 l) = x_2 /\ feval (z2 l) = z_2 /\ feval (x3 l) = x_3 /\ feval (z3 l) = z_3.

Lemma if_pair {A B} (c : bool) (a b : A) (k : A -> A -> B) :
  (let '(x, y) := if c then (b, a) else (a, b) in k x y) = k (if c then b else a) (if c then a else b).
Proof. by destruct c. Qed.
Lemma feval_if (c : bool) f g : feval (if c then f else g) = if c then feval f else feval g.
Proof. by destruct c. Qed.
Lemma tight_if (c : bool) f g : tight f -> tight g -> tight (if c then f else g).
Proof. by destruct c. Qed.
Lemma b2z_xor a b : Z.lxor (Z.b2z a) (Z.b2z b) = Z.b2z (xorb a b).
Proof. by destruct a, b. Qed.
#[local] Hint Resolve tight_loose tight_if : core.

(** Names the result of the next operation and what is known of it. *)
Ltac fe_op e lem :=
  let T := fresh "T" in let E := fresh "E" in
  destruct lem as [T E]; [by auto..|]; revert T E; generalize e; intros ? T E.
Ltac fe_step :=
  match goal with
  | |- context [fe_add ?f ?g] => is_var f; is_var g; fe_op (fe_add f g) (fe_add_spec f g)
  | |- context [fe_sub ?f ?g] => is_var f; is_var g; fe_op (fe_sub f g) (fe_sub_spec f g)
  | |- context [fe_mul ?f ?g] => is_var f; is_var g; fe_op (fe_mul f g) (fe_mul_spec f g)
  | |- context [fe_sq ?f] => is_var f; fe_op (fe_sq f) (fe_sq_spec f)
  | |- context [fe_mul_small ?f 121666] => is_var f; fe_op (fe_mul_small f 121666) (fe_mul_small_spec f 121666)
  end.

Lemma ladder_step_rel x1 l s k_t : tight x1 -> ladder_rel l s -> ladder_rel (ladder_step x1 (Z.b2z k_t) l) (rfc_step (feval x1) k_t s).
Proof.
  destruct s as [[[[x_2 z_2] x_3] z_3] sw], l as [x2 z2 x3 z3 b]. unfold ladder_rel at 1. cbn [X25519.x2 X25519.z2 X25519.x3 X25519.z3 swap].
  intros H1 ((T2 & U2 & T3 & U3 & ->) & <- & <- & <- & <-). unfold ladder_step, rfc_step. cbn [X25519.x2 X25519.z2 X25519.x3 X25519.z3 swap].
  rewrite b2z_xor, !fe_cswap_spec. set (c := xorb sw k_t). clearbody c. clear sw.
  rewrite !(if_pair c), <- !feval_if.
  pose proof (tight_if c _ _ T3 T2) as V2. pose proof (tight_if c _ _ U3 U2) as W2. pose proof (tight_if c _ _ T2 T3) as V3. pose proof (tight_if c _ _ U2 U3) as W3.
  revert V2 W2 V3 W3. generalize (if c then x3 else x2) (if c then z3 else z2) (if c then x2 else x3) (if c then z2 else z3). clear - H1.
  intros x2 z2 x3 z3 V2 W2 V3 W3. repeat fe_step. unfold ladder_rel. cbn [X25519.x2 X25519.z2 X25519.x3 X25519.z3 swap].
  split; [tauto|]. assert (of_Z 121666 = of_Z 121665 + 1)%Zmod as Ek by (apply Zmod.to_Z_inj; vm_compute; reflexivity).
  split_and!;
    repeat match goal with E : feval ?v = _ |- context [feval ?v] => rewrite E end; rewrite ?Ek; ring.
Qed.
Lemma ladder_loop_rel x1 scalar n : tight x1 -> all_bytes scalar -> (n <= 8 * length scalar)%nat -> forall l s, ladder_rel l s ->
  exists l', ladder_loop x1 scalar n l = Some l' /\ ladder_rel l' (rfc_loop (feval x1) (le_value scalar) n s).
Proof.
  intros Hx Hs. induction n as [|n IH]; intros Hn l s R; cbn [ladder_loop rfc_loop]; [by exists l|].
  rewrite scalar_bit_spec by (done || lia). cbn [mbind option_bind]. apply IH; [lia|]. by apply ladder_step_rel.
Qed.

Lemma scalarmult_spec scalar p : length scalar = 32%nat -> all_bytes scalar -> length p = 32%nat -> all_bytes p ->
  scalarmult scalar p 255 = Some (encode_u (rfc_x25519 (le_value scalar) (decode_u p))).
Proof.
  intros Ls Bs Lp Bp. unfold scalarmult, rfc_x25519, decode_u. destruct (fe_frombytes_spec p Lp Bp) as (x1 & -> & T1 & E1). cbn [mbind option_bind].
  rewrite <- E1. destruct fe_1_spec as [To Eo], fe_0_spec as [Tz Ez].
  assert (ladder_rel (Ladder fe_1 fe_0 x1 fe_1 0) (1, 0, feval x1, 1, false)%Zmod) as R0 by done.
  destruct (ladder_loop_rel x1 scalar 255 T1 Bs ltac:(lia) _ _ R0) as (l & -> & R). cbn [mbind option_bind].
  destruct (rfc_loop (feval x1) (le_value scalar) 255 (1, 0, feval x1, 1, false)%Zmod) as [[[[a b] c] d] sw].
  destruct l as [x2 z2 x3 z3 w]. destruct R as [(T2 & U2 & T3 & U3 & ->) (<- & <- & <- & <-)]. cbn [X25519.x2 X25519.z2 X25519.x3 X25519.z3 swap] in *.
  rewrite !fe_cswap_spec, !(if_pair sw), <- !feval_if.
  destruct (fe_invert_spec (if sw then z3 else z2)) as (y & -> & Ty & Ey); [auto|]. cbn [mbind option_bind]. f_equal.
  destruct (fe_mul_spec (if sw then x3 else x2) y) as [T E]; [auto..|]. rewrite fe_tobytes_eval by done. unfold encode_u. by rewrite E, Ey.
Qed.

Lemma crypto_x25519_spec k p : length k = 32%nat -> all_bytes k -> length p = 32%nat -> all_bytes p ->
  crypto_x25519 k p = Some (encode_u (rfc_x25519 (decode_scalar k) (decode_u p))).
Proof.
  intros Ls Bs Lp Bp. unfold crypto_x25519. destruct (trim_scalar_spec _ Ls Bs) as (e & -> & Le & Be & <-). cbn [mbind option_bind]. by apply scalarmult_spec.
Qed.
Lemma base_point_ok : length base_point = 32%nat /\ all_bytes base_point.
Proof. split; [done|by apply bytes_dec_iff]. Qed.
Lemma crypto_x25519_public_key_spec k : length k = 32%nat -> all_bytes k ->
  crypto_x25519_public_key k = Some (encode_u (rfc_x25519 (decode_scalar k) 9)).
Proof. intros Ls Bs. destruct base_point_ok. unfold crypto_x25519_public_key. by rewrite crypto_x25519_spec. Qed.

(** C18: X25519 is that of RFC 7748.  On 32-byte strings [crypto_x25519] reads inside
    its buffers, wraps nowhere and returns the encoding of X25519 of the decoded
    scalar and coordinate; the public key is the same function at 9. *)
Theorem crypto_x25519_rfc your_secret_key their_public_key :
  length your_secret_key = 32%nat -> all_bytes your_secret_key -> length their_public_key = 32%nat -> all_bytes their_public_key ->
  crypto_x25519 your_secret_key their_public_key = Some (encode_u (rfc_x25519 (decode_scalar your_secret_key) (decode_u their_public_key)))
  /\ crypto_x25519_public_key your_secret_key = Some (encode_u (rfc_x25519 (decode_scalar your_secret_key) 9)).
Proof. intros Ls Bs Lp Bp. split; [by apply crypto_x25519_spec|by apply crypto_x25519_public_key_spec]. Qed.
Lemma crypto_x25519_rfc_witness :
  crypto_x25519 (replicate 32 7) base_point = Some (encode_u (rfc_x25519 (decode_scalar (replicate 32 7)) (decode_u base_point)))
  /\ crypto_x25519_public_key (replicate 32 7) = Some (encode_u (rfc_x25519 (decode_scalar (replicate 32 7)) 9)).
Proof. apply (crypto_x25519_rfc (replicate 32 7) base_point); [reflexivity|by apply bytes_dec_iff|reflexivity|by apply bytes_dec_iff]. Defined.
