(* ===== verification/Sha512.v ===== *)
(** * SHA-512 (src/dosshd/crypto/monocypher-ed25519.c)

    The streaming implementation, which keeps the block as sixteen 64-bit words
    and computes the message schedule in place, and the proof that it computes the
    function of FIPS 180-4. *)
From Stdlib Require Import ZArith Lia.
From stdpp Require Import base list numbers.
From S2P Require Import Prelude Sha256.
Local Open Scope Z_scope.

(** ** Words *)

Definition rot (x c : Z) : Z := Z.lor (Z.shiftr x c) (u64 (Z.shiftl x (64 - c))).
Definition ch (x y z : Z) : Z := Z.lxor (Z.land x y) (Z.land (u64 (Z.lnot x)) z).
Definition maj (x y z : Z) : Z := Z.lxor (Z.lxor (Z.land x y) (Z.land x z)) (Z.land y z).
Definition big_sigma0 (x : Z) : Z := Z.lxor (Z.lxor (rot x 28) (rot x 34)) (rot x 39).
Definition big_sigma1 (x : Z) : Z := Z.lxor (Z.lxor (rot x 14) (rot x 18)) (rot x 41).
Definition lit_sigma0 (x : Z) : Z := Z.lxor (Z.lxor (rot x 1) (rot x 8)) (Z.shiftr x 7).
Definition lit_sigma1 (x : Z) : Z := Z.lxor (Z.lxor (rot x 19) (rot x 61)) (Z.shiftr x 6).

Definition load64_be (s : list Z) (o : Z) : option Z :=
  b0 ← rd s o; b1 ← rd s (o + 1); b2 ← rd s (o + 2); b3 ← rd s (o + 3);
  b4 ← rd s (o + 4); b5 ← rd s (o + 5); b6 ← rd s (o + 6); b7 ← rd s (o + 7);
  Some (Z.lor (Z.lor (Z.lor (Z.lor (Z.lor (Z.lor (Z.lor (Z.shiftl b0 56) (Z.shiftl b1 48)) (Z.shiftl b2 40)) (Z.shiftl b3 32))
    (Z.shiftl b4 24)) (Z.shiftl b5 16)) (Z.shiftl b6 8)) b7).
Definition store64_be (v : Z) : list Z :=
  [Z.land (Z.shiftr v 56) 0xff; Z.land (Z.shiftr v 48) 0xff; Z.land (Z.shiftr v 40) 0xff; Z.land (Z.shiftr v 32) 0xff;
   Z.land (Z.shiftr v 24) 0xff; Z.land (Z.shiftr v 16) 0xff; Z.land (Z.shiftr v 8) 0xff; Z.land v 0xff].
(** [FOR(i, 0, size) { dst(i) = load64_be(src + i*8); }] at [dst + k], inside [dst]. *)
Definition load64_be_buf (dst : list Z) (k : Z) (src : list Z) (size : Z) : option (list Z) :=
  ws ← mapM (fun i => load64_be src (i * 8)) (seqZ 0 size);
  if decide (0 <= k /\ k + size <= len dst)
  then Some (take (Z.to_nat k) dst ++ ws ++ drop (Z.to_nat (k + size)) dst) else None.

(** The table of the source, four words to a line. *)
Definition K512 : list Z := Eval vm_compute in mjoin ((fun s => hex_groups 15 15 0 (text s)) <$> [
  "428a2f98d728ae227137449123ef65cdb5c0fbcfec4d3b2fe9b5dba58189dbbc";
  "3956c25bf348b53859f111f1b605d019923f82a4af194f9bab1c5ed5da6d8118";
  "d807aa98a303024212835b0145706fbe243185be4ee4b28c550c7dc3d5ffb4e2";
  "72be5d74f27b896f80deb1fe3b1696b19bdc06a725c71235c19bf174cf692694";
  "e49b69c19ef14ad2efbe4786384f25e30fc19dc68b8cd5b5240ca1cc77ac9c65";
  "2de92c6f592b02754a7484aa6ea6e4835cb0a9dcbd41fbd476f988da831153b5";
  "983e5152ee66dfaba831c66d2db43210b00327c898fb213fbf597fc7beef0ee4";
  "c6e00bf33da88fc2d5a79147930aa72506ca6351e003826f142929670a0e6e70";
  "27b70a8546d22ffc2e1b21385c26c9264d2c6dfc5ac42aed53380d139d95b3df";
  "650a73548baf63de766a0abb3c77b2a881c2c92e47edaee692722c851482353b";
  "a2bfe8a14cf10364a81a664bbc423001c24b8b70d0f89791c76c51a30654be30";
  "d192e819d6ef5218d69906245565a910f40e35855771202a106aa07032bbd1b8";
  "19a4c116b8d2d0c81e376c085141ab532748774cdf8eeb9934b0bcb5e19b48a8";
  "391c0cb3c5c95a634ed8aa4ae3418acb5b9cca4f7763e373682e6ff3d6b2b8a3";
  "748f82ee5defb2fc78a5636f43172f6084c87814a1f0ab728cc702081a6439ec";
  "90befffa23631e28a4506cebde82bde9bef9a3f7b2c67915c67178f2e372532b";
  "ca273eceea26619cd186b8c721c0c207eada7dd6cde0eb1ef57d4f7fee6ed178";
  "06f067aa72176fba0a637dc5a2c898a6113f9804bef90dae1b710b35131c471b";
  "28db77f523047d8432caab7b40c724933c9ebe0a15c9bebc431d67c49c100d4c";
  "4cc5d4becb3e42b6597f299cfc657e2a5fcb6fab3ad6faec6c44198c4a475817"]%string).

(** ** The context *)

Record sha512_ctx := Ctx512 { hash : vars; input_size : Z * Z; input : list Z; input_idx : Z }.
#[export] Instance sha512_ctx_eta : Eta sha512_ctx := fun r => Ctx512 (hash r) (input_size r) (input r) (input_idx r).
#[export] Instance upd_hash : Upd hash := ltac:(derive_upd hash).
#[export] Instance upd_input_size : Upd input_size := ltac:(derive_upd input_size).
#[export] Instance upd_input : Upd input := ltac:(derive_upd input).
#[export] Instance upd_input_idx : Upd input_idx := ltac:(derive_upd input_idx).

(** The body of the loops of [sha512_compress], for the word [k + w]. *)
Definition round512 (v : vars) (k w : Z) : vars :=
  let x := u64 (k + w) in
  let t1 := u64 (big_sigma1 (ve v) + ch (ve v) (vf v) (vg v) + vh v + x) in
  let t2 := u64 (big_sigma0 (va v) + maj (va v) (vb v) (vc v)) in
  Vars (u64 (t1 + t2)) (va v) (vb v) (vc v) (u64 (vd v + t1)) (ve v) (vf v) (vg v).
Definition inp (l : list Z) (i : Z) : Z := nth (Z.to_nat i) l 0.
(** The first sixteen rounds, then the four passes that extend the words in place. *)
Definition first_rounds (v : vars) (w : list Z) : vars :=
  fold_left (fun v j => round512 v (inp K512 j) (inp w j)) (seqZ 0 16) v.
Definition extend_word (w : list Z) (j : Z) : list Z :=
  let x := inp w j in
  let x := u64 (x + lit_sigma1 (inp w (Z.land (j - 2) 15))) in
  let x := u64 (x + lit_sigma0 (inp w (Z.land (j - 15) 15))) in
  let x := u64 (x + inp w (Z.land (j - 7) 15)) in
  <[Z.to_nat j := x]> w.
Definition pass_step (i16 : Z) (s : vars * list Z) (j : Z) : vars * list Z :=
  let w := extend_word (snd s) j in (round512 (fst s) (inp K512 (i16 + j)) (inp w j), w).
Definition pass (s : vars * list Z) (i : Z) : vars * list Z := fold_left (pass_step (16 * i)) (seqZ 0 16) s.
Definition add_vars64 (s v : vars) : vars :=
  Vars (u64 (va s + va v)) (u64 (vb s + vb v)) (u64 (vc s + vc v)) (u64 (vd s + vd v))
       (u64 (ve s + ve v)) (u64 (vf s + vf v)) (u64 (vg s + vg v)) (u64 (vh s + vh v)).
Definition sha512_compress (c : sha512_ctx) : sha512_ctx :=
  let v := first_rounds (hash c) (input c) in
  let '(v, w) := fold_left pass (seqZ 1 4) (v, input c) in
  (c <| input := w |>) <| hash := add_vars64 (hash c) v |>.

Definition sha512_set_input (c : sha512_ctx) (b : Z) : option sha512_ctx :=
  let word := Z.shiftr (input_idx c) 3 in
  let byte := Z.land (input_idx c) 7 in
  x ← rd (input c) word;
  Some (c <| input := <[Z.to_nat word := Z.lor x (Z.shiftl b (8 * (7 - byte)))]> (input c) |>).
Definition sha512_incr (x : Z * Z) (y : Z) : Z * Z :=
  let x1 := u64 (snd x + y) in
  if decide (x1 < y) then (u64 (fst x + 1), x1) else (fst x, x1).
Definition IV512 : vars :=
  Vars 0x6a09e667f3bcc908 0xbb67ae8584caa73b 0x3c6ef372fe94f82b 0xa54ff53a5f1d36f1
       0x510e527fade682d1 0x9b05688c2b3e6c1f 0x1f83d9abfb41bd6b 0x5be0cd19137e2179.
Definition crypto_sha512_init : sha512_ctx := Ctx512 IV512 (0, 0) (replicate 16 0) 0.

(** [(~x + 1) & (pow_2 - 1)] of a 16-bit [size_t] *)
Definition align (x pow_2 : Z) : Z := Z.land (u16 (u16 (Z.lnot x) + 1)) (pow_2 - 1).

(** [FOR (i, 0, n) { sha512_set_input(ctx, message(i)); ctx->input_idx++; }] *)
Fixpoint set_bytes (c : sha512_ctx) (bs : list Z) : option sha512_ctx :=
  match bs with
  | [] => Some c
  | b :: bs => c ← sha512_set_input c b; set_bytes (c <| input_idx := input_idx c + 1 |>) bs
  end.
(** Compressing a full block, and what the code does after it. *)
Definition full_block (c : sha512_ctx) : sha512_ctx :=
  let c := c <| input_size := sha512_incr (input_size c) 1024 |> in
  let c := sha512_compress c in
  (c <| input_idx := 0 |>) <| input := replicate 16 0 |>.
(** Whole words of the message, at word [k]. *)
Definition load_words (c : sha512_ctx) (k : Z) (message : list Z) (nb_words : Z) : option sha512_ctx :=
  w ← load64_be_buf (input c) k message nb_words;
  Some ((c <| input := w |>) <| input_idx := input_idx c + Z.shiftl nb_words 3 |>).
Fixpoint block_loop (n : nat) (c : sha512_ctx) (message : list Z) : option (sha512_ctx * list Z) :=
  match n with
  | O => Some (c, message)
  | S n => w ← load64_be_buf (input c) 0 message 16; block_loop n (full_block (c <| input := w |>)) (drop 128 message)
  end.
(** The stages of [crypto_sha512_update]: bytes up to a word boundary, words up to
    a block boundary, and the end of the message. *)
Definition word_boundary (c : sha512_ctx) (message : list Z) : option (sha512_ctx * list Z) :=
  if decide (Z.land (input_idx c) 7 <> 0) then
    let nb_bytes := Z.min (align (input_idx c) 8) (len message) in
    c ← set_bytes c (take (Z.to_nat nb_bytes) message); Some (c, drop (Z.to_nat nb_bytes) message)
  else Some (c, message).
Definition block_boundary (c : sha512_ctx) (message : list Z) : option (sha512_ctx * list Z) :=
  if decide (Z.land (input_idx c) 127 <> 0) then
    let nb_words := Z.shiftr (Z.min (align (input_idx c) 128) (len message)) 3 in
    c ← load_words c (Z.shiftr (input_idx c) 3) message nb_words; Some (c, drop (Z.to_nat (Z.shiftl nb_words 3)) message)
  else Some (c, message).
Definition remaining (c : sha512_ctx) (message : list Z) : option sha512_ctx :=
  if decide (len message <> 0) then
    let nb_words := Z.shiftr (len message) 3 in
    c ← load_words c 0 message nb_words;
    set_bytes c (drop (Z.to_nat (Z.shiftl nb_words 3)) message)
  else Some c.
Definition crypto_sha512_update (c : sha512_ctx) (message : list Z) : option sha512_ctx :=
  if decide (len message = 0) then Some c else
  '(c, message) ← word_boundary c message;
  '(c, message) ← block_boundary c message;
  let c := if decide (input_idx c = 128) then full_block c else c in
  '(c, message) ← block_loop (Z.to_nat (Z.shiftr (len message) 7)) c message;
  remaining c message.
Definition digest64 (v : vars) : list Z :=
  store64_be (va v) ++ store64_be (vb v) ++ store64_be (vc v) ++ store64_be (vd v)
  ++ store64_be (ve v) ++ store64_be (vf v) ++ store64_be (vg v) ++ store64_be (vh v).
Definition crypto_sha512_final (c : sha512_ctx) : option (list Z) :=
  let c := if decide (input_idx c = 0) then c <| input := replicate 16 0 |> else c in
  c ← sha512_set_input c 128;
  let c := c <| input_size := sha512_incr (input_size c) (input_idx c * 8) |> in
  let c := if decide (input_idx c > 111)
           then let c := sha512_compress c in c <| input := replicate 14 0 ++ drop 14 (input c) |> else c in
  let c := c <| input := <[15%nat := snd (input_size c)]> (<[14%nat := fst (input_size c)]> (input c)) |> in
  Some (digest64 (hash (sha512_compress c))).
Definition crypto_sha512 (message : list Z) : option (list Z) :=
  c ← crypto_sha512_update crypto_sha512_init message; crypto_sha512_final c.

Example sha512_abc : crypto_sha512 (text "abc") = Some (hex
  "ddaf35a193617abacc417349ae20413112e6fa4e89a97ea20a9eeee64b55d39a2192992a274fc1a836ba3c23a3feebbd454d4423643ce80e2a9ac94fa54ca49f").
Proof. vm_compute. reflexivity. Qed.

(** ** The specification (FIPS 180-4) *)

Module Fips512.
Definition rotr (n x : Z) : Z := x / 2 ^ n + (x mod 2 ^ n) * 2 ^ (64 - n).
Definition shr (n x : Z) : Z := x / 2 ^ n.
Definition Ch (x y z : Z) : Z := Z.lor (Z.land x y) (Z.ldiff z x).
Definition Maj (x y z : Z) : Z := Z.lor (Z.lor (Z.land x y) (Z.land x z)) (Z.land y z).
Definition Sigma0 x := Z.lxor (Z.lxor (rotr 28 x) (rotr 34 x)) (rotr 39 x).
Definition Sigma1 x := Z.lxor (Z.lxor (rotr 14 x) (rotr 18 x)) (rotr 41 x).
Definition sigma0 x := Z.lxor (Z.lxor (rotr 1 x) (rotr 8 x)) (shr 7 x).
Definition sigma1 x := Z.lxor (Z.lxor (rotr 19 x) (rotr 61 x)) (shr 6 x).

(** Section 5.1.2: the padded message. *)
Fixpoint be_value (l : list Z) : Z := match l with [] => 0 | b :: l => b * 256 ^ len l + be_value l end.
Definition be128 (n : Z) : list Z := (fun i => n / 2 ^ (8 * (15 - i)) mod 256) <$> seqZ 0 16.
Definition pad (msg : list Z) : list Z :=
  msg ++ [0x80] ++ replicate (Z.to_nat ((111 - len msg) mod 128)) 0 ++ be128 (8 * len msg).

(** Section 6.4.2: schedule and compression of one block. *)
Definition word (block : list Z) (t : nat) : Z := be_value (take 8 (drop (8 * t) block)).
Fixpoint W (block : list Z) (fuel t : nat) : Z :=
  match fuel with
  | O => 0
  | S f => if (t <? 16)%nat then word block t
           else (sigma1 (W block f (t - 2)) + W block f (t - 7) + sigma0 (W block f (t - 15)) + W block f (t - 16)) mod 2 ^ 64
  end.
Definition step (v : vars) (Kt Wt : Z) : vars :=
  let T1 := vh v + Sigma1 (ve v) + Ch (ve v) (vf v) (vg v) + Kt + Wt in
  let T2 := Sigma0 (va v) + Maj (va v) (vb v) (vc v) in
  Vars ((T1 + T2) mod 2 ^ 64) (va v) (vb v) (vc v) ((vd v + T1) mod 2 ^ 64) (ve v) (vf v) (vg v).
Fixpoint work (H : vars) (block : list Z) (t : nat) : vars :=
  match t with
  | O => H
  | S t => step (work H block t) (nth t K512 0) (W block (S t) t)
  end.
Definition compress (H : vars) (block : list Z) : vars := add_vars64 H (work H block 80).

(** Sections 5.2.2 and 6.4: the blocks in order. *)
Fixpoint absorb (n : nat) (H : vars) (m : list Z) : vars :=
  match n with
  | O => H
  | S n => absorb n (compress H (take 128 m)) (drop 128 m)
  end.
Definition digest (v : vars) : list Z :=
  mjoin ((fun w => (fun i => w / 2 ^ (8 * (7 - i)) mod 256) <$> seqZ 0 8) <$> [va v; vb v; vc v; vd v; ve v; vf v; vg v; vh v]).
Definition sha512 (msg : list Z) : list Z := digest (absorb (length (pad msg) / 128) IV512 (pad msg)).
End Fips512.
Arguments Fips512.compress : simpl never.
Arguments Fips512.W : simpl never.

(** ** The word functions *)

Definition is_u64 (x : Z) : Prop := 0 <= x < 18446744073709551616.
Lemma u64_range x : is_u64 (u64 x).
Proof. apply Z.mod_pos_bound. lia. Qed.
Lemma u64_is x : is_u64 x -> u64 x = x.
Proof. apply Z.mod_small. Qed.
Lemma u64_add_l x y : u64 (u64 x + y) = u64 (x + y).
Proof. apply Zplus_mod_idemp_l. Qed.
Lemma u64_add_r x y : u64 (x + u64 y) = u64 (x + y).
Proof. apply Zplus_mod_idemp_r. Qed.

Lemma rot_rotr n x : 0 < n < 64 -> is_u64 x -> rot x n = Fips512.rotr n x.
Proof.
  unfold is_u64. intros Hn Hx. unfold rot, Fips512.rotr, u64. change 18446744073709551616 with (2 ^ 64) in *.
  assert (0 < 2 ^ n /\ 0 < 2 ^ (64 - n)) as [P1 P2] by (split; apply Z.pow_pos_nonneg; lia).
  assert (2 ^ 64 = 2 ^ n * 2 ^ (64 - n)) as E by (rewrite <- Z.pow_add_r by lia; f_equal; lia).
  rewrite Z.shiftr_div_pow2, Z.shiftl_mul_pow2, E, Zmult_mod_distr_r, <- Z.shiftl_mul_pow2 by lia.
  rewrite Z.lor_comm, lor_shiftl_add, Z.shiftl_mul_pow2; [lia..|]. split; [apply Z.div_pos; lia|]. apply Z.div_lt_upper_bound; lia.
Qed.
Lemma testbit64 x i : is_u64 x -> 64 <= i -> Z.testbit x i = false.
Proof. intros Hx Hi. rewrite <- (u64_is x) by done. by apply (Z.mod_pow2_bits_high x 64). Qed.
Lemma ch_Ch x y z : is_u64 x -> is_u64 y -> is_u64 z -> ch x y z = Fips512.Ch x y z.
Proof.
  intros Hx Hy Hz. unfold ch, Fips512.Ch. apply Z.bits_inj'. intros i Hi. rewrite Z.lxor_spec, Z.lor_spec, !Z.land_spec, Z.ldiff_spec.
  destruct (Z.lt_ge_cases i 64).
  - change (u64 (Z.lnot x)) with (Z.lnot x mod 2 ^ 64). rewrite Z.mod_pow2_bits_low, Z.lnot_spec by lia.
    by destruct (Z.testbit x i), (Z.testbit y i), (Z.testbit z i).
  - rewrite !(testbit64 z), !(testbit64 x) by done. by rewrite andb_false_r.
Qed.
Lemma maj_Maj x y z : maj x y z = Fips512.Maj x y z.
Proof.
  unfold maj, Fips512.Maj. apply Z.bits_inj'. intros i Hi. rewrite !Z.lxor_spec, !Z.lor_spec, !Z.land_spec.
  by destruct (Z.testbit x i), (Z.testbit y i), (Z.testbit z i).
Qed.
Lemma big_sigmas x : is_u64 x -> big_sigma0 x = Fips512.Sigma0 x /\ big_sigma1 x = Fips512.Sigma1 x.
Proof. intros H. unfold big_sigma0, big_sigma1, Fips512.Sigma0, Fips512.Sigma1. by rewrite !rot_rotr by (done || lia). Qed.
Lemma lit_sigmas x : is_u64 x -> lit_sigma0 x = Fips512.sigma0 x /\ lit_sigma1 x = Fips512.sigma1 x.
Proof. intros H. unfold lit_sigma0, lit_sigma1, Fips512.sigma0, Fips512.sigma1, Fips512.shr. by rewrite !rot_rotr, !Z.shiftr_div_pow2 by (done || lia). Qed.

Definition vars64 (v : vars) : Prop :=
  is_u64 (va v) /\ is_u64 (vb v) /\ is_u64 (vc v) /\ is_u64 (vd v) /\ is_u64 (ve v) /\ is_u64 (vf v) /\ is_u64 (vg v) /\ is_u64 (vh v).

Lemma round512_step v k w : vars64 v -> round512 v k w = Fips512.step v k w /\ vars64 (round512 v k w).
Proof.
  intros (Ha & Hb & Hc & Hd & He & Hf & Hg & Hh). unfold round512, Fips512.step.
  destruct (big_sigmas (va v) Ha) as [-> _], (big_sigmas (ve v) He) as [_ ->]. rewrite ch_Ch, maj_Maj by done. split.
  - change (2 ^ 64) with 18446744073709551616. fold (u64 (vh v + Fips512.Sigma1 (ve v) + Fips512.Ch (ve v) (vf v) (vg v) + k + w)).
    rewrite !u64_add_r, !u64_add_l. unfold u64. f_equal; f_equal; lia.
  - unfold vars64. cbn [va vb vc vd ve vf vg vh]. repeat (split; [first [assumption|apply u64_range]|]). assumption.
Qed.

(** ** The schedule in place *)

(** Word [t] of the schedule, with enough fuel. *)
Definition wt (block : list Z) (t : nat) : Z := Fips512.W block (S t) t.
Lemma W_S block f t : Fips512.W block (S f) t = if (t <? 16)%nat then Fips512.word block t else
  (Fips512.sigma1 (Fips512.W block f (t - 2)) + Fips512.W block f (t - 7) + Fips512.sigma0 (Fips512.W block f (t - 15)) + Fips512.W block f (t - 16)) mod 2 ^ 64.
Proof. reflexivity. Qed.
Lemma W_fuel block t : forall f, (t < f)%nat -> Fips512.W block f t = wt block t.
Proof.
  induction t as [t IH] using lt_wf_ind. intros [|f] Hf; [lia|]. unfold wt at 1. rewrite !W_S.
  destruct (Nat.ltb_spec t 16); [done|]. by rewrite !IH by lia.
Qed.
Lemma wt_next block t : (16 <= t)%nat -> wt block t =
  (Fips512.sigma1 (wt block (t - 2)) + wt block (t - 7) + Fips512.sigma0 (wt block (t - 15)) + wt block (t - 16)) mod 2 ^ 64.
Proof.
  intros H. unfold wt at 1. rewrite W_S. destruct (Nat.ltb_spec t 16); [lia|]. by rewrite !W_fuel by lia.
Qed.

(** [w] holds the words [n .. n + 15] but for the [j] first, which are those one
    pass later. *)
Definition window (block : list Z) (n j : nat) (w : list Z) : Prop :=
  length w = 16%nat /\ forall k, (k < 16)%nat -> w !! k = Some (wt block (if (k <? j)%nat then n + 16 + k else n + k)%nat).

Lemma window_inp block n j w (k : nat) : window block n j w -> (k < 16)%nat -> inp w (Z.of_nat k) = wt block (if (k <? j)%nat then n + 16 + k else n + k)%nat.
Proof. intros [L H] Hk. unfold inp. rewrite Nat2Z.id. apply nth_lookup_Some. by apply H. Qed.
Lemma mod16 (j k : nat) : (j < 16)%nat -> (k <= 16)%nat -> Z.land (Z.of_nat j - Z.of_nat k) 15 = Z.of_nat (if (k <=? j)%nat then j - k else j + 16 - k).
Proof.
  intros Hj Hk. change 15 with (Z.ones 4). rewrite Z.land_ones by lia. destruct (Nat.leb_spec k j).
  - rewrite Z.mod_small by lia. lia.
  - rewrite <- (Z.mod_add _ 1), Z.mod_small by lia. lia.
Qed.
Lemma wt_u64 block t : (16 <= t)%nat -> is_u64 (wt block t).
Proof. intros H. rewrite wt_next by done. apply u64_range. Qed.

Lemma extend_word_window block n j w : (forall t, is_u64 (wt block t)) -> (j < 16)%nat -> window block n j w ->
  window block n (S j) (extend_word w (Z.of_nat j)) /\ inp (extend_word w (Z.of_nat j)) (Z.of_nat j) = wt block (n + 16 + j).
Proof.
  intros Hu Hj H. assert (window block n (S j) (extend_word w (Z.of_nat j))) as W1.
  2: { split; [done|]. rewrite (window_inp _ _ _ _ _ W1 Hj). by destruct (Nat.ltb_spec j (S j)); [|lia]. }
  unfold extend_word. change (Z.of_nat j - 2) with (Z.of_nat j - Z.of_nat 2). change (Z.of_nat j - 15) with (Z.of_nat j - Z.of_nat 15).
  change (Z.of_nat j - 7) with (Z.of_nat j - Z.of_nat 7). rewrite !mod16 by lia.
  rewrite (window_inp _ _ _ _ _ H Hj), (proj2 (Nat.ltb_ge j j)) by lia.
  assert (forall k, (1 <= k <= 15)%nat -> inp w (Z.of_nat (if (k <=? j)%nat then j - k else j + 16 - k)) = wt block (n + 16 + j - k)) as E.
  { intros k Hk. destruct (Nat.leb_spec k j).
    - rewrite (window_inp _ _ _ _ _ H) by lia. rewrite (proj2 (Nat.ltb_lt (j - k) j)) by lia. apply (f_equal (wt block)). lia.
    - rewrite (window_inp _ _ _ _ _ H) by lia. rewrite (proj2 (Nat.ltb_ge (j + 16 - k) j)) by lia. apply (f_equal (wt block)). lia. }
  rewrite !E by lia. rewrite (u64_add_l (wt block (n + j) + _)), u64_add_l.
  destruct (lit_sigmas _ (Hu (n + 16 + j - 2)%nat)) as [_ ->], (lit_sigmas _ (Hu (n + 16 + j - 15)%nat)) as [-> _].
  destruct H as [L H]. split; [by rewrite length_insert|]. intros k Hk. rewrite Nat2Z.id. destruct (decide (k = j)) as [->|N].
  - rewrite list_lookup_insert_eq by lia. rewrite (proj2 (Nat.ltb_lt j (S j))) by lia. f_equal. rewrite (wt_next _ (n + 16 + j)) by lia.
    change (2 ^ 64) with 18446744073709551616. unfold u64. f_equal. replace (n + 16 + j - 16)%nat with (n + j)%nat by lia. lia.
  - rewrite list_lookup_insert_ne by done. rewrite H by done. do 2 f_equal. destruct (Nat.ltb_spec k j), (Nat.ltb_spec k (S j)); lia.
Qed.

(** ** Compression *)

Lemma seqZ_nat n : seqZ 0 (Z.of_nat n) = Z.of_nat <$> seq 0 n.
Proof.
  apply list_eq. intros i. rewrite list_lookup_fmap. destruct (decide (i < n)%nat).
  - rewrite lookup_seqZ_lt, lookup_seq_lt by lia. cbn. f_equal; lia.
  - rewrite lookup_seqZ_ge, lookup_seq_ge by lia. done.
Qed.
Lemma fold_seq {A} (P : nat -> A -> Prop) (k : A -> Z -> A) n a :
  P 0%nat a -> (forall j a, (j < n)%nat -> P j a -> P (S j) (k a (Z.of_nat j))) -> P n (fold_left k (seqZ 0 (Z.of_nat n)) a).
Proof.
  intros H0 HS. induction n as [|n IH]; [done|]. rewrite seqZ_nat, seq_S, fmap_app, fold_left_app, <- seqZ_nat. cbn [fmap list_fmap fold_left].
  apply HS; [lia|]. apply IH. intros j b Hj. apply HS. lia.
Qed.
Lemma work_S H block t : Fips512.work H block (S t) = Fips512.step (Fips512.work H block t) (nth t K512 0) (wt block t).
Proof. reflexivity. Qed.

Section compress.
Context (H : vars) (block : list Z) (HH : vars64 H) (Hu : forall t, is_u64 (wt block t)).

Definition rounds_done (t : nat) (v : vars) : Prop := v = Fips512.work H block t /\ vars64 v.
Lemma rounds_next t v k w : rounds_done t v -> k = inp K512 (Z.of_nat t) -> w = wt block t -> rounds_done (S t) (round512 v k w).
Proof.
  intros [-> Hv] -> ->. destruct (round512_step (Fips512.work H block t) (inp K512 (Z.of_nat t)) (wt block t) Hv) as [E V].
  split; [|done]. rewrite E, work_S. unfold inp. by rewrite Nat2Z.id.
Qed.
Lemma first_rounds_done w : window block 0 0 w -> rounds_done 16 (first_rounds H w).
Proof.
  intros Hw. unfold first_rounds. apply (fold_seq rounds_done (fun v j => round512 v (inp K512 j) (inp w j)) 16); [by split|].
  intros j v Hj R. apply rounds_next; [done..|]. by rewrite (window_inp _ _ _ _ _ Hw).
Qed.
Lemma pass_done (i : nat) v w : rounds_done (16 * i + 16) v -> window block (16 * i) 0 w ->
  let s := pass (v, w) (Z.of_nat (i + 1)) in rounds_done (16 * (i + 1) + 16) s.1 /\ window block (16 * (i + 1)) 0 s.2.
Proof.
  intros R Hw. unfold pass.
  destruct (fold_seq (fun j s => rounds_done (16 * i + 16 + j) s.1 /\ window block (16 * i) j s.2) (pass_step (16 * Z.of_nat (i + 1))) 16 (v, w)) as [R2 W2].
  - by rewrite Nat.add_0_r.
  - intros j [v' w'] Hj [R' W']. cbn [fst snd] in *. destruct (extend_word_window block (16 * i) j w' Hu Hj W') as [W2 E2]. unfold pass_step. cbn [fst snd].
    split; [|done]. rewrite Nat.add_succ_r. apply rounds_next; [done| |by rewrite E2]. f_equal. lia.
  - split; [by replace (16 * (i + 1) + 16)%nat with (16 * i + 16 + 16)%nat by lia|]. destruct W2 as [L W2]. split; [done|].
    intros k Hk. rewrite W2 by done. do 2 f_equal. destruct (Nat.ltb_spec k 16), (Nat.ltb_spec k 0); lia.
Qed.
Theorem compress_fips c : hash c = H -> window block 0 0 (input c) ->
  hash (sha512_compress c) = Fips512.compress H block /\ vars64 (hash (sha512_compress c))
  /\ input_size (sha512_compress c) = input_size c /\ input_idx (sha512_compress c) = input_idx c /\ length (input (sha512_compress c)) = 16%nat.
Proof.
  intros Ec Hw. unfold sha512_compress. rewrite Ec. change (seqZ 1 4) with [Z.of_nat (0 + 1); Z.of_nat (1 + 1); Z.of_nat (2 + 1); Z.of_nat (3 + 1)].
  cbn [fold_left]. pose proof (first_rounds_done _ Hw) as R0.
  destruct (pass (first_rounds H (input c), input c) (Z.of_nat (0 + 1))) as [v1 w1] eqn:E1.
  destruct (pass_done 0 _ _ R0 Hw) as [R1 W1]. rewrite E1 in R1, W1. cbn [fst snd] in R1, W1.
  destruct (pass (v1, w1) (Z.of_nat (1 + 1))) as [v2 w2] eqn:E2. destruct (pass_done 1 _ _ R1 W1) as [R2 W2]. rewrite E2 in R2, W2. cbn [fst snd] in R2, W2.
  destruct (pass (v2, w2) (Z.of_nat (2 + 1))) as [v3 w3] eqn:E3. destruct (pass_done 2 _ _ R2 W2) as [R3 W3]. rewrite E3 in R3, W3. cbn [fst snd] in R3, W3.
  destruct (pass (v3, w3) (Z.of_nat (3 + 1))) as [v4 w4] eqn:E4. destruct (pass_done 3 _ _ R3 W3) as [R4 W4]. rewrite E4 in R4, W4. cbn [fst snd] in R4, W4.
  fld. destruct R4 as [R4 V4]. change (16 * (3 + 1) + 16)%nat with 80%nat in R4. split_and!; [unfold Fips512.compress; by rewrite R4| |done|done|apply W4].
  unfold add_vars64, vars64. cbn [va vb vc vd ve vf vg vh]. repeat (split; [apply u64_range|]). apply u64_range.
Qed.
End compress.

(** ** The words of a string *)

Fixpoint words64 (n : nat) (l : list Z) : list Z :=
  match n with O => [] | S n => Fips512.be_value (take 8 l) :: words64 n (drop 8 l) end.

Lemma be64_value_app l k : Fips512.be_value (l ++ k) = Fips512.be_value l * 256 ^ len k + Fips512.be_value k.
Proof.
  induction l as [|b l IH]; [done|]. cbn [app Fips512.be_value]. rewrite IH, length_app, Nat2Z.inj_add, Z.pow_add_r by lia. lia.
Qed.
Lemma be_value_zeros n : Fips512.be_value (replicate n 0) = 0.
Proof. induction n as [|n IH]; [done|]. cbn [replicate Fips512.be_value]. by rewrite IH. Qed.
Lemma be_value_range l : all_bytes l -> 0 <= Fips512.be_value l < 256 ^ len l.
Proof.
  induction 1 as [|b l Hb _ IH]; [done|]. cbn [Fips512.be_value length]. rewrite Nat2Z.inj_succ, Z.pow_succ_r by lia. unfold is_byte in Hb. revert IH. generalize (256 ^ len l) (Fips512.be_value l). intros X v IH. nia.
Qed.
Lemma words64_length n l : length (words64 n l) = n.
Proof. revert l. induction n as [|n IH]; intros l; [done|]. cbn. by rewrite IH. Qed.
Lemma words64_app n m a b : length a = (8 * n)%nat -> words64 (n + m) (a ++ b) = words64 n a ++ words64 m b.
Proof.
  revert a. induction n as [|n IH]; intros a La; [by destruct a|].
  cbn [words64 plus app]. rewrite take_app_le, drop_app_le by lia. f_equal. apply IH. rewrite length_drop. lia.
Qed.
Lemma words64_lookup n l k : (k < n)%nat -> words64 n l !! k = Some (Fips512.word l k).
Proof.
  revert l k. induction n as [|n IH]; intros l k Hk; [lia|]. destruct k as [|k]; [unfold Fips512.word; by rewrite Nat.mul_0_r, drop_0|].
  cbn [words64 lookup list_lookup]. rewrite IH by lia. unfold Fips512.word. rewrite drop_drop. by replace (8 + 8 * k)%nat with (8 * S k)%nat by lia.
Qed.
Lemma words64_zeros n : words64 n (replicate (8 * n) 0) = replicate n 0.
Proof.
  induction n as [|n IH]; [done|]. replace (8 * S n)%nat with (8 + 8 * n)%nat by lia. rewrite replicate_add.
  rewrite (words64_app 1 n) by done. by rewrite IH.
Qed.
Lemma word_u64 l k : all_bytes l -> is_u64 (Fips512.word l k).
Proof.
  intros Hl. unfold Fips512.word. assert (all_bytes (take 8 (drop (8 * k) l))) as B by (by apply Forall_take, Forall_drop).
  pose proof (be_value_range _ B) as R. unfold is_u64. assert (256 ^ len (take 8 (drop (8 * k) l)) <= 256 ^ 8); [|lia].
  apply Z.pow_le_mono_r; [lia|]. rewrite length_take. lia.
Qed.
Lemma wt_is_u64 l t : all_bytes l -> is_u64 (wt l t).
Proof. intros Hl. destruct (Nat.ltb_spec t 16) as [H|H]; [|by apply wt_u64]. unfold wt. rewrite W_S, (proj2 (Nat.ltb_lt t 16) H). by apply word_u64. Qed.
Lemma words64_window l : window l 0 0 (words64 16 l).
Proof.
  split; [apply words64_length|]. intros k Hk. rewrite words64_lookup by done. change (if (k <? 0)%nat then (0 + 16 + k)%nat else (0 + k)%nat) with k. f_equal.
  unfold wt. by rewrite W_S, (proj2 (Nat.ltb_lt k 16)) by lia.
Qed.

Lemma load64_be_spec s (o : nat) : all_bytes s -> (o + 8 <= length s)%nat -> load64_be s (Z.of_nat o) = Some (Fips512.be_value (take 8 (drop o s))).
Proof.
  intros Hs Hl. assert (all_bytes (drop o s)) as Hb by (by apply Forall_drop).
  assert (forall i, 0 <= i -> rd s (Z.of_nat o + i) = drop o s !! Z.to_nat i) as Hrd.
  { intros i Hi. unfold rd. rewrite decide_True by lia. rewrite lookup_drop. f_equal. lia. }
  assert (8 <= length (drop o s))%nat as L by (rewrite length_drop; lia).
  unfold load64_be. rewrite <- (Z.add_0_r (Z.of_nat o)) at 1. rewrite !Hrd by lia. clear Hrd.
  repeat match goal with |- context [Z.to_nat (Zpos ?k)] => let v := eval vm_compute in (Z.to_nat (Zpos k)) in change (Z.to_nat (Zpos k)) with v end.
  change (Z.to_nat 0) with 0%nat.
  destruct (drop o s) as [|b0 [|b1 [|b2 [|b3 [|b4 [|b5 [|b6 [|b7 r]]]]]]]]; cbn in L; try lia.
  cbn [lookup list_lookup mbind option_bind take]. rewrite take_0. repeat (apply Forall_cons in Hb as [? Hb]). clear Hb. unfold is_byte in *. f_equal.
  rewrite <- !Z.lor_assoc.
  rewrite (lor_shiftl_add b6 b7 8), (lor_shiftl_add b5 _ 16), (lor_shiftl_add b4 _ 24), (lor_shiftl_add b3 _ 32), (lor_shiftl_add b2 _ 40), (lor_shiftl_add b1 _ 48), (lor_shiftl_add b0 _ 56) by lia.
  cbn [Fips512.be_value length Z.of_nat Pos.of_succ_nat Pos.succ]. lia.
Qed.
Lemma load_buf_words s n : all_bytes s -> (8 * n <= length s)%nat -> mapM (fun i => load64_be s (i * 8)) (seqZ 0 (Z.of_nat n)) = Some (words64 n (take (8 * n) s)).
Proof.
  intros Hs Hl. apply mapM_Some_2. apply Forall2_same_length_lookup_2; [by rewrite length_seqZ, words64_length; lia|].
  intros i x y Hx Hy. apply lookup_seqZ in Hx as [-> Hi]. rewrite words64_lookup in Hy by lia. injection Hy as <-.
  replace ((0 + Z.of_nat i) * 8) with (Z.of_nat (8 * i)) by lia. rewrite load64_be_spec by (done || lia). f_equal.
  unfold Fips512.word. rewrite !take_drop_commute, take_take. do 3 f_equal. lia.
Qed.

(** ** The buffer *)

(** The context holds the bytes [t] of an unfinished block. *)
Definition zeros (n : nat) : list Z := replicate n 0.
Definition buffered (c : sha512_ctx) (t : list Z) : Prop :=
  all_bytes t /\ (length t <= 128)%nat /\ input_idx c = len t /\ input c = words64 16 (t ++ zeros (128 - length t)).
(** The parts of the context the buffer operations leave alone. *)
Definition same_hash (c c' : sha512_ctx) : Prop := hash c' = hash c /\ input_size c' = input_size c.

Lemma land7 (n : nat) : Z.land (Z.of_nat n) 7 = Z.of_nat (n mod 8).
Proof. change 7 with (Z.ones 3). rewrite Z.land_ones by lia. change (2 ^ 3) with (Z.of_nat 8). by rewrite Nat2Z.inj_mod. Qed.
Lemma shr3 (n : nat) : Z.shiftr (Z.of_nat n) 3 = Z.of_nat (n / 8).
Proof. rewrite Z.shiftr_div_pow2 by lia. change (2 ^ 3) with (Z.of_nat 8). by rewrite Nat2Z.inj_div. Qed.

Lemma set_input_spec c t b : buffered c t -> (length t < 128)%nat -> is_byte b ->
  exists c', sha512_set_input c b = Some c' /\ same_hash c c' /\ input_idx c' = input_idx c /\ input c' = words64 16 (t ++ [b] ++ zeros (127 - length t)).
Proof.
  intros (Bt & Lt & Ei & Ew) L Hb. unfold sha512_set_input. rewrite Ei, shr3, land7.
  pose proof (Nat.div_mod_eq (length t) 8) as Ed. pose proof (Nat.mod_upper_bound (length t) 8 ltac:(lia)) as Em.
  set (q := (length t / 8)%nat) in *. set (r := (length t mod 8)%nat) in *.
  assert (q < 16)%nat as Hq by lia.
  assert (length (take (8 * q) t) = 8 * q)%nat as La by (rewrite length_take; lia).
  assert (length (drop (8 * q) t) = r) as Lp by (rewrite length_drop; lia).
  assert (forall z, (length z = 128 - length t)%nat -> (8 - r <= length z)%nat -> words64 16 (t ++ z)
    = words64 q (take (8 * q) t) ++ Fips512.be_value (drop (8 * q) t ++ take (8 - r) z) :: words64 (15 - q) (drop (8 - r) z)) as Cut.
  { intros z Lz Hz. replace 16%nat with (q + S (15 - q))%nat by lia. rewrite <- (take_drop (8 * q) t) at 1. rewrite <- app_assoc, words64_app by done. f_equal.
    cbn [words64]. rewrite take_app, drop_app, Lp. rewrite (take_ge (drop (8 * q) t)), (drop_ge (drop (8 * q) t)) by lia. done. }
  rewrite Ew, Cut by (unfold zeros; rewrite length_replicate; lia). unfold zeros. rewrite take_replicate, drop_replicate, Nat.min_l by lia.
  assert (length (words64 q (take (8 * q) t)) = q) as Lw by apply words64_length.
  rewrite rd_mid by (by rewrite Lw). cbn [mbind option_bind]. rewrite Nat2Z.id. eexists. split; [reflexivity|]. split; [done|]. split; [done|].
  fld. rewrite Cut by (cbn [app length]; rewrite length_replicate; lia).
  rewrite insert_app_r_alt, Lw, Nat.sub_diag by lia. cbn [insert list_insert]. f_equal.
  replace (8 - r)%nat with (S (7 - r)) by lia. cbn [app take drop replicate]. rewrite take_replicate, drop_replicate, Nat.min_l by lia.
  f_equal; [|f_equal; f_equal; lia].
  rewrite !be64_value_app. cbn [Fips512.be_value length]. rewrite !length_replicate, !be_value_zeros, !Z.add_0_r.
  replace (8 * (7 - Z.of_nat r)) with (Z.of_nat (8 * (7 - r))) by lia.
  assert (256 ^ Z.of_nat (7 - r) = 2 ^ Z.of_nat (8 * (7 - r))) as E1 by (rewrite Nat2Z.inj_mul, Z.pow_mul_r by lia; done).
  rewrite !Nat2Z.inj_succ, !Z.pow_succ_r, E1 by lia.
  assert (Fips512.be_value (drop (8 * q) t) * (256 * 2 ^ Z.of_nat (8 * (7 - r))) = Z.shiftl (Fips512.be_value (drop (8 * q) t)) (8 + Z.of_nat (8 * (7 - r)))) as ->.
  { rewrite Z.shiftl_mul_pow2, Z.pow_add_r by lia. lia. }
  rewrite !Z.shiftl_mul_pow2 with (n := Z.of_nat (8 * (7 - r))) by lia. unfold is_byte in Hb.
  assert (0 < 2 ^ Z.of_nat (8 * (7 - r))) by (apply Z.pow_pos_nonneg; lia).
  rewrite lor_shiftl_add; [by rewrite Z.shiftl_mul_pow2 by lia|lia|]. rewrite Z.pow_add_r by lia. split; [lia|]. change (2 ^ 8) with 256. nia.
Qed.
Lemma set_bytes_spec bs : forall c t, buffered c t -> all_bytes bs -> (length t + length bs <= 128)%nat ->
  exists c', set_bytes c bs = Some c' /\ same_hash c c' /\ buffered c' (t ++ bs).
Proof.
  induction bs as [|b bs IH]; intros c t B Hbs L; cbn [set_bytes]; [exists c; rewrite app_nil_r; exact (conj eq_refl (conj (conj eq_refl eq_refl) B))|].
  apply Forall_cons in Hbs as [Hb Hbs]. cbn [length] in L. destruct (set_input_spec c t b B ltac:(lia) Hb) as (c1 & -> & [S1 S2] & I & W). cbn [mbind option_bind].
  destruct (IH (c1 <| input_idx := input_idx c1 + 1 |>) (t ++ [b])) as (c2 & -> & [S3 S4] & B2).
  - destruct B as (Bt & Lt & Ei & Ew). split; [apply Forall_app; split; [done|by apply Forall_singleton]|]. rewrite length_app. cbn [length]. split; [lia|].
    fld. split; [rewrite I, Ei; lia|]. rewrite W, <- app_assoc. by replace (128 - (length t + 1))%nat with (127 - length t)%nat by lia.
  - done.
  - rewrite length_app. cbn [length]. lia.
  - exists c2. split; [done|]. split; [split; [rewrite S3; exact S1|rewrite S4; exact S2]|]. by rewrite <- app_assoc in B2.
Qed.
Lemma load_words_0 c t k m : buffered c t -> 0 <= k <= 16 -> load_words c k m 0 = Some c.
Proof.
  intros (_ & _ & _ & Ew) Hk. unfold load_words, load64_be_buf. change (mapM (fun i => load64_be m (i * 8)) (seqZ 0 0)) with (Some ([] : list Z)). cbn [mbind option_bind]. rewrite Ew. rewrite decide_True by (rewrite words64_length; lia).
  cbn [mbind option_bind app]. replace (k + 0) with k by lia. rewrite take_drop, <- Ew. rewrite (Z.add_0_r _ : input_idx c + Z.shiftl 0 3 = input_idx c). by destruct c.
Qed.
Lemma load_words_aligned c t m n : buffered c t -> (length t mod 8 = 0)%nat -> all_bytes m -> (8 * n <= length m)%nat -> (length t + 8 * n <= 128)%nat ->
  exists c', load_words c (Z.shiftr (input_idx c) 3) m (Z.of_nat n) = Some c' /\ same_hash c c' /\ buffered c' (t ++ take (8 * n) m).
Proof.
  intros (Bt & Lt & Ei & Ew) Hm Bm Ln Hn. unfold load_words, load64_be_buf. rewrite Ei, shr3, load_buf_words by done. cbn [mbind option_bind].
  pose proof (Nat.div_mod_eq (length t) 8) as Ed. rewrite Hm, Nat.add_0_r in Ed. set (q := (length t / 8)%nat) in *.
  rewrite decide_True by (rewrite Ew, words64_length; lia). eexists. split; [reflexivity|]. split; [done|].
  split; [apply Forall_app; split; [done|by apply Forall_take]|]. assert (length (take (8 * n) m) = 8 * n)%nat as L8 by (rewrite length_take; lia).
  rewrite length_app, L8. split; [lia|]. fld. split; [rewrite ?Ei, Z.shiftl_mul_pow2 by lia; lia|].
  rewrite Ew. replace (Z.to_nat (Z.of_nat q + Z.of_nat n)) with (q + n)%nat by lia. rewrite Nat2Z.id.
  assert (t ++ zeros (128 - length t) = t ++ zeros (8 * n) ++ zeros (128 - (length t + 8 * n))) as ->.
  { f_equal. unfold zeros. rewrite <- replicate_add. f_equal. lia. }
  rewrite <- app_assoc. replace 16%nat with (q + (n + (16 - q - n)))%nat by lia. unfold zeros.
  rewrite !words64_app by (done || rewrite length_replicate; lia).
  rewrite take_app_le, take_ge by (rewrite words64_length; lia). f_equal. f_equal.
  rewrite drop_app, words64_length, (drop_ge (words64 q t)) by (rewrite words64_length; lia). cbn [app].
  rewrite drop_app, words64_length, drop_ge by (rewrite words64_length; lia). replace (q + n - q - n)%nat with 0%nat by lia. done.
Qed.
Lemma load_words_spec c t m n k : buffered c t -> all_bytes m -> (8 * n <= length m)%nat -> (length t + 8 * n <= 128)%nat -> 0 <= k <= 16 ->
  n = 0%nat \/ (length t mod 8 = 0)%nat /\ k = Z.shiftr (input_idx c) 3 ->
  exists c', load_words c k m (Z.of_nat n) = Some c' /\ same_hash c c' /\ buffered c' (t ++ take (8 * n) m).
Proof.
  intros B Bm Ln Hn Hk [->|[Hm ->]]; [|by apply load_words_aligned]. exists c. rewrite Nat.mul_0_r, take_0, app_nil_r. by rewrite (load_words_0 c t).
Qed.

(** ** Streaming *)

Lemma absorb512_app n m h a b : length a = (128 * n)%nat -> Fips512.absorb (n + m) h (a ++ b) = Fips512.absorb m (Fips512.absorb n h a) b.
Proof.
  revert h a. induction n as [|n IH]; intros h a La; [by destruct a|]. cbn [Fips512.absorb plus]. rewrite take_app_le, drop_app_le by lia.
  apply IH. rewrite length_drop. lia.
Qed.

(** The 128-bit count of the bits of the compressed blocks. *)
Definition size_ok (s : Z * Z) (n : Z) : Prop := is_u64 (fst s) /\ is_u64 (snd s) /\ fst s * 2 ^ 64 + snd s = n mod 2 ^ 128.
Lemma incr_ok s n y : size_ok s n -> is_u64 y -> size_ok (sha512_incr s y) (n + y).
Proof.
  intros (H0 & H1 & E) Hy. destruct s as [x0 x1]. cbn [fst snd] in *. unfold sha512_incr. cbn [fst snd]. unfold is_u64, u64 in *.
  change (2 ^ 64) with 18446744073709551616 in *. change (2 ^ 128) with 340282366920938463463374607431768211456 in *.
  case_decide as D; unfold size_ok, is_u64; cbn [fst snd]; change (2 ^ 64) with 18446744073709551616; change (2 ^ 128) with 340282366920938463463374607431768211456;
    Z.div_mod_to_equations; lia.
Qed.

(** The context holds [t] after [k] compressed blocks [h]. *)
Definition holds (k : nat) (h t : list Z) (c : sha512_ctx) : Prop :=
  length h = (128 * k)%nat /\ hash c = Fips512.absorb k IV512 h /\ vars64 (hash c) /\ size_ok (input_size c) (1024 * Z.of_nat k) /\ buffered c t.
Lemma holds_same k h t t' c c' : holds k h t c -> same_hash c c' -> buffered c' t' -> holds k h t' c'.
Proof. intros (L & Eh & V & S & _) [E1 E2] B. unfold holds. by rewrite E1, E2. Qed.

Lemma compress_block c t : buffered c t -> length t = 128%nat -> vars64 (hash c) ->
  hash (sha512_compress c) = Fips512.compress (hash c) t /\ vars64 (hash (sha512_compress c)).
Proof.
  intros (Bt & Lt & Ei & Ew) L V. destruct (compress_fips (hash c) t V (fun x => wt_is_u64 t x Bt) c eq_refl) as (E & V' & _); [|done].
  rewrite Ew, L, Nat.sub_diag. cbn [zeros replicate]. rewrite app_nil_r. apply words64_window.
Qed.
Lemma compress_frame c : length (input c) = 16%nat -> input_size (sha512_compress c) = input_size c.
Proof. intros _. unfold sha512_compress. by destruct (fold_left pass (seqZ 1 4) _). Qed.
Lemma full_block_spec k h t c : holds k h t c -> length t = 128%nat -> holds (k + 1) (h ++ t) [] (full_block c).
Proof.
  intros (L & Eh & V & S & B) Lt. unfold full_block. set (c1 := c <| input_size := sha512_incr (input_size c) 1024 |>).
  destruct (compress_block c1 t B Lt V) as [E V']. split; [rewrite length_app; lia|]. fld. split; [|split; [|split]].
  - rewrite absorb512_app by done. cbn [Fips512.absorb]. rewrite take_ge by lia. rewrite E. unfold c1. fld. by rewrite Eh.
  - done.
  - rewrite compress_frame by (unfold c1; fld; destruct B as (_ & _ & _ & ->); apply words64_length). unfold c1. fld.
    replace (1024 * Z.of_nat (k + 1)) with (1024 * Z.of_nat k + 1024) by lia. by apply incr_ok.
  - split; [by apply Forall_nil|]. split; [cbn; lia|]. fld. done.
Qed.
Lemma full_block_idx c x : full_block (c <| input_idx := x |>) = full_block c.
Proof. unfold full_block, sha512_compress. fld. by destruct (fold_left pass _ _). Qed.
Lemma block_loop_spec n : forall k h c m, holds k h [] c -> all_bytes m -> (128 * n <= length m)%nat ->
  exists c', block_loop n c m = Some (c', drop (128 * n) m) /\ holds (k + n) (h ++ take (128 * n) m) [] c'.
Proof.
  induction n as [|n IH]; intros k h c m Hc Bm Ln; cbn [block_loop].
  { exists c. rewrite Nat.mul_0_r, take_0, drop_0, app_nil_r, Nat.add_0_r. done. }
  destruct Hc as (L & Eh & V & Sz & (_ & _ & Ei & Ew)).
  unfold load64_be_buf. pose proof (load_buf_words m 16 Bm ltac:(lia)) as EL. change (Z.of_nat 16) with 16 in EL. rewrite EL. clear EL. cbn [mbind option_bind].
  rewrite decide_True by (rewrite Ew, words64_length; lia).
  rewrite Ew, (drop_ge (words64 _ _)) by (rewrite words64_length; lia). rewrite (take_0 (words64 _ _) : take (Z.to_nat 0) _ = []), app_nil_r. cbn [app].
  assert (length (take (8 * 16) m) = 128)%nat as L1 by (rewrite length_take; lia).
  set (c1 := c <| input := words64 16 (take (8 * 16) m) |>).
  assert (holds (k + 1) (h ++ take (8 * 16) m) [] (full_block (c1 <| input_idx := 128 |>))) as H1.
  { apply full_block_spec; [|done]. split; [done|]. fld. split_and!; try done. split; [by apply Forall_take|]. rewrite L1. split; [lia|]. split; [done|].
    fld. cbn [zeros replicate Nat.sub]. by rewrite app_nil_r. }
  rewrite full_block_idx in H1.
  destruct (IH (k + 1)%nat _ _ (drop 128 m) H1) as (c' & E & H'); [by apply Forall_drop|rewrite length_drop; lia|].
  exists c'. cbn [mbind option_bind]. fold c1. rewrite E. split.
  - do 2 f_equal. rewrite drop_drop. f_equal. lia.
  - replace (k + S n)%nat with (k + 1 + n)%nat by lia. rewrite <- app_assoc in H'. replace (128 * S n)%nat with (8 * 16 + 128 * n)%nat by lia.
    rewrite <- take_take_drop. exact H'.
Qed.
Lemma align_table : forallb (fun n => let x := Z.of_nat n in (align x 8 =? Z.of_nat ((8 - n mod 8) mod 8)) && (align x 128 =? Z.of_nat ((128 - n) mod 128))) (seq 0 129) = true.
Proof. by vm_compute. Qed.
Lemma align_values (n : nat) : (n <= 128)%nat -> align (Z.of_nat n) 8 = Z.of_nat ((8 - n mod 8) mod 8) /\ align (Z.of_nat n) 128 = Z.of_nat ((128 - n) mod 128).
Proof.
  intros Hn. pose proof align_table as T. rewrite forallb_forall in T. specialize (T n). cbv beta zeta in T.
  rewrite andb_true_iff, !Z.eqb_eq in T. apply T, in_seq. lia.
Qed.
Lemma word_boundary_spec c t m : buffered c t -> (length t < 128)%nat -> all_bytes m ->
  exists c' t' m', word_boundary c m = Some (c', m') /\ same_hash c c' /\ buffered c' t' /\ t' ++ m' = t ++ m /\ all_bytes m' /\ (m' = [] /\ (length t' < 128)%nat \/ (length t' mod 8 = 0)%nat).
Proof.
  intros B Lt Bm. pose proof B as (_ & _ & Ei & _). unfold word_boundary. rewrite Ei, land7. pose proof (Nat.div_mod_eq (length t) 8). pose proof (Nat.mod_upper_bound (length t) 8 ltac:(lia)).
  case_decide as D.
  2: { exists c, t, m. split_and!; try done. right. lia. }
  rewrite (proj1 (align_values (length t) ltac:(lia))), (Nat.mod_small (8 - _)) by lia. set (nb := Z.to_nat (Z.min _ _)). set (r := (length t mod 8)%nat) in *.
  assert (length (take nb m) = nb) as L by (rewrite length_take; lia).
  destruct (set_bytes_spec (take nb m) c t B) as (c' & -> & E & B'); [by apply Forall_take|lia|].
  cbn [mbind option_bind]. exists c', (t ++ take nb m), (drop nb m). split_and!; try done; [by rewrite <- app_assoc, take_drop|by apply Forall_drop|].
  rewrite length_app, L. destruct (Nat.le_gt_cases (length m) nb) as [Hm|Hm].
  - destruct (Nat.eq_dec nb (8 - r)%nat) as [->|Hn].
    + right. replace (length t + (8 - r))%nat with ((length t / 8 + 1) * 8)%nat by lia. apply Nat.Div0.mod_mul.
    + left. split; [by apply drop_ge|lia].
  - right. replace (length t + nb)%nat with ((length t / 8 + 1) * 8)%nat by lia. apply Nat.Div0.mod_mul.
Qed.
Lemma block_boundary_spec c t m : buffered c t -> all_bytes m -> m = [] /\ (length t < 128)%nat \/ (length t mod 8 = 0)%nat ->
  exists c' t' m', block_boundary c m = Some (c', m') /\ same_hash c c' /\ buffered c' t' /\ t' ++ m' = t ++ m /\ all_bytes m'
    /\ (length t' = 128%nat \/ t' = [] \/ (length m' < 8 /\ length t' + length m' < 128)%nat).
Proof.
  intros B Bm H. pose proof B as (_ & Lt & Ei & _). unfold block_boundary. rewrite Ei, shr3.
  assert (Z.land (len t) 127 = len t mod 128) as -> by (change 127 with (Z.ones 7); by rewrite Z.land_ones by lia).
  case_decide as D.
  2: { exists c, t, m. split_and!; try done. destruct (Nat.eq_dec (length t) 128%nat) as [|N]; [by left|]. right; left. rewrite Z.mod_small in D by lia.
       destruct t; [done|]. cbn [length] in D. lia. }
  assert (0 < length t < 128)%nat as Hr. { destruct (Nat.eq_dec (length t) 128%nat) as [E|N]; [rewrite E in D; done|]. destruct t; [done|]. cbn [length] in *. lia. }
  rewrite (proj2 (align_values (length t) ltac:(lia))), (Nat.mod_small (128 - _)), <- Nat2Z.inj_min, shr3 by lia.
  set (w := (Nat.min (128 - length t) (length m))%nat). set (n := (w / 8)%nat). pose proof (Nat.div_mod_eq w 8). pose proof (Nat.mod_upper_bound w 8 ltac:(lia)).
  assert (n = 0 \/ length t mod 8 = 0 /\ Z.of_nat (length t / 8) = Z.shiftr (input_idx c) 3)%nat as Hk.
  { rewrite Ei, shr3. destruct H as [[-> _]|H]; [left; unfold n, w; by rewrite Nat.min_0_r|by right]. }
  assert (length t / 8 <= 16)%nat as H16 by (apply Nat.Div0.div_le_upper_bound; lia). fold n in H0. assert (w <= 128 - length t /\ w <= length m)%nat as [Hw1 Hw2] by lia.
  destruct (load_words_spec c t m n (Z.of_nat (length t / 8)) B Bm ltac:(lia) ltac:(lia) ltac:(lia) Hk) as (c' & -> & E & B').
  cbn [mbind option_bind]. replace (Z.to_nat (Z.shiftl (Z.of_nat n) 3)) with (8 * n)%nat by (rewrite Z.shiftl_mul_pow2; lia).
  exists c', (t ++ take (8 * n) m), (drop (8 * n) m). split_and!; try done; [by rewrite <- app_assoc, take_drop|by apply Forall_drop|].
  rewrite length_app, length_take, length_drop. destruct H as [[-> _]|H]; [right; right; cbn [length] in *; lia|].
  pose proof (Nat.div_mod_eq (length t) 8). destruct (Nat.le_gt_cases (128 - length t) (length m)); [left; lia|right; right; lia].
Qed.
Lemma remaining_spec c t m : buffered c t -> all_bytes m -> t = [] /\ (length m < 128)%nat \/ (length m < 8 /\ length t + length m < 128)%nat ->
  exists c', remaining c m = Some c' /\ same_hash c c' /\ buffered c' (t ++ m).
Proof.
  intros B Bm H. unfold remaining. case_decide as D.
  2: { exists c. destruct m; [by rewrite app_nil_r|cbn [length] in D; lia]. }
  rewrite shr3. pose proof (Nat.div_mod_eq (length m) 8). pose proof (Nat.mod_upper_bound (length m) 8 ltac:(lia)). set (n := (length m / 8)%nat) in *.
  assert (length t + length m < 128)%nat as L by (destruct H as [[-> ?]|?]; cbn [length]; lia).
  assert (n = 0 \/ length t mod 8 = 0 /\ 0%Z = Z.shiftr (input_idx c) 3)%nat as Hk.
  { destruct H as [[-> _]|[H _]]; [right|left; lia]. destruct B as (_ & _ & -> & _). done. }
  destruct (load_words_spec c t m n 0 B Bm ltac:(lia) ltac:(lia) ltac:(lia) Hk) as (c1 & -> & [E1 E2] & B1). cbn [mbind option_bind].
  replace (Z.to_nat (Z.shiftl (Z.of_nat n) 3)) with (8 * n)%nat by (rewrite Z.shiftl_mul_pow2; lia).
  destruct (set_bytes_spec (drop (8 * n) m) c1 _ B1) as (c2 & -> & [E3 E4] & B2); [by apply Forall_drop|rewrite length_app, length_take, length_drop; lia|].
  exists c2. split; [done|]. rewrite <- app_assoc, take_drop in B2. split; [|done]. split; congruence.
Qed.

(** The context after a string [m] in any number of pieces: the hash of its whole
    blocks, and the rest in the buffer. *)
Definition streamed (m : list Z) (c : sha512_ctx) : Prop := exists k h t, holds k h t c /\ h ++ t = m /\ (length t < 128)%nat.

Lemma update512_streamed c s m : streamed s c -> all_bytes m -> exists c', crypto_sha512_update c m = Some c' /\ streamed (s ++ m) c'.
Proof.
  intros (k & h & t & Hh & <- & Lt) Bm. unfold crypto_sha512_update. case_decide as D.
  { exists c. split; [done|]. destruct m; [|done]. rewrite app_nil_r. by exists k, h, t. }
  pose proof Hh as (_ & _ & _ & _ & B).
  destruct (word_boundary_spec c t m B Lt Bm) as (c1 & t1 & m1 & -> & S1 & B1 & E1 & Bm1 & H1). cbn [mbind option_bind].
  destruct (block_boundary_spec c1 t1 m1 B1 Bm1 H1) as (c2 & t2 & m2 & -> & S2 & B2 & E2 & Bm2 & H2). cbn [mbind option_bind].
  pose proof (holds_same _ _ _ _ _ _ (holds_same _ _ _ _ _ _ Hh S1 B1) S2 B2) as Hc2. set (c3 := if decide _ then _ else _).
  assert (exists k3 h3 t3, holds k3 h3 t3 c3 /\ h3 ++ t3 = h ++ t2 /\ (t3 = [] \/ length m2 < 8 /\ length t3 + length m2 < 128)%nat) as (k3 & h3 & t3 & Hc3 & E3 & H3).
  { unfold c3. pose proof B2 as (_ & L2 & Ei & _). case_decide as D3.
    - exists (k + 1)%nat, (h ++ t2), []. split; [apply full_block_spec; [done|lia]|]. split; [apply app_nil_r|by left].
    - exists k, h, t2. split; [done|]. split; [done|]. destruct H2 as [H2|H2]; [lia|done]. }
  assert (Z.to_nat (Z.shiftr (len m2) 7) = length m2 / 128)%nat as ->.
  { rewrite Z.shiftr_div_pow2 by lia. change (2 ^ 7) with (Z.of_nat 128). by rewrite <- Nat2Z.inj_div, Nat2Z.id. }
  set (n := (length m2 / 128)%nat). pose proof (Nat.div_mod_eq (length m2) 128). pose proof (Nat.mod_upper_bound (length m2) 128 ltac:(lia)).
  assert (exists c4, block_loop n c3 m2 = Some (c4, drop (128 * n) m2) /\ holds (k3 + n) (h3 ++ take (128 * n) m2) t3 c4) as (c4 & -> & Hc4).
  { destruct H3 as [->|H3]; [by apply block_loop_spec; [| |lia]|]. exists c3. replace n with 0%nat by lia. cbn [block_loop].
    by rewrite Nat.mul_0_r, take_0, drop_0, app_nil_r, Nat.add_0_r. }
  cbn [mbind option_bind]. pose proof Hc4 as (_ & _ & _ & _ & B4).
  destruct (remaining_spec c4 t3 (drop (128 * n) m2) B4) as (c5 & -> & S5 & B5); [by apply Forall_drop|rewrite length_drop; destruct H3; [left; split; [done|lia]|right; lia]|].
  exists c5. split; [done|]. exists (k3 + n)%nat, (h3 ++ take (128 * n) m2), (t3 ++ drop (128 * n) m2). split; [by eapply holds_same|]. split.
  - assert (h ++ t ++ m = h3 ++ t3 ++ m2) as Em by (rewrite <- E1, <- E2, !app_assoc; by rewrite E3).
    rewrite <- !app_assoc, Em. destruct H3 as [->|H3]; [cbn [app]; by rewrite take_drop|]. replace n with 0%nat by lia. by rewrite Nat.mul_0_r, take_0, drop_0.
  - rewrite length_app, length_drop. destruct H3 as [->|H3]; cbn [length]; lia.
Qed.
Lemma init512_streamed : streamed [] crypto_sha512_init.
Proof.
  exists 0%nat, [], []. split; [|split; [done|cbn; lia]]. split; [done|]. split; [done|]. split; [|split; [done|]].
  - unfold vars64, is_u64. cbn. lia.
  - split; [by apply Forall_nil|]. split; [cbn; lia|]. by vm_compute.
Qed.

(** ** The last blocks *)

Lemma be64_value_snoc l b : Fips512.be_value (l ++ [b]) = Fips512.be_value l * 256 + b.
Proof. rewrite be64_value_app. cbn. lia. Qed.
Lemma be_digits n e j : forall a, 0 <= a -> a + Z.of_nat j <= e + 1 ->
  Fips512.be_value ((fun i => n / 2 ^ (8 * (e - i)) mod 256) <$> seqZ a (Z.of_nat j)) = n / 2 ^ (8 * (e + 1 - a - Z.of_nat j)) mod 256 ^ Z.of_nat j.
Proof.
  induction j as [|j IH]; intros a Ha Hj; [by rewrite Z.mod_1_r|].
  rewrite Nat2Z.inj_succ, <- Z.add_1_r, seqZ_app, fmap_app by lia. change (seqZ (a + Z.of_nat j) 1) with [a + Z.of_nat j].
  cbn [fmap list_fmap]. rewrite be64_value_snoc, IH by lia.
  replace (e + 1 - a - (Z.of_nat j + 1)) with (e - (a + Z.of_nat j)) by lia. set (x := e - (a + Z.of_nat j)).
  replace (e + 1 - a - Z.of_nat j) with (x + 1) by lia. replace (8 * (x + 1)) with (8 * x + 8) by lia.
  rewrite Z.pow_add_r by lia. change (2 ^ 8) with 256. rewrite <- Z.div_div by (apply Z.pow_nonzero || apply Z.pow_pos_nonneg || lia; lia).
  rewrite (Z.pow_add_r 256), Z.mul_comm, (Z.mul_comm (256 ^ Z.of_nat j)) by lia. change (256 ^ 1) with 256.
  rewrite Z.rem_mul_r by (apply Z.pow_pos_nonneg || lia; lia). change (2 ^ 0) with 1. rewrite ?Z.mul_1_r. lia.
Qed.
Lemma be128_words s n : size_ok s n -> words64 2 (Fips512.be128 n) = [fst s; snd s].
Proof.
  intros (H0 & H1 & E). unfold Fips512.be128. change (seqZ 0 16) with (seqZ 0 (Z.of_nat 8) ++ seqZ 8 (Z.of_nat 8)). rewrite fmap_app. cbn [words64].
  rewrite take_app_length', drop_app_length', take_ge by (rewrite ?length_fmap, ?length_seqZ; lia). rewrite !be_digits by lia.
  change (8 * (15 + 1 - 0 - Z.of_nat 8)) with 64. change (8 * (15 + 1 - 8 - Z.of_nat 8)) with 0. unfold is_u64 in *.
  change (2 ^ 64) with 18446744073709551616 in *. change (256 ^ Z.of_nat 8) with 18446744073709551616. change (2 ^ 128) with (18446744073709551616 * 18446744073709551616) in *.
  rewrite Z.rem_mul_r in E by lia. rewrite Z.div_1_r. 
  pose proof (Z.mod_pos_bound n 18446744073709551616 ltac:(lia)). pose proof (Z.mod_pos_bound (n / 18446744073709551616) 18446744073709551616 ltac:(lia)).
  f_equal; [lia|]. f_equal. lia.
Qed.
Lemma be128_bytes n : all_bytes (Fips512.be128 n) /\ length (Fips512.be128 n) = 16%nat.
Proof. unfold Fips512.be128. rewrite length_fmap, length_seqZ. split; [|done]. apply Forall_fmap, Forall_true. intros i. apply Z.mod_pos_bound. lia. Qed.

Lemma compress_words c b : input c = words64 16 b -> all_bytes b -> vars64 (hash c) ->
  hash (sha512_compress c) = Fips512.compress (hash c) b /\ vars64 (hash (sha512_compress c)) /\ input_size (sha512_compress c) = input_size c
  /\ length (input (sha512_compress c)) = 16%nat.
Proof.
  intros Ew Bb V. destruct (compress_fips (hash c) b V (fun x => wt_is_u64 b x Bb) c eq_refl) as (E & V' & S & _ & L); [|done].
  rewrite Ew. apply words64_window.
Qed.
(** The words that the length replaces. *)
Lemma length_words l b n s : length l = 16%nat -> take 14 l = words64 14 b -> length b = 112%nat -> size_ok s n ->
  <[15%nat := snd s]> (<[14%nat := fst s]> l) = words64 16 (b ++ Fips512.be128 n).
Proof.
  intros Ll Ht Lb Hs. rewrite (words64_app 14 2), (be128_words s), <- Ht by done. rewrite <- (take_drop 14 l) at 1.
  assert (length (take 14 l) = 14%nat) as Lt by (rewrite length_take; lia).
  destruct (drop 14 l) as [|x [|y [|]]] eqn:Ed; apply (f_equal length) in Ed; rewrite length_drop, Ll in Ed; try discriminate Ed.
  rewrite (insert_app_r_alt _ _ 14), Lt by lia. rewrite insert_app_r_alt, Lt by lia. done.
Qed.
Lemma zero_words_14 l : take 14 (replicate 14 0 ++ drop 14 l) = words64 14 (zeros 112).
Proof. rewrite take_app_length' by done. done. Qed.

Definition with_length (c : sha512_ctx) : sha512_ctx := c <| input := <[15%nat := snd (input_size c)]> (<[14%nat := fst (input_size c)]> (input c)) |>.
Lemma last_block c b n : length (input c) = 16%nat -> take 14 (input c) = words64 14 b -> all_bytes b -> length b = 112%nat ->
  vars64 (hash c) -> size_ok (input_size c) n -> hash (sha512_compress (with_length c)) = Fips512.compress (hash c) (b ++ Fips512.be128 n).
Proof.
  intros Li Ht Bb Lb V Hs. destruct (be128_bytes n) as [Bn _].
  destruct (compress_words (with_length c) (b ++ Fips512.be128 n)) as [E _]; [by apply length_words|by apply Forall_app|done|exact E].
Qed.
Lemma take_words14 b : (112 <= length b)%nat -> take 14 (words64 16 b) = words64 14 (take 112 b).
Proof.
  intros Lb. assert (length (take 112 b) = 8 * 14)%nat as L by (rewrite length_take; lia).
  rewrite <- (take_drop 112 b) at 1. rewrite (words64_app 14 2 _ _ L). apply take_app_length'. by rewrite words64_length.
Qed.
Lemma zeros512_bytes n : all_bytes (zeros n).
Proof. apply Forall_replicate. unfold is_byte. lia. Qed.
Definition zero_fill (l : nat) : list Z := zeros (if decide (111 < l)%nat then 239 - l else 111 - l).
Lemma pad512 k h t : length h = (128 * k)%nat -> (length t < 128)%nat ->
  Fips512.pad (h ++ t) = h ++ t ++ [128] ++ zero_fill (length t) ++ Fips512.be128 (8 * len (h ++ t)).
Proof.
  intros Lh Lt. unfold Fips512.pad, zero_fill, zeros. rewrite <- app_assoc. do 3 f_equal. f_equal. f_equal. rewrite length_app.
  case_decide as D.
  - replace (111 - Z.of_nat (length h + length t)) with (239 - len t + (- Z.of_nat k - 1) * 128) by lia. rewrite Z.mod_add, Z.mod_small by lia. lia.
  - replace (111 - Z.of_nat (length h + length t)) with (111 - len t + (- Z.of_nat k) * 128) by lia. rewrite Z.mod_add, Z.mod_small by lia. lia.
Qed.
Lemma final512_spec c m : streamed m c -> all_bytes m -> crypto_sha512_final c = Some (digest64 (Fips512.absorb (length (Fips512.pad m) / 128) IV512 (Fips512.pad m))).
Proof.
  intros (k & h & t & (Lh & Eh & V & Sz & B) & <- & Lt) Bm. unfold crypto_sha512_final. set (c0 := if decide _ then _ else _).
  assert (c0 = c) as ->.
  { unfold c0. case_decide as D; [|done]. destruct B as (_ & _ & Ei & Ew). rewrite Ei in D. destruct t; [|done]. destruct c. cbn in Ew. by rewrite Ew. }
  destruct (set_input_spec c t 128 B Lt ltac:(done)) as (c1 & -> & [H1 S1] & I1 & W1). cbn [mbind option_bind].
  pose proof B as (Bt & _ & Ei & _). rewrite I1, Ei. rewrite (pad512 k) by done.
  set (n := 8 * len (h ++ t)). assert (size_ok (sha512_incr (input_size c1) (len t * 8)) n) as Sn.
  { rewrite S1. replace n with (1024 * Z.of_nat k + len t * 8) by (unfold n; rewrite length_app; lia). apply incr_ok; [done|]. unfold is_u64. lia. }
  set (c2 := c1 <| input_size := _ |>). assert (vars64 (hash c2)) as V2 by (unfold c2; fld; by rewrite H1).
  assert (hash c2 = Fips512.absorb k IV512 h) as E2 by (unfold c2; fld; by rewrite H1).
  destruct (be128_bytes n) as [Bn Ln]. rewrite length_app, Lh. do 2 f_equal.
  match goal with |- hash (sha512_compress ?x) = _ => change (hash (sha512_compress (with_length (if decide (input_idx c2 > 111) then
    (sha512_compress c2) <| input := replicate 14 0 ++ drop 14 (input (sha512_compress c2)) |> else c2))) = Fips512.absorb ((128 * k + length (t ++ [128] ++ zero_fill (length t) ++ Fips512.be128 n)) / 128) IV512 (h ++ t ++ [128] ++ zero_fill (length t) ++ Fips512.be128 n)) end.
  rewrite !length_app, Ln. unfold zero_fill, zeros at 1. rewrite length_replicate. cbn [length].
  assert (input_idx c2 = len t) as Ei2 by (unfold c2; fld; by rewrite I1). rewrite Ei2.
  case_decide as D; case_decide as D'; try lia.
  - replace ((128 * k + _) / 128)%nat with (k + 2)%nat by (rewrite <- (Nat.div_mul (k + 2) 128) by lia; f_equal; lia).
    rewrite absorb512_app, <- E2 by done.
    assert (zeros (239 - length t) = zeros (127 - length t) ++ zeros 112) as -> by (unfold zeros; rewrite <- replicate_add; f_equal; lia).
    set (b1 := t ++ [128] ++ zeros (127 - length t)). assert (length b1 = 128%nat) as L1 by (unfold b1, zeros; rewrite !length_app, length_replicate; cbn [length]; lia).
    replace (t ++ [128] ++ _) with (b1 ++ zeros 112 ++ Fips512.be128 n) by (unfold b1; by rewrite <- !app_assoc).
    assert (all_bytes b1) as Bb1 by (repeat (apply Forall_app; split); [done|by apply Forall_singleton|apply zeros512_bytes]).
    destruct (compress_words c2 b1 W1 Bb1 V2) as (E3 & V3 & S3 & L3).
    assert (size_ok (input_size (sha512_compress c2)) n) as Sn' by (rewrite S3; exact Sn). clear S3. revert E3 V3 L3 Sn'. generalize (sha512_compress c2). intros c3 E3 V3 L3 Sn'.
    rewrite (last_block _ (zeros 112) n); [|fld; rewrite length_app, length_replicate, length_drop; lia|apply zero_words_14|apply zeros512_bytes|done|exact V3|exact Sn'].
    cbn [Fips512.absorb]. rewrite take_app_length', drop_app_length', take_ge by (try rewrite length_app, Ln; done). fld. by rewrite E3.
  - replace ((128 * k + _) / 128)%nat with (k + 1)%nat by (rewrite <- (Nat.div_mul (k + 1) 128) by lia; f_equal; lia).
    rewrite absorb512_app, <- E2 by done. cbn [Fips512.absorb].
    set (b1 := t ++ [128] ++ zeros (111 - length t)). assert (length b1 = 112%nat) as L1 by (unfold b1, zeros; rewrite !length_app, length_replicate; cbn [length]; lia).
    replace (t ++ [128] ++ _) with (b1 ++ Fips512.be128 n) by (unfold b1; by rewrite <- !app_assoc). rewrite take_ge by (rewrite length_app, Ln; lia).
    assert (t ++ [128] ++ zeros (127 - length t) = b1 ++ zeros 16) as Eb.
    { unfold b1. rewrite <- !app_assoc. do 2 f_equal. unfold zeros. rewrite <- replicate_add. f_equal. lia. }
    rewrite Eb in W1. apply last_block; [change (input c2) with (input c1); rewrite W1; apply words64_length| |repeat (apply Forall_app; split); [done|by apply Forall_singleton|apply zeros512_bytes]|done|done|done].
    change (input c2) with (input c1). rewrite W1, take_words14 by (rewrite length_app; lia). by rewrite take_app_length'.
Qed.

Lemma store64_be_bytes x : store64_be x = (fun i => x / 2 ^ (8 * (7 - i)) mod 256) <$> seqZ 0 8.
Proof.
  change (seqZ 0 8) with [0; 1; 2; 3; 4; 5; 6; 7]. unfold store64_be. change 255 with (Z.ones 8). rewrite !Z.land_ones, !Z.shiftr_div_pow2 by lia.
  cbn [fmap list_fmap]. change (8 * (7 - 7)) with 0. change (2 ^ 0) with 1. by rewrite Z.div_1_r.
Qed.
Lemma digest64_fips v : digest64 v = Fips512.digest v.
Proof. unfold digest64, Fips512.digest. cbn [fmap list_fmap mjoin list_join]. by rewrite !store64_be_bytes, app_nil_r. Qed.

(** Updates in any number of pieces. *)
Definition update_all (c : sha512_ctx) (chunks : list (list Z)) : option sha512_ctx :=
  foldl (fun c m => c ← c; crypto_sha512_update c m) (Some c) chunks.
Lemma update_all_streamed chunks : forall s c, streamed s c -> Forall all_bytes chunks ->
  exists c', update_all c chunks = Some c' /\ streamed (s ++ concat chunks) c'.
Proof.
  unfold update_all. induction chunks as [|m chunks IH]; intros s c S Hb; cbn [foldl concat]; [exists c; by rewrite app_nil_r|].
  apply Forall_cons in Hb as [Hm Hb]. destruct (update512_streamed c s m S Hm) as (c1 & E1 & S1). cbn [mbind option_bind]. rewrite E1.
  destruct (IH _ _ S1 Hb) as (c2 & E & S2). exists c2. by rewrite app_assoc.
Qed.
Lemma concat_bytes chunks : Forall all_bytes chunks -> all_bytes (concat chunks).
Proof. induction 1; [by apply Forall_nil|]. by apply Forall_app. Qed.
(** C19: The streaming SHA-512 is that of FIPS 180-4: the updates never leave the
    block, and whatever the pieces of the message, the digest is that of their
    concatenation. *)
Theorem sha512_chunks chunks : Forall all_bytes chunks ->
  (c ← update_all crypto_sha512_init chunks; crypto_sha512_final c) = Some (Fips512.sha512 (concat chunks)).
Proof.
  intros Hb. destruct (update_all_streamed chunks [] _ init512_streamed Hb) as (c & -> & S). cbn [mbind option_bind].
  rewrite (final512_spec c (concat chunks)), digest64_fips by (done || by apply concat_bytes). done.
Qed.
Lemma crypto_sha512_fips m : all_bytes m -> crypto_sha512 m = Some (Fips512.sha512 m).
Proof.
  intros Hm. destruct (update512_streamed crypto_sha512_init [] m init512_streamed Hm) as (c & E & S). unfold crypto_sha512. rewrite E. cbn [mbind option_bind].
  by rewrite (final512_spec c m), digest64_fips.
Qed.
Lemma sha512_chunks_witness :
  (c ← update_all crypto_sha512_init [text "ab"; []; text "c"]; crypto_sha512_final c) = Some (Fips512.sha512 (concat [text "ab"; []; text "c"])).
Proof. apply (sha512_chunks [text "ab"; []; text "c"]). repeat constructor; by vm_compute. Defined.
