(* ===== verification/Chacha20.v ===== *)
(** * ChaCha20 (src/dosshd/crypto/monocypher.c, Chacha 20)

    The cipher with 64-bit and with 32-bit counter, the specification of its
    keystream (RFC 8439: the block function on a matrix of words), and the proof
    that the code encrypts byte by byte with that keystream, over any split into
    whole and partial blocks. *)
From Stdlib Require Import ZArith Lia.
From stdpp Require Import base list numbers.
From S2P Require Import Prelude MonoLe.
Local Open Scope Z_scope.

Definition QUARTERROUND (a b c d : Z) : Z * Z * Z * Z :=
  let a := u32 (a + b) in let d := rotl32 (Z.lxor d a) 16 in
  let c := u32 (c + d) in let b := rotl32 (Z.lxor b c) 12 in
  let a := u32 (a + b) in let d := rotl32 (Z.lxor d a) 8 in
  let c := u32 (c + d) in let b := rotl32 (Z.lxor b c) 7 in
  (a, b, c, d).

(** One pass of the loop of [chacha20_rounds]. *)
Definition round_pair (t : list Z) : list Z :=
  match t with
  | [t0; t1; t2; t3; t4; t5; t6; t7; t8; t9; t10; t11; t12; t13; t14; t15] =>
      let '(t0, t4, t8, t12) := QUARTERROUND t0 t4 t8 t12 in
      let '(t1, t5, t9, t13) := QUARTERROUND t1 t5 t9 t13 in
      let '(t2, t6, t10, t14) := QUARTERROUND t2 t6 t10 t14 in
      let '(t3, t7, t11, t15) := QUARTERROUND t3 t7 t11 t15 in
      let '(t0, t5, t10, t15) := QUARTERROUND t0 t5 t10 t15 in
      let '(t1, t6, t11, t12) := QUARTERROUND t1 t6 t11 t12 in
      let '(t2, t7, t8, t13) := QUARTERROUND t2 t7 t8 t13 in
      let '(t3, t4, t9, t14) := QUARTERROUND t3 t4 t9 t14 in
      [t0; t1; t2; t3; t4; t5; t6; t7; t8; t9; t10; t11; t12; t13; t14; t15]
  | _ => t
  end.
Definition chacha20_rounds (inp : list Z) : list Z := Nat.iter 10 round_pair inp.
Arguments chacha20_rounds : simpl never.

Definition chacha20_constant : list Z := text "expand 32-byte k".

(** [input[12]++; if (input[12] == 0) input[13]++;] *)
Definition bump (input : list Z) : list Z :=
  let c := u32 (input !!! 12%nat + 1) in
  let input := <[12%nat := c]> input in
  if decide (c = 0) then <[13%nat := u32 (input !!! 13%nat + 1)]> input else input.
(** [pool[j] + input[j]] *)
Definition block_words (input : list Z) : list Z := zip_with (fun p i => u32 (p + i)) (chacha20_rounds input) input.

(** The whole blocks; the result is the cipher text, the rest of the plain text and
    the matrix after it. *)
Fixpoint whole_blocks (n : nat) (plain_text : option (list Z)) (input : list Z) : option (list Z * option (list Z) * list Z) :=
  match n with
  | O => Some ([], plain_text, input)
  | S n =>
      let pool := block_words input in
      out ← (match plain_text with
             | Some m => ws ← load32_le_buf m 0 16; Some (store32_le_buf (zip_with Z.lxor pool ws))
             | None => Some (store32_le_buf pool)
             end);
      '(c, m, input) ← whole_blocks n (drop 64 <$> plain_text) (bump input);
      Some (out ++ c, m, input)
  end.

Definition crypto_chacha20_djb (plain_text : option (list Z)) (text_size : Z) (key nonce : list Z) (ctr : Z)
    : option (list Z * Z) :=
  k0 ← load32_le_buf chacha20_constant 0 4;
  k1 ← load32_le_buf key 0 8;
  k2 ← load32_le_buf nonce 0 2;
  let input := k0 ++ k1 ++ [u32 ctr; u32 (Z.shiftr ctr 32)] ++ k2 in
  '(c, m, input) ← whole_blocks (Z.to_nat (Z.shiftr text_size 6)) plain_text input;
  let text_size := Z.land text_size 63 in
  last ← (if decide (text_size > 0) then
            let p := match m with None => replicate 128 0 | Some p => p end in
            let tmp := store32_le_buf (block_words input) in
            mapM (fun i => a ← rd tmp i; b ← rd p i; Some (u8 (Z.lxor a b))) (seqZ 0 text_size)
          else Some []);
  Some (c ++ last,
        u64 (input !!! 12%nat + Z.shiftl (input !!! 13%nat) 32 + (if decide (text_size > 0) then 1 else 0))).

Definition crypto_chacha20_ietf (plain_text : option (list Z)) (text_size : Z) (key nonce : list Z) (ctr : Z)
    : option (list Z * Z) :=
  w ← load32_le nonce 0;
  let big_ctr := u64 (ctr + Z.shiftl w 32) in
  '(c, r) ← crypto_chacha20_djb plain_text text_size key (drop 4 nonce) big_ctr;
  Some (c, u32 r).

(** ** Specification *)

(** The quarter round on the words of the matrix at four positions, with rotation
    as arithmetic. *)
Definition rotl (n x : Z) : Z := (x * 2 ^ n) mod 2 ^ 32 + x / 2 ^ (32 - n).
Definition quarter (a b c d : Z) : Z * Z * Z * Z :=
  let a := (a + b) mod 2 ^ 32 in let d := rotl 16 (Z.lxor d a) in
  let c := (c + d) mod 2 ^ 32 in let b := rotl 12 (Z.lxor b c) in
  let a := (a + b) mod 2 ^ 32 in let d := rotl 8 (Z.lxor d a) in
  let c := (c + d) mod 2 ^ 32 in let b := rotl 7 (Z.lxor b c) in
  (a, b, c, d).
Definition quarter_at (p : nat * nat * nat * nat) (m : list Z) : list Z :=
  let '(i, j, k, l) := p in
  let '(a, b, c, d) := quarter (m !!! i) (m !!! j) (m !!! k) (m !!! l) in
  <[l := d]> (<[k := c]> (<[j := b]> (<[i := a]> m))).
Definition columns : list (nat * nat * nat * nat) := (fun i => (i, 4 + i, 8 + i, 12 + i)%nat) <$> seq 0 4.
Definition diagonals : list (nat * nat * nat * nat) :=
  (fun i => (i, 4 + (i + 1) mod 4, 8 + (i + 2) mod 4, 12 + (i + 3) mod 4)%nat) <$> seq 0 4.
Definition double_round (m : list Z) : list Z := foldl (flip quarter_at) m (columns ++ diagonals).

(** Constants, key, 64-bit counter, nonce. *)
Definition matrix (key nonce : list Z) (ctr : Z) : list Z :=
  words (text "expand 32-byte k") ++ words key ++ [ctr mod 2 ^ 32; ctr / 2 ^ 32 mod 2 ^ 32] ++ words nonce.
Definition key_block (key nonce : list Z) (ctr : Z) : list Z :=
  let m := matrix key nonce ctr in
  mjoin (le_bytes 4 <$> zip_with (fun p i => (p + i) mod 2 ^ 32) (Nat.iter 10 double_round m) m).
Arguments key_block : simpl never.
(** The keystream of [n] blocks; the counter is 64 bits wide. *)
Fixpoint key_blocks (n : nat) (key nonce : list Z) (ctr : Z) : list Z :=
  match n with O => [] | S n => key_block key nonce ctr ++ key_blocks n key nonce ((ctr + 1) mod 2 ^ 64) end.
Definition keystream (n : Z) (key nonce : list Z) (ctr : Z) : list Z :=
  take (Z.to_nat n) (key_blocks (Z.to_nat ((n + 63) / 64)) key nonce ctr).
Definition xor_bytes (m k : list Z) : list Z := zip_with Z.lxor m k.

(** ** The rounds *)

Lemma rotl32_rotl x n : is_u32 x -> 0 <= n <= 32 -> rotl32 x n = rotl n x.
Proof.
  intros Hx Hn. unfold rotl32, rotl, u32. change 4294967296 with (2 ^ 32).
  rewrite Z.shiftl_mul_pow2, Z.shiftr_div_pow2 by lia.
  assert (2 ^ 32 = 2 ^ n * 2 ^ (32 - n)) as E by (rewrite <- Z.pow_add_r by lia; f_equal; lia).
  assert (0 < 2 ^ n /\ 0 < 2 ^ (32 - n)) as [P1 P2] by (split; apply Z.pow_pos_nonneg; lia).
  assert ((x * 2 ^ n) mod 2 ^ 32 = Z.shiftl (x mod 2 ^ (32 - n)) n) as ->.
  { rewrite E, (Z.mul_comm (2 ^ n)), Z.mul_mod_distr_r, Z.shiftl_mul_pow2 by lia. done. }
  assert (0 <= x / 2 ^ (32 - n) < 2 ^ n) as Hb.
  { split; [apply Z.div_pos; unfold is_u32 in Hx; lia|]. apply Z.div_lt_upper_bound; [lia|].
    unfold is_u32 in Hx. change 4294967296 with (2 ^ 32) in Hx. rewrite E in Hx. lia. }
  symmetry. apply Z.add_nocarry_lxor. apply land_shiftl_small; [lia|done].
Qed.
Lemma lxor_u32 a b : is_u32 a -> is_u32 b -> is_u32 (Z.lxor a b).
Proof.
  intros Ha Hb. assert (Z.lxor a b = u32 (Z.lxor a b)) as ->; [|apply u32_range]. unfold u32. change 4294967296 with (2 ^ 32).
  rewrite lxor_mod by lia. by rewrite (Z.mod_small a), (Z.mod_small b).
Qed.
Lemma rotl_u32 n x : is_u32 x -> 0 <= n <= 32 -> is_u32 (rotl n x).
Proof.
  intros Hx Hn. rewrite <- rotl32_rotl by done. unfold rotl32. apply lxor_u32; [apply u32_range|].
  rewrite Z.shiftr_div_pow2 by lia. unfold is_u32 in *. assert (0 < 2 ^ (32 - n)) by (apply Z.pow_pos_nonneg; lia).
  split; [apply Z.div_pos; lia|]. apply Z.div_lt_upper_bound; [lia|]. nia.
Qed.
Lemma quarter_eq a b c d :
  is_u32 a -> is_u32 b -> is_u32 c -> is_u32 d ->
  QUARTERROUND a b c d = quarter a b c d /\
  let '(a, b, c, d) := quarter a b c d in is_u32 a /\ is_u32 b /\ is_u32 c /\ is_u32 d.
Proof.
  intros Ha Hb Hc Hd. unfold QUARTERROUND, quarter. cbv zeta. change (2 ^ 32) with 4294967296. fold (u32 (a + b)).
  set (a1 := u32 (a + b)). assert (is_u32 a1) as H1 by apply u32_range. clearbody a1.
  assert (is_u32 (Z.lxor d a1)) as Hx1 by (by apply lxor_u32). rewrite (rotl32_rotl (Z.lxor d a1) 16) by (done || lia).
  pose proof (rotl_u32 16 _ Hx1 ltac:(lia)) as Hd1. set (d1 := rotl 16 _) in *. clearbody d1. fold (u32 (c + d1)).
  set (c1 := u32 (c + d1)). assert (is_u32 c1) as Hc1 by apply u32_range. clearbody c1.
  assert (is_u32 (Z.lxor b c1)) as Hx2 by (by apply lxor_u32). rewrite (rotl32_rotl (Z.lxor b c1) 12) by (done || lia).
  pose proof (rotl_u32 12 _ Hx2 ltac:(lia)) as Hb1. set (b1 := rotl 12 _) in *. clearbody b1. fold (u32 (a1 + b1)).
  set (a2 := u32 (a1 + b1)). assert (is_u32 a2) as H2 by apply u32_range. clearbody a2.
  assert (is_u32 (Z.lxor d1 a2)) as Hx3 by (by apply lxor_u32). rewrite (rotl32_rotl (Z.lxor d1 a2) 8) by (done || lia).
  pose proof (rotl_u32 8 _ Hx3 ltac:(lia)) as Hd2. set (d2 := rotl 8 _) in *. clearbody d2. fold (u32 (c1 + d2)).
  set (c2 := u32 (c1 + d2)). assert (is_u32 c2) as Hc2 by apply u32_range. clearbody c2.
  assert (is_u32 (Z.lxor b1 c2)) as Hx4 by (by apply lxor_u32). rewrite (rotl32_rotl (Z.lxor b1 c2) 7) by (done || lia).
  split; [done|]. split_and!; try done. apply rotl_u32; [done|lia].
Qed.

Lemma round_pair_eq m : length m = 16%nat -> Forall is_u32 m ->
  round_pair m = double_round m /\ length (double_round m) = 16%nat /\ Forall is_u32 (double_round m).
Proof.
  intros L Hm. do 16 (destruct m as [|? m]; [discriminate L|]). destruct m; [|discriminate L]. clear L.
  repeat (apply Forall_cons in Hm as [? Hm]). clear Hm. unfold double_round, columns, diagonals.
  cbn [fmap list_fmap seq app foldl flip]. unfold round_pair.
  repeat match goal with
  | |- context [QUARTERROUND ?a ?b ?c ?d] =>
      let E := fresh in let H := fresh in
      destruct (quarter_eq a b c d) as [E H]; [assumption..|]; rewrite E; clear E;
      match goal with |- context [quarter_at ?p (?x :: ?l)] =>
        let e := eval cbn [quarter_at lookup_total list_lookup_total Nat.modulo Nat.add Nat.divmod fst snd Nat.sub] in (quarter_at p (x :: l)) in
        change (quarter_at p (x :: l)) with e
      end;
      destruct (quarter a b c d) as [[[? ?] ?] ?]; destruct H as (? & ? & ? & ?); cbn [insert list_insert]
  end.
  split_and!; [done|done|]. repeat (apply Forall_cons; split; [assumption|]). apply Forall_nil_2.
Qed.
Lemma rounds_eq k : forall m, length m = 16%nat -> Forall is_u32 m ->
  Nat.iter k round_pair m = Nat.iter k double_round m /\ length (Nat.iter k double_round m) = 16%nat /\ Forall is_u32 (Nat.iter k double_round m).
Proof.
  induction k as [|k IH]; intros m L Hm; [done|]. destruct (IH m L Hm) as (E & L' & H'). rewrite !Nat.iter_succ.
  destruct (round_pair_eq _ L' H') as (E1 & L1 & H1). rewrite E. auto.
Qed.

(** ** Words and bytes *)

Lemma mjoin_bytes_length ws : length (mjoin (le_bytes 4 <$> ws)) = (4 * length ws)%nat.
Proof. induction ws as [|w ws IH]; [done|]. rewrite mjoin_fmap_cons, length_app, le_bytes_length, IH. cbn. lia. Qed.
Lemma store_lxor ws : forall l, length l = (4 * length ws)%nat -> all_bytes l ->
  store32_le_buf (zip_with Z.lxor ws (words l)) = xor_bytes l (mjoin (le_bytes 4 <$> ws)).
Proof.
  induction ws as [|w ws IH]; intros l L H; [by destruct l|].
  destruct l as [|a [|b [|c [|d l]]]]; cbn in L; try lia. cbn [words zip_with].
  rewrite store_buf_bytes, !mjoin_fmap_cons, <- store_buf_bytes.
  apply Forall_cons in H as [Ha H]. apply Forall_cons in H as [Hb H]. apply Forall_cons in H as [Hc H]. apply Forall_cons in H as [Hd H].
  assert (all_bytes [a; b; c; d]) as H4 by (repeat (apply Forall_cons; split; [done|]); done).
  pose proof (le_bytes_value [a; b; c; d] H4) as Ev. cbn [length] in Ev. rewrite IH by (done || lia). rewrite le_bytes_lxor, Ev. unfold xor_bytes. cbn [le_bytes zip_with app].
  by rewrite !(Z.lxor_comm a), !(Z.lxor_comm b), !(Z.lxor_comm c), !(Z.lxor_comm d).
Qed.

Lemma lxor_byte a b : is_byte a -> is_byte b -> u8 (Z.lxor a b) = Z.lxor a b.
Proof. intros Ha Hb. unfold u8. change 256 with (2 ^ 8). rewrite lxor_mod by lia. by rewrite (Z.mod_small a), (Z.mod_small b). Qed.
Lemma xor_mapM (a p : list Z) (k : nat) : all_bytes a -> all_bytes p -> (k <= length a)%nat -> (k <= length p)%nat ->
  mapM (fun i => x ← rd a i; y ← rd p i; Some (u8 (Z.lxor x y))) (seqZ 0 (Z.of_nat k)) = Some (xor_bytes (take k p) (take k a)).
Proof.
  intros Ha Hp La Lp. apply mapM_Some. apply Forall2_lookup. intros i. unfold xor_bytes. rewrite lookup_zip_with.
  destruct (decide (i < k)%nat) as [Hi|Hi].
  - rewrite (proj2 (lookup_seqZ 0 (Z.of_nat k) i (Z.of_nat i))) by lia. rewrite !lookup_take_lt by lia.
    destruct (lookup_lt_is_Some_2 a i) as [x Ex]; [lia|]. destruct (lookup_lt_is_Some_2 p i) as [y Ey]; [lia|]. rewrite Ex, Ey. cbn.
    constructor. unfold rd. rewrite !decide_True, Nat2Z.id, Ex, Ey by lia. cbn. f_equal. rewrite Z.lxor_comm.
    pose proof (Forall_lookup_1 _ _ _ _ Ha Ex). pose proof (Forall_lookup_1 _ _ _ _ Hp Ey). by apply lxor_byte.
  - rewrite lookup_seqZ_ge by lia. rewrite !lookup_take_ge by lia. constructor.
Qed.

(** The [k] bytes of plain text the cipher reads: zeros when there is none. *)
Definition text_of (m : option (list Z)) (k : nat) : list Z := match m with Some l => take k l | None => replicate k 0 end.
(** [k] bytes of plain text are there. *)
Definition has_text (m : option (list Z)) (k : nat) : Prop := match m with Some l => all_bytes l /\ (k <= length l)%nat | None => True end.

Lemma text_of_split m a b : text_of m (a + b) = text_of m a ++ text_of (drop a <$> m) b.
Proof.
  destruct m as [l|]; cbn; [|by rewrite replicate_add]. by rewrite <- take_take_drop.
Qed.
Lemma text_of_length m k : has_text m k -> length (text_of m k) = k.
Proof. destruct m as [l|]; cbn; [intros [_ ?]; rewrite length_take; lia|intros _; apply length_replicate]. Qed.
Lemma xor_app m1 m2 k1 k2 : length m1 = length k1 -> xor_bytes (m1 ++ m2) (k1 ++ k2) = xor_bytes m1 k1 ++ xor_bytes m2 k2.
Proof. intros L. by apply zip_with_app. Qed.
Lemma xor_zeros k : xor_bytes (replicate (length k) 0) k = k.
Proof. induction k as [|b k IH]; [done|]. cbn. unfold xor_bytes in *. by rewrite IH. Qed.
(** ** Blocks *)

Section stream.
Context (key nonce : list Z) (Lk : length key = 32%nat) (Bk : all_bytes key) (Ln : length nonce = 8%nat) (Bn : all_bytes nonce).

Lemma matrix_ok ctr : length (matrix key nonce ctr) = 16%nat /\ Forall is_u32 (matrix key nonce ctr).
Proof.
  assert (length (words key) = 8%nat /\ length (words nonce) = 2%nat) as [L1 L2] by (split; apply words_length; lia). unfold matrix. split.
  - rewrite !length_app, L1, L2. done.
  - repeat (apply Forall_app; split); [apply (words_u32 4); [done|apply text_bytes]|by apply (words_u32 8)| |by apply (words_u32 2)].
    apply Forall_cons; split; [apply (u32_range ctr)|]. apply Forall_cons; split; [apply (u32_range (ctr / 2 ^ 32))|done].
Qed.
Lemma block_words_ok ctr : mjoin (le_bytes 4 <$> block_words (matrix key nonce ctr)) = key_block key nonce ctr.
Proof.
  destruct (matrix_ok ctr) as [L H]. unfold block_words, chacha20_rounds, key_block.
  by destruct (rounds_eq 10 (matrix key nonce ctr) L H) as (-> & _).
Qed.
Lemma block_words_length ctr : length (block_words (matrix key nonce ctr)) = 16%nat.
Proof.
  destruct (matrix_ok ctr) as [L H]. unfold block_words, chacha20_rounds. rewrite length_zip_with.
  destruct (rounds_eq 10 (matrix key nonce ctr) L H) as (-> & -> & _). lia.
Qed.
Lemma key_block_length ctr : length (key_block key nonce ctr) = 64%nat.
Proof. by rewrite <- block_words_ok, mjoin_bytes_length, block_words_length. Qed.
Lemma matrix_bump ctr : 0 <= ctr < 2 ^ 64 -> bump (matrix key nonce ctr) = matrix key nonce ((ctr + 1) mod 2 ^ 64).
Proof.
  intros Hc. assert (length (words key) = 8%nat /\ length (words nonce) = 2%nat) as [L1 L2] by (split; apply words_length; lia).
  unfold matrix, bump. set (k0 := words (text "expand 32-byte k") ++ words key). assert (length k0 = 12%nat) as L by (unfold k0; rewrite length_app, L1; done).
  rewrite !app_assoc. fold k0. rewrite <- !app_assoc. clearbody k0.
  assert (forall x y l, (k0 ++ [x; y] ++ l) !!! 12%nat = x /\ (k0 ++ [x; y] ++ l) !!! 13%nat = y) as Hl.
  { intros x y l. rewrite !(lookup_total_app_r k0), L by lia. split; reflexivity. }
  assert (forall x y z l, <[12%nat := z]> (k0 ++ [x; y] ++ l) = k0 ++ [z; y] ++ l /\ <[13%nat := z]> (k0 ++ [x; y] ++ l) = k0 ++ [x; z] ++ l) as Hi.
  { intros x y z l. rewrite !(insert_app_r_alt k0), L by lia. split; reflexivity. }
  rewrite (proj1 (Hl _ _ _)). rewrite (proj1 (Hi _ _ _ _)). unfold u32. change 4294967296 with (2 ^ 32). case_decide as Hz.
  - rewrite (proj2 (Hl _ _ _)), (proj2 (Hi _ _ _ _)). do 3 f_equal; [|f_equal]; Z.div_mod_to_equations; lia.
  - do 3 f_equal; [|f_equal]; Z.div_mod_to_equations; lia.
Qed.

Lemma key_blocks_length n : forall ctr, length (key_blocks n key nonce ctr) = (64 * n)%nat.
Proof. induction n as [|n IH]; intros ctr; [done|]. cbn [key_blocks]. rewrite length_app, key_block_length, IH. lia. Qed.
Lemma key_blocks_S n ctr : key_blocks (S n) key nonce ctr = key_block key nonce ctr ++ key_blocks n key nonce ((ctr + 1) mod 2 ^ 64).
Proof. reflexivity. Qed.
Lemma key_blocks_snoc n : forall ctr, 0 <= ctr < 2 ^ 64 ->
  key_blocks (S n) key nonce ctr = key_blocks n key nonce ctr ++ key_block key nonce ((ctr + Z.of_nat n) mod 2 ^ 64).
Proof.
  induction n as [|n IH]; intros ctr Hc.
  - rewrite key_blocks_S, Z.add_0_r, (Z.mod_small ctr) by lia. cbn [key_blocks].
    apply (app_nil_r (key_block key nonce ctr)).
  - rewrite key_blocks_S, IH by (apply Z.mod_pos_bound; lia). rewrite key_blocks_S, <- app_assoc. do 3 f_equal.
    rewrite Zplus_mod_idemp_l. f_equal. lia.
Qed.

Lemma whole_blocks_eq n : forall m ctr, 0 <= ctr < 2 ^ 64 -> has_text m (64 * n) ->
  whole_blocks n m (matrix key nonce ctr) =
  Some (xor_bytes (text_of m (64 * n)) (key_blocks n key nonce ctr), drop (64 * n) <$> m, matrix key nonce ((ctr + Z.of_nat n) mod 2 ^ 64)).
Proof.
  induction n as [|n IH]; intros m ctr Hc Hm.
  - rewrite Z.add_0_r, (Z.mod_small ctr) by lia. destruct m; reflexivity.
  - cbn [whole_blocks]. replace (64 * S n)%nat with (64 + 64 * n)%nat in * by lia.
    assert (has_text m 64) as H64 by (destruct m as [l|]; [|done]; destruct Hm; split; [done|lia]).
    assert (match m with
      | Some m => ws ← load32_le_buf m 0 16; Some (store32_le_buf (zip_with Z.lxor (block_words (matrix key nonce ctr)) ws))
      | None => Some (store32_le_buf (block_words (matrix key nonce ctr))) end = Some (xor_bytes (text_of m 64) (key_block key nonce ctr))) as ->.
    { pose proof (block_words_length ctr) as L. rewrite <- block_words_ok. destruct m as [l|]; cbn [text_of].
      - destruct H64 as [Hl H64]. rewrite load_words by (done || lia). cbn [mbind option_bind]. rewrite drop_0.
        change (4 * Z.to_nat 16)%nat with 64%nat. f_equal. apply store_lxor; [rewrite length_take, L; lia|by apply Forall_take].
      - rewrite store_buf_bytes. f_equal. symmetry. replace 64%nat with (length (mjoin (le_bytes 4 <$> block_words (matrix key nonce ctr)))); [apply xor_zeros|].
        by rewrite mjoin_bytes_length, L. }
    cbn [mbind option_bind]. rewrite matrix_bump by done.
    rewrite IH; [|apply Z.mod_pos_bound; lia|].
    + cbn [mbind option_bind]. rewrite text_of_split, <- xor_app by (by rewrite text_of_length, key_block_length).
      rewrite <- key_blocks_S. do 2 f_equal; [f_equal|].
      * destruct m as [l|]; [|done]. cbn. by rewrite drop_drop.
      * f_equal. rewrite Zplus_mod_idemp_l. f_equal. lia.
    + destruct m as [l|]; [|done]. destruct Hm. split; [by apply Forall_drop|]. rewrite length_drop. lia.
Qed.

Lemma matrix_counter ctr : 0 <= ctr < 2 ^ 64 ->
  matrix key nonce ctr !!! 12%nat + Z.shiftl (matrix key nonce ctr !!! 13%nat) 32 = ctr.
Proof.
  intros Hc. assert (length (words key) = 8%nat) as L1 by (apply words_length; lia).
  unfold matrix. set (k0 := words (text "expand 32-byte k")). assert (length k0 = 4%nat) as L0 by done. clearbody k0.
  rewrite !(lookup_total_app_r k0), !(lookup_total_app_r (words key)), L0, L1 by lia.
  change ([ctr mod 2 ^ 32; ctr / 2 ^ 32 mod 2 ^ 32] ++ words nonce) with (ctr mod 2 ^ 32 :: ctr / 2 ^ 32 mod 2 ^ 32 :: words nonce).
  change (ctr mod 2 ^ 32 + Z.shiftl (ctr / 2 ^ 32 mod 2 ^ 32) 32 = ctr). rewrite Z.shiftl_mul_pow2 by lia.
  Z.div_mod_to_equations. lia.
Qed.

Lemma loaded_matrix ctr :
  load32_le_buf chacha20_constant 0 4 = Some (words (text "expand 32-byte k")) /\
  load32_le_buf key 0 8 = Some (words key) /\ load32_le_buf nonce 0 2 = Some (words nonce) /\
  words (text "expand 32-byte k") ++ words key ++ [u32 ctr; u32 (Z.shiftr ctr 32)] ++ words nonce = matrix key nonce ctr.
Proof.
  rewrite !load_words by (apply text_bytes || done || rewrite ?Lk, ?Ln; done || lia). split_and!; [done| | |].
  - rewrite take_ge by (rewrite drop_0, Lk; done). by rewrite drop_0.
  - rewrite take_ge by (rewrite drop_0, Ln; done). by rewrite drop_0.
  - unfold matrix. by rewrite Z.shiftr_div_pow2 by lia.
Qed.
End stream.

Lemma djb_stream m n key nonce ctr :
  length key = 32%nat -> all_bytes key -> length nonce = 8%nat -> all_bytes nonce -> 0 <= ctr < 2 ^ 64 ->
  0 <= n -> has_text m (Z.to_nat n) ->
  crypto_chacha20_djb m n key nonce ctr =
  Some (xor_bytes (text_of m (Z.to_nat n)) (keystream n key nonce ctr), (ctr + (n + 63) / 64) mod 2 ^ 64).
Proof.
  intros Lk Bk Ln Bn Hc Hn Hm. unfold crypto_chacha20_djb.
  destruct (loaded_matrix key nonce Lk Bk Ln Bn ctr) as (-> & -> & -> & E). cbn [mbind option_bind]. rewrite E. clear E.
  assert (Z.land n 63 = n mod 64) as -> by (change 63 with (Z.ones 6); by rewrite Z.land_ones by lia).
  rewrite Z.shiftr_div_pow2 by lia. change (2 ^ 6) with 64.
  pose proof (Z.div_mod n 64 ltac:(lia)) as Hdm. pose proof (Z.mod_pos_bound n 64 ltac:(lia)) as Hr. set (q := n / 64) in *. set (r := n mod 64) in *.
  assert (0 <= q) as Hq by (apply Z.div_pos; lia).
  assert (Z.to_nat n = 64 * Z.to_nat q + Z.to_nat r)%nat as En by lia. rewrite En in Hm |- *.
  rewrite (whole_blocks_eq key nonce Lk Bk Ln Bn) by first [done | destruct m as [l|]; [|done]; destruct Hm; split; [done|lia]].
  cbn [mbind option_bind]. rewrite Z2Nat.id by done. set (c1 := (ctr + q) mod 2 ^ 64).
  assert (0 <= c1 < 2 ^ 64) as Hc1 by (apply Z.mod_pos_bound; lia).
  rewrite (matrix_counter key nonce Lk Ln c1 Hc1), text_of_split. unfold keystream. rewrite En.
  set (m' := drop (64 * Z.to_nat q) <$> m). assert (has_text m' (Z.to_nat r)) as Hm'.
  { destruct m as [l|]; [|done]. destruct Hm. split; [by apply Forall_drop|]. rewrite length_drop. lia. }
  assert (length (text_of m (64 * Z.to_nat q)) = 64 * Z.to_nat q)%nat as Lt.
  { apply text_of_length. destruct m as [l|]; [|done]. destruct Hm. split; [done|lia]. }
  pose proof (key_blocks_length key nonce Lk Bk Ln Bn (Z.to_nat q) ctr) as Lq.
  destruct (decide (r > 0)) as [Hr0|Hr0].
  - assert ((n + 63) / 64 = q + 1) as -> by (symmetry; apply (Z.div_unique _ _ _ (r - 1)); lia).
    replace (Z.to_nat (q + 1)) with (S (Z.to_nat q)) by lia.
    rewrite (key_blocks_snoc key nonce Lk Ln), Z2Nat.id by lia. fold c1.
    rewrite take_app, Lq, take_ge by lia. replace (64 * Z.to_nat q + Z.to_nat r - 64 * Z.to_nat q)%nat with (Z.to_nat r) by lia.
    rewrite store_buf_bytes, (block_words_ok key nonce Lk Bk Ln Bn).
    rewrite <- (Z2Nat.id r) at 1 by lia. rewrite xor_mapM.
    + cbn [mbind option_bind]. rewrite xor_app by (by rewrite Lt, Lq). f_equal. f_equal; [f_equal|].
      * f_equal. unfold m'. destruct m as [l|]; [done|]. cbn [fmap option_fmap option_map text_of]. rewrite take_replicate. f_equal. lia.
      * unfold c1, u64. change 18446744073709551616 with (2 ^ 64). rewrite Zplus_mod_idemp_l. f_equal. lia.
    + rewrite <- (block_words_ok key nonce Lk Bk Ln Bn). clear. generalize (block_words (matrix key nonce c1)). intros ws.
      induction ws; [apply Forall_nil_2|]. rewrite mjoin_fmap_cons. apply Forall_app. split; [apply le_bytes_bytes|done].
    + unfold m' in *. destruct m as [l|]; [by destruct Hm'|]. cbn [fmap option_fmap option_map]. apply Forall_replicate. unfold is_byte. lia.
    + rewrite (key_block_length key nonce Lk Bk Ln Bn). lia.
    + unfold m' in *. destruct m as [l|]; [by destruct Hm'|]. cbn [fmap option_fmap option_map]. rewrite length_replicate. lia.
  - assert (r = 0) as Er by lia. rewrite Er in *. assert ((n + 63) / 64 = q) as -> by (symmetry; apply (Z.div_unique _ _ _ 63); lia).
    cbn [mbind option_bind]. rewrite app_nil_r, Z.add_0_r. f_equal. f_equal.
    + change (Z.to_nat 0) with 0%nat. rewrite Nat.add_0_r. assert (text_of m' 0 = []) as -> by (destruct m; done). rewrite app_nil_r. f_equal. rewrite take_ge; [done|lia].
    + unfold u64. rewrite Z.mod_small by (change (2 ^ 64) with 18446744073709551616 in Hc1; lia). done.
Qed.

(** What comes out of it. *)
Lemma keystream_length n key nonce ctr :
  length key = 32%nat -> all_bytes key -> length nonce = 8%nat -> all_bytes nonce -> 0 <= n -> len (keystream n key nonce ctr) = n.
Proof.
  intros Lk Bk Ln Bn Hn. unfold keystream. rewrite length_take, (key_blocks_length key nonce Lk Bk Ln Bn).
  assert (n <= 64 * ((n + 63) / 64)) by (Z.div_mod_to_equations; lia). lia.
Qed.
Lemma keystream_bytes n key nonce ctr : all_bytes (keystream n key nonce ctr).
Proof.
  unfold keystream. apply Forall_take. generalize (Z.to_nat ((n + 63) / 64)). intros k. revert ctr. induction k as [|k IH]; intros ctr; [apply Forall_nil_2|].
  cbn [key_blocks]. apply Forall_app. split; [|apply IH]. unfold key_block. cbv zeta. generalize (zip_with (fun p i => (p + i) mod 2 ^ 32) (Nat.iter 10 double_round (matrix key nonce ctr)) (matrix key nonce ctr)).
  intros ws. induction ws as [|w ws IHw]; [apply Forall_nil_2|]. rewrite mjoin_fmap_cons. apply Forall_app. split; [apply le_bytes_bytes|exact IHw].
Qed.
Lemma xor_bytes_length a b : length a = length b -> length (xor_bytes a b) = length a.
Proof. intros L. unfold xor_bytes. rewrite length_zip_with. lia. Qed.
Lemma xor_bytes_bytes a b : all_bytes a -> all_bytes b -> all_bytes (xor_bytes a b).
Proof.
  intros Ha. revert b. induction Ha as [|x a Hx _ IH]; intros b Hb; [apply Forall_nil_2|].
  destruct Hb as [|y b Hy Hb]; [apply Forall_nil_2|]. cbn. apply Forall_cons. split; [rewrite <- lxor_byte by done; apply u8_byte|by apply IH].
Qed.
Lemma xor_bytes_invol a b : length a = length b -> xor_bytes (xor_bytes a b) b = a.
Proof.
  revert b. induction a as [|x a IH]; intros [|y b] L; try done. cbn. f_equal.
  - by rewrite Z.lxor_assoc, Z.lxor_nilpotent, Z.lxor_0_r.
  - apply IH. by injection L.
Qed.

(** C23: ChaCha20 with a 64-bit counter, as the SSH server and the generator call
    it, encrypts byte by byte with the keystream of the specification: for every
    length, the code's walk over whole blocks and its last partial block (and the
    mode without plain text) yield the plain text XOR the first bytes of the
    blocks numbered from [ctr] on, and it returns the counter after them. *)
Theorem chacha20_is_keystream m n key nonce ctr :
  length key = 32%nat -> all_bytes key -> length nonce = 8%nat -> all_bytes nonce -> 0 <= ctr < 2 ^ 64 ->
  0 <= n -> has_text m (Z.to_nat n) ->
  crypto_chacha20_djb m n key nonce ctr =
  Some (xor_bytes (text_of m (Z.to_nat n)) (keystream n key nonce ctr), (ctr + (n + 63) / 64) mod 2 ^ 64).
Proof. apply djb_stream. Qed.

(** The block of RFC 8439, section 2.3.2 (its first 16 bytes), through the call with
    a 12-byte nonce. *)
Definition rfc_key : list Z := seqZ 0 32.
Definition rfc_nonce : list Z := [0; 0; 0; 9; 0; 0; 0; 0x4a; 0; 0; 0; 0].
Definition rfc_block : list Z :=
  [0x10; 0xf1; 0xe7; 0xe4; 0xd1; 0x3b; 0x59; 0x15; 0x50; 0x0f; 0xdd; 0x1f; 0xa3; 0x20; 0x71; 0xc4].
Example ietf_rfc_block : fst <$> crypto_chacha20_ietf None 16 rfc_key rfc_nonce 1 = Some rfc_block.
Proof. vm_compute. reflexivity. Qed.

Lemma chacha20_is_keystream_witness :
  crypto_chacha20_djb (Some (replicate 16 255)) 16 rfc_key (drop 4 rfc_nonce) (1 + 0x09000000 * 2 ^ 32)
  = Some (xor_bytes (replicate 16 255) rfc_block, 2 + 0x09000000 * 2 ^ 32).
Proof.
  assert (all_bytes rfc_key /\ all_bytes (drop 4 rfc_nonce) /\ all_bytes (replicate 16 255)) as (Bk & Bn & Bm).
  { split; [apply Forall_seqZ; unfold is_byte; lia|]. split; [|apply Forall_replicate; unfold is_byte; lia].
    unfold rfc_nonce. cbn [drop]. repeat (apply Forall_cons; split; [unfold is_byte; lia|]). apply Forall_nil_2. }
  assert (keystream 16 rfc_key (drop 4 rfc_nonce) (1 + 0x09000000 * 2 ^ 32) = rfc_block) as <- by (vm_compute; reflexivity).
  rewrite (chacha20_is_keystream (Some (replicate 16 255)) 16 rfc_key (drop 4 rfc_nonce) (1 + 0x09000000 * 2 ^ 32) eq_refl Bk eq_refl Bn);
    [reflexivity|split; [discriminate|reflexivity]|discriminate|split; [exact Bm|reflexivity]].
Defined.
