(* ===== verification/Poly1305.v ===== *)
(** * Poly1305 (src/dosshd/crypto/monocypher.c, Poly 1305)

    The authenticator with its 32-bit limbs and lazy carries, and its
    specification (RFC 8439): evaluation of the message's polynomial modulo
    2^130 - 5. *)
From Stdlib Require Import ZArith Lia.
From stdpp Require Import base list numbers.
From S2P Require Import Prelude MonoLe.
Local Open Scope Z_scope.

(** [h[5]] and [r[4]] *)
Record acc := Acc { h0 : Z; h1 : Z; h2 : Z; h3 : Z; h4 : Z }.
Record rkey := Rkey { r0 : Z; r1 : Z; r2 : Z; r3 : Z }.
(** [crypto_poly1305_ctx] *)
Record poly_ctx := Poly { pc_c : list Z; c_idx : Z; pc_r : rkey; pc_pad : list Z; pc_h : acc }.

(** One round of the loop of [poly_blocks], on the words of the block. *)
Definition poly_block (r : rkey) (m0 m1 m2 m3 : Z) (end_ : Z) (h : acc) : acc :=
  let rr0 := u32 (Z.shiftr (r0 r) 2 * 5) in
  let rr1 := u32 (Z.shiftr (r1 r) 2 + r1 r) in
  let rr2 := u32 (Z.shiftr (r2 r) 2 + r2 r) in
  let rr3 := u32 (Z.shiftr (r3 r) 2 + r3 r) in
  let rr4 := Z.land (r0 r) 3 in
  let s0 := u64 (h0 h + m0) in
  let s1 := u64 (h1 h + m1) in
  let s2 := u64 (h2 h + m2) in
  let s3 := u64 (h3 h + m3) in
  let s4 := u32 (h4 h + end_) in
  let x0 := u64 (s0 * r0 r + s1 * rr3 + s2 * rr2 + s3 * rr1 + u32 (s4 * rr0)) in
  let x1 := u64 (s0 * r1 r + s1 * r0 r + s2 * rr3 + s3 * rr2 + u32 (s4 * rr1)) in
  let x2 := u64 (s0 * r2 r + s1 * r1 r + s2 * r0 r + s3 * rr3 + u32 (s4 * rr2)) in
  let x3 := u64 (s0 * r3 r + s1 * r2 r + s2 * r1 r + s3 * r0 r + u32 (s4 * rr3)) in
  let x4 := u32 (s4 * rr4) in
  let u5 := u32 (u64 (x4 + Z.shiftr x3 32)) in
  let u0 := u64 (u32 (Z.shiftr u5 2 * 5) + Z.land x0 0xffffffff) in
  let u1 := u64 (Z.shiftr u0 32 + Z.land x1 0xffffffff + Z.shiftr x0 32) in
  let u2 := u64 (Z.shiftr u1 32 + Z.land x2 0xffffffff + Z.shiftr x1 32) in
  let u3 := u64 (Z.shiftr u2 32 + Z.land x3 0xffffffff + Z.shiftr x2 32) in
  let u4 := u32 (u64 (Z.shiftr u3 32 + Z.land u5 3)) in
  Acc (Z.land u0 0xffffffff) (Z.land u1 0xffffffff) (Z.land u2 0xffffffff) (Z.land u3 0xffffffff) u4.

Fixpoint poly_blocks (nb_blocks : nat) (r : rkey) (inp : list Z) (end_ : Z) (h : acc) : option acc :=
  match nb_blocks with
  | O => Some h
  | S n =>
      m0 ← load32_le inp 0; m1 ← load32_le inp 4; m2 ← load32_le inp 8; m3 ← load32_le inp 12;
      poly_blocks n r (drop 16 inp) end_ (poly_block r m0 m1 m2 m3 end_ h)
  end.

Definition crypto_poly1305_init (c : list Z) (key : list Z) : option poly_ctx :=
  k0 ← load32_le key 0; k1 ← load32_le key 4; k2 ← load32_le key 8; k3 ← load32_le key 12;
  pad ← load32_le_buf key 16 4;
  Some (Poly c 0 (Rkey (Z.land k0 0x0fffffff) (Z.land k1 0x0ffffffc) (Z.land k2 0x0ffffffc) (Z.land k3 0x0ffffffc))
          pad (Acc 0 0 0 0 0)).

(** [ctx->c[ctx->c_idx] = *message; ctx->c_idx++; message++;] [n] times. *)
Fixpoint store_bytes (n : nat) (ctx : poly_ctx) (message : list Z) : option (poly_ctx * list Z) :=
  match n with
  | O => Some (ctx, message)
  | S n =>
      b ← rd message 0;
      if decide (0 <= c_idx ctx < len (pc_c ctx)) then
        store_bytes n (Poly (<[Z.to_nat (c_idx ctx) := b]> (pc_c ctx)) (c_idx ctx + 1) (pc_r ctx) (pc_pad ctx) (pc_h ctx)) (drop 1 message)
      else None
  end.
Definition with_h (ctx : poly_ctx) (idx : Z) (h : acc) : poly_ctx := Poly (pc_c ctx) idx (pc_r ctx) (pc_pad ctx) h.

Definition crypto_poly1305_update (ctx : poly_ctx) (message : list Z) (message_size : Z) : option poly_ctx :=
  if decide (message_size = 0) then Some ctx
  else
    let aligned := Z.min (gap (c_idx ctx) 16) message_size in
    '(ctx, message) ← store_bytes (Z.to_nat aligned) ctx message;
    let message_size := message_size - aligned in
    ctx ← (if decide (c_idx ctx = 16) then
             h ← poly_blocks 1 (pc_r ctx) (pc_c ctx) 1 (pc_h ctx); Some (with_h ctx 0 h)
           else Some ctx);
    let nb_blocks := Z.shiftr message_size 4 in
    h ← poly_blocks (Z.to_nat nb_blocks) (pc_r ctx) message 1 (pc_h ctx);
    let message := drop (Z.to_nat (Z.shiftl nb_blocks 4)) message in
    let message_size := Z.land message_size 15 in
    '(ctx, _) ← store_bytes (Z.to_nat message_size) (with_h ctx (c_idx ctx) h) message;
    Some ctx.

(** The two carry chains of [crypto_poly1305_final]. *)
Fixpoint carry_chain (c : Z) (hs : list Z) : Z :=
  match hs with [] => c | h :: hs => carry_chain (Z.shiftr (u64 (c + h)) 32) hs end.
Fixpoint mac_chain (c : Z) (hs pad : list Z) : list Z :=
  match hs, pad with
  | h :: hs, p :: pad => let c := u64 (c + u64 (h + p)) in store32_le (u32 c) ++ mac_chain (Z.shiftr c 32) hs pad
  | _, _ => []
  end.
Definition crypto_poly1305_final (ctx : poly_ctx) : option (list Z) :=
  ctx ← (if decide (c_idx ctx <> 0) then
           if decide (0 <= c_idx ctx < len (pc_c ctx)) then
             let c := take (Z.to_nat (c_idx ctx)) (pc_c ctx) ++ replicate (Z.to_nat (16 - c_idx ctx)) 0 in
             let c := <[Z.to_nat (c_idx ctx) := 1]> c in
             h ← poly_blocks 1 (pc_r ctx) c 0 (pc_h ctx); Some (with_h ctx (c_idx ctx) h)
           else None
         else Some ctx);
  let h := pc_h ctx in
  let c := carry_chain 5 [h0 h; h1 h; h2 h; h3 h] in
  let c := u64 (c + h4 h) in
  let c := u64 (Z.shiftr c 2 * 5) in
  Some (mac_chain c [h0 h; h1 h; h2 h; h3 h] (pc_pad ctx)).

(** [c] are the bytes the context has on the stack. *)
Definition crypto_poly1305 (c : list Z) (message : list Z) (message_size : Z) (key : list Z) : option (list Z) :=
  ctx ← crypto_poly1305_init c key;
  ctx ← crypto_poly1305_update ctx message message_size;
  crypto_poly1305_final ctx.

(** ** Specification *)

Definition P1305 : Z := 2 ^ 130 - 5.
Definition clamp (r : Z) : Z := Z.land r 0x0ffffffc0ffffffc0ffffffc0fffffff.
(** The message in blocks of 16 bytes, each with a 1 above it. *)
Fixpoint poly_eval (fuel : nat) (r a : Z) (m : list Z) : Z :=
  match fuel, m with
  | S fuel, _ :: _ => poly_eval fuel r ((a + le_value (take 16 m ++ [1])) * r mod P1305) (drop 16 m)
  | _, _ => a
  end.
Definition poly1305 (m key : list Z) : list Z :=
  le_bytes 16 (poly_eval (length m) (clamp (le_value (take 16 key))) 0 m + le_value (take 16 (drop 16 key))).

(** ** One block *)

Definition acc_value (h : acc) : Z := h0 h + 2 ^ 32 * h1 h + 2 ^ 64 * h2 h + 2 ^ 96 * h3 h + 2 ^ 128 * h4 h.
Definition rkey_value (r : rkey) : Z := r0 r + 2 ^ 32 * r1 r + 2 ^ 64 * r2 r + 2 ^ 96 * r3 r.
Record acc_ok (h : acc) : Prop := {
  ao_0 : is_u32 (h0 h); ao_1 : is_u32 (h1 h); ao_2 : is_u32 (h2 h); ao_3 : is_u32 (h3 h); ao_4 : 0 <= h4 h <= 4
}.
Record rkey_ok (r : rkey) : Prop := {
  ro_0 : 0 <= r0 r < 2 ^ 28;
  ro_1 : 0 <= r1 r < 2 ^ 28 /\ r1 r mod 4 = 0;
  ro_2 : 0 <= r2 r < 2 ^ 28 /\ r2 r mod 4 = 0;
  ro_3 : 0 <= r3 r < 2 ^ 28 /\ r3 r mod 4 = 0
}.

Lemma land_mod4 x : Z.land x 3 = x mod 4.
Proof. change 3 with (Z.ones 2). by rewrite Z.land_ones. Qed.
Lemma land_mod32 x : Z.land x 0xffffffff = x mod 4294967296.
Proof. change 0xffffffff with (Z.ones 32). by rewrite Z.land_ones. Qed.
Lemma shiftr_2 x : Z.shiftr x 2 = x / 4.
Proof. by rewrite Z.shiftr_div_pow2. Qed.
Lemma shiftr_32 x : Z.shiftr x 32 = x / 4294967296.
Proof. by rewrite Z.shiftr_div_pow2. Qed.
Lemma u64_id x : 0 <= x < 18446744073709551616 -> u64 x = x.
Proof. apply Z.mod_small. Qed.

Lemma u64_small x k : 0 <= x < k -> (k <=? 18446744073709551616) = true -> u64 x = x.
Proof. intros Hx Hk%Z.leb_le. apply u64_id. lia. Qed.

(** The products: a sum of two words times a clamped limb or five quarters of it. *)
Definition K4 : Z := (2 ^ 33 - 1) * (2 ^ 28 - 1).
Definition K5 : Z := (2 ^ 33 - 1) * (5 * (2 ^ 26 - 1)).
Definition KS : Z := 5 * (5 * (2 ^ 26 - 1)).
Lemma mul_bound s q m k : 0 <= s <= m -> 0 <= q <= k -> 0 <= s * q <= m * k.
Proof. intros. split; [lia|]. apply Z.mul_le_mono_nonneg; lia. Qed.
Lemma limb_prod s q : 0 <= s < 2 ^ 33 -> 0 <= q < 2 ^ 28 -> 0 <= s * q <= K4.
Proof. intros. apply mul_bound; lia. Qed.
Lemma quarter_prod s q : 0 <= s < 2 ^ 33 -> 0 <= q < 2 ^ 26 -> 0 <= s * (5 * q) <= K5.
Proof. intros. apply mul_bound; lia. Qed.
Lemma small_prod s q : 0 <= s <= 5 -> 0 <= q < 2 ^ 26 -> 0 <= s * (5 * q) <= KS.
Proof. intros. apply mul_bound; lia. Qed.
Lemma limb_prod5 s q : 0 <= s < 2 ^ 33 -> 0 <= q < 2 ^ 28 -> 0 <= s * q <= K5.
Proof. intros Hs Hq. destruct (limb_prod s q Hs Hq). split; [done|]. etrans; [done|]. vm_compute. discriminate. Qed.
Lemma sum_bound a b c d e : 0 <= a <= K5 -> 0 <= b <= K5 -> 0 <= c <= K5 -> 0 <= d <= K5 -> 0 <= e <= KS -> 0 <= a + b + c + d + e < 5 * 2 ^ 61.
Proof. unfold K5, KS. lia. Qed.
Lemma sum_bound4 a b c d e : 0 <= a <= K4 -> 0 <= b <= K4 -> 0 <= c <= K4 -> 0 <= d <= K4 -> 0 <= e <= KS -> 0 <= a + b + c + d + e < 2 ^ 63.
Proof. unfold K4, KS. lia. Qed.

(** The carries: from the products without carry propagation to the new limbs. *)
Lemma carry_value x0 x1 x2 x3 x4 :
  0 <= x0 < 5 * 2 ^ 61 -> 0 <= x1 < 5 * 2 ^ 61 -> 0 <= x2 < 5 * 2 ^ 61 -> 0 <= x3 < 2 ^ 63 -> 0 <= x4 <= 15 ->
  let u5 := u32 (u64 (x4 + Z.shiftr x3 32)) in
  let u0 := u64 (u32 (Z.shiftr u5 2 * 5) + Z.land x0 0xffffffff) in
  let u1 := u64 (Z.shiftr u0 32 + Z.land x1 0xffffffff + Z.shiftr x0 32) in
  let u2 := u64 (Z.shiftr u1 32 + Z.land x2 0xffffffff + Z.shiftr x1 32) in
  let u3 := u64 (Z.shiftr u2 32 + Z.land x3 0xffffffff + Z.shiftr x2 32) in
  let u4 := u32 (u64 (Z.shiftr u3 32 + Z.land u5 3)) in
  let h := Acc (Z.land u0 0xffffffff) (Z.land u1 0xffffffff) (Z.land u2 0xffffffff) (Z.land u3 0xffffffff) u4 in
  acc_ok h /\ exists k, x0 + 2 ^ 32 * x1 + 2 ^ 64 * x2 + 2 ^ 96 * x3 + 2 ^ 128 * x4 = acc_value h + P1305 * k.
Proof.
  intros B0 B1 B2 B3 B4 u5 u0 u1 u2 u3 u4 h.
  assert (u5 = x4 + x3 / 4294967296) as E5.
  { unfold u5. rewrite shiftr_32. rewrite u64_id, u32_id; [done| |]; unfold is_u32; Z.div_mod_to_equations; lia. }
  assert (0 <= u5 < 2 ^ 31 + 16) as B5 by (rewrite E5; Z.div_mod_to_equations; lia). clearbody u5.
  assert (u0 = 5 * (u5 / 4) + x0 mod 4294967296) as E0.
  { unfold u0. rewrite shiftr_2, land_mod32. rewrite (u32_id (_ * _)), u64_id; [lia| |]; unfold is_u32; Z.div_mod_to_equations; lia. }
  assert (0 <= u0 < 3 * 2 ^ 32) as C0 by (rewrite E0; Z.div_mod_to_equations; lia). clearbody u0.
  assert (u1 = u0 / 4294967296 + x1 mod 4294967296 + x0 / 4294967296) as E1.
  { unfold u1. rewrite !shiftr_32, land_mod32. apply u64_id. Z.div_mod_to_equations; lia. }
  assert (0 <= u1 < 2 ^ 33) as C1 by (rewrite E1; Z.div_mod_to_equations; lia). clearbody u1.
  assert (u2 = u1 / 4294967296 + x2 mod 4294967296 + x1 / 4294967296) as E2.
  { unfold u2. rewrite !shiftr_32, land_mod32. apply u64_id. Z.div_mod_to_equations; lia. }
  assert (0 <= u2 < 2 ^ 33) as C2 by (rewrite E2; Z.div_mod_to_equations; lia). clearbody u2.
  assert (u3 = u2 / 4294967296 + x3 mod 4294967296 + x2 / 4294967296) as E3.
  { unfold u3. rewrite !shiftr_32, land_mod32. apply u64_id. Z.div_mod_to_equations; lia. }
  assert (0 <= u3 < 2 ^ 33) as C3 by (rewrite E3; Z.div_mod_to_equations; lia). clearbody u3.
  assert (u4 = u3 / 4294967296 + u5 mod 4) as E4.
  { unfold u4. rewrite shiftr_32, land_mod4. rewrite u64_id, u32_id; [done| |]; unfold is_u32; Z.div_mod_to_equations; lia. }
  assert (0 <= u4 <= 4) as C4 by (rewrite E4; Z.div_mod_to_equations; lia). clearbody u4.
  split.
  - unfold h. constructor; cbn [h0 h1 h2 h3 h4]; try done; rewrite land_mod32; apply u32_range.
  - exists (u5 / 4). unfold acc_value, h, P1305. cbn [h0 h1 h2 h3 h4]. rewrite !land_mod32.
    change (2 ^ 130) with (4 * 2 ^ 128). change (2 ^ 128) with (4294967296 * 4294967296 * 4294967296 * 4294967296).
    change (2 ^ 96) with (4294967296 * 4294967296 * 4294967296). change (2 ^ 64) with (4294967296 * 4294967296). change (2 ^ 32) with 4294967296.
    Z.div_mod_to_equations. lia.
Qed.


(** A clamped limb is [4 * q], the first [4 * q0 + b0]. *)
Section block.
Context (r : rkey) (q0 b0 q1 q2 q3 : Z).
Context (E0 : r0 r = 4 * q0 + b0) (E1 : r1 r = 4 * q1) (E2 : r2 r = 4 * q2) (E3 : r3 r = 4 * q3).
Context (Q0 : 0 <= q0 < 2 ^ 26) (Q1 : 0 <= q1 < 2 ^ 26) (Q2 : 0 <= q2 < 2 ^ 26) (Q3 : 0 <= q3 < 2 ^ 26) (B0 : 0 <= b0 < 4).
Context (s0 s1 s2 s3 s4 : Z) (S0 : 0 <= s0 < 2 ^ 33) (S1 : 0 <= s1 < 2 ^ 33) (S2 : 0 <= s2 < 2 ^ 33) (S3 : 0 <= s3 < 2 ^ 33) (S4 : 0 <= s4 <= 5).

Let x0 := s0 * r0 r + s1 * (5 * q3) + s2 * (5 * q2) + s3 * (5 * q1) + s4 * (5 * q0).
Let x1 := s0 * r1 r + s1 * r0 r + s2 * (5 * q3) + s3 * (5 * q2) + s4 * (5 * q1).
Let x2 := s0 * r2 r + s1 * r1 r + s2 * r0 r + s3 * (5 * q3) + s4 * (5 * q2).
Let x3 := s0 * r3 r + s1 * r2 r + s2 * r1 r + s3 * r0 r + s4 * (5 * q3).
Let x4 := s4 * b0.

Lemma products_bounds :
  (0 <= x0 < 5 * 2 ^ 61 /\ 0 <= x1 < 5 * 2 ^ 61) /\ ((0 <= x2 < 5 * 2 ^ 61 /\ 0 <= x3 < 2 ^ 63) /\ 0 <= x4 <= 15).
Proof.
  assert (0 <= r0 r < 2 ^ 28 /\ 0 <= r1 r < 2 ^ 28 /\ 0 <= r2 r < 2 ^ 28 /\ 0 <= r3 r < 2 ^ 28) as (R0 & R1 & R2 & R3) by lia.
  split; [split; apply sum_bound|split; [split; [apply sum_bound|apply sum_bound4]|]];
    try first [by apply limb_prod|by apply limb_prod5|by apply quarter_prod|by apply small_prod].
  apply (mul_bound s4 b0 5 3); lia.
Qed.

(** The wrap of 2^130 to 5. *)
Lemma products_value :
  (s0 + 2 ^ 32 * s1 + 2 ^ 64 * s2 + 2 ^ 96 * s3 + 2 ^ 128 * s4) * rkey_value r =
  x0 + 2 ^ 32 * x1 + 2 ^ 64 * x2 + 2 ^ 96 * x3 + 2 ^ 128 * x4 +
  P1305 * (s1 * q3 + s2 * q2 + s3 * q1 + s4 * q0 + 2 ^ 32 * (s2 * q3 + s3 * q2 + s4 * q1) + 2 ^ 64 * (s3 * q3 + s4 * q2) + 2 ^ 96 * (s4 * q3)).
Proof. unfold rkey_value, x0, x1, x2, x3, x4, P1305. rewrite E0, E1, E2, E3. ring. Qed.
End block.

Lemma poly_block_value r m0 m1 m2 m3 e h :
  rkey_ok r -> acc_ok h -> is_u32 m0 -> is_u32 m1 -> is_u32 m2 -> is_u32 m3 -> 0 <= e <= 1 ->
  acc_ok (poly_block r m0 m1 m2 m3 e h) /\
  exists k, (acc_value h + (m0 + 2 ^ 32 * m1 + 2 ^ 64 * m2 + 2 ^ 96 * m3 + 2 ^ 128 * e)) * rkey_value r
            = acc_value (poly_block r m0 m1 m2 m3 e h) + P1305 * k.
Proof.
  intros [R0 [R1 M1'] [R2 M2'] [R3 M3']] [A0 A1 A2 A3 A4] M0 M1 M2 M3 He. unfold is_u32 in *.
  assert (exists q1 q2 q3, r1 r = 4 * q1 /\ r2 r = 4 * q2 /\ r3 r = 4 * q3) as (q1 & q2 & q3 & E1 & E2 & E3).
  { exists (r1 r / 4), (r2 r / 4), (r3 r / 4). split_and!; Z.div_mod_to_equations; lia. }
  assert (exists q0 b0, r0 r = 4 * q0 + b0 /\ 0 <= b0 < 4 /\ r0 r / 4 = q0 /\ r0 r mod 4 = b0) as (q0 & b0 & E0 & B0 & D0 & D0').
  { exists (r0 r / 4), (r0 r mod 4). split_and!; try done; Z.div_mod_to_equations; lia. }
  assert (forall q x, x = 4 * q -> 0 <= x < 2 ^ 28 -> u32 (Z.shiftr x 2 + x) = 5 * q) as F.
  { intros q x -> Hx. rewrite shiftr_2. rewrite (Z.mul_comm 4), Z.div_mul by lia. rewrite u32_id; [lia|unfold is_u32; lia]. }
  assert (0 <= q0 < 2 ^ 26 /\ 0 <= q1 < 2 ^ 26 /\ 0 <= q2 < 2 ^ 26 /\ 0 <= q3 < 2 ^ 26) as (Q0 & Q1 & Q2 & Q3) by lia.
  assert (u32 (Z.shiftr (r0 r) 2 * 5) = 5 * q0) as F0 by (rewrite shiftr_2, D0, u32_id; [lia|unfold is_u32; lia]).
  unfold poly_block. rewrite (F q1 _ E1 R1), (F q2 _ E2 R2), (F q3 _ E3 R3), F0, land_mod4, D0'. clear F F0 D0 D0'.
  rewrite (u64_id (h0 h + m0)), (u64_id (h1 h + m1)), (u64_id (h2 h + m2)), (u64_id (h3 h + m3)), (u32_id (h4 h + e)) by (unfold is_u32; lia).
  assert (acc_value h + (m0 + 2 ^ 32 * m1 + 2 ^ 64 * m2 + 2 ^ 96 * m3 + 2 ^ 128 * e)
    = (h0 h + m0) + 2 ^ 32 * (h1 h + m1) + 2 ^ 64 * (h2 h + m2) + 2 ^ 96 * (h3 h + m3) + 2 ^ 128 * (h4 h + e)) as -> by (unfold acc_value; ring).
  assert (0 <= h0 h + m0 < 2 ^ 33) as S0 by lia. set (s0 := h0 h + m0) in *. clearbody s0.
  assert (0 <= h1 h + m1 < 2 ^ 33) as S1 by lia. set (s1 := h1 h + m1) in *. clearbody s1.
  assert (0 <= h2 h + m2 < 2 ^ 33) as S2 by lia. set (s2 := h2 h + m2) in *. clearbody s2.
  assert (0 <= h3 h + m3 < 2 ^ 33) as S3 by lia. set (s3 := h3 h + m3) in *. clearbody s3.
  assert (0 <= h4 h + e <= 5) as S4 by lia. set (s4 := h4 h + e) in *. clearbody s4.
  clear A0 A1 A2 A3 A4 M0 M1 M2 M3 He M1' M2' M3'.
  assert (forall q, 0 <= q < 2 ^ 26 -> u32 (s4 * (5 * q)) = s4 * (5 * q)) as Fs.
  { intros q Hq. apply u32_id. destruct (small_prod s4 q S4 Hq) as [L1 L2]. unfold KS in L2. unfold is_u32. lia. }
  rewrite !Fs by done. clear Fs.
  destruct (products_bounds r q0 b0 q1 q2 q3 E0 E1 E2 E3 Q0 Q1 Q2 Q3 B0 s0 s1 s2 s3 s4 S0 S1 S2 S3 S4) as ((X0 & X1) & (X2 & X3) & X4).
  pose proof (products_value r q0 b0 q1 q2 q3 E0 E1 E2 E3 s0 s1 s2 s3 s4) as V. rewrite V. clear V.
  set (kv := _ + 2 ^ 96 * (s4 * q3)). clearbody kv.
  rewrite (u64_small _ _ X0 eq_refl).
  rewrite (u64_small _ _ X1 eq_refl).
  rewrite (u64_small _ _ X2 eq_refl).
  rewrite (u64_small _ _ X3 eq_refl).
  rewrite (u32_id (s4 * b0)) by (unfold is_u32; clear -X4; lia).
  destruct (carry_value _ _ _ _ _ X0 X1 X2 X3 X4) as [Ok [k Ek]]. split; [exact Ok|].
  exists (k + kv). rewrite Ek. ring.
Qed.

(** ** The key *)

Lemma land_split a b c d : is_u32 a -> is_u32 c -> Z.land (a + 2 ^ 32 * b) (c + 2 ^ 32 * d) = Z.land a c + 2 ^ 32 * Z.land b d.
Proof.
  intros Ha Hc. unfold is_u32 in *. rewrite (Z.div_mod (Z.land _ _) (2 ^ 32)) at 1 by lia.
  assert (forall x y, Z.land x y mod 2 ^ 32 = Z.land (x mod 2 ^ 32) (y mod 2 ^ 32)) as Hm.
  { intros x y. rewrite <- !Z.land_ones by lia. apply Z.bits_inj'. intros i Hi. rewrite !Z.land_spec.
    by destruct (Z.testbit x i), (Z.testbit y i), (Z.testbit (Z.ones 32) i). }
  assert (forall x y, 0 <= x < 4294967296 -> (x + 2 ^ 32 * y) / 2 ^ 32 = y /\ (x + 2 ^ 32 * y) mod 2 ^ 32 = x) as Hd
    by (intros; change (2 ^ 32) with 4294967296; split; Z.div_mod_to_equations; lia).
  rewrite Hm, <- Z.shiftr_div_pow2, Z.shiftr_land, !Z.shiftr_div_pow2 by lia.
  destruct (Hd a b Ha) as [-> ->], (Hd c d Hc) as [-> ->]. lia.
Qed.
Lemma land_low k : Z.land k 0x0fffffff = k mod 2 ^ 28.
Proof. change 0x0fffffff with (Z.ones 28). by rewrite Z.land_ones. Qed.
Lemma land_high k : 0 <= k -> 0 <= Z.land k 0x0ffffffc < 2 ^ 28 /\ Z.land k 0x0ffffffc mod 4 = 0.
Proof.
  intros Hk. change 0x0ffffffc with (Z.shiftl (Z.ones 26) 2).
  assert (Z.land k (Z.shiftl (Z.ones 26) 2) = Z.shiftl (Z.land (Z.shiftr k 2) (Z.ones 26)) 2) as ->.
  { apply Z.bits_inj'. intros i Hi. rewrite Z.land_spec. destruct (decide (2 <= i)).
    - rewrite !Z.shiftl_spec, Z.land_spec, Z.shiftr_spec by lia. by replace (i - 2 + 2) with i by lia.
    - rewrite !Z.shiftl_spec_low by lia. apply andb_false_r. }
  rewrite Z.land_ones, Z.shiftl_mul_pow2 by lia. pose proof (Z.mod_pos_bound (Z.shiftr k 2) (2 ^ 26) ltac:(lia)).
  split; [lia|]. change (2 ^ 2) with 4. apply Z.mod_mul. lia.
Qed.

Lemma load_block inp : all_bytes inp -> 16 <= len inp -> exists m0 m1 m2 m3,
  (load32_le inp 0 = Some m0 /\ load32_le inp 4 = Some m1 /\ load32_le inp 8 = Some m2 /\ load32_le inp 12 = Some m3) /\
  (is_u32 m0 /\ is_u32 m1 /\ is_u32 m2 /\ is_u32 m3) /\ le_value (take 16 inp) = m0 + 2 ^ 32 * m1 + 2 ^ 64 * m2 + 2 ^ 96 * m3.
Proof.
  intros Hb Hl. rewrite !load32_le_spec by (done || lia).
  assert (forall k, (k <= 12)%nat -> is_u32 (le_value (take 4 (drop k inp)))) as Hu.
  { intros k Hk. assert (all_bytes (take 4 (drop k inp))) as Hb4 by (by apply Forall_take, Forall_drop).
    pose proof (le_value_range _ Hb4) as R. replace (len (take 4 (drop k inp))) with 4 in R by (rewrite length_take, length_drop; lia). exact R. }
  eexists _, _, _, _. split; [split_and!; reflexivity|]. split; [split_and!; apply Hu; lia|].
  assert (take 16 inp = take 4 (drop 0 inp) ++ take 4 (drop 4 inp) ++ take 4 (drop 8 inp) ++ take 4 (drop 12 inp)) as ->.
  { rewrite drop_0. change 16%nat with (4 + (4 + (4 + 4)))%nat. rewrite <- !take_take_drop, !drop_drop. done. }
  change (Z.to_nat 0) with 0%nat. change (Z.to_nat 4) with 4%nat. change (Z.to_nat 8) with 8%nat. change (Z.to_nat 12) with 12%nat.
  rewrite !le_value_app.
  assert (forall k, (k <= 12)%nat -> len (take 4 (drop k inp)) = 4) as L4 by (intros; rewrite length_take, length_drop; lia).
  rewrite !L4 by lia. change (256 ^ 4) with (2 ^ 32). ring.
Qed.

Lemma init_key key c : all_bytes key -> length key = 32%nat ->
  exists k, crypto_poly1305_init c key = Some (Poly c 0 k (words (take 16 (drop 16 key))) (Acc 0 0 0 0 0)) /\ rkey_ok k /\
    rkey_value k = clamp (le_value (take 16 key)).
Proof.
  intros Bk Lk. destruct (load_block key Bk ltac:(lia)) as (m0 & m1 & m2 & m3 & (L0 & L1 & L2 & L3) & (U0 & U1 & U2 & U3) & E).
  unfold crypto_poly1305_init. rewrite L0, L1, L2, L3. cbn [mbind option_bind]. rewrite load_words by (done || lia). cbn [mbind option_bind].
  eexists. split; [reflexivity|]. split.
  - assert (forall k, is_u32 k -> 0 <= k) as Hp by (unfold is_u32; lia). destruct (land_high m1 (Hp _ U1)), (land_high m2 (Hp _ U2)), (land_high m3 (Hp _ U3)).
    constructor; cbn [r0 r1 r2 r3]; try done. rewrite land_low. apply Z.mod_pos_bound. lia.
  - unfold rkey_value, clamp. cbn [r0 r1 r2 r3]. rewrite E.
    assert (forall x, is_u32 x -> is_u32 x) as _ by done.
    replace (m0 + 2 ^ 32 * m1 + 2 ^ 64 * m2 + 2 ^ 96 * m3) with (m0 + 2 ^ 32 * (m1 + 2 ^ 32 * (m2 + 2 ^ 32 * m3))) by ring.
    change 0x0ffffffc0ffffffc0ffffffc0fffffff with (0x0fffffff + 2 ^ 32 * (0x0ffffffc + 2 ^ 32 * (0x0ffffffc + 2 ^ 32 * 0x0ffffffc))).
    rewrite !land_split by (done || unfold is_u32; lia). ring.
Qed.

(** ** The chains of the last step *)

Lemma carry_chain_value hs : forall c, 0 <= c < 2 ^ 32 -> Forall is_u32 hs -> carry_chain c hs = (c + words_value hs) / 2 ^ (32 * len hs).
Proof.
  induction hs as [|h hs IH]; intros c Hc H; cbn [carry_chain words_value length]; [change (2 ^ (32 * Z.of_nat 0)) with 1; by rewrite Z.div_1_r, Z.add_0_r|].
  apply Forall_cons in H as [Hh H]. unfold is_u32 in Hh. rewrite u64_id by lia. rewrite shiftr_32.
  rewrite IH by (first [done | Z.div_mod_to_equations; lia]). rewrite Nat2Z.inj_succ. replace (32 * Z.succ (len hs)) with (32 + 32 * len hs) by lia.
  rewrite Z.pow_add_r, <- Z.div_div by lia. f_equal. change 4294967296 with (2 ^ 32).
  replace (c + (h + 2 ^ 32 * words_value hs)) with (c + h + words_value hs * 2 ^ 32) by ring. by rewrite Z.div_add by lia.
Qed.
Lemma mac_chain_value hs : forall c pad, 0 <= c < 2 ^ 33 -> Forall is_u32 hs -> Forall is_u32 pad -> length pad = length hs ->
  mac_chain c hs pad = le_bytes (4 * length hs) (c + words_value hs + words_value pad).
Proof.
  induction hs as [|h hs IH]; intros c [|p pad] Hc H Hp L; try done. cbn [mac_chain words_value length].
  apply Forall_cons in H as [Hh H]. apply Forall_cons in Hp as [Hp Hps]. unfold is_u32 in Hh, Hp.
  rewrite (u64_id (h + p)), u64_id by lia. rewrite shiftr_32, store32_u32, store32_le_bytes.
  replace (4 * S (length hs))%nat with (4 + 4 * length hs)%nat by lia. rewrite le_bytes_app. change (256 ^ Z.of_nat 4) with 4294967296.
  rewrite IH; [|Z.div_mod_to_equations; lia|done|done|by injection L]. f_equal.
  - rewrite <- (le_bytes_mod 4 (c + (h + p)) 4), <- (le_bytes_mod 4 (c + _ + _) 4) by lia. change (256 ^ 4) with 4294967296. f_equal.
    replace (c + (h + 2 ^ 32 * words_value hs) + (p + 2 ^ 32 * words_value pad)) with (c + (h + p) + (words_value hs + words_value pad) * 4294967296)
      by (change (2 ^ 32) with 4294967296; ring). by rewrite Z.mod_add by lia.
  - f_equal. change (2 ^ 32) with 4294967296.
    replace (c + (h + 4294967296 * words_value hs) + (p + 4294967296 * words_value pad)) with (c + (h + p) + (words_value hs + words_value pad) * 4294967296) by ring.
    rewrite Z.div_add by lia. ring.
Qed.

(** ** The message *)

(** One block of the specification, and [n] of them. *)
Definition poly_step (r a : Z) (b : list Z) : Z := (a + le_value (b ++ [1])) * r mod P1305.
Fixpoint eval_blocks (n : nat) (r a : Z) (m : list Z) : Z :=
  match n with O => a | S n => eval_blocks n r (poly_step r a (take 16 m)) (drop 16 m) end.

Lemma poly_eval_blocks fuel : forall r a m n, (length m <= fuel)%nat -> n = ((length m + 15) / 16)%nat -> poly_eval fuel r a m = eval_blocks n r a m.
Proof.
  induction fuel as [|fuel IH]; intros r a m n Hf Hn.
  - destruct m; [|cbn in Hf; lia]. by subst.
  - destruct m as [|b m]; [by subst|]. assert (n = S ((length (drop 16 (b :: m)) + 15) / 16)) as ->.
    { rewrite Hn, length_drop. destruct (decide (length (b :: m) <= 16)%nat) as [Hs|Hs].
      - replace (length (b :: m) - 16)%nat with 0%nat by lia. change ((0 + 15) / 16)%nat with 0%nat. cbn [length] in *.
        symmetry. apply (Nat.div_unique _ 16 1 (S (length m) + 15 - 16)); lia.
      - replace (length (b :: m) + 15)%nat with (1 * 16 + (length (b :: m) - 16 + 15))%nat by lia. by rewrite Nat.div_add_l by lia. }
    cbn [eval_blocks]. rewrite <- (IH r _ (drop 16 (b :: m)) _) by (reflexivity || (rewrite length_drop; cbn [length] in *; lia)). reflexivity.
Qed.
Lemma eval_blocks_snoc n : forall r a m, eval_blocks (S n) r a m = poly_step r (eval_blocks n r a m) (take 16 (drop (16 * n) m)).
Proof.
  induction n as [|n IH]; intros r a m; [cbn; by rewrite drop_0|].
  assert (eval_blocks (S (S n)) r a m = eval_blocks (S n) r (poly_step r a (take 16 m)) (drop 16 m)) as -> by reflexivity.
  rewrite IH, drop_drop. cbn [eval_blocks]. do 3 f_equal. lia.
Qed.

Lemma poly_step_mod r a b k h : (a + le_value (b ++ [1])) * r = h + P1305 * k -> poly_step r (a mod P1305) b = h mod P1305.
Proof.
  intros E. unfold poly_step. rewrite <- Z.mul_mod_idemp_l by (vm_compute; discriminate). rewrite Zplus_mod_idemp_l.
  rewrite Z.mul_mod_idemp_l by (vm_compute; discriminate). rewrite E, Z.mul_comm, Z.mod_add by (vm_compute; discriminate). done.
Qed.

Lemma poly_blocks_value n : forall r inp h,
  rkey_ok r -> acc_ok h -> all_bytes inp -> 16 * Z.of_nat n <= len inp ->
  exists h', poly_blocks n r inp 1 h = Some h' /\ acc_ok h' /\
    acc_value h' mod P1305 = eval_blocks n (rkey_value r) (acc_value h mod P1305) inp.
Proof.
  induction n as [|n IH]; intros r inp h Hr Hh Hb Hl; cbn [poly_blocks eval_blocks]; [by exists h|].
  destruct (load_block inp Hb ltac:(lia)) as (m0 & m1 & m2 & m3 & (L0 & L1 & L2 & L3) & (U0 & U1 & U2 & U3) & E).
  rewrite L0, L1, L2, L3. cbn [mbind option_bind].
  destruct (poly_block_value r m0 m1 m2 m3 1 h Hr Hh U0 U1 U2 U3 ltac:(lia)) as [Hh1 [k Ek]].
  destruct (IH r (drop 16 inp) _ Hr Hh1) as (h' & -> & Hh' & Eh'); [by apply Forall_drop|rewrite length_drop; lia|].
  exists h'. split; [done|]. split; [done|]. rewrite Eh'. f_equal. symmetry. apply (poly_step_mod _ _ _ k).
  rewrite <- Ek. f_equal. f_equal. rewrite le_value_app, E. replace (len (take 16 inp)) with 16 by (rewrite length_take; lia).
  cbn [le_value]. change (256 ^ 16) with (2 ^ 128). ring.
Qed.

Lemma poly_last_value r (c rest : list Z) h :
  rkey_ok r -> acc_ok h -> all_bytes rest -> 0 < len rest < 16 -> c = rest ++ [1] ++ replicate (15 - length rest) 0 ->
  exists h', poly_blocks 1 r c 0 h = Some h' /\ acc_ok h' /\ acc_value h' mod P1305 = poly_step (rkey_value r) (acc_value h mod P1305) rest.
Proof.
  intros Hr Hh Hb Hl Ec.
  assert (all_bytes c /\ len c = 16) as [Bc Lc].
  { subst c. rewrite !length_app, length_replicate. split; [|cbn [length]; lia]. apply Forall_app. split; [done|].
    apply Forall_app. split; [|apply Forall_replicate; unfold is_byte; lia]. apply Forall_cons. split; [unfold is_byte; lia|done]. }
  cbn [poly_blocks]. destruct (load_block c Bc ltac:(lia)) as (m0 & m1 & m2 & m3 & (L0 & L1 & L2 & L3) & (U0 & U1 & U2 & U3) & E).
  rewrite L0, L1, L2, L3. cbn [mbind option_bind].
  destruct (poly_block_value r m0 m1 m2 m3 0 h Hr Hh U0 U1 U2 U3 ltac:(lia)) as [Hh1 [k Ek]].
  eexists. split; [done|]. split; [done|]. symmetry. apply (poly_step_mod _ _ _ k). rewrite <- Ek. f_equal. f_equal.
  rewrite take_ge in E by lia. transitivity (le_value c).
  - subst c. rewrite !le_value_app. assert (forall j, le_value (replicate j 0) = 0) as -> by (induction j as [|j IH]; cbn; lia). cbn [le_value]. ring.
  - rewrite E. ring.
Qed.

(** ** The whole computation *)

Lemma store_bytes_spec n : forall ctx m,
  c_idx ctx + Z.of_nat n <= len (pc_c ctx) -> 0 <= c_idx ctx -> (n <= length m)%nat ->
  store_bytes n ctx m =
  Some (Poly (take (Z.to_nat (c_idx ctx)) (pc_c ctx) ++ take n m ++ drop (Z.to_nat (c_idx ctx) + n) (pc_c ctx)) (c_idx ctx + Z.of_nat n)
          (pc_r ctx) (pc_pad ctx) (pc_h ctx), drop n m).
Proof.
  induction n as [|n IH]; intros ctx m Hl Hi Hm; cbn [store_bytes].
  - rewrite take_0, drop_0, Nat.add_0_r, Z.add_0_r. cbn [app]. rewrite take_drop. by destruct ctx.
  - destruct m as [|b m]; [cbn in Hm; lia|]. cbn [length] in Hm. assert (rd (b :: m) 0 = Some b) as -> by done. cbn [mbind option_bind].
    rewrite decide_True by lia. change (drop 1 (b :: m)) with m.
    rewrite IH; cbn [pc_c c_idx pc_r pc_pad pc_h]; [|rewrite length_insert; lia|lia|lia].
    do 2 f_equal. f_equal; [|lia].
    replace (Z.to_nat (c_idx ctx + 1)) with (S (Z.to_nat (c_idx ctx))) by lia.
    rewrite (take_S_r _ _ b) by (apply list_lookup_insert_eq; lia). rewrite take_insert_ge by lia. rewrite drop_insert_lt by lia.
    cbn [take]. rewrite <- app_assoc. cbn [app]. do 4 f_equal. lia.
Qed.

Lemma final_mac h pad : acc_ok h -> Forall is_u32 pad -> length pad = 4%nat ->
  mac_chain (u64 (Z.shiftr (u64 (carry_chain 5 [h0 h; h1 h; h2 h; h3 h] + h4 h)) 2 * 5)) [h0 h; h1 h; h2 h; h3 h] pad
  = le_bytes 16 (acc_value h mod P1305 + words_value pad).
Proof.
  intros [A0 A1 A2 A3 A4] Hp Lp.
  assert (Forall is_u32 [h0 h; h1 h; h2 h; h3 h]) as Hh by (repeat (apply Forall_cons; split; [done|]); done).
  rewrite carry_chain_value by (done || lia). change (32 * len [h0 h; h1 h; h2 h; h3 h]) with 128.
  pose proof (words_value_range _ Hh) as Hv. change (32 * len [h0 h; h1 h; h2 h; h3 h]) with 128 in Hv.
  assert (acc_value h = words_value [h0 h; h1 h; h2 h; h3 h] + 2 ^ 128 * h4 h) as Ev by (unfold acc_value; cbn [words_value]; ring).
  set (v := words_value [h0 h; h1 h; h2 h; h3 h]) in *.
  assert ((5 + v) / 2 ^ 128 + h4 h = (5 + acc_value h) / 2 ^ 128) as Ec.
  { rewrite Ev. replace (5 + (v + 2 ^ 128 * h4 h)) with (5 + v + h4 h * 2 ^ 128) by ring. by rewrite Z.div_add. }
  rewrite Ec. set (w := acc_value h) in *. assert (0 <= w < 5 * 2 ^ 128) as Hw by lia.
  assert (0 <= (5 + w) / 2 ^ 128 < 6) as H5 by (split; [apply Z.div_pos; lia|apply Z.div_lt_upper_bound; lia]).
  rewrite (u64_id ((5 + w) / 2 ^ 128)) by lia. rewrite shiftr_2, Z.div_div by lia. change (2 ^ 128 * 4) with (2 ^ 130).
  set (q := (5 + w) / 2 ^ 130).
  assert (w mod P1305 = w - P1305 * q /\ 0 <= q < 2) as [Ew Hq].
  { pose proof (Z.div_mod (5 + w) (2 ^ 130) ltac:(lia)) as Hd. pose proof (Z.mod_pos_bound (5 + w) (2 ^ 130) ltac:(lia)) as Hm. fold q in Hd.
    assert (0 <= q < 2) as Hq by (unfold q; split; [apply Z.div_pos; lia|apply Z.div_lt_upper_bound; lia]).
    split; [|done]. symmetry. apply (Z.mod_unique _ _ q); unfold P1305; [left|]; lia. }
  rewrite u64_id by lia. rewrite mac_chain_value by (done || lia). fold v. change (4 * length [h0 h; h1 h; h2 h; h3 h])%nat with 16%nat.
  rewrite <- (le_bytes_mod 16 (q * 5 + v + _) 16), <- (le_bytes_mod 16 (w mod P1305 + _) 16) by lia. f_equal.
  change (256 ^ 16) with (2 ^ 128). rewrite Ew.
  replace (w - P1305 * q + words_value pad) with (q * 5 + v + words_value pad + (h4 h - 4 * q) * 2 ^ 128) by (rewrite Ev; unfold P1305; ring).
  by rewrite Z.mod_add.
Qed.

Lemma eval_blocks_take n : forall r a m k, (16 * n <= k)%nat -> eval_blocks n r a (take k m) = eval_blocks n r a m.
Proof.
  induction n as [|n IH]; intros r a m k Hk; [done|]. cbn [eval_blocks]. rewrite take_take, Nat.min_l by lia.
  rewrite skipn_firstn_comm. apply IH. lia.
Qed.

(** What [crypto_poly1305_update] leaves of a message of [16 * q + r] bytes. *)
Lemma update_spec c k pad m q r :
  len c = 16 -> rkey_ok k -> all_bytes m -> 0 <= q -> 0 <= r < 16 -> 16 * q + r <= len m ->
  exists h rest c', crypto_poly1305_update (Poly c 0 k pad (Acc 0 0 0 0 0)) m (16 * q + r) = Some (Poly (rest ++ c') r k pad h) /\
    acc_ok h /\ acc_value h mod P1305 = eval_blocks (Z.to_nat q) (rkey_value k) 0 m /\
    rest = take (Z.to_nat r) (drop (Z.to_nat (16 * q)) m) /\ len rest = r /\ len (rest ++ c') = 16.
Proof.
  intros Lc Hk Bm Hq Hr Hl. assert (acc_ok (Acc 0 0 0 0 0)) as H0 by (constructor; cbn; unfold is_u32; lia).
  unfold crypto_poly1305_update. destruct (decide (16 * q + r = 0)) as [E|Hn0].
  { assert (q = 0 /\ r = 0) as [-> ->] by lia. exists (Acc 0 0 0 0 0), [], c. done. }
  change (gap (c_idx (Poly c 0 k pad (Acc 0 0 0 0 0))) 16) with 0. rewrite Z.min_l by lia.
  change (Z.to_nat 0) with 0%nat. cbn [store_bytes mbind option_bind c_idx pc_r pc_c pc_h].
  rewrite decide_False by lia. cbn [mbind option_bind c_idx pc_r pc_c pc_h]. rewrite Z.sub_0_r.
  assert (Z.land (16 * q + r) 15 = r) as ->.
  { change 15 with (Z.ones 4). rewrite Z.land_ones by lia. change (2 ^ 4) with 16. symmetry. apply (Z.mod_unique _ _ q); lia. }
  assert (Z.shiftr (16 * q + r) 4 = q) as ->.
  { rewrite Z.shiftr_div_pow2 by lia. change (2 ^ 4) with 16. symmetry. apply (Z.div_unique _ _ _ r); lia. }
  rewrite Z.shiftl_mul_pow2 by lia. change (2 ^ 4) with 16. rewrite (Z.mul_comm q 16).
  destruct (poly_blocks_value (Z.to_nat q) k m (Acc 0 0 0 0 0) Hk H0 Bm ltac:(lia)) as (h & -> & Hh & E). cbn [mbind option_bind].
  change (acc_value (Acc 0 0 0 0 0) mod P1305) with 0 in E. unfold with_h. cbn [pc_c pc_r pc_pad c_idx].
  rewrite store_bytes_spec by (cbn [c_idx pc_c]; rewrite ?length_drop; lia).
  cbn [mbind option_bind c_idx pc_c pc_r pc_pad pc_h]. change (Z.to_nat 0) with 0%nat. rewrite take_0, Nat.add_0_l, Z.add_0_l, Z2Nat.id by lia. cbn [app].
  eexists _, _, _. split; [reflexivity|]. rewrite length_app, !length_take, !length_drop. split_and!; try done; lia.
Qed.

(** The last, partial block. *)
Lemma final_spec rest c' k pad h :
  rkey_ok k -> acc_ok h -> all_bytes rest -> len rest < 16 -> len (rest ++ c') = 16 -> Forall is_u32 pad -> length pad = 4%nat ->
  crypto_poly1305_final (Poly (rest ++ c') (len rest) k pad h) =
  Some (le_bytes 16 ((if decide (rest = []) then acc_value h mod P1305 else poly_step (rkey_value k) (acc_value h mod P1305) rest) + words_value pad)).
Proof.
  intros Hk Hh Hb Hl Lc Bp Lp. unfold crypto_poly1305_final. cbn [c_idx pc_c]. destruct (decide (rest = [])) as [->|Hne].
  { rewrite decide_False by (intros E; by apply E). cbn [mbind option_bind pc_h pc_pad]. by rewrite final_mac. }
  assert (0 < len rest) as Hpos by (destruct rest; [done|cbn [length]; lia]).
  rewrite decide_True by lia. rewrite decide_True by (rewrite length_app in *; lia). rewrite Nat2Z.id, take_app_length.
  assert (<[length rest:=1]> (rest ++ replicate (Z.to_nat (16 - len rest)) 0) = rest ++ [1] ++ replicate (15 - length rest) 0) as Ec.
  { replace (Z.to_nat (16 - len rest)) with (S (15 - length rest)) by lia. cbn [replicate].
    rewrite (insert_app_r_alt _ _ (length rest)) by lia. rewrite Nat.sub_diag. done. }
  cbn [pc_r pc_h].
  destruct (poly_last_value k _ rest h Hk Hh Hb (conj Hpos Hl) Ec) as (h' & -> & Hh' & E). cbn [mbind option_bind with_h pc_h pc_pad].
  unfold with_h. cbn [pc_h pc_pad]. by rewrite final_mac, E.
Qed.

Lemma poly_eval_split k m q r : len m = 16 * q + r -> 0 <= q -> 0 <= r < 16 ->
  poly_eval (length m) k 0 m =
  let rest := drop (Z.to_nat (16 * q)) m in
  let a := eval_blocks (Z.to_nat q) k 0 m in if decide (rest = []) then a else poly_step k a rest.
Proof.
  intros L Hq Hr. cbv zeta. assert (length (drop (Z.to_nat (16 * q)) m) = Z.to_nat r) as Lr by (rewrite length_drop; lia).
  destruct (decide _) as [E|E].
  - apply poly_eval_blocks; [lia|]. rewrite E in Lr. cbn [length] in Lr. apply (Nat.div_unique _ 16 _ 15); lia.
  - assert (0 < r) by (destruct (drop _ m); [done|cbn [length] in Lr; lia]).
    rewrite (poly_eval_blocks (length m) k 0 m (S (Z.to_nat q)) (le_n _)) by (apply (Nat.div_unique _ 16 _ (Z.to_nat (r - 1))); lia).
    rewrite eval_blocks_snoc. replace (16 * Z.to_nat q)%nat with (Z.to_nat (16 * q)) by lia. f_equal. apply take_ge. lia.
Qed.

Lemma poly1305_value c m n key :
  len c = 16 -> all_bytes key -> length key = 32%nat -> all_bytes m -> 0 <= n <= len m ->
  crypto_poly1305 c m n key = Some (poly1305 (take (Z.to_nat n) m) key).
Proof.
  intros Lc Bk Lk Bm Hn. unfold crypto_poly1305. destruct (init_key key c Bk Lk) as (k & -> & Hk & Ek). cbn [mbind option_bind].
  unfold poly1305. rewrite <- Ek. set (pad := words (take 16 (drop 16 key))).
  assert (length (take 16 (drop 16 key)) = 16%nat) as Lp by (rewrite length_take, length_drop; lia).
  assert (Forall is_u32 pad /\ length pad = 4%nat) as [Bp Lpad].
  { split; [apply (words_u32 4); [done|]; by apply Forall_take, Forall_drop|by apply (words_length 4)]. }
  assert (le_value (take 16 (drop 16 key)) = words_value pad) as -> by (symmetry; by apply (words_value_bytes 4)). clearbody pad.
  set (q := n / 16). set (r := n mod 16).
  assert (n = 16 * q + r /\ 0 <= r < 16 /\ 0 <= q) as (En & Hr & Hq)
    by (split_and!; [by apply Z.div_mod|apply Z.mod_pos_bound; lia|apply Z.mod_pos_bound; lia|apply Z.div_pos; lia]).
  clearbody q r. subst n.
  destruct (update_spec c k pad m q r Lc Hk Bm Hq Hr ltac:(lia)) as (h & rest & c' & -> & Hh & E & Er & Lr & Lc'). cbn [mbind option_bind].
  assert (rest = drop (Z.to_nat (16 * q)) (take (Z.to_nat (16 * q + r)) m)) as Er'.
  { rewrite Er, skipn_firstn_comm. do 2 f_equal. lia. }
  rewrite <- Lr at 1. rewrite final_spec; try done; [|rewrite Er; by apply Forall_take, Forall_drop|lia].
  rewrite (poly_eval_split _ _ q r) by (try rewrite length_take; lia). cbv zeta. rewrite <- Er'.
  rewrite eval_blocks_take by lia. by rewrite <- E.
Qed.

(** C25: The authenticator of the packets is Poly1305.  The 32-bit limbs never
    overflow, the lazy carries preserve the value modulo 2^130 - 5, and for every
    message and key the sixteen bytes are those of the specification: the
    polynomial of the message's blocks at the clamped key, plus the pad. *)
Theorem poly1305_correct c m n key :
  len c = 16 -> all_bytes key -> length key = 32%nat -> all_bytes m -> 0 <= n <= len m ->
  crypto_poly1305 c m n key = Some (poly1305 (take (Z.to_nat n) m) key).
Proof. apply poly1305_value. Qed.

(** The vector of RFC 8439, 2.5.2. *)
Definition mac_key : list Z :=
  [0x85;0xd6;0xbe;0x78;0x57;0x55;0x6d;0x33;0x7f;0x44;0x52;0xfe;0x42;0xd5;0x06;0xa8;
   0x01;0x03;0x80;0x8a;0xfb;0x0d;0xb2;0xfd;0x4a;0xbf;0xf6;0xaf;0x41;0x49;0xf5;0x1b].
Definition mac_text : list Z :=
  [0x43;0x72;0x79;0x70;0x74;0x6f;0x67;0x72;0x61;0x70;0x68;0x69;0x63;0x20;0x46;0x6f;0x72;
   0x75;0x6d;0x20;0x52;0x65;0x73;0x65;0x61;0x72;0x63;0x68;0x20;0x47;0x72;0x6f;0x75;0x70].
Lemma poly1305_correct_witness :
  crypto_poly1305 (replicate 16 0) mac_text 34 mac_key = Some (poly1305 mac_text mac_key) /\
  poly1305 mac_text mac_key = [0xa8;0x06;0x1d;0xc1;0x30;0x51;0x36;0xc6;0xc2;0x2b;0x8b;0xaf;0x0c;0x01;0x27;0xa9].
Proof.
  split; [|by vm_compute].
  refine (poly1305_correct (replicate 16 0) mac_text 34 mac_key _ _ _ _ _);
    [reflexivity|apply bytes_dec_iff; reflexivity|reflexivity|apply bytes_dec_iff; reflexivity|vm_compute; split; discriminate].
Defined.
