(* ===== verification/SshWire.v ===== *)
(** * SSH data types on the wire (src/dosshd/ssh.c)

    Strings, name-lists, key blobs and the authorized_keys line.  A C pointer
    into a buffer is the suffix of the buffer it points at; a length is a 16-bit
    [unsigned].  A read outside the buffer is [None] (see Prelude). *)
From Stdlib Require Import ZArith Lia.
From stdpp Require Import base list numbers.
From S2P Require Import Prelude.
Local Open Scope Z_scope.

(** ** Reading and writing *)

(** [rd_u32(p + o)] *)
Definition rd_u32 (p : list Z) (o : Z) : option Z :=
  a ← rd p o; b ← rd p (o + 1); c ← rd p (o + 2); d ← rd p (o + 3);
  Some (un_be32 a b c d).

(** [put_u32(d, v)] stores the bytes [be32 v].  [put_str] appends a length and
    the bytes; its result is what it wrote. *)
Definition put_u32 (v : Z) : list Z := be32 v.
Definition put_str (s : list Z) : list Z := put_u32 (len s) ++ s.
Definition put_nl (s : string) : list Z := put_str (text s).

(** [p + k] *)
Definition ptr (p : list Z) (k : Z) : list Z := drop (Z.to_nat k) p.

(** The body length is compared in 32 bits before it is narrowed.  The result is
    the pointer to the body, its length and the offset after it. *)
Definition rd_string (pl : list Z) (plen o : Z) : option (option (list Z * Z * Z)) :=
  if decide (o > plen \/ plen - o < 4) then Some None
  else
    L ← rd_u32 pl o;
    if decide (L > plen - o - 4) then Some None
    else let o := u16 (o + 4) in Some (Some (ptr pl o, u16 L, u16 (o + u16 L))).

(** [tlen == strlen(s) && memcmp(tok, s, strlen(s)) == 0], as in [tok_eq] and
    where the handlers write it out. *)
Definition tok_eq (tok : list Z) (tlen : Z) (s : string) : option bool :=
  if decide (tlen = len (text s)) then rd_is tok 0 (text s) else Some false.

(** ** Name-lists *)

Definition COMMA : Z := 44.

(** The loop of [nl_has] at index [i]; [n] is [len - i]. *)
Fixpoint nl_scan (n : nat) (l : list Z) (i start : Z) (name : string) : option bool :=
  match n with
  | O => tok_eq (ptr l start) (i - start) name
  | S n =>
      b ← rd l i;
      if decide (b = COMMA) then
        t ← tok_eq (ptr l start) (i - start) name;
        if (t : bool) then Some true else nl_scan n l (i + 1) (i + 1) name
      else nl_scan n l (i + 1) start name
  end.
Definition nl_has (l : list Z) (n : Z) (name : string) : option bool :=
  nl_scan (Z.to_nat n) l 0 0 name.

(** [nl_first]: the length of the first token. *)
Fixpoint nl_first (n : nat) (l : list Z) (i : Z) : option Z :=
  match n with
  | O => Some i
  | S n => b ← rd l i; if decide (b = COMMA) then Some i else nl_first n l (i + 1)
  end.

(** ** Key and signature blobs *)

(** [string("ssh-ed25519") string(x)] with [x] of [want] bytes: the pointer to [x]. *)
Definition ed25519_from_blob (want : Z) (blob : list Z) (bloblen : Z) : option (option (list Z)) :=
  r ← rd_string blob bloblen 0;
  match r with
  | None => Some None
  | Some (name, nlen, o) =>
      ok ← tok_eq name nlen "ssh-ed25519";
      if (ok : bool) then
        r ← rd_string blob bloblen o;
        match r with
        | None => Some None
        | Some (x, xlen, _) => Some (if decide (xlen = want) then Some x else None)
        end
      else Some None
  end.
Definition ed25519_key_from_blob : list Z -> Z -> option (option (list Z)) := ed25519_from_blob 32.
Definition ed25519_sig_from_blob : list Z -> Z -> option (option (list Z)) := ed25519_from_blob 64.

(** ** Base64 and the authorized_keys line *)

Definition b64val (ch : Z) : Z :=
  if decide (65 <= ch <= 90) then ch - 65
  else if decide (97 <= ch <= 122) then ch - 97 + 26
  else if decide (48 <= ch <= 57) then ch - 48 + 52
  else if decide (ch = 43) then 62
  else if decide (ch = 47) then 63
  else -1.

Definition PAD : Z := 61.

(** [while (inlen && in[inlen - 1] == '=') inlen--;] *)
Fixpoint b64_strip (n : nat) (p : list Z) : option nat :=
  match n with
  | O => Some O
  | S m => b ← rd p (Z.of_nat m); if decide (b = PAD) then b64_strip m p else Some n
  end.

(** The digit at [p[k]], or [-1] past the end. *)
Definition b64_at (p : list Z) (rem k : Z) : option Z :=
  if decide (rem > k) then b ← rd p k; Some (b64val b) else Some (-1).

(** The loop at [p = in + i] with [rem = inlen - i]; [out] is what has been
    written.  The empty list stands for the result 0. *)
Fixpoint b64_loop (fuel : nat) (p : list Z) (rem : Z) (out : list Z) (outmax : Z) : option (list Z) :=
  match fuel with
  | O => Some out
  | S fuel =>
      if decide (rem = 0) then Some out
      else
        c0 ← b64_at p rem 0; c1 ← b64_at p rem 1; c2 ← b64_at p rem 2; c3 ← b64_at p rem 3;
        if decide (c0 < 0 \/ c1 < 0) then Some []
        else if decide (len out >= outmax) then Some []
        else
          let out := out ++ [u8 (Z.lor (Z.shiftl c0 2) (Z.shiftr c1 4))] in
          if decide (rem = 2) then Some out
          else if decide (c2 < 0) then Some []
          else if decide (len out >= outmax) then Some []
          else
            let out := out ++ [u8 (Z.lor (Z.shiftl c1 4) (Z.shiftr c2 2))] in
            if decide (rem = 3) then Some out
            else if decide (c3 < 0) then Some []
            else if decide (len out >= outmax) then Some []
            else b64_loop fuel (ptr p 4) (rem - 4) (out ++ [u8 (Z.lor (Z.shiftl c2 6) c3)]) outmax
  end.
Definition b64_decode (p : list Z) (inlen outmax : Z) : option (list Z) :=
  n ← b64_strip (Z.to_nat inlen) p; b64_loop (S n) p (Z.of_nat n) [] outmax.

Definition is_blank (b : Z) : Prop := b = 32 \/ b = 9.
#[export] Instance is_blank_dec b : Decision (is_blank b).
Proof. unfold is_blank. apply _. Defined.

(** Skipping blanks and tabs of a C string (given with its final 0). *)
Fixpoint skip_blanks (p : list Z) : option (list Z) :=
  match p with
  | [] => None
  | b :: p' => if decide (is_blank b) then skip_blanks p' else Some p
  end.
Fixpoint strlen (p : list Z) : option Z :=
  match p with
  | [] => None
  | b :: p => if decide (b = 0) then Some 0 else n ← strlen p; Some (n + 1)
  end.
(** Counting base64 digits and padding, in a 16-bit [unsigned]. *)
Fixpoint b64_span (p : list Z) (n : Z) : option Z :=
  match p with
  | [] => None
  | b :: p => if decide (b64val b >= 0 \/ b = PAD) then b64_span p (u16 (n + 1)) else Some n
  end.

(** [ssh_parse_authkey_line]: [Some (Some pubkey)] for the result 1. *)
Definition ssh_parse_authkey_line (line : list Z) : option (option (list Z)) :=
  p ← skip_blanks line;
  b ← rd p 0;
  if decide (b = 0 \/ b = 35 \/ b = 13 \/ b = 10) then Some None
  else
    n ← strlen p;
    if decide (n < 11) then Some None
    else
      ok ← rd_is p 0 (text "ssh-ed25519");
      if (ok : bool) then
        let p := ptr p 11 in
        b ← rd p 0;
        if decide (is_blank b) then
          p ← skip_blanks p;
          b64len ← b64_span p 0;
          blob ← b64_decode p b64len 80;
          k ← ed25519_key_from_blob blob (len blob);
          match k with
          | None => Some None
          | Some key => pk ← rd_bytes key 0 32; Some (Some pk)
          end
        else Some None
      else Some None.

Arguments text : simpl never.
Arguments rd_string : simpl never.
Arguments tok_eq : simpl never.

(** ** Reading strings *)

Lemma rd_drop p o i : 0 <= o -> 0 <= i -> rd p (o + i) = rd (ptr p o) i.
Proof.
  intros. unfold rd, ptr. rewrite !decide_True by lia. rewrite lookup_drop. f_equal. lia.
Qed.

Lemma rd_bytes_ptr p o n : 0 <= o <= len p -> rd_bytes p o n = rd_bytes (ptr p o) 0 n.
Proof.
  intros. unfold rd_bytes, ptr. rewrite length_drop. cbn [drop].
  repeat case_decide; try done; lia.
Qed.

Lemma rd_bytes_app x r n : len x = n -> rd_bytes (x ++ r) 0 n = Some x.
Proof. intros. by apply (rd_bytes_mid [] x r). Qed.

Lemma ptr_app l r o : len l = o -> ptr (l ++ r) o = r.
Proof. intros <-. unfold ptr. by rewrite Nat2Z.id, drop_app_length. Qed.

Lemma ptr_ptr p a b : 0 <= a -> 0 <= b -> ptr (ptr p a) b = ptr p (a + b).
Proof. intros. unfold ptr. rewrite drop_drop. f_equal. lia. Qed.

Lemma ptr_bytes p o : all_bytes p -> all_bytes (ptr p o).
Proof. apply Forall_drop. Qed.

Lemma len_ptr p o : 0 <= o <= len p -> len (ptr p o) = len p - o.
Proof. intros. unfold ptr. rewrite length_drop. lia. Qed.

Lemma put_u32_length v : length (put_u32 v) = 4%nat.
Proof. done. Qed.
Lemma put_u32_len v : len (put_u32 v) = 4.
Proof. done. Qed.
Lemma put_str_len s : len (put_str s) = 4 + len s.
Proof. unfold put_str. by rewrite length_app, Nat2Z.inj_add, put_u32_len. Qed.
Lemma put_str_bytes s : all_bytes s -> all_bytes (put_str s).
Proof. intros. apply Forall_app. split; [apply be32_bytes|done]. Qed.

(** Reading back what [put_u32] wrote. *)
Lemma rd_u32_cons a b c d r : rd_u32 (a :: b :: c :: d :: r) 0 = Some (un_be32 a b c d).
Proof. done. Qed.
Lemma rd_u32_ptr p o : 0 <= o -> rd_u32 p o = rd_u32 (ptr p o) 0.
Proof.
  intros. unfold rd_u32. rewrite <- (Z.add_0_r o) at 1. by rewrite !rd_drop by lia.
Qed.
Lemma rd_u32_app l v r o : len l = o -> is_u32 v -> rd_u32 (l ++ put_u32 v ++ r) o = Some v.
Proof.
  intros Ho Hv. rewrite rd_u32_ptr, ptr_app by lia. unfold put_u32, be32. cbn [app].
  by rewrite rd_u32_cons, un_be32_be32.
Qed.

Lemma rd_u32_app0 v r : is_u32 v -> rd_u32 (put_u32 v ++ r) 0 = Some v.
Proof. intros. by apply (rd_u32_app [] v r 0). Qed.

(** Four readable bytes are the big-endian form of the value read. *)
Lemma rd_u32_spec p o :
  all_bytes p -> 0 <= o -> o + 4 <= len p ->
  exists v, rd_u32 p o = Some v /\ is_u32 v /\ ptr p o = put_u32 v ++ ptr p (o + 4).
Proof.
  intros Hp Ho Hl.
  assert (exists a b c d r, ptr p o = a :: b :: c :: d :: r) as (a & b & c & d & r & E).
  { pose proof (len_ptr p o ltac:(lia)) as El. destruct (ptr p o) as [|a [|b [|c [|d r]]]];
      cbn [length] in El; try lia. by do 5 eexists. }
  assert (all_bytes (a :: b :: c :: d :: r)) as Hb by (rewrite <- E; by apply ptr_bytes).
  rewrite !Forall_cons in Hb. destruct Hb as (?&?&?&?&_).
  exists (un_be32 a b c d). split_and!.
  - by rewrite rd_u32_ptr, E by lia.
  - by apply un_be32_range.
  - rewrite <- ptr_ptr, E by lia. unfold put_u32. by rewrite be32_un_be32.
Qed.

(** The packet [pl[0..plen)] has the encoding of [x] at offset [o]. *)
Definition has_string (pl : list Z) (plen o : Z) (x : list Z) : Prop :=
  rd_bytes (take (Z.to_nat plen) pl) o (4 + len x) = Some (put_str x).

Lemma take_ptr (pl : list Z) plen o n :
  0 <= o -> 0 <= n -> o + n <= plen -> plen <= len pl ->
  rd_bytes (take (Z.to_nat plen) pl) o n = rd_bytes pl o n.
Proof.
  intros. unfold rd_bytes. rewrite length_take.
  rewrite !decide_True by lia. f_equal. rewrite skipn_firstn_comm, firstn_firstn. f_equal. lia.
Qed.

Lemma has_string_iff pl plen o x :
  0 <= o -> plen <= len pl ->
  has_string pl plen o x <-> o + 4 + len x <= plen /\ exists r, ptr pl o = put_str x ++ r.
Proof.
  intros Ho Hl. unfold has_string. destruct (decide (o + 4 + len x <= plen)) as [Hle|Hgt].
  - rewrite take_ptr, rd_bytes_ptr by lia. split.
    + intros (_&_&_&_&E)%rd_bytes_Some. split; [done|]. cbn [drop] in E.
      exists (drop (Z.to_nat (4 + len x)) (ptr pl o)). rewrite E at 1. by rewrite take_drop.
    + intros [_ [r ->]]. apply rd_bytes_app. apply put_str_len.
  - split; [|tauto]. intros (_&_&Hb&_&_)%rd_bytes_Some. rewrite length_take in Hb. lia.
Qed.

Lemma put_u32_inj v w : is_u32 v -> is_u32 w -> put_u32 v = put_u32 w -> v = w.
Proof.
  intros Hv Hw E. apply (f_equal (fun l => rd_u32 ([] ++ l ++ []) 0)) in E.
  rewrite !(rd_u32_app []) in E by done. by injection E.
Qed.

Lemma put_str_inj x y r s : is_u32 (len x) -> is_u32 (len y) ->
  put_str x ++ r = put_str y ++ s -> x = y /\ r = s.
Proof.
  intros Hx Hy E. unfold put_str in E. rewrite <- !app_assoc in E.
  apply app_inj_1 in E as [E1 E2]; [|done].
  apply put_u32_inj in E1; [|done..].
  apply app_inj_1 in E2; [done|lia].
Qed.

Lemma rd_string_spec pl plen o :
  all_bytes pl -> is_u16 plen -> plen <= len pl -> 0 <= o ->
  exists r, rd_string pl plen o = Some r /\
    match r with
    | Some (s, n, o') => exists x, has_string pl plen o x /\ rd_bytes s 0 n = Some x
        /\ s = ptr pl (o + 4) /\ n = len x /\ o' = o + 4 + n /\ o' <= plen
    | None => forall x, is_u32 (len x) -> ~ has_string pl plen o x
    end.
Proof.
  intros Hb Hp Hl Ho. unfold rd_string. unfold is_u16 in Hp. case_decide as Hc.
  { eexists. split; [done|]. cbn. intros x _ (H1&_)%has_string_iff; lia. }
  destruct (rd_u32_spec pl o) as (v & -> & Hv & E); [done|lia..|]. cbn -[u16].
  case_decide as Hv2; eexists; (split; [done|]); cbn.
  - intros x Hx (H1&r&E2)%has_string_iff; [|lia..]. rewrite E in E2. unfold put_str in E2.
    rewrite <- app_assoc in E2. apply app_inj_1 in E2 as [E2 _]; [|done].
    apply put_u32_inj in E2; [lia|done..].
  - unfold is_u32 in Hv. rewrite (u16_id (o + 4)), (u16_id v) by (unfold is_u16; lia).
    rewrite u16_id by (unfold is_u16; lia).
    destruct (rd_bytes_is_Some pl (o + 4) v) as [x Hx]; [lia..|]. exists x.
    pose proof Hx as (_&_&_&Hlx&_)%rd_bytes_Some. rewrite rd_bytes_ptr in Hx by lia.
    split_and!; try done; try lia. apply has_string_iff; [lia..|].
    split; [lia|]. apply rd_bytes_Some in Hx as (_&_&_&_&Ex). cbn [drop] in Ex.
    exists (drop (Z.to_nat v) (ptr pl (o + 4))). unfold put_str.
    rewrite <- app_assoc, E, Hlx. f_equal. by rewrite Ex at 1; rewrite take_drop.
Qed.

(** [rd_string] is an exact parser.  Whenever the declared length [plen] does
    not exceed the buffer, it never reads outside the packet, whatever the bytes
    are; it succeeds precisely when the packet really contains an SSH string at
    the offset, it then yields that string, and the next offset stays inside the
    packet (no 16-bit wrap-around for any 32-bit length field). *)
Theorem rd_string_exact pl plen o :
  all_bytes pl -> is_u16 plen -> plen <= len pl -> 0 <= o ->
  exists r, rd_string pl plen o = Some r /\
    match r with
    | Some (s, n, o') => exists x, has_string pl plen o x /\ rd_bytes s 0 n = Some x
        /\ n = len x /\ o' = o + 4 + n /\ o' <= plen
    | None => forall x, is_u32 (len x) -> ~ has_string pl plen o x
    end.
Proof.
  intros Hb Hp Hl Ho. destruct (rd_string_spec pl plen o) as ([[[s n] o']|] & E & H); try done.
  - eexists. split; [done|]. destruct H as (x & ? & ? & ? & ? & ? & ?). eauto 10.
  - eexists. by split.
Qed.

Definition str_bytes : list Z := [5; 0; 0; 0; 2; 104; 105; 255; 255; 255; 255].
Lemma rd_string_exact_witness :
  rd_string str_bytes 11 1 = Some (Some (ptr str_bytes 5, 2, 7))
  /\ rd_string str_bytes 11 7 = Some None
  /\ exists r, rd_string str_bytes 11 7 = Some r /\
    match r with
    | Some (s, n, o') => exists x, has_string str_bytes 11 7 x /\ rd_bytes s 0 n = Some x
        /\ n = len x /\ o' = 7 + 4 + n /\ o' <= 11
    | None => forall x, is_u32 (len x) -> ~ has_string str_bytes 11 7 x
    end.
Proof.
  split; [reflexivity|]. split; [reflexivity|]. apply (rd_string_exact str_bytes 11 7).
  - repeat (apply Forall_cons; split; [split; [discriminate|reflexivity]|]). apply Forall_nil. exact I.
  - split; [discriminate|reflexivity].
  - discriminate.
  - discriminate.
Defined.

(** Reading a string from a packet laid out explicitly. *)
Lemma rd_string_put l x r plen o :
  len l = o -> o + 4 + len x <= plen -> is_u16 plen ->
  rd_string (l ++ put_str x ++ r) plen o = Some (Some (x ++ r, len x, o + 4 + len x)).
Proof.
  unfold is_u16. intros Ho Hl Hp. unfold rd_string. rewrite decide_False by lia.
  unfold put_str. rewrite <- app_assoc, rd_u32_app by (done || (unfold is_u32; lia)). cbn [mbind option_bind].
  rewrite decide_False by lia. unfold u16. rewrite !Z.mod_small by lia.
  by rewrite app_assoc, ptr_app by (rewrite length_app; cbn; lia).
Qed.

Lemma rd_string_put0 x r plen :
  4 + len x <= plen -> is_u16 plen ->
  rd_string (put_str x ++ r) plen 0 = Some (Some (x ++ r, len x, 4 + len x)).
Proof. intros. by apply (rd_string_put [] x r plen 0). Qed.

Lemma rd_string_put_last l x plen o :
  len l = o -> o + 4 + len x <= plen -> is_u16 plen ->
  rd_string (l ++ put_str x) plen o = Some (Some (x, len x, o + 4 + len x)).
Proof.
  intros. rewrite <- (app_nil_r (put_str x)), rd_string_put by done. by rewrite app_nil_r.
Qed.

Lemma tok_eq_spec s n x str :
  rd_bytes s 0 n = Some x -> tok_eq s n str = Some (bool_decide (x = text str)).
Proof.
  intros Hx. pose proof (rd_bytes_Some _ _ _ _ Hx) as (_&_&_&Hn&_). unfold tok_eq, rd_is. case_decide as E.
  - by rewrite <- E, Hx.
  - by rewrite bool_decide_eq_false_2 by (intros ->; by apply E).
Qed.

(** ** Name-lists *)

(** The names of a comma-separated list. *)
Fixpoint nl_split (l : list Z) : list (list Z) :=
  match l with
  | [] => [[]]
  | b :: l =>
      if decide (b = COMMA) then [] :: nl_split l
      else match nl_split l with t :: ts => (b :: t) :: ts | [] => [] end
  end.

Definition nl_cons (tok : list Z) (ts : list (list Z)) : list (list Z) :=
  match ts with t :: ts => (tok ++ t) :: ts | [] => [] end.

Lemma nl_split_ne l : nl_split l <> [].
Proof. destruct l as [|b l]; [done|]. cbn. case_decide; [done|]. by induction l; cbn; repeat case_match. Qed.

Lemma nl_cons_split tok b x :
  nl_cons tok (nl_split (b :: x)) =
    if decide (b = COMMA) then tok :: nl_split x else nl_cons (tok ++ [b]) (nl_split x).
Proof.
  cbn [nl_split]. case_decide; cbn; [by rewrite app_nil_r|].
  destruct (nl_split x); [done|]. cbn. by rewrite <- app_assoc.
Qed.

Lemma nl_tok (l pre tok r : list Z) name start i :
  l = pre ++ tok ++ r -> start = len pre -> i = start + len tok ->
  tok_eq (ptr l start) (i - start) name = Some (bool_decide (tok = text name)).
Proof. intros -> -> ->. apply tok_eq_spec. rewrite ptr_app by done. apply rd_bytes_app. lia. Qed.

Lemma nl_scan_spec l pre tok x r name :
  l = pre ++ tok ++ x ++ r ->
  nl_scan (length x) l (len pre + len tok) (len pre) name =
    Some (bool_decide (text name ∈ nl_cons tok (nl_split x))).
Proof.
  revert pre tok. induction x as [|b x IH]; intros pre tok El; cbn [nl_scan length].
  - rewrite (nl_tok l pre tok r) by done. cbn. f_equal. apply bool_decide_ext.
    rewrite app_nil_r, list_elem_of_singleton. split; congruence.
  - assert (rd l (len pre + len tok) = Some b) as ->.
    { rewrite El, app_assoc. apply rd_mid. rewrite length_app. lia. }
    cbn [mbind option_bind]. rewrite nl_cons_split. case_decide as Hb.
    + rewrite (nl_tok l pre tok ((b :: x) ++ r)) by done. cbn [mbind option_bind].
      case_bool_decide as Ht; [by rewrite bool_decide_eq_true_2 by (rewrite Ht; left)|].
      specialize (IH (pre ++ tok ++ [b]) []). rewrite !length_app in IH. cbn [length] in IH.
      replace (Z.of_nat (length pre + (length tok + 1)) + Z.of_nat 0) with (len pre + len tok + 1) in IH by lia.
      replace (Z.of_nat (length pre + (length tok + 1))) with (len pre + len tok + 1) in IH by lia.
      rewrite IH by (rewrite El, <- !app_assoc; done). f_equal. apply bool_decide_ext.
      rewrite elem_of_cons. destruct (nl_split x) eqn:E; [by destruct (nl_split_ne x)|].
      cbn [nl_cons app]. split; [by right|]. intros [?|?]; [congruence|done].
    + specialize (IH pre (tok ++ [b])). rewrite length_app in IH. cbn [length] in IH.
      replace (len pre + Z.of_nat (length tok + 1)) with (len pre + len tok + 1) in IH by lia.
      apply IH. by rewrite El, <- !app_assoc.
Qed.

Lemma nl_cons_nil ts : nl_cons [] ts = ts.
Proof. by destruct ts. Qed.

Lemma nl_has_spec l n x name :
  rd_bytes l 0 n = Some x -> nl_has l n name = Some (bool_decide (text name ∈ nl_split x)).
Proof.
  intros (_&Hn&Hl&Hx&E)%rd_bytes_Some. cbn [drop] in E.
  assert (Z.to_nat n = length x) as Hn' by lia. unfold nl_has. rewrite Hn'.
  rewrite (nl_scan_spec l [] [] x (drop (length x) l)); [by rewrite nl_cons_nil|].
  cbn. rewrite E at 1. by rewrite Hn', take_drop.
Qed.

Lemma nl_first_scan l pre x r :
  l = pre ++ x ++ r -> exists t,
  nl_first (length x) l (len pre) = Some (len pre + len t) /\ head (nl_split x) = Some t /\ exists s, x = t ++ s.
Proof.
  revert pre. induction x as [|b x IH]; intros pre El; cbn [nl_first length nl_split].
  - exists []. split_and!; [f_equal; cbn; lia|done|by exists []].
  - assert (rd l (len pre) = Some b) as -> by (rewrite El; by apply rd_mid).
    cbn [mbind option_bind]. case_decide.
    + exists []. split_and!; [f_equal; cbn; lia|done|by exists (b :: x)].
    + destruct (IH (pre ++ [b])) as (t & E1 & E2 & s & Es); [by rewrite El, <- app_assoc|].
      rewrite (length_app pre [b]) in E1. cbn [length] in E1.
      replace (Z.of_nat (length pre + 1)) with (len pre + 1) in E1 by lia. subst x.
      exists (b :: t). destruct (nl_split (t ++ s)) eqn:E; [done|]. injection E2 as ->.
      split_and!; [rewrite E1; f_equal; cbn [length]; lia|done|by exists s].
Qed.

(** The first name of the list, as a token. *)
Lemma nl_first_spec l n x :
  rd_bytes l 0 n = Some x -> exists t,
  nl_first (Z.to_nat n) l 0 = Some (len t) /\ rd_bytes l 0 (len t) = Some t /\ head (nl_split x) = Some t.
Proof.
  intros Hx. pose proof (rd_bytes_Some _ _ _ _ Hx) as (_&Hn&Hl&Hlx&E). cbn [drop] in E.
  assert (Z.to_nat n = length x) as Hn' by lia.
  assert (l = x ++ drop (length x) l) as El by (rewrite E at 1; by rewrite Hn', take_drop).
  destruct (nl_first_scan l [] x (drop (length x) l) El) as (t & E1 & E2 & s & Es).
  exists t. rewrite Hn'. cbn [length] in E1. split_and!; [done| |done].
  rewrite El, Es, <- app_assoc. by apply rd_bytes_app.
Qed.

(** the in-place scan [nl_has] decides membership in the comma-separated list:
    whole names only (no prefix or suffix of a name matches), first, middle and
    last position alike, the empty list included; and [nl_first] finds the first
    name.  Neither reads outside the list. *)
Theorem nl_has_member l n x name :
  rd_bytes l 0 n = Some x ->
  nl_has l n name = Some (bool_decide (text name ∈ nl_split x))
  /\ exists t, nl_first (Z.to_nat n) l 0 = Some (len t) /\ rd_bytes l 0 (len t) = Some t
       /\ head (nl_split x) = Some t.
Proof. intros Hx. split; [by apply nl_has_spec|by apply nl_first_spec]. Qed.

Lemma nl_has_member_witness :
  nl_has (text "abc,def") 7 "def" = Some true /\ nl_has (text "abc,def") 7 "de" = Some false
  /\ nl_has (text "abc,def") 7 "def" = Some (bool_decide (text "def" ∈ nl_split (text "abc,def"))).
Proof.
  split; [reflexivity|]. split; [reflexivity|].
  apply (nl_has_member (text "abc,def") 7 (text "abc,def") "def"). reflexivity.
Defined.

(** ** Base64 *)

(** The encoder of RFC 4648, in arithmetic. *)
Definition b64char (v : Z) : Z :=
  if decide (v < 26) then 65 + v else if decide (v < 52) then 97 + (v - 26)
  else if decide (v < 62) then 48 + (v - 52) else if decide (v = 62) then 43 else 47.
Fixpoint b64_digits (l : list Z) : list Z :=
  match l with
  | a :: b :: c :: l =>
      [a / 4; (a mod 4) * 16 + b / 16; (b mod 16) * 4 + c / 64; c mod 64] ++ b64_digits l
  | [a; b] => [a / 4; (a mod 4) * 16 + b / 16; (b mod 16) * 4]
  | [a] => [a / 4; (a mod 4) * 16]
  | [] => []
  end.
Definition b64_encode (l : list Z) : list Z :=
  (b64char <$> b64_digits l) ++ replicate (Z.to_nat ((- len l) mod 3)) PAD.

Definition is_digit64 (v : Z) : Prop := 0 <= v < 64.

Lemma b64val_char v : is_digit64 v -> b64val (b64char v) = v /\ b64char v <> PAD.
Proof.
  unfold is_digit64, b64char, b64val, PAD. intros Hv. split; repeat case_decide; try lia.
Qed.

Lemma list_ind3 (P : list Z -> Prop) :
  P [] -> (forall a, P [a]) -> (forall a b, P [a; b]) ->
  (forall a b c l, P l -> P (a :: b :: c :: l)) -> forall l, P l.
Proof.
  intros H0 H1 H2 H3 l. assert (P l /\ (forall a, P (a :: l)) /\ (forall a b, P (a :: b :: l))) as [? _]; [|done].
  induction l as [|c l (IH1 & IH2 & IH3)]; eauto 10.
Qed.

Ltac b64_bytes H := rewrite ?Forall_cons in H; unfold is_byte in H; destruct_and? H.

Lemma b64_digits_range l : all_bytes l -> Forall is_digit64 (b64_digits l).
Proof.
  induction l as [|a|a b|a b c l IH] using list_ind3; intros Hl; cbn [b64_digits app];
    b64_bytes Hl; repeat (apply Forall_cons; split); try (apply Forall_nil; done);
    try (unfold is_digit64; Z.div_mod_to_equations; lia). by apply IH.
Qed.

(** The bytes the loop assembles from digits. *)
Lemma b64_byte0 a b : is_byte a -> is_byte b ->
  u8 (Z.lor (Z.shiftl (a / 4) 2) (Z.shiftr ((a mod 4) * 16 + b / 16) 4)) = a.
Proof.
  unfold is_byte. intros. rewrite Z.shiftr_div_pow2 by lia. change (2 ^ 4) with 16.
  rewrite lor_shiftl_add by (change (2 ^ 2) with 4; Z.div_mod_to_equations; lia). wrap_lia.
Qed.
Lemma b64_byte1 a b c : is_byte a -> is_byte b -> is_byte c ->
  u8 (Z.lor (Z.shiftl ((a mod 4) * 16 + b / 16) 4) (Z.shiftr ((b mod 16) * 4 + c / 64) 2)) = b.
Proof.
  unfold is_byte. intros. rewrite Z.shiftr_div_pow2 by lia. change (2 ^ 2) with 4.
  rewrite lor_shiftl_add by (change (2 ^ 4) with 16; Z.div_mod_to_equations; lia).
  change (2 ^ 4) with 16. wrap_lia.
Qed.
Lemma b64_byte2 b c : is_byte b -> is_byte c ->
  u8 (Z.lor (Z.shiftl ((b mod 16) * 4 + c / 64) 6) (c mod 64)) = c.
Proof.
  unfold is_byte. intros.
  rewrite lor_shiftl_add by (change (2 ^ 6) with 64; Z.div_mod_to_equations; lia).
  change (2 ^ 6) with 64. wrap_lia.
Qed.

Lemma b64_at_digit p rem k v :
  k < rem -> rd p k = Some (b64char v) -> is_digit64 v -> b64_at p rem k = Some v.
Proof. intros. unfold b64_at. rewrite decide_True by lia. rewrite H0. cbn. f_equal. by apply b64val_char. Qed.
Lemma b64_at_end p rem k : rem <= k -> b64_at p rem k = Some (-1).
Proof. intros. unfold b64_at. by rewrite decide_False by lia. Qed.

Lemma b64_loop_digits l r out outmax fuel :
  all_bytes l -> len out + len l <= outmax -> (length l < fuel)%nat ->
  b64_loop fuel ((b64char <$> b64_digits l) ++ r) (len (b64_digits l)) out outmax = Some (out ++ l).
Proof.
  revert out fuel. induction l as [|a|a b|a b c l IH] using list_ind3;
    intros out [|fuel] Hb Hl Hf; cbn [length] in *; try lia.
  - cbn. by rewrite app_nil_r.
  - pose proof (b64_digits_range _ Hb) as Hd. cbn [b64_digits] in Hd.
    rewrite ?Forall_cons in Hb. rewrite ?Forall_cons in Hd. destruct_and? Hb. destruct_and? Hd.
    cbn [b64_digits b64_loop]. change (len [a / 4; (a mod 4) * 16]) with 2.
    rewrite decide_False by lia.
    set (p := (_ <$> _) ++ r).
    rewrite (b64_at_digit p 2 0 (a / 4)), (b64_at_digit p 2 1 ((a mod 4) * 16)), (b64_at_end p 2 2), (b64_at_end p 2 3) by (done || lia).
    cbn [mbind option_bind]. unfold is_digit64 in *. rewrite !decide_False, decide_True by lia.
    pose proof (b64_byte0 a 0) as E0. change (0 / 16) with 0 in E0. rewrite Z.add_0_r in E0.
    by rewrite E0 by done.
  - pose proof (b64_digits_range _ Hb) as Hd. cbn [b64_digits] in Hd.
    rewrite ?Forall_cons in Hb. rewrite ?Forall_cons in Hd. destruct_and? Hb. destruct_and? Hd.
    cbn [b64_digits b64_loop]. change (len [a / 4; (a mod 4) * 16 + b / 16; (b mod 16) * 4]) with 3.
    rewrite decide_False by lia.
    set (p := (_ <$> _) ++ r).
    rewrite (b64_at_digit p 3 0 (a / 4)), (b64_at_digit p 3 1 ((a mod 4) * 16 + b / 16)),
      (b64_at_digit p 3 2 ((b mod 16) * 4)), (b64_at_end p 3 3) by (done || lia).
    cbn [mbind option_bind]. unfold is_digit64 in *. rewrite !decide_False by lia.
    rewrite length_app. cbn [length]. rewrite !decide_False, decide_True by lia.
    pose proof (b64_byte1 a b 0) as E1. change (0 / 64) with 0 in E1. rewrite Z.add_0_r in E1.
    by rewrite <- app_assoc, b64_byte0, E1 by done.
  - pose proof (b64_digits_range _ Hb) as Hd. cbn [b64_digits app] in *.
    rewrite ?Forall_cons in Hb. rewrite ?Forall_cons in Hd.
    destruct_and? Hb. destruct_and? Hd. set (ds := b64_digits l) in *.
    cbn [b64_loop fmap list_fmap length app]. rewrite decide_False by lia.
    rewrite (b64_at_digit _ _ 0 (a / 4)), (b64_at_digit _ _ 1 ((a mod 4) * 16 + b / 16)),
      (b64_at_digit _ _ 2 ((b mod 16) * 4 + c / 64)), (b64_at_digit _ _ 3 (c mod 64)) by (done || lia).
    cbn [mbind option_bind]. unfold is_digit64 in *. rewrite !decide_False by lia.
    rewrite !length_app. cbn [length]. rewrite !decide_False by lia.
    rewrite b64_byte0, b64_byte1, b64_byte2 by done.
    change (ptr _ 4) with ((b64char <$> ds) ++ r).
    replace (Z.of_nat (S (S (S (S (length ds))))) - 4) with (len ds) by lia.
    rewrite IH; [by rewrite <- !app_assoc|done|rewrite !length_app; cbn [length]; lia|lia].
Qed.


Lemma b64_strip_end p n : rd p (Z.of_nat n) <> Some PAD -> rd p (Z.of_nat n) <> None -> b64_strip (S n) p = Some (S n).
Proof. cbn [b64_strip]. intros H1 H2. destruct (rd p (Z.of_nat n)) as [b|]; [|done]. cbn. by rewrite decide_False by congruence. Qed.

(** Only the padding is stripped. *)
Lemma b64_strip_pad ds k r :
  Forall is_digit64 ds ->
  b64_strip (length ds + k) ((b64char <$> ds) ++ replicate k PAD ++ r) = Some (length ds).
Proof.
  intros Hd. induction k as [|k IH] in r |- *.
  - rewrite Nat.add_0_r. destruct ds as [|d ds _] using rev_ind; [done|].
    rewrite Forall_app, Forall_singleton in Hd. rewrite length_app, fmap_app. cbn [length fmap list_fmap replicate app].
    rewrite Nat.add_1_r. assert (rd ((b64char <$> ds) ++ b64char d :: r) (len ds) = Some (b64char d)) as E.
    { apply rd_mid. by rewrite length_fmap. }
    rewrite <- app_assoc. cbn [app]. apply b64_strip_end; rewrite E; [|done].
    intros [= Hp]. destruct (b64val_char d) as [_ []]; tauto.
  - replace (length ds + S k)%nat with (S (length ds + k)) by lia. cbn [b64_strip].
    assert (replicate (S k) PAD ++ r = replicate k PAD ++ PAD :: r) as ->
      by by rewrite replicate_S_end, <- app_assoc.
    rewrite app_assoc, rd_mid by (rewrite length_app, length_fmap, length_replicate; lia).
    cbn. rewrite <- app_assoc. apply IH.
Qed.

Lemma length_b64_digits l : (length l <= length (b64_digits l))%nat.
Proof. induction l using list_ind3; cbn [b64_digits app length]; lia. Qed.

Lemma b64_decode_encode l r outmax :
  all_bytes l -> len l <= outmax ->
  b64_decode (b64_encode l ++ r) (len (b64_encode l)) outmax = Some l.
Proof.
  intros Hb Hl. unfold b64_decode, b64_encode. rewrite Nat2Z.id, length_app, length_fmap, length_replicate, <- app_assoc.
  rewrite b64_strip_pad by by apply b64_digits_range. cbn [mbind option_bind].
  rewrite b64_loop_digits; [done|done|cbn; lia|]. pose proof (length_b64_digits l). lia.
Qed.

(** The characters of an encoding are those [b64_span] counts. *)
Lemma b64_encode_chars l : all_bytes l -> Forall (fun c => b64val c >= 0 \/ c = PAD) (b64_encode l).
Proof.
  intros Hl. apply Forall_app. split; [|apply Forall_replicate; by right].
  apply Forall_fmap. eapply Forall_impl; [by apply b64_digits_range|]. intros v Hv. left. cbn.
  rewrite (proj1 (b64val_char v Hv)). unfold is_digit64 in Hv. lia.
Qed.

Lemma b64_span_app e b r n :
  Forall (fun c => b64val c >= 0 \/ c = PAD) e -> ~ (b64val b >= 0 \/ b = PAD) ->
  0 <= n -> n + len e < 65536 -> b64_span (e ++ b :: r) n = Some (n + len e).
Proof.
  intros He Hb. revert n. induction He as [|c e Hc _ IH]; intros n Hn Hl; cbn [b64_span app length] in *.
  - rewrite decide_False by done. f_equal. lia.
  - rewrite decide_True, IH by (done || wrap_lia). f_equal. wrap_lia.
Qed.

(** ** The authorized_keys line *)

(** The key blob of RFC 8709. *)
Definition key_blob (pk : list Z) : list Z := put_nl "ssh-ed25519" ++ put_str pk.

Lemma ed25519_from_blob_spec want alg x r n :
  len alg + len x + 8 <= n -> is_u16 n ->
  ed25519_from_blob want (put_str alg ++ put_str x ++ r) n =
    Some (if decide (alg = text "ssh-ed25519" /\ len x = want) then Some (x ++ r) else None).
Proof.
  intros Hn Hu. unfold ed25519_from_blob.
  rewrite rd_string_put0 by (done || lia). cbn [mbind option_bind].
  rewrite (tok_eq_spec _ _ alg) by by apply rd_bytes_app. cbn [mbind option_bind].
  case_bool_decide as Ha; [|by rewrite decide_False by tauto].
  rewrite (rd_string_put (put_str alg) x r n) by (done || (rewrite ?put_str_len; lia)).
  cbn [mbind option_bind]. do 2 f_equal. apply decide_ext. tauto.
Qed.

Lemma key_from_blob pk r : len pk = 32 -> len r < 65000 ->
  ed25519_key_from_blob (key_blob pk ++ r) (len (key_blob pk ++ r)) = Some (Some (pk ++ r)).
Proof.
  intros Hp Hr. unfold ed25519_key_from_blob, key_blob, put_nl. rewrite <- app_assoc.
  rewrite ed25519_from_blob_spec; [by rewrite decide_True| |].
  - rewrite !length_app. pose proof (put_str_len (text "ssh-ed25519")). pose proof (put_str_len pk). lia.
  - rewrite !length_app. pose proof (put_str_len (text "ssh-ed25519")). pose proof (put_str_len pk).
    change (len (text "ssh-ed25519")) with 11 in *. unfold is_u16. lia.
Qed.

Lemma strlen_app s r : Forall (fun b => b <> 0) s -> strlen (s ++ 0 :: r) = Some (len s).
Proof.
  induction 1 as [|b s Hb _ IH]; cbn [strlen app length]; [done|].
  rewrite decide_False, IH by done. cbn. f_equal. lia.
Qed.

Lemma skip_blanks_app bl b r :
  Forall is_blank bl -> ~ is_blank b -> skip_blanks (bl ++ b :: r) = Some (b :: r).
Proof.
  intros Hbl Hb. induction Hbl as [|c bl Hc _ IH]; cbn [skip_blanks app].
  - by rewrite decide_False.
  - by rewrite decide_True.
Qed.

(** What may follow the key on its line: a C string that does not continue the
    base64 text. *)
Definition key_line_end (r : list Z) : Prop :=
  exists b s, r = b :: s /\ ~ (b64val b >= 0 \/ b = PAD) /\ exists t u, r = t ++ 0 :: u /\ Forall (fun b => b <> 0) t.

Lemma b64_chars_nonzero e : Forall (fun c => b64val c >= 0 \/ c = PAD) e -> Forall (fun b => b <> 0) e.
Proof. intros He. eapply Forall_impl; [done|]. intros c Hc ->. change (b64val 0) with (-1) in Hc. unfold PAD in Hc. lia. Qed.
Lemma blank_nonzero bl : Forall is_blank bl -> Forall (fun b => b <> 0) bl.
Proof. intros He. eapply Forall_impl; [done|]. unfold is_blank. cbn. lia. Qed.

Lemma b64_encode_head pk : all_bytes pk -> len pk = 32 ->
  exists c e, b64_encode (key_blob pk) = c :: e /\ ~ is_blank c /\ len (b64_encode (key_blob pk)) = 68.
Proof.
  intros Hp Hl. destruct pk as [|p0 pk]; [done|]. unfold key_blob, put_nl, put_str. rewrite Hl.
  change (put_u32 (len (text "ssh-ed25519")) ++ text "ssh-ed25519") with
    [0; 0; 0; 11; 115; 115; 104; 45; 101; 100; 50; 53; 53; 49; 57].
  change (put_u32 32) with [0; 0; 0; 32]. do 2 eexists. split; [reflexivity|]. split; [by intros [|]|].
  do 31 (destruct pk as [|? pk]; try (cbn [length] in Hl; lia)). destruct pk; [reflexivity|cbn [length] in Hl; lia].
Qed.

Lemma parse_authkey_line_key bl1 bl2 sep pk rest :
  Forall is_blank bl1 -> is_blank sep -> Forall is_blank bl2 ->
  all_bytes pk -> len pk = 32 -> key_line_end rest ->
  ssh_parse_authkey_line (bl1 ++ text "ssh-ed25519" ++ (sep :: bl2) ++ b64_encode (key_blob pk) ++ rest)
    = Some (Some pk).
Proof.
  intros H1 Hs H2 Hp Hl (b & s & -> & Hb & t & u & Et & Ht).
  destruct (b64_encode_head pk Hp Hl) as (c & e & Ee & Hc & Elen).
  pose proof (b64_encode_chars (key_blob pk)) as Hch.
  assert (all_bytes (key_blob pk)) as Hkb by (apply Forall_app; split; apply put_str_bytes; [apply text_bytes|done]).
  specialize (Hch Hkb). set (enc := b64_encode (key_blob pk)) in *.
  unfold ssh_parse_authkey_line. change (text "ssh-ed25519" ++ (sep :: bl2) ++ enc ++ b :: s)
    with (115 :: (text "sh-ed25519" ++ (sep :: bl2) ++ enc ++ b :: s)).
  rewrite skip_blanks_app by (done || by intros [|]). cbn [mbind option_bind].
  change (rd (115 :: _) 0) with (Some 115). cbn [mbind option_bind]. rewrite decide_False by lia.
  change (115 :: (text "sh-ed25519" ++ (sep :: bl2) ++ enc ++ b :: s))
    with (text "ssh-ed25519" ++ (sep :: bl2) ++ enc ++ b :: s).
  assert (strlen (text "ssh-ed25519" ++ (sep :: bl2) ++ enc ++ b :: s)
    = Some (len (text "ssh-ed25519" ++ (sep :: bl2) ++ enc ++ t))) as ->.
  { rewrite Et, !app_assoc. apply strlen_app. rewrite !Forall_app. split_and!; try done.
    - vm_compute. repeat constructor; discriminate.
    - apply blank_nonzero. by constructor.
    - by apply b64_chars_nonzero. }
  cbn [mbind option_bind]. rewrite decide_False by (rewrite length_app; change (length (text "ssh-ed25519")) with 11%nat; lia).
  unfold rd_is. rewrite rd_bytes_app by done. cbn [mbind option_bind]. rewrite bool_decide_eq_true_2 by done.
  rewrite ptr_app by done. cbn [app]. change (rd (sep :: _) 0) with (Some sep). cbn [mbind option_bind].
  rewrite decide_True by done. rewrite Ee. cbn [app].
  change (sep :: bl2 ++ c :: e ++ b :: s) with ((sep :: bl2) ++ c :: e ++ b :: s).
  rewrite skip_blanks_app by (done || by constructor). cbn [mbind option_bind].
  change (c :: e ++ b :: s) with ((c :: e) ++ b :: s). rewrite <- Ee.
  rewrite b64_span_app by (done || lia). cbn [mbind option_bind]. rewrite Z.add_0_l.
  assert (len (key_blob pk) = 51) as Hkl by (unfold key_blob, put_nl; rewrite length_app, Nat2Z.inj_add, !put_str_len, Hl; done).
  unfold enc. rewrite b64_decode_encode by (done || lia). cbn [mbind option_bind].
  pose proof (key_from_blob pk [] Hl) as Hk. rewrite !app_nil_r in Hk. rewrite Hk by done.
  cbn [mbind option_bind]. rewrite <- (app_nil_r pk) at 1. by rewrite rd_bytes_app.
Qed.

(** C39: an authorized_keys line as [ssh-keygen] writes it -- blanks, the name
    [ssh-ed25519], blanks, the base64 of the key blob, then anything that does
    not continue the base64 text (comment, CR, LF or the end) -- yields exactly
    the 32 key bytes, for every key: the base64 decoder, its padding and the
    80-byte blob buffer are right, and nothing outside the line is read. *)
Theorem authkey_line_roundtrip bl1 bl2 sep pk rest :
  Forall is_blank bl1 -> is_blank sep -> Forall is_blank bl2 ->
  all_bytes pk -> len pk = 32 -> key_line_end rest ->
  ssh_parse_authkey_line (bl1 ++ text "ssh-ed25519" ++ (sep :: bl2) ++ b64_encode (key_blob pk) ++ rest)
    = Some (Some pk).
Proof. apply parse_authkey_line_key. Qed.

Lemma authkey_line_roundtrip_witness :
  ssh_parse_authkey_line ([] ++ text "ssh-ed25519" ++ [32] ++ b64_encode (key_blob (seqZ 7 32)) ++ text " me@host" ++ [0])
    = Some (Some (seqZ 7 32)).
Proof.
  apply (authkey_line_roundtrip [] [] 32 (seqZ 7 32) (text " me@host" ++ [0])).
  - apply Forall_nil. exact I.
  - left. reflexivity.
  - apply Forall_nil. exact I.
  - vm_compute. repeat (apply Forall_cons; split; [split; [discriminate|reflexivity]|]). apply Forall_nil. exact I.
  - reflexivity.
  - exists 32, (text "me@host" ++ [0]). split; [reflexivity|]. split; [vm_compute; intros [H|H]; [apply H; reflexivity|discriminate]|].
    exists (text " me@host"), []. split; [reflexivity|]. vm_compute.
    repeat (apply Forall_cons; split; [discriminate|]). apply Forall_nil. exact I.
Defined.

(** ** Parsing at the level of byte strings

    [get_string] is the reader without pointers, offsets and 16-bit lengths:
    from the bytes that remain of a packet, the string and what follows it. *)
Definition get_string (l : list Z) : option (list Z * list Z) :=
  match l with
  | a :: b :: c :: d :: l =>
      let n := a * 16777216 + b * 65536 + c * 256 + d in
      if decide (n <= len l) then Some (take (Z.to_nat n) l, drop (Z.to_nat n) l) else None
  | _ => None
  end.
Arguments get_string : simpl never.

(** The pointer [p] with length [n] denotes the byte string [x]. *)
Definition points (p : list Z) (n : Z) (x : list Z) : Prop := rd_bytes p 0 n = Some x /\ all_bytes p.

(** What remains of the packet [pl[0..plen)] from the offset [o]. *)
Record rest_at (pl : list Z) (plen o : Z) (l : list Z) : Prop := {
  ra_bytes : all_bytes pl;
  ra_plen : 0 <= plen <= 2048;
  ra_in : plen <= len pl;
  ra_off : 0 <= o <= plen;
  ra_rest : l = drop (Z.to_nat o) (take (Z.to_nat plen) pl);
}.

Lemma rest_at_len pl plen o l : rest_at pl plen o l -> len l = plen - o.
Proof. intros [? ? ? ? ->]. rewrite length_drop, length_take. lia. Qed.

Lemma get_string_put x r : is_u32 (len x) -> get_string (put_str x ++ r) = Some (x, r).
Proof.
  intros Hx. unfold put_str, put_u32, be32, get_string. cbn [app].
  rewrite <- un_be32_sum by apply u8_byte. rewrite un_be32_be32 by done.
  rewrite length_app, decide_True by lia. by rewrite Nat2Z.id, take_app_length, drop_app_length.
Qed.

Lemma get_string_Some l x r : all_bytes l -> get_string l = Some (x, r) -> l = put_str x ++ r /\ len l = 4 + len x + len r.
Proof.
  intros Hb H. assert (l = put_str x ++ r) as ->.
  { unfold get_string in H. destruct l as [|a [|b [|c [|d l]]]]; try done.
    rewrite !Forall_cons in Hb. destruct Hb as (?&?&?&?&Hl). revert H.
    rewrite <- un_be32_sum by done. pose proof (un_be32_range a b c d) as Hr.
    case_decide as Hd; [|done]. intros [= <- <-]. unfold put_str, put_u32.
    specialize (Hr ltac:(done) ltac:(done) ltac:(done) ltac:(done)). unfold is_u32 in Hr.
    rewrite length_take. rewrite Nat2Z.inj_min, Z2Nat.id, Z.min_l by lia.
    rewrite be32_un_be32 by done. cbn [app]. by rewrite take_drop. }
  rewrite length_app, Nat2Z.inj_add, put_str_len. split; [done|lia].
Qed.

Lemma points_ptr pl plen o l n : rest_at pl plen o l -> 0 <= n <= len l -> points (ptr pl o) n (take (Z.to_nat n) l).
Proof.
  intros H Hn. pose proof (rest_at_len _ _ _ _ H). destruct H as [Hb ? ? ? ->]. split; [|by apply ptr_bytes].
  rewrite <- rd_bytes_ptr by lia. rewrite <- (take_ptr pl plen) by lia. unfold rd_bytes.
  rewrite decide_True; [done|]. rewrite length_take. lia.
Qed.

(** [rd_string] computes [get_string]. *)
Lemma rd_string_get pl plen o l :
  rest_at pl plen o l ->
  exists r, rd_string pl plen o = Some r /\
    match r, get_string l with
    | Some (s, n, o'), Some (x, l') => points s n x /\ rest_at pl plen o' l' /\ n = len x
    | None, None => True
    | _, _ => False
    end.
Proof.
  intros H. pose proof (rest_at_len _ _ _ _ H) as Hl. destruct H as [Hb Hp Hin Ho El].
  destruct (rd_string_spec pl plen o) as (r & Er & Hr); [done|unfold is_u16; lia|lia..|].
  assert (all_bytes l) as Hlb by (subst l; by apply Forall_drop, Forall_take).
  exists r. split; [done|]. destruct r as [[[s n] o']|].
  - destruct Hr as (x & Hx & Hrd & -> & -> & -> & Ho').
    assert (l = put_str x ++ drop (Z.to_nat (o + 4 + len x)) (take (Z.to_nat plen) pl)) as El2.
    { unfold has_string in Hx. apply rd_bytes_Some in Hx as (_&_&_&_&E). rewrite E, El.
      rewrite <- (take_drop (Z.to_nat (4 + len x)) (drop (Z.to_nat o) (take (Z.to_nat plen) pl))) at 1.
      rewrite drop_drop. do 2 f_equal. lia. }
    rewrite El2, get_string_put by (unfold is_u32; lia). split_and!; [split; [done|by apply ptr_bytes]| |done].
    constructor; try done; lia.
  - destruct (get_string l) as [[x l']|] eqn:E; [|done].
    apply get_string_Some in E as [E1 E2]; [|done]. apply (Hr x); [unfold is_u32; lia|].
    unfold has_string. rewrite take_ptr by lia.
    destruct (points_ptr pl plen o l (4 + len x)) as [Hpt _]; [by constructor|lia|].
    rewrite rd_bytes_ptr by lia. rewrite Hpt. f_equal. rewrite E1.
    apply take_app_length'. pose proof (put_str_len x). lia.
Qed.

(** A whole byte string seen as a packet. *)
Lemma points_rest p n x : points p n x -> n <= 2048 -> rest_at p n 0 x.
Proof. intros [(?&?&?&?&E)%rd_bytes_Some Hb] Hn. constructor; try done; lia. Qed.

Lemma rest_at_byte pl plen o b l : rest_at pl plen o (b :: l) -> rd pl o = Some b /\ rest_at pl plen (o + 1) l /\ is_byte b.
Proof.
  intros H. pose proof (rest_at_len _ _ _ _ H) as Hl. cbn [length] in Hl. destruct H as [Hb Hp Hin Ho El].
  assert (rd pl o = Some b) as Hrd.
  { unfold rd. rewrite decide_True by lia. apply (f_equal (fun l => l !! O)) in El. cbn in El.
    rewrite lookup_drop, lookup_take in El. rewrite decide_True in El by lia. by rewrite Nat.add_0_r in El. }
  split_and!; [done| |by eapply rd_byte].
  constructor; try done; [lia|]. replace (Z.to_nat (o + 1)) with (Z.to_nat o + 1)%nat by lia.
  by rewrite <- drop_drop, <- El.
Qed.

(** Key and signature blobs at the level of byte strings. *)
Definition blob_body (want : Z) (x : list Z) : option (list Z) :=
  match get_string x with
  | Some (name, l) =>
      if decide (name = text "ssh-ed25519") then
        match get_string l with
        | Some (k, _) => if decide (len k = want) then Some k else None
        | None => None
        end
      else None
  | None => None
  end.

Lemma tok_eq_points p n x s : points p n x -> tok_eq p n s = Some (bool_decide (x = text s)).
Proof. intros [H _]. by apply tok_eq_spec. Qed.

Lemma blob_body_get want p n x :
  points p n x -> n <= 2048 ->
  exists r, ed25519_from_blob want p n = Some r /\
    match r, blob_body want x with
    | Some q, Some k => points q want k
    | None, None => True
    | _, _ => False
    end.
Proof.
  intros Hp Hn. pose proof (points_rest _ _ _ Hp Hn) as Hr0. unfold ed25519_from_blob, blob_body.
  destruct (rd_string_get _ _ _ _ Hr0) as ([[[q1 n1] o1]|] & -> & H1); cbn [mbind option_bind];
    destruct (get_string x) as [[name l1]|]; try done; [|by eexists].
  destruct H1 as (P1 & R1 & _). rewrite (tok_eq_points _ _ _ _ P1). cbn [mbind option_bind].
  case_bool_decide; [|rewrite decide_False by done; by eexists]. rewrite decide_True by done.
  destruct (rd_string_get _ _ _ _ R1) as ([[[q2 n2] o2]|] & -> & H2); cbn [mbind option_bind];
    destruct (get_string l1) as [[k l2]|]; try done; [|by eexists].
  destruct H2 as (P2 & _ & ->). eexists. split; [done|]. case_decide as E; [|done]. by rewrite <- E.
Qed.
