(* ===== verification/Crypto.v ===== *)
(** * The cryptographic interface (src/dosshd/crypto/crypto.h, rng.h)

    What the SSH server calls.  [Crypto] lists the operations of crypto.h and
    rng.h with byte strings for buffers; [CryptoOk] states what the server relies
    on: output lengths, bytes, and that ChaCha20 with the same key, nonce and
    counter undoes itself.  SHA-256 is not a parameter: it is Sha256.v. *)
From Stdlib Require Import ZArith Lia.
From stdpp Require Import base list numbers.
From S2P Require Import Prelude Sha256.
Local Open Scope Z_scope.

Class Crypto : Type := {
  (** shared = scalar * point *)
  dossh_x25519 : list Z -> list Z -> list Z;
  dossh_x25519_public_key : list Z -> list Z;
  (** secret key, message *)
  dossh_ed25519_sign : list Z -> list Z -> list Z;
  (** signature, public key, message; 0 when valid *)
  dossh_ed25519_verify : list Z -> list Z -> list Z -> Z;
  (** input ([None] for the null pointer), length, key, nonce, counter *)
  dossh_chacha20_djb : option (list Z) -> Z -> list Z -> list Z -> Z -> list Z;
  (** message, one-time key *)
  dossh_poly1305 : list Z -> list Z -> list Z;
  (** the state of the generator, [rng_bytes] and [rng_stir] *)
  rng : Type;
  rng_bytes : Z -> rng -> list Z * rng;
  rng_stir : Z -> rng -> rng;
}.

Class CryptoOk (C : Crypto) : Prop := {
  x25519_length k p : length (dossh_x25519 k p) = 32%nat;
  x25519_bytes k p : all_bytes (dossh_x25519 k p);
  x25519_public_key_length k : length (dossh_x25519_public_key k) = 32%nat;
  x25519_public_key_bytes k : all_bytes (dossh_x25519_public_key k);
  ed25519_sign_length k m : length (dossh_ed25519_sign k m) = 64%nat;
  ed25519_sign_bytes k m : all_bytes (dossh_ed25519_sign k m);
  chacha20_length i n k o c : 0 <= n -> len (dossh_chacha20_djb i n k o c) = n;
  chacha20_bytes i n k o c : all_bytes (dossh_chacha20_djb i n k o c);
  chacha20_involutive x n k o c :
    all_bytes x -> len x = n ->
    dossh_chacha20_djb (Some (dossh_chacha20_djb (Some x) n k o c)) n k o c = x;
  poly1305_length m k : length (dossh_poly1305 m k) = 16%nat;
  poly1305_bytes m k : all_bytes (dossh_poly1305 m k);
  rng_bytes_length n r : 0 <= n -> len (rng_bytes n r).1 = n;
  rng_bytes_bytes n r : all_bytes (rng_bytes n r).1;
}.

(** [dossh_sha256]; the digest does not depend on the uninitialised context on
    the stack (see [sha256_fips]). *)
Definition dossh_sha256 (m : list Z) : list Z := sha256 ctx0 m.

Lemma dossh_sha256_length m : length (dossh_sha256 m) = 32%nat.
Proof. apply sha256_length. Qed.
Lemma dossh_sha256_bytes m : all_bytes (dossh_sha256 m).
Proof. apply sha256_bytes. Qed.
Arguments dossh_sha256 : simpl never.

(** ** A toy instance

    For evaluating the protocol code on concrete inputs: a cipher that adds a
    position- and key-dependent mask, checksums for tags and signatures, a
    counter for the generator.  It satisfies the interface and nothing more. *)

Definition toy_sum (l : list Z) : Z := fold_left (fun a b => u16 (3 * a + b + 1)) l 0.
Definition toy_bytes (n : nat) (seed : Z) : list Z :=
  (fun i => u8 (seed + 7 * i + seed / 256)) <$> seqZ 0 (Z.of_nat n).
Definition toy_mask (k o : list Z) (c : Z) : Z := u16 (toy_sum k + 5 * toy_sum o + c).
Fixpoint toy_xor (x m : list Z) : list Z :=
  match x, m with a :: x, b :: m => u8 (Z.lxor a b) :: toy_xor x m | _, _ => [] end.
(** The input cut or zero-extended to [n] bytes. *)
Definition toy_input (i : option (list Z)) (n : nat) : list Z :=
  match i with None => replicate n 0 | Some x => take n x ++ replicate (n - length x) 0 end.

Definition toy : Crypto := {|
  dossh_x25519 k p := toy_bytes 32 (toy_sum k + toy_sum p);
  dossh_x25519_public_key k := toy_bytes 32 (toy_sum k);
  dossh_ed25519_sign k m := toy_bytes 64 (toy_sum k + toy_sum m);
  dossh_ed25519_verify s p m := if decide (s = toy_bytes 64 (toy_sum p + toy_sum m)) then 0 else -1;
  dossh_chacha20_djb i n k o c := toy_xor (toy_input i (Z.to_nat n)) (toy_bytes (Z.to_nat n) (toy_mask k o c));
  dossh_poly1305 m k := toy_bytes 16 (toy_sum m + 3 * toy_sum k);
  rng := Z;
  rng_bytes n r := (toy_bytes (Z.to_nat n) r, r + 1);
  rng_stir x r := r + x;
|}.

Lemma toy_bytes_length n s : length (toy_bytes n s) = n.
Proof. unfold toy_bytes. rewrite length_fmap, length_seqZ. lia. Qed.
Lemma toy_bytes_bytes n s : all_bytes (toy_bytes n s).
Proof. apply Forall_fmap, Forall_true. intros. apply u8_byte. Qed.
Lemma toy_xor_length x m : length x = length m -> length (toy_xor x m) = length x.
Proof. revert m. induction x as [|a x IH]; intros [|b m] H; try done. cbn. f_equal. apply IH. by injection H. Qed.
Lemma toy_xor_bytes x m : all_bytes (toy_xor x m).
Proof. revert m. induction x as [|a x IH]; intros [|b m]; cbn; try by apply Forall_nil. apply Forall_cons. split; [apply u8_byte|apply IH]. Qed.
Lemma toy_xor_xor x m : all_bytes x -> all_bytes m -> length x = length m -> toy_xor (toy_xor x m) m = x.
Proof.
  intros Hx. revert m. induction Hx as [|a x Ha _ IH]; intros [|b m] Hm H; try done. cbn.
  apply Forall_cons in Hm as [Hb Hm]. f_equal; [|apply IH; [done|by injection H]].
  assert (u8 (Z.lxor a b) = Z.lxor a b) as ->.
  { apply u8_id. split; [apply Z.lxor_nonneg; unfold is_byte in *; lia|].
    destruct (decide (Z.lxor a b = 0)) as [->|Hne]; [done|].
    assert (0 <= Z.lxor a b) by (apply Z.lxor_nonneg; unfold is_byte in *; lia).
    change 256 with (2 ^ 8). apply Z.log2_lt_pow2; [lia|].
    pose proof (Z.log2_lxor a b ltac:(unfold is_byte in *; lia) ltac:(unfold is_byte in *; lia)).
    assert (forall z, is_byte z -> Z.log2 z < 8) as Hlog.
    { intros z Hz. unfold is_byte in Hz. destruct (decide (z = 0)) as [->|]; [done|]. apply Z.log2_lt_pow2; lia. }
    pose proof (Hlog a Ha). pose proof (Hlog b Hb). lia. }
  rewrite Z.lxor_assoc, Z.lxor_nilpotent, Z.lxor_0_r. by apply u8_id.
Qed.
Lemma toy_input_length i n : length (toy_input i n) = n.
Proof. destruct i; cbn; rewrite ?length_app, ?length_take, ?length_replicate; lia. Qed.

#[export] Instance toy_ok : CryptoOk toy.
Proof.
  constructor; cbn [dossh_x25519 dossh_x25519_public_key dossh_ed25519_sign dossh_chacha20_djb
    dossh_poly1305 rng rng_bytes toy fst]; intros; auto using toy_bytes_length, toy_bytes_bytes, toy_xor_bytes.
  - rewrite toy_xor_length; rewrite toy_input_length; [lia|by rewrite toy_bytes_length].
  - assert (forall y, length y = length x -> toy_input (Some y) (Z.to_nat n) = y) as E.
    { intros y Hy. cbn. rewrite take_ge by lia. replace (Z.to_nat n - length y)%nat with O by lia. apply app_nil_r. }
    rewrite (E x) by done. rewrite E.
    + apply toy_xor_xor; [done|apply toy_bytes_bytes|rewrite toy_bytes_length; lia].
    + rewrite toy_xor_length; [done|rewrite toy_bytes_length; lia].
  - rewrite toy_bytes_length. lia.
Qed.
