(* ===== verification/Rng.v ===== *)
(** * The random-number generator (src/dosshd/crypto/rng.c)

    The entropy pool, the ChaCha20 generator with fast key erasure and its
    seeding.  The hardware (cycle counter, clock chip, BIOS tick, low memory) is a
    record of readings the theorems quantify over; the host-only branches and the
    test hook are not modelled.  Statics that are wiped at the end of a call and
    written before every use are local here. *)
From Stdlib Require Import ZArith Lia.
From stdpp Require Import base list numbers.
From S2P Require Import Prelude MonoLe Chacha20 Sha256 Crypto.
Local Open Scope Z_scope.

Definition POOL_WORDS : Z := 32.

(** What the generator reads: the [n]-th reading of the cycle counter, a register
    of the clock chip, the tick count of the BIOS, a byte of memory.  Each of the
    others is read once. *)
Record hardware := Hw { tsc : nat -> Z; cmos_read : Z -> Z; bios_tick : Z; memory : Z -> Z }.

(** The statics of rng.c, and the readings of the counter so far. *)
Record rng_state := Rng {
  pool : list Z; pool_idx : Z; pool_stir : Z;
  drbg_key : list Z; drbg_ctr : Z; drbg_calls : Z; drbg_ready : bool;
  tsc_reads : nat
}.
#[export] Instance rng_state_eta : Eta rng_state := fun r =>
  Rng (pool r) (pool_idx r) (pool_stir r) (drbg_key r) (drbg_ctr r) (drbg_calls r) (drbg_ready r) (tsc_reads r).
#[export] Instance upd_pool : Upd pool := ltac:(derive_upd pool).
#[export] Instance upd_pool_idx : Upd pool_idx := ltac:(derive_upd pool_idx).
#[export] Instance upd_pool_stir : Upd pool_stir := ltac:(derive_upd pool_stir).
#[export] Instance upd_drbg_key : Upd drbg_key := ltac:(derive_upd drbg_key).
#[export] Instance upd_drbg_ctr : Upd drbg_ctr := ltac:(derive_upd drbg_ctr).
#[export] Instance upd_drbg_calls : Upd drbg_calls := ltac:(derive_upd drbg_calls).
#[export] Instance upd_drbg_ready : Upd drbg_ready := ltac:(derive_upd drbg_ready).
#[export] Instance upd_tsc_reads : Upd tsc_reads := ltac:(derive_upd tsc_reads).
(** The statics before the first call. *)
Definition rng0 : rng_state := Rng (replicate 32 0) 0 0 (replicate 32 0) 0 0 false 0.

(** [dossh_chacha20] of crypto.c: the raw keystream. *)
Definition dossh_chacha20 (key nonce : list Z) (counter n : Z) : option (list Z) :=
  fst <$> crypto_chacha20_ietf None n key nonce counter.

Section rng.
Context (h : hardware).
Implicit Types s : rng_state.

Definition rng_rdtsc : M rng_state Z :=
  n ← gets tsc_reads; modify (fun s => s <| tsc_reads := S n |>) ;; mret (u32 (tsc h n)).

Definition rng_stir (sample : Z) : M rng_state unit :=
  i ← gets pool_idx;
  let i := Z.land i (POOL_WORDS - 1) in
  r ← rng_rdtsc;
  let t := Z.lxor sample (u16 r) in
  n ← gets pool_stir;
  let t := u16 (t + n) in
  p ← gets pool;
  w ← lift (rd p i);
  let w := u16 (w + t) in
  let w := Z.lor (u16 (Z.shiftl w 7)) (Z.shiftr w 9) in
  let w := Z.lxor w (u16 (Z.shiftl t 3)) in
  p ← Prelude.poke p i w;
  modify (fun s => s <| pool := p |>) ;;
  modify (fun s => s <| pool_idx := u16 (i + 1) |>) ;;
  modify (fun s => s <| pool_stir := u16 (n + 1) |>).

(** The words of the pool as they lie in memory. *)
Definition pool_bytes (p : list Z) : list Z := p ≫= fun w => [u8 w; u8 (Z.shiftr w 8)].

Definition rng_reseed : M rng_state unit :=
  k ← gets drbg_key; p ← gets pool; st ← gets pool_stir; ix ← gets pool_idx; c ← gets drbg_ctr;
  tick ← rng_rdtsc;
  material ← fits 104 (k ++ pool_bytes p ++ [u8 st; u8 (Z.shiftr st 8); u8 ix; u8 (Z.shiftr ix 8)]
                       ++ [u8 c; u8 (Z.shiftr c 8); u8 tick; u8 (Z.shiftr tick 8)]);
  modify (fun s => s <| drbg_key := dossh_sha256 material |>) ;;
  modify (fun s => s <| drbg_calls := 0 |>) ;;
  modify (fun s => s <| drbg_ready := true |>).

(** [for (i = 0; i < n; i++) rng_stir(sample(i))] *)
Fixpoint stir_each (samples : list Z) : M rng_state unit :=
  match samples with [] => skip | x :: samples => rng_stir x ;; stir_each samples end.
(** [for (i = 0; i < n; i++) rng_stir((unsigned)rng_rdtsc());] *)
Fixpoint stir_tsc (n : nat) : M rng_state unit :=
  match n with O => skip | S n => r ← rng_rdtsc; rng_stir (u16 r) ;; stir_tsc n end.

Definition rng_init : M rng_state unit :=
  stir_tsc 512 ;;
  rng_stir (u16 (bios_tick h)) ;;
  rng_stir (u16 (Z.shiftr (bios_tick h) 16)) ;;
  stir_each (cmos_read h <$> [0x00; 0x02; 0x04; 0x06; 0x07; 0x08; 0x09; 0x32; 0x0A]) ;;
  stir_each ((fun i => memory h (0x400 + i)) <$> seqZ 0 256) ;;
  stir_each ((fun i => Z.lor (memory h (2 * i)) (Z.shiftl (memory h (2 * i + 1)) 8)) <$> seqZ 0 512) ;;
  stir_tsc 512 ;;
  rng_reseed.

(** The loop of [rng_bytes]; it takes at least one byte a round. *)
Fixpoint draw (fuel : nat) (n : Z) : M rng_state (list Z) :=
  match fuel with
  | O => mret []
  | S fuel =>
      if decide (n = 0) then mret []
      else
        let take_ := if decide (n < 32) then n else 32 in
        c ← gets drbg_ctr;
        let nonce := [u8 c; u8 (Z.shiftr c 8); u8 (Z.shiftr c 16); u8 (Z.shiftr c 24)] ++ replicate 8 0 in
        k ← gets drbg_key;
        ks ← lift (dossh_chacha20 k nonce 0 64);
        modify (fun s => s <| drbg_key := take 32 ks |>) ;;
        modify (fun s => s <| drbg_ctr := u32 (c + 1) |>) ;;
        rest ← draw fuel (n - take_);
        mret (take (Z.to_nat take_) (drop 32 ks) ++ rest)
  end.

Definition rng_bytes (n : Z) : M rng_state (list Z) :=
  ready ← gets drbg_ready;
  when (negb ready) rng_init ;;
  out ← draw (Z.to_nat n) n;
  calls ← gets drbg_calls;
  let calls := u32 (calls + 1) in
  modify (fun s => s <| drbg_calls := calls |>) ;;
  when (bool_decide (Z.land calls 0x3f = 0)) rng_reseed ;;
  mret out.

(** ** The generator as a chain of keys *)

(** [m] blocks from [key] on: each block's upper half is output, its lower half is
    the next key. *)
Local Abbreviation half_block key ctr := (keystream 64 key (replicate 8 0) (ctr * 2 ^ 32)).
Fixpoint chain (m : nat) (key : list Z) (ctr : Z) : list Z * list Z :=
  match m with
  | O => ([], key)
  | S m =>
      let b := half_block key ctr in
      let '(out, k) := chain m (take 32 b) ((ctr + 1) mod 2 ^ 32) in
      (drop 32 b ++ out, k)
  end.
(** What a reseed hashes. *)
Definition seed_material (s : rng_state) (tick : Z) : list Z :=
  drbg_key s ++ pool_bytes (pool s) ++ le_bytes 2 (pool_stir s) ++ le_bytes 2 (pool_idx s) ++ le_bytes 2 (drbg_ctr s) ++ le_bytes 2 tick.

(** ** Invariant *)

Record rng_wf (s : rng_state) : Prop := {
  rw_pool : length (pool s) = 32%nat;
  rw_words : Forall is_u16 (pool s);
  rw_key : length (drbg_key s) = 32%nat;
  rw_key_bytes : all_bytes (drbg_key s);
  rw_ctr : is_u32 (drbg_ctr s);
  rw_calls : 0 <= drbg_calls s
}.

Lemma half_block_ok key ctr : length key = 32%nat -> all_bytes key ->
  length (half_block key ctr) = 64%nat /\ all_bytes (half_block key ctr).
Proof.
  intros Lk Bk. split; [|apply keystream_bytes].
  assert (len (keystream 64 key (replicate 8 0) (ctr * 2 ^ 32)) = 64) as L; [|lia].
  apply keystream_length; try done. apply Forall_replicate. unfold is_byte. lia.
Qed.

(** The counter of the generator is the upper half of ChaCha20's. *)
Lemma ietf_counter key c n : is_u32 c ->
  crypto_chacha20_ietf None n key (le_bytes 4 c ++ replicate 8 0) 0 =
  '(o, r) ← crypto_chacha20_djb None n key (replicate 8 0) (c * 2 ^ 32); Some (o, u32 r).
Proof.
  intros Hc. unfold crypto_chacha20_ietf.
  assert (all_bytes (le_bytes 4 c ++ replicate 8 0)) as B.
  { apply Forall_app. split; [apply le_bytes_bytes|]. apply Forall_replicate. unfold is_byte. lia. }
  rewrite load32_le_spec by (first [exact B | lia | rewrite length_app, le_bytes_length; lia]).
  change (Z.to_nat 0) with 0%nat. rewrite drop_0, take_app_le by (by rewrite le_bytes_length). rewrite take_ge by (by rewrite le_bytes_length).
  rewrite le_value_bytes, Z.mod_small by exact Hc. cbn [mbind option_bind].
  rewrite drop_app_ge, le_bytes_length, Nat.sub_diag, drop_0 by (by rewrite le_bytes_length).
  rewrite Z.add_0_l, Z.shiftl_mul_pow2 by lia.
  unfold u64. rewrite (Z.mod_small (c * 2 ^ 32)) by (unfold is_u32 in Hc; lia). reflexivity.
Qed.
Lemma first_of (ks ks' : list Z) r (o : option (list Z * Z)) : o = Some (ks', r) -> ks' = ks ->
  fst <$> ('(o, r) ← o; Some (o, u32 r)) = Some ks.
Proof. by intros -> ->. Qed.
Lemma chacha20_block key c : length key = 32%nat -> all_bytes key -> is_u32 c ->
  dossh_chacha20 key ([u8 c; u8 (Z.shiftr c 8); u8 (Z.shiftr c 16); u8 (Z.shiftr c 24)] ++ replicate 8 0) 0 64 = Some (half_block key c).
Proof.
  intros Lk Bk Hc. unfold dossh_chacha20.
  assert ([u8 c; u8 (Z.shiftr c 8); u8 (Z.shiftr c 16); u8 (Z.shiftr c 24)] = le_bytes 4 c) as ->.
  { cbn [le_bytes]. rewrite !Z.shiftr_div_pow2, !Z.div_div by lia. done. }
  rewrite ietf_counter by done.
  assert (all_bytes (replicate 8 0)) as B0 by (apply Forall_replicate; unfold is_byte; lia).
  destruct (half_block_ok key c Lk Bk) as [L _]. eapply first_of.
  - apply djb_stream; try assumption; [reflexivity|unfold is_u32 in Hc; lia|lia|exact I].
  - revert L. generalize (half_block key c). intros ks L.
    unfold text_of. replace (Z.to_nat 64) with (length ks) by (rewrite L; lia). apply xor_zeros.
Qed.

Definition blocks_for (n : Z) : nat := Z.to_nat ((n + 31) / 32).
Lemma blocks_for_S n : 0 < n -> blocks_for n = S (blocks_for (n - Z.min n 32)).
Proof.
  intros Hn. unfold blocks_for. destruct (decide (n < 32)).
  - rewrite Z.min_l, Z.sub_diag by lia. change (Z.to_nat ((0 + 31) / 32)) with 0%nat.
    replace ((n + 31) / 32) with 1 by (apply (Z.div_unique _ _ _ (n - 1)); lia). done.
  - rewrite Z.min_r by lia. replace (n + 31) with (n - 32 + 31 + 1 * 32) by lia. rewrite Z.div_add by lia.
    rewrite Z2Nat.inj_add by (try apply Z.div_pos; lia). lia.
Qed.

Lemma ctr_id s : rng_wf s -> s <| drbg_key := drbg_key s |> <| drbg_ctr := (drbg_ctr s + Z.of_nat 0) mod 2 ^ 32 |> = s.
Proof.
  intros W. pose proof (rw_ctr _ W) as Hc. unfold is_u32 in Hc. change 4294967296 with (2 ^ 32) in Hc.
  rewrite Z.add_0_r, (Z.mod_small (drbg_ctr s)) by exact Hc. by destruct s.
Qed.
Lemma draw_spec fuel : forall n s, rng_wf s -> 0 <= n <= Z.of_nat fuel ->
  draw fuel n s =
  let m := blocks_for n in
  let '(out, k) := chain m (drbg_key s) (drbg_ctr s) in
  Some (take (Z.to_nat n) out, s <| drbg_key := k |> <| drbg_ctr := (drbg_ctr s + Z.of_nat m) mod 2 ^ 32 |>).
Proof.
  induction fuel as [|fuel IH]; intros n s W Hn.
  - assert (n = 0) as -> by lia. change (blocks_for 0) with 0%nat. cbv zeta. cbn [chain]. by rewrite (ctr_id s W).
  - cbn [draw]. destruct (decide (n = 0)) as [->|Hn0].
    { change (blocks_for 0) with 0%nat. cbv zeta. cbn [chain]. by rewrite (ctr_id s W). }
    assert ((if decide (n < 32) then n else 32) = Z.min n 32) as -> by (destruct (decide (n < 32)); lia).
    destruct (half_block_ok (drbg_key s) (drbg_ctr s) (rw_key _ W) (rw_key_bytes _ W)) as [L B].
    rewrite blocks_for_S by lia. cbv zeta. cbn [chain]. unfold mbind, M_bind, gets.
    rewrite chacha20_block by apply W. cbn [lift modify]. set (b := half_block (drbg_key s) (drbg_ctr s)) in *.
    assert (rng_wf (s <| drbg_key := take 32 b |> <| drbg_ctr := u32 (drbg_ctr s + 1) |>)) as W'.
    { constructor; fld; try apply W; [rewrite length_take; lia|by apply Forall_take|apply u32_range]. }
    unfold modify. rewrite (IH (n - Z.min n 32) _ W') by lia. cbv zeta. fld. unfold u32. change 4294967296 with (2 ^ 32).
    destruct (chain _ (take 32 b) ((drbg_ctr s + 1) mod 2 ^ 32)) as [out k]. unfold mret, M_ret. do 2 f_equal.
    + rewrite take_app, length_drop, L. replace (64 - 32)%nat with 32%nat by lia. destruct (decide (n < 32)).
      * rewrite Z.min_l, Z.sub_diag by lia. replace (Z.to_nat n - 32)%nat with 0%nat by lia. done.
      * rewrite Z.min_r by lia. rewrite !(take_ge (drop 32 b)) by (rewrite length_drop; lia). do 2 f_equal. lia.
    + rewrite Zplus_mod_idemp_l. replace (drbg_ctr s + 1 + Z.of_nat (blocks_for (n - Z.min n 32))) with (drbg_ctr s + Z.of_nat (S (blocks_for (n - Z.min n 32)))) by lia.
      by destruct s.
Qed.

(** ** The operations keep the invariant *)

Definition rsafe {A} (m : M rng_state A) : Prop := forall s, rng_wf s -> wp m (fun _ s' => rng_wf s') s.
Lemma rsafe_bind {A B} (m : M rng_state A) (k : A -> M rng_state B) : rsafe m -> (forall a, rsafe (k a)) -> rsafe (m ≫= k).
Proof. intros Hm Hk s W. apply wp_bind. eapply wp_mono; [by apply Hm|]. intros a s' W'. by apply Hk. Qed.

Lemma rdtsc_wp Q s : (forall r, is_u32 r -> Q r (s <| tsc_reads := S (tsc_reads s) |>)) -> wp rng_rdtsc Q s.
Proof. intros HQ. apply HQ, u32_range. Qed.
Lemma wf_tsc s n : rng_wf s -> rng_wf (s <| tsc_reads := n |>).
Proof. intros []. by constructor; fld. Qed.

(** A stir changes the pool and its indices, nothing of the generator. *)
Definition generator (s : rng_state) : list Z * Z * Z * bool := (drbg_key s, drbg_ctr s, drbg_calls s, drbg_ready s).
Lemma stir_wp x s : rng_wf s -> wp (rng_stir x) (fun _ s' => rng_wf s' /\ generator s' = generator s) s.
Proof.
  intros W. unfold rng_stir. apply wp_bind, wp_gets, wp_bind, rdtsc_wp. intros r _.
  apply wp_bind, wp_gets, wp_bind, wp_gets. fld. set (i := Z.land (pool_idx s) (POOL_WORDS - 1)).
  assert (0 <= i < 32) as Hi.
  { unfold i. change (POOL_WORDS - 1) with (Z.ones 5). rewrite Z.land_ones by lia. apply Z.mod_pos_bound. lia. }
  destruct (lookup_lt_is_Some_2 (pool s) (Z.to_nat i)) as [w Ew]; [rewrite (rw_pool _ W); lia|].
  apply wp_bind. eapply wp_lift; [unfold rd; rewrite decide_True by lia; exact Ew|].
  apply wp_bind, wp_poke; [rewrite (rw_pool _ W); lia|].
  set (t := u16 (Z.lxor x (u16 r) + pool_stir s)). set (v := Z.lxor _ _).
  assert (is_u16 v) as Hv.
  { assert (is_u16 w) as Hw by (eapply Forall_lookup_1; [apply W|exact Ew]).
    assert (forall a b, is_u16 a -> is_u16 b -> is_u16 (Z.lxor a b)) as X.
    { intros a b Ha Hb. unfold is_u16 in *. change 65536 with (2 ^ 16) in *.
      rewrite <- (Z.mod_small a (2 ^ 16)), <- (Z.mod_small b (2 ^ 16)), <- lxor_mod by lia. by apply Z.mod_pos_bound. }
    assert (forall a b, is_u16 a -> is_u16 b -> is_u16 (Z.lor a b)) as O.
    { intros a b Ha Hb. unfold is_u16 in *. change 65536 with (2 ^ 16) in *. split; [apply Z.lor_nonneg; lia|].
      destruct (decide (Z.lor a b = 0)) as [->|]; [lia|]. assert (0 <= Z.lor a b) by (apply Z.lor_nonneg; lia).
      apply Z.log2_lt_pow2; [lia|]. rewrite Z.log2_lor by lia.
      assert (forall z, 0 <= z < 2 ^ 16 -> Z.log2 z < 16) as Hlog.
      { intros z Hz. destruct (decide (z = 0)) as [->|]; [done|]. apply Z.log2_lt_pow2; lia. }
      pose proof (Hlog a Ha). pose proof (Hlog b Hb). lia. }
    apply X; [apply O; [apply u16_range|]|apply u16_range]. rewrite Z.shiftr_div_pow2 by lia. pose proof (u16_range (w + t)) as R.
    unfold is_u16 in *. split; [apply Z.div_pos; lia|]. apply Z.div_lt_upper_bound; lia. }
  clearbody v. split; [|by destruct s].
  destruct W. constructor; fld; try done; [by rewrite length_insert|by apply Forall_insert].
Qed.
Lemma stir_safe x : rsafe (rng_stir x).
Proof. intros s W. eapply wp_mono; [by apply stir_wp|]. by intros ? ? []. Qed.
Lemma rdtsc_safe : rsafe rng_rdtsc.
Proof. intros s W. apply rdtsc_wp. intros r _. by apply wf_tsc. Qed.
Lemma stir_each_safe l : rsafe (stir_each l).
Proof. induction l as [|x l IH]; [by intros s W|]. apply rsafe_bind; [apply stir_safe|intros _; exact IH]. Qed.
Lemma stir_tsc_safe n : rsafe (stir_tsc n).
Proof.
  induction n as [|n IH]; [by intros s W|]. apply rsafe_bind; [apply rdtsc_safe|intros r].
  apply rsafe_bind; [apply stir_safe|intros _; exact IH].
Qed.

Lemma pool_bytes_length p : length (pool_bytes p) = (2 * length p)%nat.
Proof. induction p as [|w p IH]; [done|]. unfold pool_bytes in *. cbn. rewrite IH. lia. Qed.
Lemma le_bytes_2 v : le_bytes 2 v = [u8 v; u8 (Z.shiftr v 8)].
Proof. cbn [le_bytes]. by rewrite Z.shiftr_div_pow2 by lia. Qed.
Lemma seed_material_length s t : rng_wf s -> len (seed_material s t) = 104.
Proof. intros []. unfold seed_material. rewrite !length_app, pool_bytes_length, !le_bytes_length. lia. Qed.

Lemma reseed_run s : rng_wf s ->
  rng_reseed s = Some (tt, s <| tsc_reads := S (tsc_reads s) |> <| drbg_key := dossh_sha256 (seed_material s (u32 (tsc h (tsc_reads s)))) |>
                             <| drbg_calls := 0 |> <| drbg_ready := true |>).
Proof.
  intros W. pose proof (seed_material_length s (u32 (tsc h (tsc_reads s))) W) as L. unfold seed_material in L |- *. rewrite !le_bytes_2 in L |- *.
  change ([u8 (pool_stir s); u8 (pool_stir s ≫ 8)] ++ [u8 (pool_idx s); u8 (pool_idx s ≫ 8)] ++
          [u8 (drbg_ctr s); u8 (drbg_ctr s ≫ 8)] ++ [u8 (u32 (tsc h (tsc_reads s))); u8 (u32 (tsc h (tsc_reads s)) ≫ 8)])
    with ([u8 (pool_stir s); u8 (pool_stir s ≫ 8); u8 (pool_idx s); u8 (pool_idx s ≫ 8)] ++
          [u8 (drbg_ctr s); u8 (drbg_ctr s ≫ 8); u8 (u32 (tsc h (tsc_reads s))); u8 (u32 (tsc h (tsc_reads s)) ≫ 8)]) in L |- *.
  unfold rng_reseed, rng_rdtsc, mbind, M_bind, gets, modify, mret, M_ret, fits. rewrite decide_True by lia. done.
Qed.
Lemma reseed_safe s : rng_wf s -> wp rng_reseed (fun _ s' => rng_wf s' /\ drbg_ready s' = true) s.
Proof.
  intros W. unfold wp. rewrite reseed_run by done. split; [|done]. destruct W.
  constructor; fld; [done|done|apply dossh_sha256_length|apply dossh_sha256_bytes|done|lia].
Qed.
Lemma init_safe s : rng_wf s -> wp rng_init (fun _ s' => rng_wf s' /\ drbg_ready s' = true) s.
Proof.
  intros W. unfold rng_init.
  do 7 (apply wp_bind; eapply wp_mono; [first [apply stir_tsc_safe|apply stir_safe|apply stir_each_safe]; eassumption|cbn beta; intros _ ? ?]).
  by apply reseed_safe.
Qed.

Lemma chain_ok m : forall key ctr, length key = 32%nat -> all_bytes key ->
  let '(out, k) := chain m key ctr in length out = (32 * m)%nat /\ all_bytes out /\ length k = 32%nat /\ all_bytes k.
Proof.
  induction m as [|m IH]; intros key ctr Lk Bk; cbn [chain]; [by split_and!|].
  destruct (half_block_ok key ctr Lk Bk) as [L B]. revert L B. generalize (half_block key ctr). intros b L B.
  specialize (IH (take 32 b) ((ctr + 1) mod 2 ^ 32) ltac:(rewrite length_take; lia) ltac:(by apply Forall_take)).
  destruct (chain m _ _) as [out k]. destruct IH as (Lo & Bo & Lk' & Bk').
  split_and!; [rewrite length_app, length_drop; lia|apply Forall_app; split; [by apply Forall_drop|done]|done|done].
Qed.

(** The state after the blocks, and after a reseed. *)
Definition drawn (n : Z) (s : rng_state) (k : list Z) : rng_state :=
  s <| drbg_key := k |> <| drbg_ctr := (drbg_ctr s + Z.of_nat (blocks_for n)) mod 2 ^ 32 |> <| drbg_calls := u32 (drbg_calls s + 1) |>.
Definition reseeded (s : rng_state) : rng_state :=
  s <| tsc_reads := S (tsc_reads s) |> <| drbg_key := dossh_sha256 (seed_material s (u32 (tsc h (tsc_reads s)))) |>
    <| drbg_calls := 0 |> <| drbg_ready := true |>.
Lemma drawn_wf n s k : rng_wf s -> length k = 32%nat -> all_bytes k -> rng_wf (drawn n s k).
Proof.
  intros [] Lk Bk. unfold drawn. constructor; fld; try assumption; [unfold is_u32; change (2 ^ 32) with 4294967296; apply Z.mod_pos_bound; lia|].
  pose proof (u32_range (drbg_calls s + 1)) as R. unfold is_u32 in R. lia.
Qed.
Lemma ready_bytes n s : rng_wf s -> drbg_ready s = true ->
  rng_bytes n s =
  let '(out, k) := chain (blocks_for n) (drbg_key s) (drbg_ctr s) in
  Some (take (Z.to_nat n) out, if decide ((drbg_calls s + 1) mod 64 = 0) then reseeded (drawn n s k) else drawn n s k).
Proof.
  intros W R. unfold rng_bytes, mbind, M_bind, gets. rewrite R. cbn [negb when skip mret M_ret].
  assert (0 <= Z.max n 0 <= Z.of_nat (Z.to_nat n)) as Hn by lia.
  assert (draw (Z.to_nat n) n s = draw (Z.to_nat n) (Z.max n 0) s) as ->.
  { destruct (decide (n <= 0)); [|by rewrite Z.max_l by lia]. rewrite Z2Nat.nonpos by lia. done. }
  rewrite draw_spec by done. assert (blocks_for (Z.max n 0) = blocks_for n) as ->.
  { unfold blocks_for. destruct (decide (n <= 0)); [|by rewrite Z.max_l by lia]. rewrite Z.max_r by lia.
    rewrite (Z2Nat.nonpos ((n + 31) / 32)); [done|]. assert ((n + 31) / 32 < 1) by (apply Z.div_lt_upper_bound; lia). lia. }
  assert (Z.to_nat (Z.max n 0) = Z.to_nat n) as -> by lia. cbv zeta.
  pose proof (chain_ok (blocks_for n) (drbg_key s) (drbg_ctr s) (rw_key _ W) (rw_key_bytes _ W)) as Hk.
  destruct (chain _ _ _) as [out k]. destruct Hk as (_ & _ & Lk & Bk).
  assert (Z.land (u32 (drbg_calls s + 1)) 63 = (drbg_calls s + 1) mod 64) as Em.
  { change 63 with (Z.ones 6). rewrite Z.land_ones by lia. change (2 ^ 6) with 64. unfold u32. Z.div_mod_to_equations. lia. }
  unfold modify. fld. rewrite Em. pose proof (drawn_wf n s k W Lk Bk) as Wd. unfold drawn in Wd |- *.
  rewrite bool_decide_decide. destruct (decide _); cbn [when]; [|done]. by rewrite reseed_run.
Qed.

(** Whatever was drawn before, the bytes can be drawn. *)
Lemma bytes_safe n s : rng_wf s ->
  wp (rng_bytes n) (fun out s' => (rng_wf s' /\ drbg_ready s' = true) /\ length out = Z.to_nat n /\ all_bytes out) s.
Proof.
  intros W.
  assert (forall s, rng_wf s -> drbg_ready s = true ->
    wp (rng_bytes n) (fun out s' => (rng_wf s' /\ drbg_ready s' = true) /\ length out = Z.to_nat n /\ all_bytes out) s) as Hr.
  { clear s W. intros s W R. unfold wp. rewrite ready_bytes by done.
    pose proof (chain_ok (blocks_for n) (drbg_key s) (drbg_ctr s) (rw_key _ W) (rw_key_bytes _ W)) as Hk.
    destruct (chain _ _ _) as [out k]. destruct Hk as (Lo & Bo & Lk & Bk). pose proof (drawn_wf n s k W Lk Bk) as Wd. split.
    - destruct (decide _); [|split; [done|exact R]]. split; [|done]. pose proof (reseed_safe _ Wd) as Hs. unfold wp in Hs.
      rewrite reseed_run in Hs by done. by destruct Hs.
    - split; [|by apply Forall_take]. rewrite length_take, Lo. unfold blocks_for. destruct (decide (n <= 0)); [lia|].
      assert (n <= 32 * ((n + 31) / 32)) by (Z.div_mod_to_equations; lia). lia. }
  destruct (drbg_ready s) eqn:R; [by apply Hr|].
  assert (exists s1, rng_init s = Some (tt, s1) /\ rng_wf s1 /\ drbg_ready s1 = true) as (s1 & E1 & W1 & R1).
  { pose proof (init_safe s W) as Hi. apply wp_run in Hi as ([] & s1 & E1 & H1). eauto. }
  specialize (Hr s1 W1 R1). revert Hr. unfold wp, rng_bytes, mbind, M_bind, gets. rewrite R, R1. cbn [negb when skip mret M_ret]. by rewrite E1.
Qed.

(** C26: The generator is fast-key-erasure ChaCha20.  Once seeded, a call for [n]
    bytes, for every [n], returns the first [n] bytes of the upper halves of the
    blocks of a chain in which every block is made with the lower half of the
    block before as its key and the counter, counting modulo 2^32, as its upper
    counter half; the key kept at the end is the lower half of the last block,
    so no key that produced output survives the call.  Every 64th call then
    replaces that key by the digest of key, pool, indices, counter and cycle
    counter and restarts the count; nothing else changes. *)
Theorem rng_bytes_chain n s : rng_wf s -> drbg_ready s = true ->
  rng_bytes n s =
  let '(out, k) := chain (blocks_for n) (drbg_key s) (drbg_ctr s) in
  Some (take (Z.to_nat n) out, if decide ((drbg_calls s + 1) mod 64 = 0) then reseeded (drawn n s k) else drawn n s k).
Proof. apply ready_bytes. Qed.

(** The pool and the generator stay well formed: stirring, seeding from the
    hardware and reseeding never index outside the pool or overrun the 104 bytes
    of material, whatever the hardware returns, and a draw from any well-formed
    state, seeded or not, gives [n] bytes and leaves a seeded generator. *)
Theorem rng_total s x n : rng_wf s ->
  wp (rng_stir x) (fun _ s' => rng_wf s' /\ generator s' = generator s) s /\
  wp rng_init (fun _ s' => rng_wf s' /\ drbg_ready s' = true) s /\
  wp rng_reseed (fun _ s' => rng_wf s' /\ drbg_ready s' = true) s /\
  wp (rng_bytes n) (fun out s' => (rng_wf s' /\ drbg_ready s' = true) /\ length out = Z.to_nat n /\ all_bytes out) s.
Proof. intros W. split_and!; [by apply stir_wp|by apply init_safe|by apply reseed_safe|by apply bytes_safe]. Qed.
End rng.

Lemma rng0_wf : rng_wf rng0.
Proof.
  constructor; cbn [rng0 pool drbg_key drbg_ctr drbg_calls]; [done|apply Forall_replicate; unfold is_u16; lia|done| |unfold is_u32; lia|lia].
  apply Forall_replicate. unfold is_byte. lia.
Qed.

Definition demo_hw : hardware := Hw (fun n => 1000 * Z.of_nat n) (fun r => r) 12345 (fun a => u8 a).
(** The 64th call, with the counter about to wrap. *)
Definition demo_rng : rng_state := rng0 <| drbg_ready := true |> <| drbg_calls := 63 |> <| drbg_ctr := 2 ^ 32 - 1 |>.
Lemma rng_bytes_chain_witness :
  fst <$> rng_bytes demo_hw 40 demo_rng = Some (take 40 (chain 2 (replicate 32 0) (2 ^ 32 - 1)).1) /\
  take 4 (chain 2 (replicate 32 0) (2 ^ 32 - 1)).1 = [101; 245; 172; 186].
Proof.
  split; [|vm_compute; reflexivity].
  assert (rng_wf demo_rng) as W by (destruct rng0_wf; constructor; cbn; [assumption|assumption|assumption|assumption|unfold is_u32; lia|lia]).
  rewrite (rng_bytes_chain demo_hw 40 demo_rng W eq_refl).
  change (blocks_for 40) with 2%nat. cbn [demo_rng drbg_key drbg_ctr].
  change (drbg_key demo_rng) with (replicate 32 0). change (drbg_ctr demo_rng) with (2 ^ 32 - 1).
  generalize (chain 2 (replicate 32 0) (2 ^ 32 - 1)). by intros [out k].
Defined.
Lemma rng_total_witness : exists s, rng_init demo_hw rng0 = Some (tt, s) /\ rng_wf s.
Proof.
  destruct (rng_total demo_hw rng0 0 0 rng0_wf) as (_ & H & _). destruct (proj1 (wp_run _ _ _) H) as ([] & s & E & W & _).
  exists s. split; [exact E|exact W].
Defined.
