(* ===== verification/SshConn.v ===== *)
(** * The SSH connection and its packets (src/dosshd/ssh.c, ssh.h)

    The state of one connection ([ssh_conn]), the file-static scratch and
    configuration shared by all connections ([ssh_glob]), the output queue and
    the two packet framings (plain before NEWKEYS, chacha20-poly1305 after). *)
From Stdlib Require Import ZArith Lia.
From stdpp Require Import base list numbers.
From S2P Require Import Prelude Sha256 Crypto SshWire.
Local Open Scope Z_scope.

(** ** State *)

Inductive ssh_state : Type :=
  | SSH_ST_VERSION | SSH_ST_EXPECT_KEXINIT | SSH_ST_EXPECT_ECDH_INIT
  | SSH_ST_EXPECT_CLIENT_NEWKEYS | SSH_ST_EXPECT_SERVICE_REQUEST
  | SSH_ST_AUTH | SSH_ST_SESSION | SSH_ST_CLOSED | SSH_ST_ERROR.
#[export] Instance ssh_state_eq_dec : EqDecision ssh_state.
Proof. solve_decision. Defined.

(** An array that is only read up to a length field is the list of its valid
    bytes, its length field being the length of the list; [ib] and [g_cin] are
    whole arrays, because the code can read past the valid part of [ib] and
    [g_cin] is a ring. *)
Record ssh_conn := Conn {
  state : ssh_state;
  err : Z;
  err_msg : string;
  done_ : bool;  (* done *)
  cli_ver : list Z;  (* cli_ver[0..cli_ver_len) *)
  ib : list Z;  (* the whole array *)
  ib_len : Z;
  i_s : list Z;  (* i_s[0..i_s_len) *)
  hctx : sha256_ctx;
  session_id : list Z;
  have_session_id : bool;
  ek_c2s : list Z;
  ek_s2c : list Z;
  keys_ready : bool;
  recv_encrypted : bool;
  send_encrypted : bool;
  send_seq : Z;
  recv_seq : Z;
  cli_first_follows : Z;
  discard_next : bool;
  svc_name : list Z;  (* the bytes before its final NUL *)
  authenticated : bool;
  auth_fails : Z;
  auth_user : list Z;  (* the bytes before its final NUL *)
  chan_open : bool;
  peer_chan : Z;
  local_chan : Z;
  peer_window : Z;
  peer_maxpkt : Z;
  local_window : Z;
  pty : bool;
  shell_ready : bool;
  term_cols : Z;
  term_rows : Z;
  chan_eof : bool;
  chan_sent_eof : bool;
  chan_sent_close : bool;
  chan_closed : bool;
}.
#[export] Instance ssh_conn_eta : Eta ssh_conn := fun r => Conn (state r) (err r) (err_msg r)
    (done_ r) (cli_ver r) (ib r) (ib_len r) (i_s r) (hctx r) (session_id r) (have_session_id r)
    (ek_c2s r) (ek_s2c r) (keys_ready r) (recv_encrypted r) (send_encrypted r) (send_seq r)
    (recv_seq r) (cli_first_follows r) (discard_next r) (svc_name r) (authenticated r)
    (auth_fails r) (auth_user r) (chan_open r) (peer_chan r) (local_chan r) (peer_window r)
    (peer_maxpkt r) (local_window r) (pty r) (shell_ready r) (term_cols r) (term_rows r)
    (chan_eof r) (chan_sent_eof r) (chan_sent_close r) (chan_closed r).
#[export] Instance upd_state : Upd state := ltac:(derive_upd state).
#[export] Instance upd_err : Upd err := ltac:(derive_upd err).
#[export] Instance upd_err_msg : Upd err_msg := ltac:(derive_upd err_msg).
#[export] Instance upd_done_ : Upd done_ := ltac:(derive_upd done_).
#[export] Instance upd_cli_ver : Upd cli_ver := ltac:(derive_upd cli_ver).
#[export] Instance upd_ib : Upd ib := ltac:(derive_upd ib).
#[export] Instance upd_ib_len : Upd ib_len := ltac:(derive_upd ib_len).
#[export] Instance upd_i_s : Upd i_s := ltac:(derive_upd i_s).
#[export] Instance upd_hctx : Upd hctx := ltac:(derive_upd hctx).
#[export] Instance upd_session_id : Upd session_id := ltac:(derive_upd session_id).
#[export] Instance upd_have_session_id : Upd have_session_id := ltac:(derive_upd have_session_id).
#[export] Instance upd_ek_c2s : Upd ek_c2s := ltac:(derive_upd ek_c2s).
#[export] Instance upd_ek_s2c : Upd ek_s2c := ltac:(derive_upd ek_s2c).
#[export] Instance upd_keys_ready : Upd keys_ready := ltac:(derive_upd keys_ready).
#[export] Instance upd_recv_encrypted : Upd recv_encrypted := ltac:(derive_upd recv_encrypted).
#[export] Instance upd_send_encrypted : Upd send_encrypted := ltac:(derive_upd send_encrypted).
#[export] Instance upd_send_seq : Upd send_seq := ltac:(derive_upd send_seq).
#[export] Instance upd_recv_seq : Upd recv_seq := ltac:(derive_upd recv_seq).
#[export] Instance upd_cli_first_follows : Upd cli_first_follows := ltac:(derive_upd cli_first_follows).
#[export] Instance upd_discard_next : Upd discard_next := ltac:(derive_upd discard_next).
#[export] Instance upd_svc_name : Upd svc_name := ltac:(derive_upd svc_name).
#[export] Instance upd_authenticated : Upd authenticated := ltac:(derive_upd authenticated).
#[export] Instance upd_auth_fails : Upd auth_fails := ltac:(derive_upd auth_fails).
#[export] Instance upd_auth_user : Upd auth_user := ltac:(derive_upd auth_user).
#[export] Instance upd_chan_open : Upd chan_open := ltac:(derive_upd chan_open).
#[export] Instance upd_peer_chan : Upd peer_chan := ltac:(derive_upd peer_chan).
#[export] Instance upd_local_chan : Upd local_chan := ltac:(derive_upd local_chan).
#[export] Instance upd_peer_window : Upd peer_window := ltac:(derive_upd peer_window).
#[export] Instance upd_peer_maxpkt : Upd peer_maxpkt := ltac:(derive_upd peer_maxpkt).
#[export] Instance upd_local_window : Upd local_window := ltac:(derive_upd local_window).
#[export] Instance upd_pty : Upd pty := ltac:(derive_upd pty).
#[export] Instance upd_shell_ready : Upd shell_ready := ltac:(derive_upd shell_ready).
#[export] Instance upd_term_cols : Upd term_cols := ltac:(derive_upd term_cols).
#[export] Instance upd_term_rows : Upd term_rows := ltac:(derive_upd term_rows).
#[export] Instance upd_chan_eof : Upd chan_eof := ltac:(derive_upd chan_eof).
#[export] Instance upd_chan_sent_eof : Upd chan_sent_eof := ltac:(derive_upd chan_sent_eof).
#[export] Instance upd_chan_sent_close : Upd chan_sent_close := ltac:(derive_upd chan_sent_close).
#[export] Instance upd_chan_closed : Upd chan_closed := ltac:(derive_upd chan_closed).

(** The statics of ssh.c. *)
Record ssh_glob := Glob {
  g_ob : list Z;  (* g_ob[0..g_ob_len) *)
  g_q_c : list Z;
  g_q_s : list Z;
  g_eph_sk : list Z;
  g_k_raw : list Z;
  g_kmpint : list Z;  (* g_kmpint[0..g_kmpint_len) *)
  g_ks_blob : list Z;  (* g_ks_blob[0..g_ks_len) *)
  g_H : list Z;
  g_cin : list Z;  (* the whole array *)
  g_cin_head : Z;
  g_cin_tail : Z;
  g_cout : list Z;  (* g_cout[0..g_cout_len) *)
  g_scratch : list Z;  (* the part last written *)
  g_hostkey_sk : list Z;
  g_hostkey_pk : list Z;
  g_password : list Z;  (* the bytes before its final NUL *)
  g_have_password : bool;
  g_authkeys : list Z;  (* count keys of 32 bytes *)
  g_authkey_count : Z;
}.
#[export] Instance ssh_glob_eta : Eta ssh_glob := fun r => Glob (g_ob r) (g_q_c r) (g_q_s r)
    (g_eph_sk r) (g_k_raw r) (g_kmpint r) (g_ks_blob r) (g_H r) (g_cin r) (g_cin_head r)
    (g_cin_tail r) (g_cout r) (g_scratch r) (g_hostkey_sk r) (g_hostkey_pk r) (g_password r)
    (g_have_password r) (g_authkeys r) (g_authkey_count r).
#[export] Instance upd_g_ob : Upd g_ob := ltac:(derive_upd g_ob).
#[export] Instance upd_g_q_c : Upd g_q_c := ltac:(derive_upd g_q_c).
#[export] Instance upd_g_q_s : Upd g_q_s := ltac:(derive_upd g_q_s).
#[export] Instance upd_g_eph_sk : Upd g_eph_sk := ltac:(derive_upd g_eph_sk).
#[export] Instance upd_g_k_raw : Upd g_k_raw := ltac:(derive_upd g_k_raw).
#[export] Instance upd_g_kmpint : Upd g_kmpint := ltac:(derive_upd g_kmpint).
#[export] Instance upd_g_ks_blob : Upd g_ks_blob := ltac:(derive_upd g_ks_blob).
#[export] Instance upd_g_H : Upd g_H := ltac:(derive_upd g_H).
#[export] Instance upd_g_cin : Upd g_cin := ltac:(derive_upd g_cin).
#[export] Instance upd_g_cin_head : Upd g_cin_head := ltac:(derive_upd g_cin_head).
#[export] Instance upd_g_cin_tail : Upd g_cin_tail := ltac:(derive_upd g_cin_tail).
#[export] Instance upd_g_cout : Upd g_cout := ltac:(derive_upd g_cout).
#[export] Instance upd_g_scratch : Upd g_scratch := ltac:(derive_upd g_scratch).
#[export] Instance upd_g_hostkey_sk : Upd g_hostkey_sk := ltac:(derive_upd g_hostkey_sk).
#[export] Instance upd_g_hostkey_pk : Upd g_hostkey_pk := ltac:(derive_upd g_hostkey_pk).
#[export] Instance upd_g_password : Upd g_password := ltac:(derive_upd g_password).
#[export] Instance upd_g_have_password : Upd g_have_password := ltac:(derive_upd g_have_password).
#[export] Instance upd_g_authkeys : Upd g_authkeys := ltac:(derive_upd g_authkeys).
#[export] Instance upd_g_authkey_count : Upd g_authkey_count := ltac:(derive_upd g_authkey_count).

(** The state the code of ssh.c works on: one connection, the statics, and the
    random-number generator. *)
Record st {C : Crypto} := St { cn : ssh_conn; gl : ssh_glob; rg : rng }.
Arguments st C : clear implicits.
Arguments St {C} _ _ _.
Arguments cn {C} _.
Arguments gl {C} _.
Arguments rg {C} _.
#[export] Instance st_eta C : Eta (st C) := fun r => St (cn r) (gl r) (rg r).
#[export] Instance upd_cn C : Upd (@cn C) := ltac:(derive_upd (@cn C)).
#[export] Instance upd_gl C : Upd (@gl C) := ltac:(derive_upd (@gl C)).
#[export] Instance upd_rg C : Upd (@rg C) := ltac:(derive_upd (@rg C)).

Definition SSH_IB_SZ : Z := 2048.
Definition SSH_OB_SZ : Z := 2048.
Definition SSH_IS_SZ : Z := 512.
Definition SSH_CIN_SZ : Z := 256.
Definition SSH_COUT_SZ : Z := 512.
Definition SSH_CHAN_CHUNK : Z := 200.
Definition SSH_LOCAL_WINDOW : Z := 32768.
Definition SSH_CHAN_MAXPKT : Z := 1024.
Definition SSH_MAX_AUTH_TRIES : Z := 3.
Definition SSH_ENC_MAX_PLEN : Z := 247.

(** [memset(c, 0, sizeof *c)] *)
Definition zero_ctx : sha256_ctx := Ctx (replicate 64 0) 0 0 0 (Vars 0 0 0 0 0 0 0 0).
Definition conn0 : ssh_conn :=
  Conn SSH_ST_VERSION 0 "" false [] (replicate 2048 0) 0 [] zero_ctx (replicate 32 0) false
    (replicate 64 0) (replicate 64 0) false false false 0 0 0 false [] false 0 []
    false 0 0 0 0 0 false false 0 0 false false false false.

Section conn.
Context `{C : Crypto}.

Definition cget {T} (f : ssh_conn -> T) : M (st C) T := gets (fun s => f (cn s)).
Definition gget {T} (f : ssh_glob -> T) : M (st C) T := gets (fun s => f (gl s)).
Definition cset {T} (f : ssh_conn -> T) `{!Upd f} (v : T) : M (st C) unit :=
  modify (fun s => s <| cn := ((cn s) <| f := v |>) |>).
Definition gset {T} (f : ssh_glob -> T) `{!Upd f} (v : T) : M (st C) unit :=
  modify (fun s => s <| gl := ((gl s) <| f := v |>) |>).
Definition random (n : Z) : M (st C) (list Z) :=
  fun s => let '(b, r) := rng_bytes n (rg s) in Some (b, s <| rg := r |>).

Definition fail (why : string) : M (st C) unit :=
  cst ← cget state;
  when (bool_decide (cst <> SSH_ST_ERROR)) (
    cset state SSH_ST_ERROR ;;
    cset err 1 ;;
    cset err_msg why).

(** ** Output queue and input buffer *)

Definition ob_append (d : list Z) : M (st C) unit :=
  ob ← gget g_ob;
  if decide (u16 (len ob + len d) > SSH_OB_SZ) then fail "output overflow"
  else b ← fits SSH_OB_SZ (ob ++ d); gset g_ob b.

Definition ib_consume (k : Z) : M (st C) unit :=
  n ← cget ib_len;
  if decide (k >= n) then cset ib_len 0
  else
    b ← cget ib;
    let m := Z.to_nat (n - k) in
    cset ib (take m (ptr b k) ++ drop m b) ;;
    cset ib_len (n - k).

(** ** Framing before NEWKEYS *)

(** Pad to a multiple of 8, at least 4 bytes; [hdr] bytes count in addition to
    the payload. *)
Definition padding (hdr plen : Z) : Z :=
  let p := 8 - u16 (hdr + plen) mod 8 in if decide (p < 4) then p + 8 else p.

Definition send_unenc (payload : list Z) : M (st C) unit :=
  let plen := len payload in
  let padlen := padding 5 plen in
  let pkt_len := u16 (1 + plen + padlen) in
  ob_append (put_u32 pkt_len ++ [u8 padlen]) ;;
  ob_append payload ;;
  pad ← random padlen;
  ob_append pad ;;
  seq ← cget send_seq;
  cset send_seq (u32 (seq + 1)).

(** ** Framing after NEWKEYS: chacha20-poly1305@openssh.com *)

Definition seqbuf8 (seq : Z) : list Z := [0; 0; 0; 0] ++ be32 seq.

(** The sealed packet, from the keys, the sequence number, the payload and the
    random padding. *)
Definition seal (ek : list Z) (seq : Z) (payload pad : list Z) : list Z :=
  let k_main := take 32 ek in
  let k_header := drop 32 ek in
  let nonce := seqbuf8 seq in
  let pkt_len := u16 (1 + len payload + len pad) in
  let enc_len := dossh_chacha20_djb (Some (put_u32 pkt_len)) 4 k_header nonce 0 in
  let polykey := dossh_chacha20_djb None 32 k_main nonce 0 in
  let enc_body := dossh_chacha20_djb (Some ([u8 (len pad)] ++ payload ++ pad)) pkt_len k_main nonce 1 in
  let out := enc_len ++ enc_body in
  out ++ dossh_poly1305 out polykey.

Definition aead_seal (payload : list Z) : M (st C) (list Z) :=
  pad ← random (padding 1 (len payload));
  ek ← cget ek_s2c;
  seq ← cget send_seq;
  cset send_seq (u32 (seq + 1)) ;;
  mret (seal ek seq payload pad).

Definition send_enc (payload : list Z) : M (st C) unit :=
  if decide (len payload > SSH_ENC_MAX_PLEN) then fail "enc payload too large"
  else
    wire ← aead_seal payload;
    wire ← fits 276 wire;
    ob_append wire.

Definition send_packet (payload : list Z) : M (st C) unit :=
  enc ← cget send_encrypted;
  if (enc : bool) then send_enc payload else send_unenc payload.
End conn.
Arguments seal : simpl never.
Arguments padding : simpl never.

(** ** What sending changes

    Sending touches the output queue, the generator and the send sequence
    number; when the queue is full it also latches the error state.  [quiet] is
    that frame condition. *)
Definition core (c : ssh_conn) : ssh_conn :=
  c <| state := SSH_ST_VERSION |> <| err := 0 |> <| err_msg := ""%string |> <| send_seq := 0 |>.

Section quiet.
Context `{C : Crypto}.
Implicit Types s : st C.

Definition quiet s s' : Prop :=
  core (cn s') = core (cn s) /\ (state (cn s') = state (cn s) \/ state (cn s') = SSH_ST_ERROR)
  /\ (gl s') <| g_ob := [] |> = (gl s) <| g_ob := [] |>.

#[export] Instance quiet_preorder : PreOrder quiet.
Proof.
  split.
  - intros s. split_and!; auto.
  - intros s1 s2 s3 (E1 & H1 & G1) (E2 & H2 & G2). split_and!; [congruence| |congruence].
    destruct H2 as [->|]; auto.
Qed.

Definition ob_ok s : Prop := len (g_ob (gl s)) <= SSH_OB_SZ.

Lemma fail_quiet why : respects quiet (fail why).
Proof.
  intros s. unfold fail. apply wlp_bind, wlp_gets. case_bool_decide; cbn [when]; [|by apply wlp_ret].
  do 2 apply wlp_bind, wlp_modify. apply wlp_modify. split_and!; auto.
Qed.
Lemma ob_append_quiet d : respects quiet (ob_append d).
Proof.
  intros s. unfold ob_append. apply wlp_bind, wlp_gets. case_decide; [apply fail_quiet|].
  apply wlp_bind, wlp_fits. intros _. apply wlp_modify. split_and!; auto.
Qed.
Lemma random_quiet n : respects quiet (random n).
Proof. intros s. unfold wlp, random. destruct (rng_bytes n (rg s)). split_and!; auto. Qed.
Lemma seq_quiet (v : Z) : respects quiet (cset send_seq v).
Proof. intros s. apply wlp_modify. split_and!; auto. Qed.
End quiet.
#[export] Hint Resolve fail_quiet ob_append_quiet random_quiet seq_quiet : respects.

Section send.
Context `{C : Crypto}.
Implicit Types s : st C.

Lemma send_unenc_quiet p : respects quiet (send_unenc p).
Proof. unfold send_unenc. respects_tac. Qed.
Lemma aead_seal_quiet p : respects quiet (aead_seal p).
Proof. unfold aead_seal. respects_tac. Qed.
Hint Resolve send_unenc_quiet aead_seal_quiet : respects.
Lemma send_enc_quiet p : respects quiet (send_enc p).
Proof. unfold send_enc. respects_tac. Qed.
Hint Resolve send_enc_quiet : respects.
Lemma send_packet_quiet p : respects quiet (send_packet p).
Proof. unfold send_packet. respects_tac. Qed.
End send.
#[export] Hint Resolve send_unenc_quiet aead_seal_quiet send_enc_quiet send_packet_quiet : respects.

(** ** Sending does not fault *)

Lemma padding_range hdr plen : 4 <= padding hdr plen <= 11.
Proof. unfold padding. pose proof (Z.mod_pos_bound (u16 (hdr + plen)) 8 ltac:(lia)). case_decide; lia. Qed.

(** The padded part of a packet is a multiple of the block size. *)
Lemma padding_aligned hdr plen : is_u16 (hdr + plen) -> (hdr + plen + padding hdr plen) mod 8 = 0.
Proof. intros H. unfold padding. rewrite u16_id by done. case_decide; Z.div_mod_to_equations; lia. Qed.

Lemma length_le_cons {A} (l : list A) n m : len l <= n -> n <= m -> len l <= m.
Proof. lia. Qed.

Section total.
Context {C : Crypto} {OK : CryptoOk C}.
Implicit Types s : st C.

Lemma random_wp n Q s :
  0 <= n -> (forall b r, len b = n -> all_bytes b -> Q b (s <| rg := r |>)) -> wp (random n) Q s.
Proof.
  intros Hn HQ. unfold wp, random.
  pose proof (rng_bytes_length n (rg s) Hn). pose proof (rng_bytes_bytes n (rg s)).
  destruct (rng_bytes n (rg s)). by apply HQ.
Qed.

Lemma fail_wp why s : ob_ok s -> wp (fail why) (fun _ s' => quiet s s' /\ ob_ok s') s.
Proof.
  intros Ho. unfold fail. apply wp_bind, wp_gets. case_bool_decide; cbn [when].
  - do 2 apply wp_bind, wp_modify. apply wp_modify. by split; [split_and!; auto|].
  - apply wp_ret. by split.
Qed.

Lemma ob_append_wp d s :
  ob_ok s -> len d <= 60000 ->
  wp (ob_append d) (fun _ s' => quiet s s' /\ ob_ok s') s.
Proof.
  unfold ob_ok. intros Ho Hd. unfold ob_append. apply wp_bind, wp_gets. case_decide as Hc; [by apply fail_wp|].
  assert (len (g_ob (gl s) ++ d) <= SSH_OB_SZ) as Hl.
  { rewrite length_app, Nat2Z.inj_add. revert Hc. unfold SSH_OB_SZ in *.
    rewrite u16_id by (unfold is_u16; lia). lia. }
  apply wp_bind, wp_fits; [done|]. apply wp_modify. by split; [split_and!; auto|].
Qed.

Lemma seal_length ek seq p pad :
  len p <= 60000 -> len pad <= 11 -> len (seal ek seq p pad) = 4 + (1 + len p + len pad) + 16.
Proof.
  intros Hp Hpad. unfold seal. rewrite !length_app, !Nat2Z.inj_add, poly1305_length.
  rewrite !chacha20_length by (lia || apply u16_range). rewrite u16_id by (unfold is_u16; lia). lia.
Qed.

Lemma seal_bytes ek seq p pad : all_bytes (seal ek seq p pad).
Proof.
  unfold seal. apply Forall_app. split; [apply Forall_app; split; apply chacha20_bytes|apply poly1305_bytes].
Qed.
(** A sealed packet fits the buffer of [send_enc]. *)
Lemma seal_fits ek seq p pad :
  len p <= SSH_ENC_MAX_PLEN -> len pad = padding 1 (len p) -> len (seal ek seq p pad) <= 276.
Proof.
  unfold SSH_ENC_MAX_PLEN. intros Hp Hpad. pose proof (padding_range 1 (len p)).
  rewrite seal_length by lia. assert (1 + len p + len pad <= 256); [|lia]. rewrite Hpad.
  pose proof (padding_aligned 1 (len p)) as Ha. specialize (Ha ltac:(unfold is_u16; lia)).
  Z.div_mod_to_equations. lia.
Qed.

Lemma aead_seal_wp p Q s :
  (forall pad r, len pad = padding 1 (len p) -> all_bytes pad ->
     Q (seal (ek_s2c (cn s)) (send_seq (cn s)) p pad)
       (s <| rg := r |> <| cn := ((cn s) <| send_seq := u32 (send_seq (cn s) + 1) |>) |>)) ->
  wp (aead_seal p) Q s.
Proof.
  intros HQ. unfold aead_seal. pose proof (padding_range 1 (len p)).
  apply wp_bind, random_wp; [lia|]. intros pad r Hp Hb.
  do 2 apply wp_bind, wp_gets. apply wp_bind, wp_modify, wp_ret. by apply HQ.
Qed.

Lemma send_enc_wp p s :
  ob_ok s -> wp (send_enc p) (fun _ s' => quiet s s' /\ ob_ok s') s.
Proof.
  intros Ho. unfold send_enc. case_decide as Hl.
  - by apply fail_wp.
  - unfold SSH_ENC_MAX_PLEN in Hl. apply wp_bind, aead_seal_wp. intros pad r Hp Hb.
    pose proof (padding_range 1 (len p)).
    pose proof (seal_fits (ek_s2c (cn s)) (send_seq (cn s)) p pad ltac:(unfold SSH_ENC_MAX_PLEN; lia) Hp).
    apply wp_bind, wp_fits; [done|]. eapply wp_mono; [apply ob_append_wp; [done|lia]|].
    cbn. intros _ s' [Hq ?]. split; [|done]. etrans; [|exact Hq]. split_and!; auto.
Qed.

Lemma send_unenc_wp p s :
  ob_ok s -> len p <= 60000 -> wp (send_unenc p) (fun _ s' => quiet s s' /\ ob_ok s') s.
Proof.
  intros Ho Hp. unfold send_unenc. pose proof (padding_range 5 (len p)).
  apply wp_bind. eapply wp_mono; [apply ob_append_wp; [done|cbn; lia]|]. cbn beta. intros _ s1 [Q1 O1].
  apply wp_bind. eapply wp_mono; [by apply ob_append_wp|]. cbn beta. intros _ s2 [Q2 O2].
  apply wp_bind, random_wp; [lia|]. intros pad r Hpad _.
  apply wp_bind. eapply wp_mono; [apply ob_append_wp; [done|lia]|]. cbn beta. intros _ s3 [Q3 O3].
  apply wp_bind, wp_gets, wp_modify. split; [|done].
  etrans; [exact Q1|]. etrans; [exact Q2|].
  transitivity (s2 <| rg := r |>); [split_and!; auto|]. etrans; [exact Q3|]. split_and!; auto.
Qed.

Lemma send_packet_wp p s :
  ob_ok s -> len p <= 60000 -> wp (send_packet p) (fun _ s' => quiet s s' /\ ob_ok s') s.
Proof.
  intros. unfold send_packet. apply wp_bind, wp_gets.
  destruct (send_encrypted (cn s)); [by apply send_enc_wp|by apply send_unenc_wp].
Qed.
End total.

(** ** The bytes sent *)

(** A packet before NEWKEYS. *)
Definition plain_frame (p pad : list Z) : list Z :=
  put_u32 (1 + len p + len pad) ++ [len pad] ++ p ++ pad.

(** The state after the frame [f] was queued. *)
Definition sent {C : Crypto} (f : list Z) (r : rng) (s : st C) : st C :=
  St ((cn s) <| send_seq := u32 (send_seq (cn s) + 1) |>) ((gl s) <| g_ob := g_ob (gl s) ++ f |>) r.

Section exact.
Context {C : Crypto} {OK : CryptoOk C}.
Implicit Types s : st C.

Lemma ob_append_exact d s :
  len (g_ob (gl s)) + len d <= SSH_OB_SZ ->
  ob_append d s = Some (tt, s <| gl := ((gl s) <| g_ob := g_ob (gl s) ++ d |>) |>).
Proof.
  unfold SSH_OB_SZ. intros H. unfold ob_append, gget, gset, mbind, M_bind, gets. cbn beta iota.
  rewrite u16_id by (unfold is_u16; lia). unfold SSH_OB_SZ. rewrite decide_False by lia.
  unfold fits. rewrite decide_True by (rewrite length_app; lia). done.
Qed.

Lemma send_unenc_exact p s :
  len (g_ob (gl s)) + len p + 16 <= SSH_OB_SZ ->
  exists pad r, len pad = padding 5 (len p) /\ all_bytes pad
    /\ send_unenc p s = Some (tt, sent (plain_frame p pad) r s).
Proof.
  intros H. pose proof (padding_range 5 (len p)) as Hr. unfold SSH_OB_SZ in H.
  pose proof (rng_bytes_length (padding 5 (len p)) (rg s) ltac:(lia)) as Hl.
  pose proof (rng_bytes_bytes (padding 5 (len p)) (rg s)) as Hb.
  destruct (rng_bytes (padding 5 (len p)) (rg s)) as [pad r] eqn:E. cbn in Hl, Hb.
  exists pad, r. split_and!; [done..|]. unfold send_unenc, mbind, M_bind.
  rewrite ob_append_exact by (unfold SSH_OB_SZ; cbn; lia).
  rewrite ob_append_exact by (unfold SSH_OB_SZ; fld; rewrite !length_app, ?put_u32_length; cbn [length]; lia).
  unfold random. fld. rewrite E. rewrite ob_append_exact by (unfold SSH_OB_SZ; fld; rewrite !length_app, ?put_u32_length; cbn [length]; lia).
  unfold cget, gets, cset, modify. do 2 f_equal. unfold sent, plain_frame. fld.
  rewrite u16_id by (unfold is_u16; lia). rewrite (u8_id (padding _ _)) by (unfold is_byte; lia).
  rewrite <- Hl, <- !app_assoc. done.
Qed.

Lemma send_enc_exact p s :
  len p <= SSH_ENC_MAX_PLEN -> len (g_ob (gl s)) + len p + 32 <= SSH_OB_SZ ->
  exists pad r, len pad = padding 1 (len p) /\ all_bytes pad
    /\ send_enc p s = Some (tt, sent (seal (ek_s2c (cn s)) (send_seq (cn s)) p pad) r s).
Proof.
  intros Hp H. pose proof (padding_range 1 (len p)) as Hr. unfold SSH_ENC_MAX_PLEN, SSH_OB_SZ in *.
  pose proof (rng_bytes_length (padding 1 (len p)) (rg s) ltac:(lia)) as Hl.
  pose proof (rng_bytes_bytes (padding 1 (len p)) (rg s)) as Hb.
  destruct (rng_bytes (padding 1 (len p)) (rg s)) as [pad r] eqn:E. cbn in Hl, Hb.
  exists pad, r. split_and!; [done..|]. unfold send_enc, mbind, M_bind. unfold SSH_ENC_MAX_PLEN.
  rewrite decide_False by lia. unfold aead_seal, mbind, M_bind, random. rewrite E.
  unfold cget, gets, cset, modify. unfold mret, M_ret. fld.
  set (w := seal _ _ _ _). assert (len w <= len p + 32) as Hw by (unfold w; rewrite seal_length by lia; lia).
  pose proof (seal_fits (ek_s2c (cn s)) (send_seq (cn s)) p pad Hp Hl) as Hw'. fold w in Hw'.
  unfold fits. rewrite decide_True by lia. unfold mret, M_ret.
  rewrite ob_append_exact by (unfold SSH_OB_SZ; fld; lia). done.
Qed.
End exact.

(** ** Stepping through a handler *)

Lemma wp_cget {C : Crypto} {T} (f : ssh_conn -> T) Q (s : st C) : Q (f (cn s)) s -> wp (cget f) Q s.
Proof. done. Qed.
Lemma wp_gget {C : Crypto} {T} (f : ssh_glob -> T) Q (s : st C) : Q (f (gl s)) s -> wp (gget f) Q s.
Proof. done. Qed.
Lemma wp_cset {C : Crypto} {T} (f : ssh_conn -> T) `{!Upd f} v Q (s : st C) :
  Q tt (St ((cn s) <| f := v |>) (gl s) (rg s)) -> wp (cset f v) Q s.
Proof. done. Qed.
Lemma wp_gset {C : Crypto} {T} (f : ssh_glob -> T) `{!Upd f} v Q (s : st C) :
  Q tt (St (cn s) ((gl s) <| f := v |>) (rg s)) -> wp (gset f v) Q s.
Proof. done. Qed.
Lemma wlp_cget {C : Crypto} {T} (f : ssh_conn -> T) Q (s : st C) : Q (f (cn s)) s -> wlp (cget f) Q s.
Proof. done. Qed.
Lemma wlp_gget {C : Crypto} {T} (f : ssh_glob -> T) Q (s : st C) : Q (f (gl s)) s -> wlp (gget f) Q s.
Proof. done. Qed.
Lemma wlp_cset {C : Crypto} {T} (f : ssh_conn -> T) `{!Upd f} v Q (s : st C) :
  Q tt (St ((cn s) <| f := v |>) (gl s) (rg s)) -> wlp (cset f v) Q s.
Proof. done. Qed.
Lemma wlp_gset {C : Crypto} {T} (f : ssh_glob -> T) `{!Upd f} v Q (s : st C) :
  Q tt (St (cn s) ((gl s) <| f := v |>) (rg s)) -> wlp (gset f v) Q s.
Proof. done. Qed.

Ltac wp_step :=
  lazymatch goal with
  | |- wp (mbind _ _) _ _ => apply wp_bind
  | |- wp (cget _) _ _ => apply wp_cget
  | |- wp (gget _) _ _ => apply wp_gget
  | |- wp (cset _ _) _ _ => apply wp_cset
  | |- wp (gset _ _) _ _ => apply wp_gset
  | |- wp (mret _) _ _ => apply wp_ret
  | |- wlp (mbind _ _) _ _ => apply wlp_bind
  | |- wlp (cget _) _ _ => apply wlp_cget
  | |- wlp (gget _) _ _ => apply wlp_gget
  | |- wlp (cset _ _) _ _ => apply wlp_cset
  | |- wlp (gset _ _) _ _ => apply wlp_gset
  | |- wlp (mret _) _ _ => apply wlp_ret
  | |- wlp (lift _) _ _ => apply wlp_lift; intros ? ?
  | |- wlp (fits _ _) _ _ => apply wlp_fits; intros ?
  | |- wlp (when ?b _) _ _ => destruct b eqn:?; cbn [when]
  | |- wlp skip _ _ => apply wlp_ret
  | |- wlp (if decide ?P then _ else _) _ _ => destruct (decide P)
  | |- wlp (if ?b then _ else _) _ _ => destruct b eqn:?
  end; cbn [cn gl rg]; cbv beta; fld.
Ltac wp_run := repeat (wp_step; cbv beta zeta).

Lemma random_run {C : Crypto} n b r Q (s : st C) :
  rng_bytes n (rg s) = (b, r) -> Q b (St (cn s) (gl s) r) -> wp (random n) Q s.
Proof. intros E HQ. unfold wp, random. by rewrite E. Qed.

(** A run of concrete code that succeeds. *)
Lemma run_some {S} (m : option (unit * S)) (d : S) :
  (match m with Some _ => true | None => false end) = true -> m = Some (tt, match m with Some (_, s) => s | None => d end).
Proof. by destruct m as [[[] s]|]. Qed.

Section sends_wp.
Context {C : Crypto} {OK : CryptoOk C}.
Lemma wp_send_plain p Q (s : st C) :
  send_encrypted (cn s) = false -> len (g_ob (gl s)) + len p + 16 <= SSH_OB_SZ ->
  (forall pad r, len pad = padding 5 (len p) -> Q tt (sent (plain_frame p pad) r s)) ->
  wp (send_packet p) Q s.
Proof.
  intros He Hl HQ. unfold send_packet. wp_run. rewrite He.
  destruct (send_unenc_exact p s Hl) as (pad & r & Hp & _ & E). unfold wp. rewrite E. by apply HQ.
Qed.
Lemma wp_send_sealed p Q (s : st C) :
  send_encrypted (cn s) = true -> len p <= SSH_ENC_MAX_PLEN -> len (g_ob (gl s)) + len p + 32 <= SSH_OB_SZ ->
  (forall pad r, len pad = padding 1 (len p) -> all_bytes pad ->
     Q tt (sent (seal (ek_s2c (cn s)) (send_seq (cn s)) p pad) r s)) ->
  wp (send_packet p) Q s.
Proof.
  intros He Hp Hl HQ. unfold send_packet. wp_run. rewrite He.
  destruct (send_enc_exact p s Hp Hl) as (pad & r & Hpad & Hb & E). unfold wp. rewrite E. by apply HQ.
Qed.
End sends_wp.
