(* ===== verification/CryptoImpl.v ===== *)
(** * The operations behind the cryptographic interface (src/dosshd/crypto/crypto.c)

    The server is verified against the class [Crypto].  Here the wrappers of
    crypto.c over the models of ChaCha20, Poly1305 and the generator are shown to
    be an instance with the laws of [CryptoOk]; X25519 and Ed25519 stay parameters.
    With that instance the sealed packets are those of
    chacha20-poly1305@openssh.com. *)
From Stdlib Require Import ZArith Lia.
From stdpp Require Import base list numbers.
From S2P Require Import Prelude MonoLe Chacha20 Poly1305 Sha256 Rng Crypto SshWire SshConn.
Local Open Scope Z_scope.

(** The curve operations, with the lengths their headers state. *)
Record curve := Curve {
  x25519 : list Z -> list Z -> list Z;
  x25519_public_key : list Z -> list Z;
  ed25519_sign : list Z -> list Z -> list Z;
  ed25519_check : list Z -> list Z -> list Z -> Z
}.
Class CurveOk (cv : curve) : Prop := {
  cv_x k p : length (x25519 cv k p) = 32%nat /\ all_bytes (x25519 cv k p);
  cv_pub k : length (x25519_public_key cv k) = 32%nat /\ all_bytes (x25519_public_key cv k);
  cv_sign k m : length (ed25519_sign cv k m) = 64%nat /\ all_bytes (ed25519_sign cv k m)
}.

(** An object of [n] bytes in memory, filled from [l]. *)
Definition object (n : nat) (l : list Z) : list Z := take n (u8 <$> l) ++ replicate (n - length l) 0.
Lemma object_length n l : length (object n l) = n.
Proof. unfold object. rewrite length_app, length_take, length_replicate, length_fmap. lia. Qed.
Lemma object_bytes n l : all_bytes (object n l).
Proof.
  unfold object. apply Forall_app. split; [|apply Forall_replicate; unfold is_byte; lia].
  apply Forall_take, Forall_fmap, Forall_true. intros x. apply u8_byte.
Qed.
Lemma object_id n l : all_bytes l -> length l = n -> object n l = l.
Proof. intros B L. unfold object. rewrite bytes_u8, take_ge by (done || lia). replace (n - length l)%nat with 0%nat by lia. apply app_nil_r. Qed.

Section impl.
Context (cv : curve) (h : hardware).

(** [dossh_chacha20_djb], [dossh_poly1305]: the bytes that were on the stack under
    the context of Poly1305 do not matter ([poly1305_value]). *)
Definition chacha20_djb (i : option (list Z)) (n : Z) (k o : list Z) (c : Z) : list Z :=
  match crypto_chacha20_djb (object (Z.to_nat n) <$> i) (Z.max 0 n) (object 32 k) (object 8 o) (u32 c) with
  | Some (out, _) => out | None => []
  end.
Definition poly1305_mac (m k : list Z) : list Z :=
  default [] (crypto_poly1305 (replicate 16 0) (u8 <$> m) (len m) (object 32 k)).

(** The generator, on well-formed states only. *)
Definition drbg : Type := { s : rng_state | rng_wf s }.
Definition run_rng {A} (d : A) (m : M rng_state A) (r : drbg) (K : forall a s', m (`r) = Some (a, s') -> rng_wf s') : A * drbg :=
  match m (`r) as o return (forall a s', o = Some (a, s') -> rng_wf s') -> A * drbg with
  | Some (a, s') => fun K => (a, exist _ s' (K a s' eq_refl))
  | None => fun _ => (d, r)
  end K.
Lemma rng_after {A} (m : M rng_state A) (Q : A -> rng_state -> Prop) s :
  wp m Q s -> (forall a s', Q a s' -> rng_wf s') -> forall a s', m s = Some (a, s') -> rng_wf s'.
Proof. intros H HQ a s' E. unfold wp in H. rewrite E in H. by eapply HQ. Qed.
Lemma bytes_after n (r : drbg) a s' : Rng.rng_bytes h n (`r) = Some (a, s') -> rng_wf s'.
Proof. destruct r as [s W]. eapply rng_after; [by apply bytes_safe|]. by intros ? ? [[]]. Qed.
Lemma stir_after x (r : drbg) a s' : Rng.rng_stir h x (`r) = Some (a, s') -> rng_wf s'.
Proof. destruct r as [s W]. eapply rng_after; [by apply stir_wp|]. by intros ? ? []. Qed.

Lemma run_rng_wp {A} (d : A) m r K (Q : A -> Prop) : wp m (fun a _ => Q a) (`r) -> Q (run_rng d m r K).1.
Proof. unfold wp, run_rng. revert K. by destruct (m (`r)) as [[a s']|]. Qed.
Lemma drbg_draws n (r : drbg) : wp (Rng.rng_bytes h n) (fun out _ => length out = Z.to_nat n /\ all_bytes out) (`r).
Proof. destruct r as [s W]. eapply wp_mono; [by apply bytes_safe|]. by intros ? ? []. Qed.

Definition dossh : Crypto := {|
  dossh_x25519 := x25519 cv;
  dossh_x25519_public_key := x25519_public_key cv;
  dossh_ed25519_sign := ed25519_sign cv;
  dossh_ed25519_verify := ed25519_check cv;
  dossh_chacha20_djb := chacha20_djb;
  dossh_poly1305 := poly1305_mac;
  rng := drbg;
  rng_bytes n r := run_rng [] (Rng.rng_bytes h n) r (bytes_after n r);
  rng_stir x r := (run_rng tt (Rng.rng_stir h x) r (stir_after x r)).2
|}.

Lemma chacha20_djb_spec i n k o c : 0 <= n ->
  chacha20_djb i n k o c =
  xor_bytes (text_of (object (Z.to_nat n) <$> i) (Z.to_nat n)) (keystream n (object 32 k) (object 8 o) (u32 c)).
Proof.
  intros Hn. unfold chacha20_djb. rewrite Z.max_r by lia.
  rewrite djb_stream; [reflexivity|apply object_length|apply object_bytes|apply object_length|apply object_bytes| |done|].
  - pose proof (u32_range c) as R. unfold is_u32 in R. lia.
  - destruct i as [l|]; [|exact I]. split; [apply object_bytes|rewrite object_length; lia].
Qed.
Lemma stream_length n k o c : 0 <= n -> length (keystream n (object 32 k) (object 8 o) (u32 c)) = Z.to_nat n.
Proof.
  intros Hn. pose proof (keystream_length n (object 32 k) (object 8 o) (u32 c)) as L.
  rewrite !object_length in L. specialize (L eq_refl (object_bytes _ _) eq_refl (object_bytes _ _) Hn). lia.
Qed.
Lemma poly1305_mac_spec m k : poly1305_mac m k = poly1305 (u8 <$> m) (object 32 k).
Proof.
  unfold poly1305_mac. rewrite poly1305_value; [|done|apply object_bytes|apply object_length| |rewrite length_fmap; lia].
  - cbn [default from_option id]. rewrite take_ge by (rewrite length_fmap; lia). done.
  - apply Forall_fmap, Forall_true. intros x. apply u8_byte.
Qed.

#[export] Instance dossh_ok `{CV : !CurveOk cv} : CryptoOk dossh.
Proof.
  constructor; cbn [dossh_x25519 dossh_x25519_public_key dossh_ed25519_sign dossh_chacha20_djb dossh_poly1305 rng rng_bytes dossh].
  - intros k p. apply cv_x.
  - intros k p. apply cv_x.
  - intros k. apply cv_pub.
  - intros k. apply cv_pub.
  - intros k m. apply cv_sign.
  - intros k m. apply cv_sign.
  - intros i n k o c Hn. rewrite chacha20_djb_spec by done.
    assert (length (text_of (object (Z.to_nat n) <$> i) (Z.to_nat n)) = Z.to_nat n) as L.
    { apply text_of_length. destruct i as [l|]; [|exact I]. split; [apply object_bytes|rewrite object_length; lia]. }
    rewrite xor_bytes_length by (by rewrite L, stream_length). rewrite L. lia.
  - intros i n k o c. destruct (decide (0 <= n)) as [Hn|Hn].
    + rewrite chacha20_djb_spec by done. apply xor_bytes_bytes; [|apply keystream_bytes]. destruct i as [l|]; cbn.
      * apply Forall_take, object_bytes.
      * apply Forall_replicate. unfold is_byte. lia.
    + assert (chacha20_djb i n k o c = chacha20_djb i 0 k o c) as ->.
      { unfold chacha20_djb. by rewrite Z.max_l, Z2Nat.nonpos by lia. }
      rewrite chacha20_djb_spec by done. apply xor_bytes_bytes; [|apply keystream_bytes]. destruct i as [l|]; cbn.
      * apply Forall_take, object_bytes.
      * apply Forall_nil_2.
  - intros x n k o c Bx Lx.
    assert (forall y, all_bytes y -> length y = Z.to_nat n -> chacha20_djb (Some y) n k o c = xor_bytes y (keystream n (object 32 k) (object 8 o) (u32 c))) as E.
    { intros y By Ly. rewrite chacha20_djb_spec by lia. cbn. rewrite object_id, take_ge by (done || lia). done. }
    assert (length x = length (keystream n (object 32 k) (object 8 o) (u32 c))) as L by (rewrite stream_length; lia).
    rewrite (E x), E; [by apply xor_bytes_invol| | |done|lia].
    + apply xor_bytes_bytes; [done|apply keystream_bytes].
    + rewrite xor_bytes_length by done. lia.
  - intros m k. rewrite poly1305_mac_spec. apply le_bytes_length.
  - intros m k. rewrite poly1305_mac_spec. apply le_bytes_bytes.
  - intros n r Hn. apply run_rng_wp. eapply wp_mono; [apply drbg_draws|]. cbn. intros out _ []. lia.
  - intros n r. apply run_rng_wp. eapply wp_mono; [apply drbg_draws|]. by intros out _ [].
Qed.

(** ** The packets on the wire *)

(** A packet of the OpenSSH cipher: the length under the header key, padding
    length, payload and padding under the main key from block 1 on, and the tag
    of both under the first 32 bytes of block 0. *)
Definition openssh_packet (k_main k_header : list Z) (seq : Z) (payload pad : list Z) : list Z :=
  let nonce := [0; 0; 0; 0] ++ be32 seq in
  let n := 1 + len payload + len pad in
  let c := xor_bytes (be32 n) (keystream 4 k_header nonce 0)
           ++ xor_bytes (len pad :: payload ++ pad) (keystream n k_main nonce 1) in
  c ++ poly1305 c (keystream 32 k_main nonce 0).

(** C24: The sealed packets are those of chacha20-poly1305@openssh.com.  For every
    pair of keys, sequence number, payload and padding that fit a packet, what
    [aead_seal] writes with the program's own ChaCha20 and Poly1305 is the packet
    of the specification, byte by byte: length, body and tag. *)
Theorem seal_is_openssh k_main k_header seq payload pad :
  length k_main = 32%nat -> all_bytes k_main -> length k_header = 32%nat -> all_bytes k_header ->
  all_bytes payload -> all_bytes pad -> len pad < 256 -> 1 + len payload + len pad < 65536 ->
  seal (C := dossh) (k_main ++ k_header) seq payload pad = openssh_packet k_main k_header seq payload pad.
Proof.
  intros Lm Bm Lh Bh Bp Bq Hq Hn. unfold seal, openssh_packet, put_u32, seqbuf8. cbn [dossh_chacha20_djb dossh_poly1305 dossh].
  set (nonce := [0; 0; 0; 0] ++ be32 seq). set (n := 1 + len payload + len pad).
  assert (u16 n = n) as -> by (apply u16_id; unfold is_u16; lia). rewrite (u8_id (len pad)) by (unfold is_byte; lia).
  assert (all_bytes nonce /\ length nonce = 8%nat) as [Bn Ln].
  { split; [|done]. apply Forall_app. split; [|apply be32_bytes]. repeat (apply Forall_cons; split; [unfold is_byte; lia|]). apply Forall_nil_2. }
  rewrite take_app_le, take_ge, drop_app_ge by lia. rewrite Lm, Nat.sub_diag, drop_0.
  assert (all_bytes (len pad :: payload ++ pad)) as Bb.
  { apply Forall_cons. split; [unfold is_byte; lia|]. by apply Forall_app. }
  assert (length (len pad :: payload ++ pad) = Z.to_nat n) as Lb by (cbn [length]; rewrite length_app; lia).
  rewrite !chacha20_djb_spec by lia. cbn [fmap option_fmap option_map text_of app].
  rewrite (object_id 32 k_main), (object_id 32 k_header), (object_id 8 nonce) by done.
  rewrite (object_id (Z.to_nat n) (len pad :: payload ++ pad)) by done.
  rewrite (object_id (Z.to_nat 4) (be32 n)) by (apply be32_bytes || done).
  change (u32 0) with 0. change (u32 1) with 1. rewrite (take_ge (be32 n)) by done. rewrite (take_ge (len pad :: payload ++ pad)) by lia.
  assert (length (keystream 32 k_main nonce 0) = 32%nat) as L32 by (pose proof (keystream_length 32 k_main nonce 0 Lm Bm Ln Bn ltac:(lia)); lia).
  assert (xor_bytes (replicate (Z.to_nat 32) 0) (keystream 32 k_main nonce 0) = keystream 32 k_main nonce 0) as ->.
  { rewrite <- (xor_zeros (keystream 32 k_main nonce 0)) at 2. by rewrite L32. }
  rewrite poly1305_mac_spec, (object_id 32) by (apply keystream_bytes || done). rewrite bytes_u8; [done|].
  apply Forall_app. split; apply xor_bytes_bytes; try apply keystream_bytes; [apply be32_bytes|done].
Qed.
End impl.

(** ** An instance *)

Definition demo_curve : curve :=
  Curve (fun k p => toy_bytes 32 (toy_sum k + toy_sum p)) (fun k => toy_bytes 32 (toy_sum k))
        (fun k m => toy_bytes 64 (toy_sum k + toy_sum m)) (fun _ _ _ => 0).
#[export] Instance demo_curve_ok : CurveOk demo_curve.
Proof. constructor; intros; split; by (apply toy_bytes_length || apply toy_bytes_bytes). Qed.

Lemma seal_is_openssh_witness :
  seal (C := dossh demo_curve demo_hw) (replicate 32 7 ++ replicate 32 9) 3 (text "hello") (replicate 10 1)
  = openssh_packet (replicate 32 7) (replicate 32 9) 3 (text "hello") (replicate 10 1) /\
  length (openssh_packet (replicate 32 7) (replicate 32 9) 3 (text "hello") (replicate 10 1)) = 36%nat.
Proof.
  split; [|vm_compute; reflexivity].
  refine (seal_is_openssh demo_curve demo_hw (replicate 32 7) (replicate 32 9) 3 (text "hello") (replicate 10 1) _ _ _ _ _ _ _ _);
    first [reflexivity | apply bytes_dec_iff; reflexivity | apply Z.ltb_lt; reflexivity].
Defined.
