(* ===== verification/SshKex.v ===== *)
(** * Key exchange (src/dosshd/ssh.c, from KEXINIT to SERVICE_REQUEST)

    Algorithm negotiation, the streaming exchange hash, key derivation and the
    handlers up to the start of user authentication. *)
From Stdlib Require Import ZArith Lia.
From stdpp Require Import base list numbers.
From S2P Require Import Prelude Sha256 Crypto SshWire SshConn.
Local Open Scope Z_scope.

Definition SERVER_ID : list Z := text "SSH-2.0-DOSSH_0.9".
Definition MSG_SERVICE_ACCEPT : Z := 6.
Definition MSG_KEXINIT : Z := 20.
Definition MSG_NEWKEYS : Z := 21.
Definition MSG_KEX_ECDH_REPLY : Z := 31.

(** ** Pure parts *)

(** The payload of our KEXINIT with the given cookie. *)
Definition our_kexinit (cookie : list Z) : list Z :=
  [MSG_KEXINIT] ++ cookie
  ++ put_nl "curve25519-sha256,curve25519-sha256@libssh.org"
  ++ put_nl "ssh-ed25519"
  ++ put_nl "chacha20-poly1305@openssh.com" ++ put_nl "chacha20-poly1305@openssh.com"
  ++ put_nl "none" ++ put_nl "none" ++ put_nl "none" ++ put_nl "none"
  ++ put_nl "" ++ put_nl "" ++ [0] ++ [0; 0; 0; 0].

(** The loop of [negotiate]: pointer and length of [n] name-lists from offset
    [off], and the offset after them.  All arithmetic is 16-bit. *)
Fixpoint nl_parse (n : nat) (p : list Z) (plen off : Z) : option (option (list (list Z * Z) * Z)) :=
  match n with
  | O => Some (Some ([], off))
  | S n =>
      if decide (u16 (off + 4) > plen) then Some None
      else
        l ← rd_u32 p off;
        let l := u16 l in
        let off := u16 (off + 4) in
        if decide (u16 (off + l) > plen) then Some None
        else
          r ← nl_parse n p plen (u16 (off + l));
          Some (match r with Some (ls, o) => Some ((ptr p off, l) :: ls, o) | None => None end)
  end.

(** [a || b] and [a && b] of tests that read memory. *)
Definition test_or (a b : option bool) : option bool := x ← a; if (x : bool) then Some true else b.
Definition test_and (a b : option bool) : option bool := x ← a; if (x : bool) then b else Some false.

Definition nth_list (ls : list (list Z * Z)) (i : nat) : list Z * Z := nth i ls ([], 0).
Definition offers (ls : list (list Z * Z)) (i : nat) (name : string) : option bool :=
  nl_has (nth_list ls i).1 (nth_list ls i).2 name.
(** [nl_first] of list [i], then [tok_eq] of the token. *)
Definition guesses (ls : list (list Z * Z)) (i : nat) (name : string) : option bool :=
  t ← nl_first (Z.to_nat (nth_list ls i).2) (nth_list ls i).1 0;
  tok_eq (nth_list ls i).1 t name.

(** The raw shared secret as an mpint. *)
Fixpoint strip_zeros (v : list Z) : list Z :=
  match v with b :: w => if decide (b = 0) then strip_zeros w else v | [] => [] end.
Definition kmpint (v : list Z) : list Z :=
  match strip_zeros v with
  | [] => put_u32 0
  | b :: w =>
      let pad := if decide (Z.land b 0x80 <> 0) then [0] else [] in
      put_u32 (len (b :: w) + len pad) ++ pad ++ b :: w
  end.

Definition hash_str (h : sha256_ctx) (s : list Z) : sha256_ctx :=
  sha256_update (sha256_update h (put_u32 (len s))) s.

Section kex.
Context `{C : Crypto}.

Definition build_our_kexinit : M (st C) unit :=
  cookie ← random 16;
  b ← fits SSH_IS_SZ (our_kexinit cookie);
  cset i_s b.

(** Results as in the code: 0, -1 malformed, -2 nothing in common. *)
Definition negotiate (p : list Z) (plen : Z) : M (st C) Z :=
  r ← lift (nl_parse 10 p plen 17);
  match r with
  | None => mret (-1)
  | Some (ls, off) =>
      if decide (u16 (off + 1) > plen) then mret (-1)
      else
        ff ← lift (rd p off);
        cset cli_first_follows ff ;;
        ok ← lift (test_and (test_or (offers ls 0 "curve25519-sha256")
                                     (offers ls 0 "curve25519-sha256@libssh.org"))
                  (test_and (offers ls 1 "ssh-ed25519")
                  (test_and (offers ls 2 "chacha20-poly1305@openssh.com")
                            (offers ls 3 "chacha20-poly1305@openssh.com"))));
        if (ok : bool) then
          kex_ok ← lift (test_or (guesses ls 0 "curve25519-sha256")
                                 (guesses ls 0 "curve25519-sha256@libssh.org"));
          hk_ok ← lift (guesses ls 1 "ssh-ed25519");
          cset discard_next (bool_decide (ff <> 0) && negb (kex_ok && hk_ok)) ;;
          mret 0
        else mret (-2)
  end.

Definition build_kmpint : M (st C) unit :=
  v ← gget g_k_raw; b ← fits 40 (kmpint v); gset g_kmpint b.

Definition build_ks_blob : M (st C) unit :=
  pk ← gget g_hostkey_pk; b ← fits 64 (put_nl "ssh-ed25519" ++ put_str pk); gset g_ks_blob b.

(** The loop of [derive_key]; each round adds at most one block. *)
Fixpoint derive_more (fuel : nat) (out : list Z) (outlen : Z) : M (st C) (list Z) :=
  match fuel with
  | O => mret out
  | S fuel =>
      if decide (len out < outlen) then
        km ← gget g_kmpint; h ← gget g_H;
        buf ← fits 169 (km ++ h ++ out);
        derive_more fuel (out ++ take (Z.to_nat (Z.min (outlen - len out) 32)) (dossh_sha256 buf)) outlen
      else mret out
  end.
Definition derive_key (letter outlen : Z) : M (st C) (list Z) :=
  km ← gget g_kmpint; h ← gget g_H; sid ← cget session_id;
  buf ← fits 169 (km ++ h ++ [letter] ++ sid);
  derive_more (Z.to_nat outlen) (take (Z.to_nat (Z.min outlen 32)) (dossh_sha256 buf)) outlen.

(** ** Handlers *)

Definition handle_kexinit (pl : list Z) (plen : Z) : M (st C) unit :=
  r ← negotiate pl plen;
  if decide (r = -1) then fail "malformed KEXINIT"
  else if decide (r = -2) then fail "no common algorithm"
  else
    h ← cget hctx; v_c ← cget cli_ver; i_s ← cget i_s;
    i_c ← lift (rd_bytes pl 0 plen);
    cset hctx (hash_str (hash_str (hash_str (hash_str (sha256_init h) v_c) SERVER_ID) i_c) i_s) ;;
    cset state SSH_ST_EXPECT_ECDH_INIT.

Definition handle_ecdh_init (pl : list Z) (plen : Z) : M (st C) unit :=
  disc ← cget discard_next;
  if (disc : bool) then cset discard_next false
  else if decide (plen < 5) then fail "short KEX_ECDH_INIT"
  else
    qlen ← lift (rd_u32 pl 1);
    let qlen := u16 qlen in
    if decide (qlen <> 32 \/ u16 (1 + 4 + qlen) > plen) then fail "bad Q_C"
    else
      q_c ← lift (rd_bytes pl 5 32);
      gset g_q_c q_c ;;
      sk ← random 32;
      gset g_eph_sk sk ;;
      gset g_q_s (dossh_x25519_public_key sk) ;;
      gset g_k_raw (dossh_x25519 sk q_c) ;;
      if decide (Forall (fun b => b = 0) (dossh_x25519 sk q_c)) then fail "degenerate shared secret"
      else
        build_kmpint ;;
        build_ks_blob ;;
        h ← cget hctx; k_s ← gget g_ks_blob; q_s ← gget g_q_s; km ← gget g_kmpint;
        let h := sha256_update (hash_str (hash_str (hash_str h k_s) q_c) q_s) km in
        cset hctx (sha256_finish h) ;;
        gset g_H (sha256_final h) ;;
        have ← cget have_session_id;
        when (negb have) (cset session_id (sha256_final h) ;; cset have_session_id true) ;;
        hsk ← gget g_hostkey_sk;
        sigblob ← fits 100 (put_nl "ssh-ed25519" ++ put_str (dossh_ed25519_sign hsk (sha256_final h)));
        rep ← fits 256 ([MSG_KEX_ECDH_REPLY] ++ put_str k_s ++ put_str q_s ++ put_str sigblob);
        send_packet rep ;;
        kc ← derive_key 67 64; cset ek_c2s kc ;;
        ks ← derive_key 68 64; cset ek_s2c ks ;;
        cset keys_ready true ;;
        send_packet [MSG_NEWKEYS] ;;
        cset send_encrypted true ;;
        cset state SSH_ST_EXPECT_CLIENT_NEWKEYS.

Definition handle_client_newkeys (pl : list Z) (plen : Z) : M (st C) unit :=
  cset recv_encrypted true ;;
  cset state SSH_ST_EXPECT_SERVICE_REQUEST.

Definition handle_service_request (pl : list Z) (plen : Z) : M (st C) unit :=
  if decide (plen < 5) then fail "short SERVICE_REQUEST"
  else
    slen ← lift (rd_u32 pl 1);
    let slen := u16 slen in
    if decide (u16 (1 + 4 + slen) > plen \/ slen >= 64) then fail "bad service name"
    else
      name ← lift (rd_bytes pl 5 slen);
      cset svc_name name ;;
      cset done_ true ;;
      accept ← fits 80 ([MSG_SERVICE_ACCEPT] ++ put_str name);
      send_packet accept ;;
      cset state SSH_ST_AUTH.
End kex.

(** ** Negotiation *)

Section negotiation.
Context {C : Crypto}.
Implicit Types s : st C.

(** A pointer and length denote the list [x]. *)
Definition denotes (q : list Z * Z) (x : list Z) : Prop := rd_bytes q.1 0 q.2 = Some x.

Lemma nl_parse_put pre ls r plen off :
  len pre = off -> off + len (concat (put_str <$> ls)) <= plen -> is_u16 plen ->
  exists L, nl_parse (length ls) (pre ++ concat (put_str <$> ls) ++ r) plen off
    = Some (Some (L, off + len (concat (put_str <$> ls)))) /\ Forall2 denotes L ls.
Proof.
  unfold is_u16. intros Ho Hl Hp. revert pre off Ho Hl. induction ls as [|x ls IH]; intros pre off Ho Hl.
  - exists []. split; [|constructor]. cbn. do 3 f_equal. lia.
  - cbn [fmap list_fmap concat] in *. rewrite length_app, Nat2Z.inj_add, put_str_len in Hl.
    destruct (IH (pre ++ put_str x) (off + 4 + len x)) as (L & E & HL);
      [rewrite length_app, Nat2Z.inj_add, put_str_len; lia|lia|].
    exists ((x ++ concat (put_str <$> ls) ++ r, len x) :: L).
    split; [|constructor; [by apply rd_bytes_app|done]].
    cbn [nl_parse length]. rewrite u16_id by (unfold is_u16; lia). rewrite decide_False by lia.
    change (put_str x) with (put_u32 (len x) ++ x) in E |- *. rewrite <- !app_assoc in E. rewrite <- !app_assoc.
    rewrite rd_u32_app by (done || (unfold is_u32; lia)). cbn [mbind option_bind].
    rewrite !u16_id by (unfold is_u16; rewrite ?u16_id by (unfold is_u16; lia); lia).
    rewrite decide_False by lia. rewrite E. cbn [mbind option_bind].
    rewrite (app_assoc pre), ptr_app by (rewrite length_app, Nat2Z.inj_add, put_u32_len; lia).
    rewrite !length_app, !Nat2Z.inj_add, put_u32_len. do 3 f_equal. lia.
Qed.

Lemma offers_spec L ls i x name :
  Forall2 denotes L ls -> ls !! i = Some x ->
  offers L i name = Some (bool_decide (text name ∈ nl_split x)).
Proof.
  intros HL Hx. destruct (Forall2_lookup_r _ _ _ _ _ HL Hx) as (q & Hq & Hd).
  unfold offers, nth_list. rewrite nth_lookup, Hq. by apply nl_has_spec.
Qed.

Lemma guesses_spec L ls i x name :
  Forall2 denotes L ls -> ls !! i = Some x ->
  guesses L i name = Some (bool_decide (head (nl_split x) = Some (text name))).
Proof.
  intros HL Hx. destruct (Forall2_lookup_r _ _ _ _ _ HL Hx) as (q & Hq & Hd).
  unfold guesses, nth_list. rewrite nth_lookup, Hq. cbn [default from_option id].
  destruct (nl_first_spec _ _ _ Hd) as (t & -> & Ht & ->). cbn [mbind option_bind].
  rewrite (tok_eq_spec _ _ _ _ Ht). f_equal. apply bool_decide_ext. split; congruence.
Qed.

Lemma test_or_Some a b : test_or (Some a) (Some b) = Some (a || b).
Proof. by destruct a. Qed.
Lemma test_and_Some a b : test_and (Some a) (Some b) = Some (a && b).
Proof. by destruct a. Qed.

(** What a client must offer, and what its guess must be (RFC 4253 sec 7.1). *)
Definition has_name (ls : list (list Z)) (i : nat) (name : string) : bool :=
  match ls !! i with Some x => bool_decide (text name ∈ nl_split x) | None => false end.
Definition first_name (ls : list (list Z)) (i : nat) (name : string) : bool :=
  match ls !! i with Some x => bool_decide (head (nl_split x) = Some (text name)) | None => false end.
Definition acceptable (ls : list (list Z)) : bool :=
  (has_name ls 0 "curve25519-sha256" || has_name ls 0 "curve25519-sha256@libssh.org")
  && (has_name ls 1 "ssh-ed25519"
  && (has_name ls 2 "chacha20-poly1305@openssh.com" && has_name ls 3 "chacha20-poly1305@openssh.com")).
Definition right_guess (ls : list (list Z)) : bool :=
  (first_name ls 0 "curve25519-sha256" || first_name ls 0 "curve25519-sha256@libssh.org")
  && first_name ls 1 "ssh-ed25519".

(** A KEXINIT payload: message number and cookie, ten name-lists, the
    first_kex_packet_follows byte and the rest. *)
Definition kexinit_payload (hd : list Z) (ls : list (list Z)) (ff : Z) (r : list Z) : list Z :=
  hd ++ concat (put_str <$> ls) ++ ff :: r.

(** C31: on every well-formed KEXINIT, [negotiate] does not fault and decides
    exactly as RFC 4253 sec 7.1 asks: it accepts (0) when the client offers
    curve25519-sha256 (under either name), ssh-ed25519 and the cipher in both
    directions, anywhere in its lists, and refuses (-2) otherwise; and it
    schedules the next packet for discarding exactly when the client announced
    a guess that is not our first choice. *)
Theorem negotiate_exact hd ls ff r junk plen s :
  len hd = 17 -> length ls = 10%nat ->
  plen = len (kexinit_payload hd ls ff r) -> is_u16 plen ->
  negotiate (kexinit_payload hd ls ff r ++ junk) plen s =
    Some (if acceptable ls then 0 else -2,
          s <| cn := (let c := (cn s) <| cli_first_follows := ff |> in
                      if acceptable ls
                      then c <| discard_next := bool_decide (ff <> 0) && negb (right_guess ls) |>
                      else c) |>).
Proof.
  intros Hh Hls Hp Hu. unfold kexinit_payload in *. rewrite !length_app in Hp. cbn [length] in Hp.
  unfold negotiate. rewrite <- !app_assoc. cbn [app].
  destruct (nl_parse_put hd ls (ff :: r ++ junk) plen 17) as (L & E & HL); [done|lia|done|].
  rewrite Hls in E. unfold mbind, M_bind, lift. rewrite E. unfold is_u16 in Hu.
  rewrite u16_id by (unfold is_u16; lia). rewrite decide_False by lia.
  rewrite app_assoc, rd_mid by (rewrite length_app; lia).
  unfold cset, modify. cbn [fst snd].
  do 10 (destruct ls as [|? ls]; [done|]). destruct ls; [|done].
  unfold acceptable, right_guess, has_name, first_name. cbn [lookup list_lookup].
  rewrite !(offers_spec L _ 0 _ _ HL eq_refl), (offers_spec L _ 1 _ _ HL eq_refl),
    (offers_spec L _ 2 _ _ HL eq_refl), (offers_spec L _ 3 _ _ HL eq_refl),
    !(guesses_spec L _ 0 _ _ HL eq_refl), (guesses_spec L _ 1 _ _ HL eq_refl).
  rewrite !test_or_Some, !test_and_Some. by case_match.
Qed.
End negotiation.

(** Our own KEXINIT as a client's. *)
Definition our_lists : list (list Z) :=
  [ text "curve25519-sha256,curve25519-sha256@libssh.org"; text "ssh-ed25519";
    text "chacha20-poly1305@openssh.com"; text "chacha20-poly1305@openssh.com";
    text "none"; text "none"; text "none"; text "none"; []; [] ].

Definition glob0 : ssh_glob :=
  Glob [] [] [] [] [] [] [] [] (replicate 256 0) 0 0 [] [] (replicate 64 1) (replicate 32 2) [] false [] 0.
Definition toy_st : st toy := St conn0 glob0 (0 : @rng toy).

Lemma negotiate_exact_witness :
  our_kexinit (replicate 16 9) = kexinit_payload (20 :: replicate 16 9) our_lists 0 [0; 0; 0; 0]
  /\ negotiate (kexinit_payload (20 :: replicate 16 9) our_lists 0 [0; 0; 0; 0] ++ [1; 2; 3]) 193 toy_st
     = Some (if acceptable our_lists then 0 else -2,
            toy_st <| cn := (let c := (cn toy_st) <| cli_first_follows := 0 |> in
                        if acceptable our_lists
                        then c <| discard_next := bool_decide (0 <> 0) && negb (right_guess our_lists) |>
                        else c) |>).
Proof.
  split; [reflexivity|].
  apply (negotiate_exact (20 :: replicate 16 9) our_lists 0 [0; 0; 0; 0] [1; 2; 3] 193 toy_st);
    [reflexivity|reflexivity|reflexivity|split; [discriminate|reflexivity]].
Defined.

(** ** The shared secret as an mpint *)

(** Big-endian value of a byte string, and the value of an mpint body (RFC 4251
    sec 5: two's complement). *)
Definition be_value (l : list Z) : Z := fold_left (fun a b => 256 * a + b) l 0.
Definition mpint_value (d : list Z) : Z :=
  match d with
  | [] => 0
  | b :: _ => be_value d - (if decide (b < 128) then 0 else 256 ^ len d)
  end.
(** No unnecessary leading byte. *)
Definition mpint_minimal (d : list Z) : Prop :=
  match d with
  | [] => True
  | 0 :: b :: _ => 128 <= b
  | 0 :: [] => False
  | _ => True
  end.

Lemma be_value_app a l : fold_left (fun a b => 256 * a + b) l a = a * 256 ^ len l + be_value l.
Proof.
  unfold be_value. revert a. induction l as [|b l IH]; intros a; cbn [fold_left length]; [cbn; lia|].
  rewrite (IH (256 * a + b)), (IH (256 * 0 + b)), Nat2Z.inj_succ, Z.pow_succ_r by lia. ring.
Qed.

Lemma strip_zeros_value v : be_value (strip_zeros v) = be_value v.
Proof.
  induction v as [|b v IH]; [done|]. cbn [strip_zeros]. case_decide as E; [|done]. subst b. by rewrite IH.
Qed.
Lemma strip_zeros_head v b w : strip_zeros v = b :: w -> b <> 0.
Proof. induction v as [|a v IH]; [done|]. cbn [strip_zeros]. case_decide; [done|]. congruence. Qed.
Lemma strip_zeros_length v : (length (strip_zeros v) <= length v)%nat.
Proof. induction v as [|a v IH]; [done|]. cbn [strip_zeros]. case_decide; cbn; lia. Qed.
Lemma strip_zeros_bytes v : all_bytes v -> all_bytes (strip_zeros v).
Proof. induction 1; [by apply Forall_nil|]. cbn [strip_zeros]. case_decide; [done|by apply Forall_cons]. Qed.

Lemma sign_bit b : is_byte b -> Z.land b 0x80 <> 0 <-> 128 <= b.
Proof.
  unfold is_byte. intros Hb.
  assert (forall n : nat, (n < 256)%nat -> Z.land (Z.of_nat n) 0x80 <> 0 <-> 128 <= Z.of_nat n) as H.
  { intros n Hn. do 256 (destruct n as [|n]; [vm_compute; split; intros; congruence|]). lia. }
  specialize (H (Z.to_nat b) ltac:(lia)). by rewrite Z2Nat.id in H by lia.
Qed.

Lemma kmpint_body v :
  all_bytes v ->
  exists d, kmpint v = put_str d /\ mpint_value d = be_value v /\ mpint_minimal d
    /\ all_bytes d /\ len d <= len v + 1.
Proof.
  intros Hv. unfold kmpint. pose proof (strip_zeros_value v) as Hval.
  pose proof (strip_zeros_length v) as Hlen. pose proof (strip_zeros_bytes v Hv) as Hb.
  destruct (strip_zeros v) as [|b w] eqn:E.
  { exists []. split_and!; try done. cbn. lia. }
  pose proof (strip_zeros_head v b w E) as Hne. pose proof Hb as [Hbb Hw]%Forall_cons.
  assert (be_value (b :: w) = b * 256 ^ len w + be_value w) as Hbw.
  { unfold be_value at 1. cbn [fold_left]. apply be_value_app. }
  pose proof (sign_bit b Hbb) as Hsign. case_decide as Hs.
  - apply Hsign in Hs. exists (0 :: b :: w). split_and!.
    + unfold put_str. cbn [app length]. do 2 f_equal. lia.
    + cbn [mpint_value]. rewrite decide_True by lia. rewrite <- Hval, Z.sub_0_r. done.
    + done.
    + apply Forall_cons. by split.
    + cbn [length] in *. lia.
  - assert (b < 128) by (apply Z.nle_gt; tauto). exists (b :: w). split_and!.
    + unfold put_str. cbn [app length]. by rewrite Z.add_0_r.
    + cbn [mpint_value]. rewrite decide_True by lia. rewrite Hval. lia.
    + unfold is_byte in Hbb. cbn. destruct b; [done|by destruct w|lia].
    + done.
    + cbn [length] in *. lia.
Qed.

(** the shared secret K is encoded as a correct mpint: the body read as a
    two's-complement big-endian integer is the value of the 32 raw bytes (so the
    sign byte is added exactly when needed), it has no superfluous leading byte,
    and it fits the 40-byte buffer. *)
Theorem kmpint_correct v :
  all_bytes v -> len v = 32 ->
  exists d, kmpint v = put_str d /\ mpint_value d = be_value v /\ mpint_minimal d /\ len (kmpint v) <= 40.
Proof.
  intros Hv Hl. destruct (kmpint_body v Hv) as (d & -> & ? & ? & _ & Hd).
  exists d. rewrite put_str_len. split_and!; try done. lia.
Qed.

Lemma kmpint_correct_witness :
  kmpint (replicate 30 0 ++ [0x80; 1]) = [0; 0; 0; 3; 0; 0x80; 1]
  /\ exists d, kmpint (replicate 30 0 ++ [0x80; 1]) = put_str d
       /\ mpint_value d = be_value (replicate 30 0 ++ [0x80; 1]) /\ mpint_minimal d
       /\ len (kmpint (replicate 30 0 ++ [0x80; 1])) <= 40.
Proof.
  split; [reflexivity|]. apply (kmpint_correct (replicate 30 0 ++ [0x80; 1])); [|reflexivity].
  vm_compute. repeat (apply Forall_cons; split; [split; [discriminate|reflexivity]|]). apply Forall_nil. exact I.
Defined.

(** ** Exchange hash and keys *)

(** RFC 4253 sec 8 with RFC 8731: the exchange hash. *)
Definition exchange_hash (v_c v_s i_c i_s k_s q_c q_s v : list Z) : list Z :=
  Fips.sha256 (put_str v_c ++ put_str v_s ++ put_str i_c ++ put_str i_s
               ++ put_str k_s ++ put_str q_c ++ put_str q_s ++ kmpint v).
(** RFC 4253 sec 7.2: 64 bytes of key for the letter [X]. *)
Definition kdf64 (K H : list Z) (X : Z) (sid : list Z) : list Z :=
  let k1 := Fips.sha256 (K ++ H ++ [X] ++ sid) in k1 ++ Fips.sha256 (K ++ H ++ k1).

Lemma fips_length m : length (Fips.sha256 m) = 32%nat.
Proof. apply digest_length. Qed.
Lemma fips_bytes m : all_bytes (Fips.sha256 m).
Proof. apply digest_bytes. Qed.

Lemma dossh_sha256_fips m : all_bytes m -> len m < 2 ^ 32 -> dossh_sha256 m = Fips.sha256 m.
Proof.
  intros Hm Hl. apply sha256_fips; [done|by apply Forall_replicate|done|].
  change (2 ^ 32) with 4294967296 in Hl. change (2 ^ 64) with 18446744073709551616. lia.
Qed.

Lemma hash_str_absorbed m h s : ctx_absorbed m h -> all_bytes s -> ctx_absorbed (m ++ put_str s) (hash_str h s).
Proof.
  intros Hm Hs. unfold hash_str, put_str. rewrite app_assoc.
  apply update_absorbed; [|done]. apply update_absorbed; [done|apply be32_bytes].
Qed.

(** What every connection satisfies, apart from the protocol state. *)
Record kex_wf {C : Crypto} (s : st C) : Prop := {
  kw_ctx : length (data (hctx (cn s))) = 64%nat;
  kw_ctx_bytes : all_bytes (data (hctx (cn s)));
  kw_ver : all_bytes (cli_ver (cn s)) /\ len (cli_ver (cn s)) <= 255;
  kw_is : all_bytes (i_s (cn s)) /\ len (i_s (cn s)) <= 512;
  kw_sid : all_bytes (session_id (cn s)) /\ len (session_id (cn s)) = 32;
  kw_pk : all_bytes (g_hostkey_pk (gl s)) /\ len (g_hostkey_pk (gl s)) = 32;
}.

Section kex_proofs.
Context {C : Crypto} {OK : CryptoOk C}.
Implicit Types s : st C.

(** The second round of [derive_key] is the last for 64 bytes. *)
Lemma derive_more_wp n k1 Q s :
  length k1 = 32%nat -> all_bytes k1 ->
  all_bytes (g_kmpint (gl s)) -> len (g_kmpint (gl s)) <= 40 ->
  all_bytes (g_H (gl s)) -> len (g_H (gl s)) = 32 ->
  Q (k1 ++ Fips.sha256 (g_kmpint (gl s) ++ g_H (gl s) ++ k1)) s -> wp (derive_more (S (S n)) k1 64) Q s.
Proof.
  intros Hl1 Hb1 Hk1 Hk2 Hh1 Hh2 HQ. cbn [derive_more]. rewrite decide_True by lia.
  wp_run. apply wp_fits; [rewrite !length_app; lia|].
  rewrite dossh_sha256_fips; [|by rewrite !Forall_app|rewrite !length_app; lia].
  pose proof (fips_length (g_kmpint (gl s) ++ g_H (gl s) ++ k1)) as Hf. revert HQ Hf.
  generalize (Fips.sha256 (g_kmpint (gl s) ++ g_H (gl s) ++ k1)). intros k2 HQ Hf.
  rewrite take_ge by lia. rewrite decide_False by (rewrite length_app; lia). wp_run. exact HQ.
Qed.

Lemma derive_key_wp X Q s :
  is_byte X ->
  all_bytes (g_kmpint (gl s)) -> len (g_kmpint (gl s)) <= 40 ->
  all_bytes (g_H (gl s)) -> len (g_H (gl s)) = 32 ->
  all_bytes (session_id (cn s)) -> len (session_id (cn s)) = 32 ->
  Q (kdf64 (g_kmpint (gl s)) (g_H (gl s)) X (session_id (cn s))) s -> wp (derive_key X 64) Q s.
Proof.
  intros HX Hk1 Hk2 Hh1 Hh2 Hs1 Hs2 HQ. unfold derive_key. wp_run.
  apply wp_fits; [rewrite !length_app; cbn [length]; lia|].
  rewrite dossh_sha256_fips; [|by rewrite !Forall_app, Forall_singleton|rewrite !length_app; cbn [length]; lia].
  rewrite take_ge by (rewrite fips_length; reflexivity). change (Z.to_nat 64) with (S (S 62)).
  apply derive_more_wp; try done. apply fips_bytes.
Qed.

(** KEXINIT folds the first four strings into the transcript. *)
Lemma handle_kexinit_absorbs pl plen i_c s s1 :
  kex_wf s -> rd_bytes pl 0 plen = Some i_c -> all_bytes i_c ->
  state (cn s) = SSH_ST_EXPECT_KEXINIT ->
  handle_kexinit pl plen s = Some (tt, s1) -> state (cn s1) = SSH_ST_EXPECT_ECDH_INIT ->
  ctx_absorbed (put_str (cli_ver (cn s)) ++ put_str SERVER_ID ++ put_str i_c ++ put_str (i_s (cn s))) (hctx (cn s1))
  /\ gl s1 = gl s /\ rg s1 = rg s /\ session_id (cn s1) = session_id (cn s)
  /\ have_session_id (cn s1) = have_session_id (cn s) /\ send_encrypted (cn s1) = send_encrypted (cn s)
  /\ send_seq (cn s1) = send_seq (cn s).
Proof.
  intros Hwf Hrd Hb Hst.
  enough (wlp (handle_kexinit pl plen) (fun _ s1 => state (cn s1) = SSH_ST_EXPECT_ECDH_INIT ->
    ctx_absorbed (put_str (cli_ver (cn s)) ++ put_str SERVER_ID ++ put_str i_c ++ put_str (i_s (cn s))) (hctx (cn s1))
    /\ gl s1 = gl s /\ rg s1 = rg s /\ session_id (cn s1) = session_id (cn s)
    /\ have_session_id (cn s1) = have_session_id (cn s) /\ send_encrypted (cn s1) = send_encrypted (cn s)
    /\ send_seq (cn s1) = send_seq (cn s)) s) as H
    by (intros E; unfold wlp in H; rewrite E in H; exact H).
  unfold handle_kexinit. apply wlp_bind.
  apply (wlp_mono _ (fun _ s1 => hctx (cn s1) = hctx (cn s) /\ cli_ver (cn s1) = cli_ver (cn s) /\ i_s (cn s1) = i_s (cn s)
    /\ state (cn s1) = state (cn s) /\ gl s1 = gl s /\ rg s1 = rg s /\ session_id (cn s1) = session_id (cn s)
    /\ have_session_id (cn s1) = have_session_id (cn s) /\ send_encrypted (cn s1) = send_encrypted (cn s)
    /\ send_seq (cn s1) = send_seq (cn s))).
  { unfold negotiate. wp_run. case_match; wp_run; try done. case_match; wp_run; done. }
  intros r s2 (E1&E2&E3&E4&E5&E6&E7&E8&E9&E10). unfold fail.
  wp_run; try (intros; fld; exfalso; congruence).
  rewrite E1, E2, E3. intros _. split_and!; try done.
  rewrite Hrd in *. simplify_eq. destruct Hwf as [? ? [? ?] [? ?] _ _].
  rewrite !app_assoc.
  apply hash_str_absorbed; [|done]. apply hash_str_absorbed; [|done].
  apply hash_str_absorbed; [|apply text_bytes].
  apply (hash_str_absorbed []); [by apply init_absorbed|done].
Qed.
End kex_proofs.

Lemma handle_kexinit_recv {C : Crypto} pl plen (s s1 : st C) :
  handle_kexinit pl plen s = Some (tt, s1) -> recv_encrypted (cn s1) = recv_encrypted (cn s).
Proof.
  intros E. enough (keeps (fun s => recv_encrypted (cn s)) (handle_kexinit pl plen)) as H
    by (specialize (H s); unfold wlp in H; by rewrite E in H).
  unfold handle_kexinit, negotiate, fail, cget, cset. keeps_tac.
Qed.

(** The host key blob, the ECDH reply, and what the exchange leaves behind. *)
Definition host_blob (pk : list Z) : list Z := put_nl "ssh-ed25519" ++ put_str pk.
Definition ecdh_reply (k_s q_s sig : list Z) : list Z :=
  [MSG_KEX_ECDH_REPLY] ++ put_str k_s ++ put_str q_s ++ put_str (put_nl "ssh-ed25519" ++ put_str sig).

Record kex_done {C : Crypto} (s s' : st C) (h v q_s : list Z) : Prop := {
  kd_state : state (cn s') = SSH_ST_EXPECT_CLIENT_NEWKEYS;
  kd_ready : keys_ready (cn s') = true /\ send_encrypted (cn s') = true;
  kd_recv : recv_encrypted (cn s') = recv_encrypted (cn s);
  kd_H : g_H (gl s') = h;
  kd_sid : session_id (cn s') = (if have_session_id (cn s) then session_id (cn s) else h)
           /\ have_session_id (cn s') = true;
  kd_c2s : ek_c2s (cn s') = kdf64 (kmpint v) h 67 (session_id (cn s'));
  kd_s2c : ek_s2c (cn s') = kdf64 (kmpint v) h 68 (session_id (cn s'));
  kd_sent : exists pad1 pad2, g_ob (gl s') = g_ob (gl s)
    ++ plain_frame (ecdh_reply (host_blob (g_hostkey_pk (gl s))) q_s (dossh_ed25519_sign (g_hostkey_sk (gl s)) h)) pad1
    ++ plain_frame [MSG_NEWKEYS] pad2;
}.

Section ecdh.
Context {C : Crypto} {OK : CryptoOk C}.
Implicit Types s : st C.

Lemma kmpint_ok v : all_bytes v -> len v = 32 -> all_bytes (kmpint v) /\ len (kmpint v) <= 37.
Proof.
  intros Hv Hl. destruct (kmpint_body v Hv) as (d & -> & _ & _ & Hb & Hd).
  split; [by apply put_str_bytes|]. rewrite put_str_len. lia.
Qed.
Lemma host_blob_ok pk : all_bytes pk -> len pk = 32 -> all_bytes (host_blob pk) /\ len (host_blob pk) = 51.
Proof.
  intros Hp Hl. unfold host_blob, put_nl. split.
  - apply Forall_app. split; apply put_str_bytes; [apply text_bytes|done].
  - rewrite length_app, Nat2Z.inj_add, !put_str_len, Hl. done.
Qed.
Lemma reply_length k_s q_s sig :
  len k_s = 51 -> len q_s = 32 -> len sig = 64 -> len (ecdh_reply k_s q_s sig) = 179.
Proof.
  intros H1 H2 H3. unfold ecdh_reply, put_nl.
  rewrite !length_app, !Nat2Z.inj_add, !put_str_len, !length_app, !Nat2Z.inj_add, !put_str_len, H1, H2, H3. done.
Qed.

Lemma handle_ecdh_init_wp T q_c r plen sk r1 s :
  all_bytes (session_id (cn s)) /\ len (session_id (cn s)) = 32 ->
  all_bytes (g_hostkey_pk (gl s)) /\ len (g_hostkey_pk (gl s)) = 32 ->
  ctx_absorbed T (hctx (cn s)) -> len T <= 100000 ->
  discard_next (cn s) = false -> send_encrypted (cn s) = false ->
  len (g_ob (gl s)) <= 1600 -> all_bytes q_c -> len q_c = 32 -> 37 <= plen ->
  rng_bytes 32 (rg s) = (sk, r1) ->
  let v := dossh_x25519 sk q_c in
  let q_s := dossh_x25519_public_key sk in
  let h := Fips.sha256 (T ++ put_str (host_blob (g_hostkey_pk (gl s))) ++ put_str q_c ++ put_str q_s ++ kmpint v) in
  ~ Forall (fun b => b = 0) v ->
  wp (handle_ecdh_init (30 :: put_str q_c ++ r) plen) (fun _ s' => kex_done s s' h v q_s) s.
Proof.
  intros [Hsb Hsl] [Hpb Hpkl] HT HTl Hd He Hob Hqb Hq Hpl Er v q_s h Hv.
  destruct (kmpint_ok v) as [Hkb Hkl];
    [apply x25519_bytes|unfold v; by rewrite x25519_length|].
  destruct (host_blob_ok _ Hpb Hpkl) as [Hbb Hbl].
  assert (length q_s = 32%nat) as Hqs by apply x25519_public_key_length.
  assert (length h = 32%nat) as Hhl by apply fips_length.
  assert (all_bytes h) as Hhb by apply fips_bytes.
  unfold handle_ecdh_init. wp_run. rewrite Hd, decide_False by lia.
  wp_step. apply (wp_lift _ 32).
  { change (30 :: put_str q_c ++ r) with ([30] ++ put_str q_c ++ r). unfold put_str. rewrite Hq, <- app_assoc.
    by apply rd_u32_app. }
  change (u16 32) with 32. change (u16 (1 + 4 + 32)) with 37. rewrite decide_False by lia.
  wp_step. apply (wp_lift _ q_c).
  { change (30 :: put_str q_c ++ r) with ([30] ++ put_str q_c ++ r). unfold put_str. rewrite Hq, <- app_assoc, app_assoc.
    by apply rd_bytes_mid. }
  wp_run. eapply random_run; [exact Er|]. wp_run. fold v. rewrite decide_False by done.
  unfold build_kmpint, build_ks_blob. wp_run. fold v. apply wp_fits; [lia|]. wp_run.
  fold (host_blob (g_hostkey_pk (gl s))). apply wp_fits; [lia|]. wp_run.
  assert (sha256_final (sha256_update (hash_str (hash_str (hash_str (hctx (cn s))
    (host_blob (g_hostkey_pk (gl s)))) q_c) q_s) (kmpint v)) = h) as Hh.
  { apply (final_fips (T ++ put_str (host_blob (g_hostkey_pk (gl s))) ++ put_str q_c ++ put_str q_s ++ kmpint v)).
    - rewrite !app_assoc. apply update_absorbed; [|done].
      apply hash_str_absorbed; [|apply x25519_public_key_bytes].
      apply hash_str_absorbed; [|done]. by apply hash_str_absorbed.
    - rewrite !length_app, !Nat2Z.inj_add, !put_str_len. change (2 ^ 64) with 18446744073709551616. lia. }
  fold q_s. rewrite Hh. clear Hh. clearbody h q_s v.
  match goal with |- context [sha256_finish ?x] => generalize (sha256_finish x); intros hfin end.
  apply (wp_mono _ (fun _ s' => send_encrypted (cn s') = false /\ g_ob (gl s') = g_ob (gl s)
    /\ g_hostkey_sk (gl s') = g_hostkey_sk (gl s) /\ g_kmpint (gl s') = kmpint v /\ g_H (gl s') = h
    /\ recv_encrypted (cn s') = recv_encrypted (cn s)
    /\ session_id (cn s') = (if have_session_id (cn s) then session_id (cn s) else h)
    /\ have_session_id (cn s') = true)).
  { destruct (have_session_id (cn s)) eqn:Hhave; cbn [negb when]; [apply wp_ret|wp_run]; cbv beta; fld; split_and!; first [assumption|reflexivity]. }
  intros _ s1(S1 & S2 & S3 & S4 & S5 & S6 & S7 & S8).
  set (sig := dossh_ed25519_sign (g_hostkey_sk (gl s)) h).
  assert (length sig = 64%nat) as Hsig by apply ed25519_sign_length.
  wp_run. rewrite S3. fold sig. apply wp_fits; [unfold put_nl; rewrite length_app, Nat2Z.inj_add, !put_str_len, Hsig; done|].
  wp_run. fold (ecdh_reply (host_blob (g_hostkey_pk (gl s))) q_s sig).
  pose proof (reply_length (host_blob (g_hostkey_pk (gl s))) q_s sig ltac:(lia) ltac:(lia) ltac:(lia)) as Hrep.
  apply wp_fits; [lia|]. wp_run. unfold SSH_OB_SZ in *.
  apply wp_send_plain; [done|unfold SSH_OB_SZ; rewrite S2; lia|]. intros pad1 r2 Hp1.
  pose proof (padding_range 5 (len (ecdh_reply (host_blob (g_hostkey_pk (gl s))) q_s sig))) as Hpr.
  assert (len (g_ob (gl s1) ++ plain_frame (ecdh_reply (host_blob (g_hostkey_pk (gl s))) q_s sig) pad1) <= 1800) as Hob1.
  { unfold plain_frame. rewrite !length_app, S2, put_u32_length. cbn [length]. lia. }
  assert (all_bytes (session_id (cn s1)) /\ len (session_id (cn s1)) = 32) as [Hsb1 Hsl1].
  { rewrite S7. by destruct (have_session_id (cn s)); [|rewrite Hhl]. }
  unfold sent. wp_run. apply derive_key_wp; cbn [cn gl]; fld; rewrite ?S4, ?S5; try done; [lia|by rewrite Hhl|]. wp_run.
  apply derive_key_wp; cbn [cn gl]; fld; rewrite ?S4, ?S5; try done; [lia|by rewrite Hhl|]. wp_run.
  apply wp_send_plain; cbn [cn gl]; fld; [done|unfold SSH_OB_SZ; cbn [length]; lia|]. intros pad2 r3 Hp2.
  unfold sent. wp_run. constructor; cbn [cn gl]; fld; try reflexivity; try assumption; try (by split).
  exists pad1, pad2. rewrite S2, <- app_assoc. done.
Qed.
End ecdh.

(** C16: the key exchange follows RFC 4253 / RFC 8731 on the two packets of a
    client.  If KEXINIT (payload [i_c]) is accepted and then KEX_ECDH_INIT
    carries the 32-byte value [q_c], the server does not fault; its exchange hash
    is SHA-256 over V_C, V_S, I_C, I_S, K_S, Q_C, Q_S and the mpint K in that
    order, although the code hashes piecewise across the two packets; the session
    id is that hash for the first exchange and is kept afterwards; both 64-byte
    keys are the RFC 4253 sec 7.2 derivations for the letters C and D; and what
    it queues is exactly the reply with the host key, Q_S and the signature of
    the hash, followed by NEWKEYS, both unencrypted, after which it encrypts. *)
Theorem exchange_hash_rfc {C : Crypto} {OK : CryptoOk C} (s s1 : st C) pl plen i_c q_c r plen2 sk r1 :
  kex_wf s -> rd_bytes pl 0 plen = Some i_c -> all_bytes i_c -> len i_c <= 65535 ->
  state (cn s) = SSH_ST_EXPECT_KEXINIT -> send_encrypted (cn s) = false -> len (g_ob (gl s)) <= 1600 ->
  handle_kexinit pl plen s = Some (tt, s1) -> state (cn s1) = SSH_ST_EXPECT_ECDH_INIT ->
  discard_next (cn s1) = false ->
  all_bytes q_c -> len q_c = 32 -> 37 <= plen2 ->
  rng_bytes 32 (rg s) = (sk, r1) ->
  let v := dossh_x25519 sk q_c in
  let q_s := dossh_x25519_public_key sk in
  ~ Forall (fun b => b = 0) v ->
  let h := exchange_hash (cli_ver (cn s)) SERVER_ID i_c (i_s (cn s)) (host_blob (g_hostkey_pk (gl s))) q_c q_s v in
  wp (handle_ecdh_init (30 :: put_str q_c ++ r) plen2) (fun _ s2 => kex_done s s2 h v q_s) s1.
Proof.
  intros Hwf Hrd Hb Hicl Hst He Hob Hrun Hst1 Hd Hqb Hq Hpl Er v q_s Hv h.
  destruct (handle_kexinit_absorbs pl plen i_c s s1) as (HT & Eg & Er1 & Es & Eh & Ee & _); try done.
  destruct Hwf as [_ _ [Hvb Hvl] [Hib Hil] Hsid Hpk].
  set (T := put_str (cli_ver (cn s)) ++ put_str SERVER_ID ++ put_str i_c ++ put_str (i_s (cn s))) in *.
  assert (h = Fips.sha256 (T ++ put_str (host_blob (g_hostkey_pk (gl s1))) ++ put_str q_c ++ put_str q_s ++ kmpint v)) as Hh.
  { unfold h, exchange_hash, T. rewrite Eg, <- !app_assoc. reflexivity. }
  assert (recv_encrypted (cn s1) = recv_encrypted (cn s)) as Ere by by eapply handle_kexinit_recv.
  assert (len T <= 100000).
  { unfold T. rewrite !length_app, !Nat2Z.inj_add, !put_str_len. change (len SERVER_ID) with 17. lia. }
  eapply wp_mono; [apply (handle_ecdh_init_wp T q_c r plen2 sk r1 s1); congruence || (rewrite ?Eg, ?Es; done)|].
  cbn beta. fold v q_s. rewrite <- Hh. clearbody h. intros _ s2 [K1 K2 K3 K4 K5 K6 K7 K8].
  rewrite Eg in *. rewrite Ere in K3. rewrite Es, Eh in K5. by constructor.
Qed.

(** A first exchange, evaluated with the toy primitives. *)
Definition kex_s : st toy :=
  St (conn0 <| state := SSH_ST_EXPECT_KEXINIT |> <| cli_ver := text "SSH-2.0-x" |>
            <| i_s := our_kexinit (replicate 16 9) |>) glob0 (0 : @rng toy).
Definition kex_s1 : st toy :=
  match handle_kexinit (our_kexinit (replicate 16 8)) 193 kex_s with Some (_, s) => s | None => kex_s end.
Definition kex_sk : list Z := (rng_bytes 32 (rg kex_s)).1.
Definition kex_qc : list Z := replicate 32 7.
Definition kex_v : list Z := dossh_x25519 (Crypto := toy) kex_sk kex_qc.
Definition kex_qs : list Z := dossh_x25519_public_key (Crypto := toy) kex_sk.

Ltac concrete_bytes :=
  vm_compute; repeat (apply Forall_cons; split; [split; [discriminate|reflexivity]|]); apply Forall_nil; exact I.

Lemma exchange_hash_rfc_witness :
  wp (handle_ecdh_init (30 :: put_str kex_qc ++ [9]) 38) (fun _ s2 =>
    kex_done kex_s s2 (exchange_hash (cli_ver (cn kex_s)) SERVER_ID (our_kexinit (replicate 16 8)) (i_s (cn kex_s))
       (host_blob (g_hostkey_pk (gl kex_s))) kex_qc kex_qs kex_v) kex_v kex_qs) kex_s1.
Proof.
  apply (exchange_hash_rfc kex_s kex_s1 (our_kexinit (replicate 16 8)) 193 (our_kexinit (replicate 16 8))
    kex_qc [9] 38 kex_sk (1 : @rng toy)).
  - constructor; try (split; [concrete_bytes|vm_compute; first [reflexivity|discriminate]]); [reflexivity|concrete_bytes].
  - vm_compute. reflexivity.
  - concrete_bytes.
  - vm_compute. discriminate.
  - vm_compute. reflexivity.
  - vm_compute. reflexivity.
  - vm_compute. discriminate.
  - apply run_some. vm_compute. reflexivity.
  - vm_compute. reflexivity.
  - vm_compute. reflexivity.
  - concrete_bytes.
  - vm_compute. reflexivity.
  - discriminate.
  - vm_compute. reflexivity.
  - apply (bool_decide_eq_false_1 (Forall (fun b => b = 0) kex_v)). vm_compute. reflexivity.
Defined.
