(* ===== verification/SshAuth.v ===== *)
(** * User authentication (src/dosshd/ssh.c, RFC 4252)

    The replies, the retry budget, and the "publickey" and "password" methods. *)
From Stdlib Require Import ZArith Lia.
From stdpp Require Import base list numbers.
From S2P Require Import Prelude Sha256 Crypto SshWire SshConn.
Local Open Scope Z_scope.

Definition MSG_DISCONNECT : Z := 1.
Definition MSG_USERAUTH_REQUEST : Z := 50.
Definition MSG_USERAUTH_FAILURE : Z := 51.
Definition MSG_USERAUTH_SUCCESS : Z := 52.
Definition MSG_USERAUTH_PK_OK : Z := 60.
Definition DISCONNECT_NO_MORE_AUTH : Z := 14.

(** The bytes a publickey signature covers (RFC 4252 sec 7). *)
Definition pk_signed_data (sid user service algo blob : list Z) : list Z :=
  put_str sid ++ [MSG_USERAUTH_REQUEST] ++ put_str user ++ put_str service
  ++ put_nl "publickey" ++ [1] ++ put_str algo ++ put_str blob.

(** The loop of [authkey_is_authorized]; [n] keys remain from index [i]. *)
Fixpoint authkey_scan (n : nat) (keys : list Z) (i : Z) (key : list Z) : option bool :=
  match n with
  | O => Some false
  | S n =>
      k ← rd_bytes keys (u16 (i * 32)) 32;
      x ← rd_bytes key 0 32;
      if decide (k = x) then Some true else authkey_scan n keys (i + 1) key
  end.

Section auth.
Context `{C : Crypto}.

Definition send_userauth_failure : M (st C) unit :=
  n ← gget g_authkey_count;
  pw ← gget g_have_password;
  let m := if decide (n <> 0) then text "publickey" else [] in
  let m := if (pw : bool) then m ++ (if decide (m <> []) then [COMMA] else []) ++ text "password" else m in
  let m := if decide (m = []) then text "password" else m in
  m ← fits 31 m;
  rep ← fits 64 ([MSG_USERAUTH_FAILURE] ++ put_str m ++ [0]);
  send_packet rep.

Definition send_userauth_success : M (st C) unit :=
  send_packet [MSG_USERAUTH_SUCCESS] ;;
  cset authenticated true ;;
  cset state SSH_ST_SESSION.

Definition send_disconnect (reason : Z) (desc : string) : M (st C) unit :=
  rep ← fits 96 ([MSG_DISCONNECT] ++ put_u32 reason ++ put_nl desc ++ put_nl "");
  send_packet rep ;;
  cset state SSH_ST_CLOSED.

Definition auth_reject (count_it : bool) : M (st C) unit :=
  f ← cget auth_fails;
  when count_it (cset auth_fails (u16 (f + 1))) ;;
  f ← cget auth_fails;
  if decide (f >= SSH_MAX_AUTH_TRIES)
  then send_disconnect DISCONNECT_NO_MORE_AUTH "too many authentication failures"
  else send_userauth_failure.

Definition authkey_is_authorized (key : list Z) : M (st C) bool :=
  ks ← gget g_authkeys; n ← gget g_authkey_count;
  lift (authkey_scan (Z.to_nat n) ks 0 key).

(** Strings are passed as a pointer and a length. *)
Definition send_pk_ok (algo : list Z) (algolen : Z) (blob : list Z) (bloblen : Z) : M (st C) unit :=
  if decide (u16 (1 + 4 + algolen + 4 + bloblen) > 128) then auth_reject true
  else
    a ← lift (rd_bytes algo 0 algolen);
    b ← lift (rd_bytes blob 0 bloblen);
    rep ← fits 128 ([MSG_USERAUTH_PK_OK] ++ put_str a ++ put_str b);
    send_packet rep.

(** The empty result stands for the length 0. *)
Definition build_pk_signed_data (user : list Z) (ulen : Z) (service : list Z) (slen : Z)
    (algo : list Z) (algolen : Z) (blob : list Z) (bloblen : Z) : M (st C) (list Z) :=
  let need := u16 ((4 + 32) + 1 + (4 + ulen) + (4 + slen) + (4 + 9) + 1 + (4 + algolen) + (4 + bloblen)) in
  if decide (need > SSH_IB_SZ + 128) then mret []
  else
    sid ← cget session_id;
    u ← lift (rd_bytes user 0 ulen); s ← lift (rd_bytes service 0 slen);
    a ← lift (rd_bytes algo 0 algolen); b ← lift (rd_bytes blob 0 bloblen);
    d ← fits (SSH_IB_SZ + 128) (pk_signed_data sid u s a b);
    gset g_scratch d ;;
    mret d.

(** An SSH string at [o], or the code's reaction when there is none. *)
Definition want_string (pl : list Z) (plen o : Z) (no : M (st C) unit)
    (k : list Z -> Z -> Z -> M (st C) unit) : M (st C) unit :=
  r ← lift (rd_string pl plen o);
  match r with None => no | Some (s, n, o) => k s n o end.

Definition handle_pubkey_auth (pl : list Z) (plen o : Z)
    (user : list Z) (ulen : Z) (service : list Z) (slen : Z) : M (st C) unit :=
  if decide (u16 (o + 1) > plen) then auth_reject true
  else
    have_sig ← lift (rd pl o);
    let o := u16 (o + 1) in
    want_string pl plen o (auth_reject true) (fun algo algolen o =>
    want_string pl plen o (auth_reject true) (fun blob bloblen o =>
    ok ← lift (tok_eq algo algolen "ssh-ed25519");
    if negb ok then auth_reject true
    else
      key ← lift (ed25519_key_from_blob blob bloblen);
      match key with
      | None => auth_reject true
      | Some key =>
          authorized ← authkey_is_authorized key;
          if decide (have_sig = 0) then
            if negb authorized then auth_reject true
            else send_pk_ok algo algolen blob bloblen
          else
            want_string pl plen o (auth_reject true) (fun sigblob siglen o =>
            rawsig ← lift (ed25519_sig_from_blob sigblob siglen);
            match rawsig with
            | None => auth_reject true
            | Some rawsig =>
                if negb authorized then auth_reject true
                else
                  d ← build_pk_signed_data user ulen service slen algo algolen blob bloblen;
                  if decide (d = []) then auth_reject true
                  else
                    sig ← lift (rd_bytes rawsig 0 64);
                    pk ← lift (rd_bytes key 0 32);
                    if decide (dossh_ed25519_verify sig pk d = 0)
                    then send_userauth_success
                    else auth_reject true
            end)
      end)).

Definition handle_password_auth (pl : list Z) (plen o : Z) : M (st C) unit :=
  if decide (u16 (o + 1) > plen) then auth_reject true
  else
    change ← lift (rd pl o);
    let o := u16 (o + 1) in
    if decide (change <> 0) then auth_reject true
    else want_string pl plen o (auth_reject true) (fun pw pwlen o =>
      want ← gget g_password;
      ok ← (if decide (pwlen = len want) then lift (rd_is pw 0 want) else mret false);
      if (ok : bool) then send_userauth_success else auth_reject true).

Definition handle_userauth_request (pl : list Z) (plen : Z) : M (st C) unit :=
  want_string pl plen 1 (fail "short USERAUTH_REQUEST") (fun user ulen o =>
  want_string pl plen o (fail "bad USERAUTH_REQUEST") (fun service slen o =>
  want_string pl plen o (fail "bad USERAUTH_REQUEST") (fun method mlen o =>
  u ← lift (rd_bytes user 0 (Z.min ulen 63));
  cset auth_user u ;;
  pw ← gget g_have_password;
  nkeys ← gget g_authkey_count;
  if decide (pw = false /\ nkeys = 0) then send_userauth_success
  else
    is_pk ← lift (tok_eq method mlen "publickey");
    if (is_pk : bool) then
      if decide (nkeys = 0) then auth_reject true
      else handle_pubkey_auth pl plen o user ulen service slen
    else
      is_pw ← (if (pw : bool) then lift (tok_eq method mlen "password") else mret false);
      if (is_pw : bool) then handle_password_auth pl plen o
      else
        none ← lift (tok_eq method mlen "none");
        auth_reject (negb none)))).

Definition ssh_set_password (pw : list Z) : M (st C) unit :=
  gset g_password (take 63 pw) ;;
  gset g_have_password (bool_decide (pw <> [])).

Definition ssh_set_authorized_keys (keys : list Z) (count : Z) : M (st C) unit :=
  gset g_authkeys keys ;;
  gset g_authkey_count count.
End auth.

(** ** The specification: what an authentication request deserves *)

Inductive verdict : Type :=
  | VMalformed            (** not a USERAUTH_REQUEST *)
  | VGrant
  | VProbeOk              (** an acceptable key, not yet proved *)
  | VReject (count : bool).

(** A string of RFC 4251 sec 5, and the data a publickey signature covers, field
    by field as RFC 4252 sec 7 lists them. *)
Definition rfc_string (x : list Z) : list Z :=
  [len x / 16777216 mod 256; len x / 65536 mod 256; len x / 256 mod 256; len x mod 256] ++ x.
Definition rfc_signed_data (session_id user service algo blob : list Z) : list Z :=
  concat [rfc_string session_id; [50]; rfc_string user; rfc_string service;
          rfc_string (text "publickey"); [1]; rfc_string algo; rfc_string blob].

(** The authorized keys. *)
Definition keys_of (g : ssh_glob) : list (list Z) :=
  (fun i => take 32 (drop (32 * i) (g_authkeys g))) <$> seq 0 (Z.to_nat (g_authkey_count g)).

Definition pubkey_verdict {C : Crypto} (g : ssh_glob) (sid user service l : list Z) : verdict :=
  match l with
  | [] => VReject true
  | have_sig :: l =>
      match get_string l with
      | None => VReject true
      | Some (algo, l) =>
          match get_string l with
          | None => VReject true
          | Some (blob, l) =>
              if decide (algo <> text "ssh-ed25519") then VReject true
              else match blob_body 32 blob with
              | None => VReject true
              | Some key =>
                  if decide (have_sig = 0) then
                    if decide (key ∉ keys_of g) then VReject true
                    else if decide (20 + len blob > 128) then VReject true else VProbeOk
                  else match get_string l with
                  | None => VReject true
                  | Some (sigblob, _) =>
                      match blob_body 64 sigblob with
                      | None => VReject true
                      | Some sig =>
                          if decide (key ∈ keys_of g /\
                              dossh_ed25519_verify sig key (rfc_signed_data sid user service algo blob) = 0)
                          then VGrant else VReject true
                      end
                  end
              end
          end
      end
  end.

Definition password_verdict (g : ssh_glob) (l : list Z) : verdict :=
  match l with
  | [] => VReject true
  | change :: l =>
      if decide (change <> 0) then VReject true
      else match get_string l with
      | None => VReject true
      | Some (pw, _) => if decide (pw = g_password g) then VGrant else VReject true
      end
  end.

(** [p] is the payload of the packet, its message number included. *)
Definition auth_verdict {C : Crypto} (g : ssh_glob) (sid p : list Z) : verdict :=
  match p with
  | [] => VMalformed
  | _ :: l =>
      match get_string l with
      | None => VMalformed
      | Some (user, l) =>
          match get_string l with
          | None => VMalformed
          | Some (service, l) =>
              match get_string l with
              | None => VMalformed
              | Some (method, l) =>
                  if decide (g_have_password g = false /\ g_authkey_count g = 0) then VGrant
                  else if decide (method = text "publickey") then
                    if decide (g_authkey_count g = 0) then VReject true
                    else pubkey_verdict g sid user service l
                  else if decide (g_have_password g = true /\ method = text "password") then
                    password_verdict g l
                  else VReject (bool_decide (method <> text "none"))
              end
          end
      end
  end.

(** What a verdict does to the connection.  Apart from the fields named here,
    sending bookkeeping and the informational user name, nothing changes. *)
Definition auth_rest (c : ssh_conn) : ssh_conn :=
  (core c) <| authenticated := false |> <| auth_fails := 0 |> <| auth_user := [] |>.

Record auth_effect {C : Crypto} (v : verdict) (s s' : st C) : Prop := {
  ae_ob : ob_ok s';
  ae_conn : auth_rest (cn s') = auth_rest (cn s);
  ae_glob : (gl s') <| g_ob := [] |> <| g_scratch := [] |> = (gl s) <| g_ob := [] |> <| g_scratch := [] |>;
  ae_auth : authenticated (cn s') = match v with VGrant => true | _ => authenticated (cn s) end;
  ae_fails : auth_fails (cn s') = match v with VReject true => auth_fails (cn s) + 1 | _ => auth_fails (cn s) end;
  ae_state : match v with
    | VGrant => state (cn s') = SSH_ST_SESSION
    | VMalformed => state (cn s') = SSH_ST_ERROR
    | VProbeOk => state (cn s') = state (cn s) \/ state (cn s') = SSH_ST_ERROR
    | VReject _ =>
        if decide (auth_fails (cn s') >= SSH_MAX_AUTH_TRIES) then state (cn s') = SSH_ST_CLOSED
        else state (cn s') = state (cn s) \/ state (cn s') = SSH_ST_ERROR
    end;
}.

(** The configuration and the session id have the sizes the code relies on. *)
Record auth_wf {C : Crypto} (s : st C) : Prop := {
  aw_ob : ob_ok s;
  aw_count : 0 <= g_authkey_count (gl s) < 2048;
  aw_keys : 32 * g_authkey_count (gl s) <= len (g_authkeys (gl s));
  aw_sid : len (session_id (cn s)) = 32;
  aw_fails : 0 <= auth_fails (cn s) < 65535;
}.

Section auth_proofs.
Context {C : Crypto} {OK : CryptoOk C}.
Implicit Types s : st C.

Lemma core_auth_rest c c' : core c' = core c -> auth_rest c' = auth_rest c.
Proof. unfold auth_rest. by intros ->. Qed.

Lemma core_field {T} (f : ssh_conn -> T) c c' :
  core c' = core c -> (forall c, f c = f (core c)) -> f c' = f c.
Proof. intros E H. transitivity (f (core c')); [apply H|]. transitivity (f (core c)); [by f_equal|]. symmetry. apply H. Qed.

Lemma quiet_authenticated s s' : quiet s s' -> authenticated (cn s') = authenticated (cn s).
Proof. intros (E & _). by apply (core_field authenticated). Qed.
Lemma quiet_fails s s' : quiet s s' -> auth_fails (cn s') = auth_fails (cn s).
Proof. intros (E & _). by apply (core_field auth_fails). Qed.
Lemma quiet_sid s s' : quiet s s' -> session_id (cn s') = session_id (cn s).
Proof. intros (E & _). by apply (core_field session_id). Qed.
Lemma quiet_glob s s' : quiet s s' -> (gl s') <| g_ob := [] |> = (gl s) <| g_ob := [] |>.
Proof. by intros (_ & _ & E). Qed.

(** A quiet step before an effect, and the effect of a quiet step. *)
Lemma quiet_probe s s' : quiet s s' -> ob_ok s' -> auth_effect VProbeOk s s'.
Proof.
  intros Q O. constructor; [done|apply core_auth_rest, Q| |by apply quiet_authenticated|by apply quiet_fails|apply Q].
  apply quiet_glob in Q. apply (f_equal (fun g => g <| g_scratch := [] |>)) in Q. done.
Qed.

Lemma userauth_failure_wp s :
  ob_ok s -> wp send_userauth_failure (fun _ s' => quiet s s' /\ ob_ok s') s.
Proof.
  intros Ho. unfold send_userauth_failure. wp_run.
  set (m := if decide (_ = []) then _ else _). assert (len m <= 18) as Hm.
  { unfold m. destruct (g_have_password (gl s)); repeat case_decide; vm_compute; discriminate. }
  clearbody m. apply wp_fits; [lia|]. wp_run. apply wp_fits.
  - rewrite !length_app, !Nat2Z.inj_add, put_str_len. cbn [length]. lia.
  - apply send_packet_wp; [done|]. rewrite !length_app, !Nat2Z.inj_add, put_str_len. cbn [length]. lia.
Qed.

Lemma auth_reject_wp count s :
  auth_wf s -> wp (auth_reject count) (fun _ s' => auth_effect (VReject count) s s') s.
Proof.
  intros [Ho _ _ _ Hf]. unfold auth_reject. wp_run.
  apply (wp_mono _ (fun _ s1 => s1 = St ((cn s) <| auth_fails := auth_fails (cn s) + (if count then 1 else 0) |>) (gl s) (rg s))).
  { destruct count; cbn [when].
    - apply wp_cset. by rewrite u16_id by (unfold is_u16; lia).
    - apply wp_ret. rewrite Z.add_0_r. destruct s as [c g r]. by destruct c. }
  intros _ s1 ->. wp_run. case_decide as Hd.
  - unfold send_disconnect. wp_run. apply wp_fits; [vm_compute; discriminate|]. wp_run.
    eapply wp_mono; [apply send_packet_wp; [done|vm_compute; discriminate]|]. cbn beta. intros _ s2 [Q O].
    wp_run. constructor; cbn [cn gl]; fld; try done.
    + transitivity (auth_rest (cn s2)); [by destruct (cn s2)|].
      rewrite (core_auth_rest _ _ (proj1 Q)). cbn [cn]. by destruct (cn s).
    + apply quiet_glob in Q. apply (f_equal (fun g => g <| g_scratch := [] |>)) in Q. exact Q.
    + by apply quiet_authenticated in Q.
    + apply quiet_fails in Q. cbn [cn] in Q. revert Q. fld. destruct count; lia.
    + apply quiet_fails in Q. cbn [cn] in Q. revert Q. fld. intros ->. by rewrite decide_True.
  - eapply wp_mono; [by apply userauth_failure_wp|]. cbn beta. intros _ s2 [Q O].
    constructor; try done.
    + rewrite (core_auth_rest _ _ (proj1 Q)). cbn [cn]. by destruct (cn s).
    + apply quiet_glob in Q. apply (f_equal (fun g => g <| g_scratch := [] |>)) in Q. exact Q.
    + by apply quiet_authenticated in Q.
    + apply quiet_fails in Q. cbn [cn] in Q. revert Q. fld. destruct count; lia.
    + rewrite (quiet_fails _ _ Q). cbn [cn]. fld. rewrite decide_False by done. apply Q.
Qed.

Lemma userauth_success_wp s :
  ob_ok s -> wp send_userauth_success (fun _ s' => auth_effect VGrant s s') s.
Proof.
  intros Ho. unfold send_userauth_success. wp_run.
  eapply wp_mono; [apply send_packet_wp; [done|vm_compute; discriminate]|]. cbn beta. intros _ s2 [Q O].
  wp_run. constructor; cbn [cn gl]; fld; try done.
  - rewrite <- (core_auth_rest _ _ (proj1 Q)). by destruct (cn s2).
  - apply quiet_glob in Q. apply (f_equal (fun g => g <| g_scratch := [] |>)) in Q. exact Q.
  - by apply quiet_fails in Q.
Qed.
End auth_proofs.

Section auth_refines.
Context {C : Crypto} {OK : CryptoOk C}.
Implicit Types s : st C.

Lemma want_string_wp pl plen o l no k Q s :
  rest_at pl plen o l ->
  (get_string l = None -> wp no Q s) ->
  (forall x l' p n o', get_string l = Some (x, l') -> points p n x -> n = len x -> rest_at pl plen o' l' ->
     len l = 4 + len x + len l' -> wp (k p n o') Q s) ->
  wp (want_string pl plen o no k) Q s.
Proof.
  intros Hr Hno Hk. unfold want_string. destruct (rd_string_get _ _ _ _ Hr) as (r & E & H).
  apply wp_bind, (wp_lift _ r); [done|]. destruct r as [[[p n] o']|], (get_string l) as [[x l']|] eqn:El; try done.
  - destruct H as (P & R & ->). apply (Hk x l'); try done.
    eapply get_string_Some; [|exact El]. destruct Hr as [Hb _ _ _ ->]. by apply Forall_drop, Forall_take.
  - by apply Hno.
Qed.

Lemma authkey_scan_spec n keys i key x :
  points key 32 x -> 0 <= i -> i + Z.of_nat n < 2048 -> 32 * (i + Z.of_nat n) <= len keys ->
  authkey_scan n keys i key =
    Some (bool_decide (x ∈ (fun j => take 32 (drop (32 * j) keys)) <$> seq (Z.to_nat i) n)).
Proof.
  intros [Hx _]. revert i. induction n as [|n IH]; intros i Hi Hb Hl; cbn [authkey_scan].
  - by rewrite bool_decide_eq_false_2 by apply not_elem_of_nil.
  - rewrite u16_id by (unfold is_u16; lia).
    assert (rd_bytes keys (i * 32) 32 = Some (take 32 (drop (32 * Z.to_nat i) keys))) as ->.
    { unfold rd_bytes. rewrite decide_True by lia. do 3 f_equal. lia. }
    cbn [mbind option_bind]. rewrite Hx. cbn [mbind option_bind seq fmap list_fmap].
    case_decide as Hc; [by rewrite bool_decide_eq_true_2 by (rewrite Hc; left)|].
    rewrite IH by lia. f_equal. apply bool_decide_ext.
    replace (Z.to_nat (i + 1)) with (S (Z.to_nat i)) by lia.
    rewrite elem_of_cons. split; [by right|intros [?|?]; [congruence|done]].
Qed.

Lemma authorized_wp key x Q s :
  auth_wf s -> points key 32 x -> Q (bool_decide (x ∈ keys_of (gl s))) s -> wp (authkey_is_authorized key) Q s.
Proof.
  intros [_ Hc Hk _ _] Hp HQ. unfold authkey_is_authorized. wp_run. eapply wp_lift; [|exact HQ].
  rewrite (authkey_scan_spec _ _ 0 _ x); [done|done|lia..].
Qed.

Lemma rfc_string_put x : rfc_string x = put_str x.
Proof.
  unfold rfc_string, put_str, put_u32, be32, u8. rewrite !Z.shiftr_div_pow2 by lia. done.
Qed.

Lemma pk_signed_data_rfc sid user service algo blob :
  pk_signed_data sid user service algo blob = rfc_signed_data sid user service algo blob.
Proof. unfold rfc_signed_data. cbn [concat]. by rewrite !rfc_string_put, app_nil_r. Qed.

Lemma points_len p n x : points p n x -> len x = n.
Proof. intros [H%rd_bytes_Some _]. tauto. Qed.

Lemma pk_signed_data_wp user ulen u service slen sv algo algolen a blob bloblen b Q s :
  auth_wf s -> points user ulen u -> points service slen sv -> points algo algolen a -> points blob bloblen b ->
  ulen + slen + algolen + bloblen <= 2048 ->
  (let d := pk_signed_data (session_id (cn s)) u sv a b in
   d <> [] -> Q d (St (cn s) ((gl s) <| g_scratch := d |>) (rg s))) ->
  wp (build_pk_signed_data user ulen service slen algo algolen blob bloblen) Q s.
Proof.
  intros [_ _ _ Hs _] Pu Ps Pa Pb Hl HQ.
  pose proof (points_len _ _ _ Pu). pose proof (points_len _ _ _ Ps).
  pose proof (points_len _ _ _ Pa). pose proof (points_len _ _ _ Pb).
  unfold build_pk_signed_data. rewrite u16_id by (unfold is_u16; lia). unfold SSH_IB_SZ.
  rewrite decide_False by lia. wp_run.
  apply (wp_lift _ u); [apply Pu|]. wp_run. apply (wp_lift _ sv); [apply Ps|]. wp_run.
  apply (wp_lift _ a); [apply Pa|]. wp_run. apply (wp_lift _ b); [apply Pb|]. wp_run.
  apply wp_fits.
  - unfold pk_signed_data, put_nl. rewrite !length_app, !Nat2Z.inj_add, !put_str_len.
    change (len (text "publickey")) with 9. cbn [length]. lia.
  - wp_run. apply HQ. unfold pk_signed_data. by destruct (session_id (cn s)).
Qed.

Lemma pk_ok_wp algo a blob bloblen b s :
  auth_wf s -> points algo 11 a -> points blob bloblen b -> bloblen <= 2048 ->
  wp (send_pk_ok algo 11 blob bloblen)
    (fun _ s' => auth_effect (if decide (20 + len b > 128) then VReject true else VProbeOk) s s') s.
Proof.
  intros Hwf Pa Pb Hl. pose proof (points_len _ _ _ Pa). pose proof (points_len _ _ _ Pb).
  unfold send_pk_ok. rewrite u16_id by (unfold is_u16; lia).
  replace (1 + 4 + 11 + 4 + bloblen) with (20 + len b) by lia. case_decide; [by apply auth_reject_wp|].
  wp_run. apply (wp_lift _ a); [apply Pa|]. wp_run. apply (wp_lift _ b); [apply Pb|]. wp_run. apply wp_fits.
  - rewrite !length_app, !Nat2Z.inj_add, !put_str_len. cbn [length]. lia.
  - eapply wp_mono; [apply send_packet_wp; [apply Hwf|]|].
    + rewrite !length_app, !Nat2Z.inj_add, !put_str_len. cbn [length]. lia.
    + cbn beta. intros _ s' [Q O]. by apply quiet_probe.
Qed.

(** Storing the signed data in the scratch buffer is part of no effect. *)
Lemma effect_scratch v d s s' :
  auth_effect v (St (cn s) ((gl s) <| g_scratch := d |>) (rg s)) s' -> auth_effect v s s'.
Proof. intros []. by constructor. Qed.

Lemma handle_pubkey_auth_wp pl plen o l user ulen u service slen sv s :
  auth_wf s -> rest_at pl plen o l -> points user ulen u -> points service slen sv ->
  ulen + slen + len l <= 2048 ->
  wp (handle_pubkey_auth pl plen o user ulen service slen)
    (fun _ s' => auth_effect (pubkey_verdict (gl s) (session_id (cn s)) u sv l) s s') s.
Proof.
  intros Hwf Hr Pu Ps Hl. unfold handle_pubkey_auth. pose proof (rest_at_len _ _ _ _ Hr) as Hrl.
  pose proof (ra_plen _ _ _ _ Hr) as Hpl. pose proof (ra_off _ _ _ _ Hr) as Hof.
  rewrite u16_id by (unfold is_u16; lia).
  destruct l as [|hs l]; cbn [length] in *.
  { rewrite decide_True by lia. by apply auth_reject_wp. }
  rewrite decide_False by lia. destruct (rest_at_byte _ _ _ _ _ Hr) as (Hhs & Hr1 & Hbyte).
  apply wp_bind, (wp_lift _ hs); [done|]. cbn [pubkey_verdict].
  apply (want_string_wp _ _ _ _ _ _ _ _ Hr1); [intros ->; by apply auth_reject_wp|].
  intros algo l2 ap an o2 -> Pa -> Hr2 Hl2. pose proof (points_len _ _ _ Pa).
  apply (want_string_wp _ _ _ _ _ _ _ _ Hr2); [intros ->; by apply auth_reject_wp|].
  intros blob l3 bp bn o3 -> Pb -> Hr3 Hl3.
  apply wp_bind. rewrite (tok_eq_points _ _ _ _ Pa). eapply wp_lift; [done|].
  destruct (decide (algo = text "ssh-ed25519")) as [Ea|Ea].
  2: { rewrite bool_decide_eq_false_2 by done. rewrite decide_True by done. by apply auth_reject_wp. }
  rewrite bool_decide_eq_true_2 by done. rewrite decide_False by tauto. cbn [negb].
  destruct (blob_body_get 32 _ _ _ Pb) as (r & Er & Hkey); [lia|].
  apply wp_bind. eapply wp_lift; [exact Er|]. destruct r as [kp|], (blob_body 32 blob) as [key|]; try done;
    [|by apply auth_reject_wp].
  apply wp_bind, (authorized_wp _ _ _ _ Hwf Hkey).
  destruct (decide (hs = 0)) as [Ehs|Ehs].
  - destruct (decide (key ∈ keys_of (gl s))) as [Hin|Hin].
    + rewrite bool_decide_eq_true_2 by done. rewrite decide_False by tauto. cbn [negb].
      assert (len algo = 11) as Ealgo by by rewrite Ea. rewrite Ealgo in *. apply (pk_ok_wp _ algo); [done..|lia].
    + rewrite bool_decide_eq_false_2, decide_True by done. by apply auth_reject_wp.
  - apply (want_string_wp _ _ _ _ _ _ _ _ Hr3); [intros ->; by apply auth_reject_wp|].
    intros sigblob l4 sp sn o4 -> Psig -> Hr4 Hl4.
    destruct (blob_body_get 64 _ _ _ Psig) as (r & Er2 & Hsig); [lia|].
    apply wp_bind. eapply wp_lift; [exact Er2|].
    destruct r as [gp|], (blob_body 64 sigblob) as [sig|]; try done; [|by apply auth_reject_wp].
    destruct (decide (key ∈ keys_of (gl s))) as [Hin|Hin].
    2: { rewrite bool_decide_eq_false_2 by done. rewrite decide_False by tauto. by apply auth_reject_wp. }
    rewrite bool_decide_eq_true_2 by done. cbn [negb].
    apply wp_bind, (pk_signed_data_wp _ _ u _ _ sv _ _ algo _ _ blob); [done..|lia|]. cbv zeta. intros Hne.
    rewrite decide_False by done. apply wp_bind, (wp_lift _ sig); [apply Hsig|].
    apply wp_bind, (wp_lift _ key); [apply Hkey|].
    rewrite pk_signed_data_rfc. set (d := rfc_signed_data _ _ _ _ _).
    destruct (decide (dossh_ed25519_verify sig key d = 0)) as [Hv|Hv].
    + rewrite decide_True by done. eapply wp_mono; [apply userauth_success_wp; apply Hwf|].
      cbn beta. intros _ s'. apply effect_scratch.
    + rewrite decide_False by tauto. eapply wp_mono; [apply auth_reject_wp|cbn beta; intros _ s'; apply effect_scratch].
      destruct Hwf. by constructor.
Qed.
End auth_refines.

Section auth_main.
Context {C : Crypto} {OK : CryptoOk C}.
Implicit Types s : st C.

Lemma effect_user v u s s' :
  auth_effect v (St ((cn s) <| auth_user := u |>) (gl s) (rg s)) s' -> auth_effect v s s'.
Proof. intros []. by constructor. Qed.

Lemma handle_password_auth_wp pl plen o l s :
  auth_wf s -> rest_at pl plen o l ->
  wp (handle_password_auth pl plen o) (fun _ s' => auth_effect (password_verdict (gl s) l) s s') s.
Proof.
  intros Hwf Hr. unfold handle_password_auth. pose proof (rest_at_len _ _ _ _ Hr) as Hrl.
  pose proof (ra_plen _ _ _ _ Hr) as Hpl. pose proof (ra_off _ _ _ _ Hr) as Hof.
  rewrite u16_id by (unfold is_u16; lia).
  destruct l as [|ch l]; cbn [length] in *.
  { rewrite decide_True by lia. by apply auth_reject_wp. }
  rewrite decide_False by lia. destruct (rest_at_byte _ _ _ _ _ Hr) as (Hch & Hr1 & Hbyte).
  apply wp_bind, (wp_lift _ ch); [done|]. cbn [password_verdict].
  destruct (decide (ch <> 0)); [by apply auth_reject_wp|].
  apply (want_string_wp _ _ _ _ _ _ _ _ Hr1); [intros ->; by apply auth_reject_wp|].
  intros pw l2 pp pn o2 -> Pp -> Hr2 Hl2. wp_run.
  apply (wp_mono _ (fun ok s1 => s1 = s /\ ok = bool_decide (pw = g_password (gl s)))).
  - case_decide as El.
    + apply (wp_lift _ (bool_decide (pw = g_password (gl s)))); [|done]. unfold rd_is. rewrite <- El.
      by rewrite (proj1 Pp).
    + apply wp_ret. split; [done|]. by rewrite bool_decide_eq_false_2 by congruence.
  - intros ok s1 [-> ->]. case_bool_decide as E.
    + rewrite decide_True by done. by apply userauth_success_wp, Hwf.
    + rewrite decide_False by done. by apply auth_reject_wp.
Qed.

Lemma handle_userauth_wp pl plen s :
  auth_wf s -> all_bytes pl -> 0 <= plen <= 2048 -> plen <= len pl ->
  wp (handle_userauth_request pl plen)
    (fun _ s' => auth_effect (auth_verdict (gl s) (session_id (cn s)) (take (Z.to_nat plen) pl)) s s') s.
Proof.
  intros Hwf Hb Hpl Hin. assert (rest_at pl plen 0 (take (Z.to_nat plen) pl)) as Hr0 by (constructor; done || lia).
  pose proof (rest_at_len _ _ _ _ Hr0) as Hl0.
  assert (forall why, wp (fail why) (fun _ s' => auth_effect VMalformed s s') s) as Hmal.
  { intros why. unfold fail. wp_run. destruct Hwf. case_bool_decide as E; cbn [when].
    - wp_run. constructor; cbn [cn gl]; fld; try done.
    - apply wp_ret. constructor; try done. }
  unfold handle_userauth_request. destruct (take (Z.to_nat plen) pl) as [|m l] eqn:Ep.
  { cbn [length] in Hl0. unfold want_string. replace (rd_string pl plen 1) with (Some (@None (list Z * Z * Z)));
      [apply wp_bind, (wp_lift _ None); [done|apply Hmal]|]. unfold rd_string. by rewrite decide_True by lia. }
  destruct (rest_at_byte _ _ _ _ _ Hr0) as (_ & Hr & _). cbn [auth_verdict length] in *. change (0 + 1) with 1 in Hr.
  pose proof (rest_at_len _ _ _ _ Hr) as Hl.
  apply (want_string_wp _ _ _ _ _ _ _ _ Hr); [intros ->; apply Hmal|].
  intros user l1 up un o1 -> Pu -> Hr1 Hl1. pose proof (points_len _ _ _ Pu).
  apply (want_string_wp _ _ _ _ _ _ _ _ Hr1); [intros ->; apply Hmal|].
  intros service l2 sp sn o2 -> Ps -> Hr2 Hl2. pose proof (points_len _ _ _ Ps).
  apply (want_string_wp _ _ _ _ _ _ _ _ Hr2); [intros ->; apply Hmal|].
  intros method l3 mp mn o3 -> Pm -> Hr3 Hl3. pose proof (points_len _ _ _ Pm).
  destruct (rd_bytes_is_Some up 0 (Z.min (len user) 63)) as [au Hau]; [lia|lia| |].
  { destruct Pu as [(?&?&?&?&_)%rd_bytes_Some _]. lia. }
  wp_run. apply (wp_lift _ au); [done|]. wp_run.
  assert (auth_wf (St ((cn s) <| auth_user := au |>) (gl s) (rg s))) as Hwf1 by (destruct Hwf; by constructor).
  eapply (wp_mono _ (fun _ s' => auth_effect _ (St ((cn s) <| auth_user := au |>) (gl s) (rg s)) s'));
    [|cbn beta; intros _ s'; apply effect_user].
  destruct (decide (g_have_password (gl s) = false /\ g_authkey_count (gl s) = 0)) as [Hopen|Hgated];
    [apply userauth_success_wp, Hwf1|].
  wp_run. apply (wp_lift _ _ _ _ (tok_eq_points _ _ _ _ Pm)). case_bool_decide as Epk.
  - destruct (decide (g_authkey_count (gl s) = 0)); rewrite decide_True by done; [by apply auth_reject_wp|].
    pose proof (handle_pubkey_auth_wp pl plen o3 l3 up (len user) user sp (len service) service
      _ Hwf1 Hr3 Pu Ps ltac:(lia)) as H'. cbn [cn gl] in H'. revert H'. fld. done.
  - rewrite decide_False by done. wp_run.
    apply (wp_mono _ (fun b s1 => s1 = St ((cn s) <| auth_user := au |>) (gl s) (rg s)
       /\ b = bool_decide (g_have_password (gl s) = true /\ method = text "password"))).
    { destruct (g_have_password (gl s)) eqn:Eh.
      - apply (wp_lift _ _ _ _ (tok_eq_points _ _ _ _ Pm)). split; [done|]. apply bool_decide_ext. tauto.
      - apply wp_ret. split; [done|]. by rewrite bool_decide_eq_false_2 by (intros []; done). }
    intros b s1 [-> ->]. case_bool_decide as Epw.
    + rewrite decide_True by done. exact (handle_password_auth_wp pl plen o3 l3 _ Hwf1 Hr3).
    + rewrite decide_False by done. wp_run. apply (wp_lift _ _ _ _ (tok_eq_points _ _ _ _ Pm)).
      replace (negb (bool_decide (method = text "none"))) with (bool_decide (method <> text "none"));
        [by apply auth_reject_wp|].
      by rewrite bool_decide_not.
Qed.
End auth_main.

(** ** Properties *)

(** C13: user authentication refines its specification.  For every payload that
    lies inside the buffer, whatever its bytes, [handle_userauth_request] never
    reads or writes out of bounds and does exactly what [auth_verdict], a parser
    and decision procedure on byte strings without pointers, offsets or 16-bit
    arithmetic, says: it grants, answers a probe, rejects (and counts, and
    disconnects at the third counted failure) or fails; nothing else of the
    connection and of the shared configuration changes. *)
Theorem userauth_refines {C : Crypto} {OK : CryptoOk C} pl plen (s : st C) :
  auth_wf s -> all_bytes pl -> 0 <= plen <= 2048 -> plen <= len pl ->
  wp (handle_userauth_request pl plen)
    (fun _ s' => auth_effect (auth_verdict (gl s) (session_id (cn s)) (take (Z.to_nat plen) pl)) s s') s.
Proof. apply handle_userauth_wp. Qed.

(** A credential for the configuration [g] and the session [sid]: an open box
    asks for none; otherwise the configured password, or a signature over the
    session-bound data by one of the authorized keys. *)
Inductive credential {C : Crypto} (g : ssh_glob) (sid : list Z) : list Z -> Prop :=
  | cred_open m user service method rest :
      g_have_password g = false -> g_authkey_count g = 0 ->
      is_u32 (len user) -> is_u32 (len service) -> is_u32 (len method) ->
      credential g sid (m :: rfc_string user ++ rfc_string service ++ rfc_string method ++ rest)
  | cred_password m user service rest :
      g_have_password g = true ->
      is_u32 (len user) -> is_u32 (len service) -> is_u32 (len (g_password g)) ->
      credential g sid (m :: rfc_string user ++ rfc_string service ++ rfc_string (text "password") ++ 0 :: rfc_string (g_password g) ++ rest)
  | cred_key m user service flag key sig t1 t2 rest :
      g_authkey_count g <> 0 -> key ∈ keys_of g -> len key = 32 -> len sig = 64 -> flag <> 0 ->
      is_u32 (len user) -> is_u32 (len service) ->
      let blob := rfc_string (text "ssh-ed25519") ++ rfc_string key ++ t1 in
      let sigblob := rfc_string (text "ssh-ed25519") ++ rfc_string sig ++ t2 in
      is_u32 (len blob) -> is_u32 (len sigblob) ->
      dossh_ed25519_verify sig key (rfc_signed_data sid user service (text "ssh-ed25519") blob) = 0 ->
      credential g sid (m :: rfc_string user ++ rfc_string service ++ rfc_string (text "publickey")
        ++ flag :: rfc_string (text "ssh-ed25519") ++ rfc_string blob ++ rfc_string sigblob ++ rest).

Lemma get_string_rfc x r : is_u32 (len x) -> get_string (rfc_string x ++ r) = Some (x, r).
Proof. rewrite rfc_string_put. apply get_string_put. Qed.

Lemma get_string_inv l x r :
  all_bytes l -> len l < 2 ^ 32 -> get_string l = Some (x, r) ->
  l = rfc_string x ++ r /\ all_bytes r /\ all_bytes x /\ is_u32 (len x) /\ len r < 2 ^ 32.
Proof.
  intros Hb Hl E. destruct (get_string_Some _ _ _ Hb E) as [-> Hlen].
  rewrite <- rfc_string_put in *. unfold rfc_string in Hb. rewrite !Forall_app in Hb. unfold is_u32. change (2 ^ 32) with 4294967296 in *.
  split_and!; try tauto; lia.
Qed.

Lemma blob_body_inv want x k :
  all_bytes x -> len x < 2 ^ 32 -> blob_body want x = Some k ->
  len k = want /\ exists t, x = rfc_string (text "ssh-ed25519") ++ rfc_string k ++ t.
Proof.
  intros Hb Hl. unfold blob_body. destruct (get_string x) as [[name l]|] eqn:E; [|done].
  apply get_string_inv in E as (-> & Hbl & _ & _ & Hll); [|done..]. case_decide as En; [|done].
  destruct (get_string l) as [[k' t]|] eqn:E2; [|done]. case_decide as Ek; [|done]. intros [= ->].
  apply get_string_inv in E2 as (-> & _); [|done..]. split; [done|]. exists t. by rewrite En.
Qed.

Lemma blob_body_put want k t : len k = want -> is_u32 (len k) -> blob_body want (rfc_string (text "ssh-ed25519") ++ rfc_string k ++ t) = Some k.
Proof.
  intros Hk Hu. unfold blob_body. rewrite get_string_rfc by done. rewrite decide_True by done.
  rewrite get_string_rfc by done. by rewrite decide_True.
Qed.

Lemma verdict_grant {C : Crypto} (g : ssh_glob) (sid p : list Z) :
  all_bytes p -> len p < 2 ^ 32 ->
  auth_verdict g sid p = VGrant <-> credential g sid p.
Proof.
  intros Hb Hl. split.
  - destruct p as [|m l]; [done|]. apply Forall_cons in Hb as [_ Hb].
    assert (len l < 2 ^ 32) as Hll by (cbn [length] in Hl; lia). cbn [auth_verdict]. clear Hl.
    destruct (get_string l) as [[user l1]|] eqn:E1; [|done]. apply get_string_inv in E1 as (->&Hb1&_&U1&L1); [|done..].
    destruct (get_string l1) as [[service l2]|] eqn:E2; [|done]. apply get_string_inv in E2 as (->&Hb2&_&U2&L2); [|done..].
    destruct (get_string l2) as [[method l3]|] eqn:E3; [|done]. apply get_string_inv in E3 as (->&Hb3&_&U3&L3); [|done..].
    case_decide as Hopen; [by intros _; apply cred_open; tauto|]. case_decide as Em.
    + case_decide as Hn; [done|]. subst method. destruct l3 as [|flag l3]; [done|]. cbn [pubkey_verdict].
      apply Forall_cons in Hb3 as [_ Hb3]. cbn [length] in L3.
      destruct (get_string l3) as [[algo l4]|] eqn:E4; [|done]. apply get_string_inv in E4 as (->&Hb4&_&U4&L4); [|done|lia].
      destruct (get_string l4) as [[blob l5]|] eqn:E5; [|done]. apply get_string_inv in E5 as (->&Hb5&Hbb&U5&L5); [|done..].
      case_decide as Ea; [done|]. subst algo.
      destruct (blob_body 32 blob) as [key|] eqn:Ek; [|done]. case_decide as Hf; [by repeat case_decide|].
      destruct (get_string l5) as [[sigblob l6]|] eqn:E6; [|done]. apply get_string_inv in E6 as (->&Hb6&Hbs&U6&L6); [|done..].
      destruct (blob_body 64 sigblob) as [sig|] eqn:Es; [|done]. case_decide as Hv; [|done]. intros _.
      apply blob_body_inv in Ek as [Hk [t1 ->]]; [|done|exact (proj2 U5)].
      apply blob_body_inv in Es as [Hs [t2 ->]]; [|done|exact (proj2 U6)].
      by apply (cred_key g sid m user service flag key sig t1 t2 l6); tauto.
    + case_decide as Hpw; [|done]. destruct Hpw as [Hpw ->]. destruct l3 as [|ch l3]; [done|]. cbn [password_verdict].
      apply Forall_cons in Hb3 as [_ Hb3]. cbn [length] in L3. case_decide as Hc; [done|].
      destruct (get_string l3) as [[pw l4]|] eqn:E4; [|done]. apply get_string_inv in E4 as (->&Hb4&_&U4&L4); [|done|lia].
      case_decide as E; [|done]. intros _. subst pw ch. by apply cred_password.
  - intros [m user service method rest H1 H2 U1 U2 U3|m user service rest H1 U1 U2 U3
           |m user service flag key sig t1 t2 rest Hn Hk Lk Ls Hf U1 U2 blob sigblob U3 U4 Hv]; cbn [auth_verdict].
    + rewrite !get_string_rfc by done. by rewrite decide_True.
    + rewrite !get_string_rfc by done. rewrite decide_False by (rewrite H1; intros []; done).
      rewrite decide_False by done. rewrite decide_True by done. cbn [password_verdict].
      rewrite decide_False by tauto. rewrite get_string_rfc by done. by rewrite decide_True.
    + rewrite !get_string_rfc by done. rewrite decide_False by tauto.
      rewrite decide_True by done. rewrite decide_False by done. cbn [pubkey_verdict].
      rewrite !get_string_rfc by done. rewrite decide_False by tauto. unfold blob, sigblob in *.
      rewrite !blob_body_put by (done || (unfold is_u32; lia)). rewrite decide_False by done.
      by rewrite decide_True.
Qed.

(** Only the verdict [VGrant] authenticates or starts a session. *)
Lemma effect_grants {C : Crypto} v (s s' : st C) :
  auth_effect v s s' -> authenticated (cn s) = false -> state (cn s) = SSH_ST_AUTH ->
  (authenticated (cn s') = true <-> v = VGrant) /\ (state (cn s') = SSH_ST_SESSION <-> v = VGrant).
Proof.
  intros [_ _ _ Ea _ Es] Ha Hs. rewrite Ea, Ha, ?Hs in *. clear Ea. destruct v; try case_decide;
    (split; [done|]); (split; [|done]); intros E; rewrite E in Es; intuition discriminate.
Qed.

(** C14: authentication needs, and is given for, exactly a credential.  For every
    payload in the buffer, [handle_userauth_request] on a connection that is not
    authenticated makes it authenticated if and only if the request, byte for
    byte in the format of RFC 4252, is a credential for this box and this
    session: the box is open, or it carries the configured password (with the
    change-password flag off), or a public key from the authorized set together
    with a signature that is valid under that key for the data of RFC 4252
    sec 7, which start with the id of this session.  So an unsigned probe (flag
    0), a valid signature by an unlisted key, a signature made for another
    session or user, and a password when none is configured never authenticate;
    and when the request is no credential the connection does not reach the
    session state either. *)
Theorem authenticates_iff_credential {C : Crypto} {OK : CryptoOk C} pl plen (s : st C) :
  auth_wf s -> all_bytes pl -> 0 <= plen <= 2048 -> plen <= len pl ->
  authenticated (cn s) = false -> state (cn s) = SSH_ST_AUTH ->
  wp (handle_userauth_request pl plen)
    (fun _ s' =>
       (authenticated (cn s') = true <-> credential (gl s) (session_id (cn s)) (take (Z.to_nat plen) pl))
       /\ (state (cn s') = SSH_ST_SESSION <-> credential (gl s) (session_id (cn s)) (take (Z.to_nat plen) pl))) s.
Proof.
  intros Hwf Hb Hp Hin Ha Hs. eapply wp_mono; [by apply handle_userauth_wp|]. cbn beta. intros _ s' E.
  rewrite <- verdict_grant by (by apply Forall_take || (rewrite length_take; lia)).
  apply (effect_grants _ _ _ E Ha Hs).
Qed.

(** Witnesses: a box with a password and one key. *)
Definition auth_key : list Z := replicate 32 5.
Definition auth_glob : ssh_glob :=
  Glob [] [] [] [] [] [] [] [] (replicate 256 0) 0 0 [] [] (replicate 64 1) (replicate 32 2)
    (text "secret") true auth_key 1.
Definition auth_st : st toy :=
  St (conn0 <| state := SSH_ST_AUTH |> <| send_encrypted := true |> <| recv_encrypted := true |>) auth_glob (0 : @rng toy).
Definition auth_head (method : string) : list Z :=
  50 :: put_nl "me" ++ put_nl "ssh-connection" ++ put_nl method.
Definition auth_pw (pw : string) : list Z := auth_head "password" ++ [0] ++ put_nl pw.
Definition auth_sig : list Z :=
  toy_bytes 64 (toy_sum auth_key + toy_sum (pk_signed_data (replicate 32 0) (text "me") (text "ssh-connection")
    (text "ssh-ed25519") (put_nl "ssh-ed25519" ++ put_str auth_key))).
Definition auth_pk (flag : Z) : list Z :=
  auth_head "publickey" ++ [flag] ++ put_nl "ssh-ed25519" ++ put_str (put_nl "ssh-ed25519" ++ put_str auth_key)
  ++ put_str (put_nl "ssh-ed25519" ++ put_str auth_sig).

Lemma userauth_refines_witness :
  auth_verdict (C := toy) auth_glob (replicate 32 0) (auth_pw "secret") = VGrant
  /\ auth_verdict (C := toy) auth_glob (replicate 32 0) (auth_pw "wrong") = VReject true
  /\ auth_verdict (C := toy) auth_glob (replicate 32 0) (auth_pk 0) = VProbeOk
  /\ wp (handle_userauth_request (auth_pk 1 ++ [1; 2; 3]) (len (auth_pk 1)))
       (fun _ s' => auth_effect (auth_verdict (C := toy) (gl auth_st) (session_id (cn auth_st))
          (take (Z.to_nat (len (auth_pk 1))) (auth_pk 1 ++ [1; 2; 3]))) auth_st s') auth_st.
Proof.
  split; [vm_compute; reflexivity|]. split; [vm_compute; reflexivity|]. split; [vm_compute; reflexivity|].
  apply (userauth_refines (OK := toy_ok) (auth_pk 1 ++ [1; 2; 3]) (len (auth_pk 1)) auth_st).
  - constructor; vm_compute; try reflexivity; try discriminate; split; first [reflexivity|discriminate].
  - apply bytes_dec_iff. vm_compute. reflexivity.
  - vm_compute. split; discriminate.
  - vm_compute. discriminate.
Defined.

Lemma authenticates_iff_credential_witness :
  credential (C := toy) auth_glob (replicate 32 0) (auth_pk 1)
  /\ ~ credential (C := toy) auth_glob (replicate 32 0) (auth_pk 0)
  /\ wp (handle_userauth_request (auth_pk 1 ++ [1; 2; 3]) (len (auth_pk 1)))
       (fun _ s' =>
          (authenticated (cn s') = true
           <-> credential (C := toy) (gl auth_st) (session_id (cn auth_st)) (take (Z.to_nat (len (auth_pk 1))) (auth_pk 1 ++ [1; 2; 3])))
          /\ (state (cn s') = SSH_ST_SESSION
           <-> credential (C := toy) (gl auth_st) (session_id (cn auth_st)) (take (Z.to_nat (len (auth_pk 1))) (auth_pk 1 ++ [1; 2; 3])))) auth_st.
Proof.
  split_and!.
  - apply verdict_grant;
      [apply bytes_dec_iff; vm_compute; reflexivity|vm_compute; reflexivity|vm_compute; reflexivity].
  - intros H. apply verdict_grant in H;
      [vm_compute in H; discriminate|apply bytes_dec_iff; vm_compute; reflexivity|vm_compute; reflexivity].
  - apply (authenticates_iff_credential (OK := toy_ok) (auth_pk 1 ++ [1; 2; 3]) (len (auth_pk 1)) auth_st).
    + constructor; vm_compute; try reflexivity; try discriminate; split; first [reflexivity|discriminate].
    + apply bytes_dec_iff. vm_compute. reflexivity.
    + vm_compute. split; discriminate.
    + vm_compute. discriminate.
    + reflexivity.
    + reflexivity.
Defined.
