(* ===== verification/SshChan.v ===== *)
(** * The session channel (src/dosshd/ssh.c, RFC 4254)

    Channel requests, flow control in both directions, the keystroke ring, and
    the byte interface the resident program uses. *)
From Stdlib Require Import ZArith Lia.
From stdpp Require Import base list numbers.
From S2P Require Import Prelude Sha256 Crypto SshWire SshConn SshKex.
Local Open Scope Z_scope.

Definition MSG_REQUEST_FAILURE : Z := 82.
Definition MSG_CHANNEL_OPEN_CONFIRMATION : Z := 91.
Definition MSG_CHANNEL_OPEN_FAILURE : Z := 92.
Definition MSG_CHANNEL_WINDOW_ADJUST : Z := 93.
Definition MSG_CHANNEL_DATA : Z := 94.
Definition MSG_CHANNEL_EOF : Z := 96.
Definition MSG_CHANNEL_CLOSE : Z := 97.
Definition MSG_CHANNEL_REQUEST : Z := 98.
Definition MSG_CHANNEL_SUCCESS : Z := 99.
Definition MSG_CHANNEL_FAILURE : Z := 100.
Definition OPEN_ADMINISTRATIVELY_PROHIBITED : Z := 1.
Definition OPEN_UNKNOWN_CHANNEL_TYPE : Z := 3.

(** The payload of a CHANNEL_DATA packet. *)
Definition channel_data (chan : Z) (d : list Z) : list Z :=
  [MSG_CHANNEL_DATA] ++ put_u32 chan ++ put_str d.

(** [(int)x] of a 16-bit [unsigned] *)
Definition s16 (x : Z) : Z := if decide (x < 32768) then x else x - 65536.

Section chan.
Context `{C : Crypto}.

Definition chan_reply (type : Z) : M (st C) unit :=
  pc ← cget peer_chan; send_packet ([type] ++ put_u32 pc).

Definition handle_channel_open (pl : list Z) (plen : Z) : M (st C) unit :=
  if decide (u16 (1 + 4) > plen) then fail "short CHANNEL_OPEN"
  else
    tlen ← lift (rd_u32 pl 1);
    let tlen := u16 tlen in
    let tname := ptr pl 5 in
    let o := u16 (5 + tlen) in
    if decide (u16 (o + 12) > plen) then fail "bad CHANNEL_OPEN"
    else
      sender ← lift (rd_u32 pl o);
      iwin ← lift (rd_u32 pl (u16 (o + 4)));
      maxp ← lift (rd_u32 pl (u16 (o + 8)));
      busy ← cget chan_open;
      session ← (if (busy : bool) then mret false else lift (tok_eq tname tlen "session"));
      if busy || negb session then
        let reason := if (busy : bool) then OPEN_ADMINISTRATIVELY_PROHIBITED else OPEN_UNKNOWN_CHANNEL_TYPE in
        rep ← fits 64 ([MSG_CHANNEL_OPEN_FAILURE] ++ put_u32 sender ++ put_u32 reason
                       ++ put_nl "only one session channel" ++ put_nl "");
        send_packet rep
      else
        cset peer_chan sender ;;
        cset peer_window iwin ;;
        cset peer_maxpkt maxp ;;
        cset local_chan 0 ;;
        cset local_window SSH_LOCAL_WINDOW ;;
        cset chan_open true ;;
        rep ← fits 64 ([MSG_CHANNEL_OPEN_CONFIRMATION] ++ put_u32 sender ++ put_u32 0
                       ++ put_u32 SSH_LOCAL_WINDOW ++ put_u32 SSH_CHAN_MAXPKT);
        send_packet rep.

(** [if (o + 8 <= plen)] store the terminal size found at [o]. *)
Definition read_winsize (pl : list Z) (plen o : Z) : M (st C) unit :=
  when (bool_decide (u16 (o + 8) <= plen)) (
    cols ← lift (rd_u32 pl o); cset term_cols (u16 cols) ;;
    rows ← lift (rd_u32 pl (o + 4)); cset term_rows (u16 rows)).

(** The four kinds of request; the result is [granted]. *)
Definition grant_request (pl : list Z) (plen o : Z) (rtype : list Z) (rtlen : Z) : M (st C) bool :=
  is_pty ← lift (tok_eq rtype rtlen "pty-req");
  if (is_pty : bool) then
    when (bool_decide (u16 (o + 4) <= plen)) (
      tl ← lift (rd_u32 pl o);
      read_winsize pl plen (u16 (o + u16 (4 + u16 tl)))) ;;
    cset pty true ;;
    mret true
  else
    is_shell ← lift (tok_eq rtype rtlen "shell");
    is_exec ← (if (is_shell : bool) then mret true else lift (tok_eq rtype rtlen "exec"));
    if (is_exec : bool) then cset shell_ready true ;; mret true
    else
      is_winch ← lift (tok_eq rtype rtlen "window-change");
      if (is_winch : bool) then read_winsize pl plen o ;; mret true
      else mret false.

Definition handle_channel_request (pl : list Z) (plen : Z) : M (st C) unit :=
  if decide (u16 (1 + 4) > plen) then mret tt
  else if decide (u16 (5 + 4) > plen) then mret tt
  else
    rtlen ← lift (rd_u32 pl 5);
    let rtlen := u16 rtlen in
    let rtype := ptr pl 9 in
    let o := u16 (9 + rtlen) in
    if decide (u16 (o + 1) > plen) then mret tt
    else
      want_reply ← lift (rd pl o);
      granted ← grant_request pl plen (u16 (o + 1)) rtype rtlen;
      when (bool_decide (want_reply <> 0))
        (chan_reply (if (granted : bool) then MSG_CHANNEL_SUCCESS else MSG_CHANNEL_FAILURE)).

Definition adjust_local_window (consumed : Z) : M (st C) unit :=
  w ← cget local_window;
  cset local_window (if decide (w >= consumed) then w - consumed else 0) ;;
  w ← cget local_window;
  if decide (w >= SSH_LOCAL_WINDOW / 2) then mret tt
  else
    let add := u16 (SSH_LOCAL_WINDOW - w) in
    pc ← cget peer_chan;
    send_packet ([MSG_CHANNEL_WINDOW_ADJUST] ++ put_u32 pc ++ put_u32 add) ;;
    w ← cget local_window;
    cset local_window (u32 (w + add)).

(** The loop that fills the keystroke ring from [pl[9 + i]], [n] bytes to go. *)
Fixpoint cin_push (n : nat) (pl : list Z) (i : Z) : M (st C) unit :=
  match n with
  | O => mret tt
  | S n =>
      tail ← gget g_cin_tail; head ← gget g_cin_head;
      let next := (tail + 1) mod SSH_CIN_SZ in
      if decide (next = head) then mret tt
      else
        b ← lift (rd pl (u16 (9 + i)));
        cin ← gget g_cin;
        gset g_cin (<[Z.to_nat tail := b]> cin) ;;
        gset g_cin_tail next ;;
        cin_push n pl (i + 1)
  end.

Definition handle_channel_data (pl : list Z) (plen : Z) : M (st C) unit :=
  if decide (plen < 9) then mret tt
  else
    dlen ← lift (rd_u32 pl 5);
    let dlen := u16 dlen in
    let dlen := if decide (u16 (9 + dlen) > plen) then plen - 9 else dlen in
    cin_push (Z.to_nat dlen) pl 0 ;;
    adjust_local_window dlen.

Definition handle_channel_window_adjust (pl : list Z) (plen : Z) : M (st C) unit :=
  if decide (plen < 9) then mret tt
  else
    add ← lift (rd_u32 pl 5);
    w ← cget peer_window;
    cset peer_window (u32 (w + add)).

Definition handle_global_request (pl : list Z) (plen : Z) : M (st C) unit :=
  if decide (u16 (1 + 4) > plen) then mret tt
  else
    nlen ← lift (rd_u32 pl 1);
    let o := u16 (1 + u16 (4 + u16 nlen)) in
    if decide (o < plen) then
      b ← lift (rd pl o);
      when (bool_decide (b <> 0)) (send_packet [MSG_REQUEST_FAILURE])
    else mret tt.

(** ** The byte interface *)

Definition ssh_channel_ready : M (st C) bool :=
  a ← cget chan_open; b ← cget shell_ready; c ← cget chan_closed; mret (a && b && negb c).

(** [g_cin] is an array of [uint8_t]. *)
Definition ssh_channel_getc : M (st C) Z :=
  head ← gget g_cin_head; tail ← gget g_cin_tail;
  if decide (head = tail) then mret (-1)
  else
    cin ← gget g_cin;
    b ← lift (rd cin head);
    gset g_cin_head ((head + 1) mod SSH_CIN_SZ) ;;
    mret (u8 b).

Definition ssh_channel_putc (byte : Z) : M (st C) bool :=
  sh ← cget shell_ready; cl ← cget chan_closed;
  if negb sh || cl then mret false
  else
    cout ← gget g_cout;
    if decide (len cout >= SSH_COUT_SZ) then mret false
    else gset g_cout (cout ++ [u8 byte]) ;; mret true.

(** The loop of [ssh_channel_flush]; it returns [sent]. *)
Fixpoint flush_loop (fuel : nat) (sent : Z) : M (st C) Z :=
  match fuel with
  | O => mret sent
  | S fuel =>
      cout ← gget g_cout;
      if decide (sent < len cout) then
        pw ← cget peer_window; mp ← cget peer_maxpkt; ob ← gget g_ob;
        let take_ := Z.min (Z.min (Z.min (len cout - sent) SSH_CHAN_CHUNK) pw) mp in
        if decide (take_ = 0) then mret sent
        else if decide (u16 (len ob + take_ + 64) > SSH_OB_SZ) then mret sent
        else
          pc ← cget peer_chan;
          d ← lift (rd_bytes cout sent take_);
          pkt ← fits 209 (channel_data pc d);
          send_packet pkt ;;
          cst ← cget state;
          if decide (cst = SSH_ST_ERROR) then mret sent
          else
            w ← cget peer_window;
            cset peer_window (u32 (w - take_)) ;;
            flush_loop fuel (sent + take_)
      else mret sent
  end.

Definition ssh_channel_flush : M (st C) unit :=
  op ← cget chan_open; cl ← cget chan_closed;
  if negb op || cl then gset g_cout []
  else
    cout ← gget g_cout;
    sent ← flush_loop (length cout) 0;
    when (bool_decide (sent <> 0)) (
      cout ← gget g_cout;
      gset g_cout (ptr cout sent)).

Definition ssh_channel_avail : M (st C) Z :=
  rdy ← ssh_channel_ready;
  if negb rdy then mret 0
  else
    pw ← cget peer_window; mp ← cget peer_maxpkt;
    mret (Z.min (Z.min SSH_CHAN_CHUNK pw) mp).

(** The wire bytes written to [out]; the empty list is the result 0. *)
Definition ssh_channel_emit (plain : list Z) (outmax : Z) : M (st C) (list Z) :=
  let n := len plain in
  rdy ← ssh_channel_ready; enc ← cget send_encrypted;
  if negb rdy || negb enc then mret []
  else if decide (n = 0 \/ n > SSH_CHAN_CHUNK) then mret []
  else
    pw ← cget peer_window; mp ← cget peer_maxpkt;
    if decide (n > pw \/ n > mp) then mret []
    else if decide (n + 40 > outmax) then mret []
    else
      pc ← cget peer_chan;
      pkt ← fits 209 (channel_data pc plain);
      cset peer_window (u32 (pw - n)) ;;
      wire ← aead_seal pkt;
      fits outmax wire.

Definition ssh_winsize : M (st C) (Z * Z) :=
  c ← cget term_cols; r ← cget term_rows;
  mret (if decide (c = 0) then 80 else s16 c, if decide (r = 0) then 25 else s16 r).

Definition ssh_channel_close : M (st C) unit :=
  op ← cget chan_open; sc ← cget chan_sent_close;
  if negb op || sc then mret tt
  else
    ssh_channel_flush ;;
    pc ← cget peer_chan;
    sh ← cget shell_ready;
    when sh (
      p ← fits 32 ([MSG_CHANNEL_REQUEST] ++ put_u32 pc ++ put_nl "exit-status" ++ [0] ++ put_u32 0);
      send_packet p) ;;
    se ← cget chan_sent_eof;
    when (negb se) (
      send_packet ([MSG_CHANNEL_EOF] ++ put_u32 pc) ;;
      cset chan_sent_eof true) ;;
    send_packet ([MSG_CHANNEL_CLOSE] ++ put_u32 pc) ;;
    cset chan_sent_close true ;;
    cset chan_closed true.
End chan.

(** ** The keystroke ring *)

Definition cin_at (g : ssh_glob) (i : Z) : Z := nth (Z.to_nat i) (g_cin g) 0.
Definition cin_count (g : ssh_glob) : nat := Z.to_nat ((g_cin_tail g - g_cin_head g) mod SSH_CIN_SZ).
(** The keystrokes waiting in the ring, oldest first. *)
Definition cin_queue (g : ssh_glob) : list Z := ring_list (cin_at g) SSH_CIN_SZ (g_cin_head g) (cin_count g).

Record cin_wf (g : ssh_glob) : Prop := {
  cw_size : length (g_cin g) = 256%nat;
  cw_head : 0 <= g_cin_head g < 256;
  cw_tail : 0 <= g_cin_tail g < 256;
}.

(** The statics other than the ring. *)
Definition but_cin (g : ssh_glob) : ssh_glob := g <| g_cin := [] |> <| g_cin_tail := 0 |>.

Section cin.
Context {C : Crypto}.
Implicit Types s : st C.

Lemma cin_queue_length g : length (cin_queue g) = cin_count g.
Proof. apply ring_list_length. Qed.

Lemma cin_count_range g : (cin_count g <= 255)%nat.
Proof. unfold cin_count, SSH_CIN_SZ. pose proof (Z.mod_pos_bound (g_cin_tail g - g_cin_head g) 256). lia. Qed.

(** The code's full test. *)
Lemma cin_full g : cin_wf g -> (g_cin_tail g + 1) mod SSH_CIN_SZ = g_cin_head g <-> cin_count g = 255%nat.
Proof. intros [_ Hh Ht]. unfold cin_count, SSH_CIN_SZ. split; intros; Z.div_mod_to_equations; lia. Qed.

Lemma cin_store g b :
  cin_wf g -> cin_count g <> 255%nat ->
  let g' := g <| g_cin := <[Z.to_nat (g_cin_tail g) := b]> (g_cin g) |>
              <| g_cin_tail := (g_cin_tail g + 1) mod SSH_CIN_SZ |> in
  cin_wf g' /\ cin_queue g' = cin_queue g ++ [b] /\ but_cin g' = but_cin g.
Proof.
  intros Hwf Hf g'. pose proof (cin_count_range g). destruct Hwf as [Hs Hh Ht].
  assert (cin_count g' = S (cin_count g)) as Ec.
  { unfold cin_count, g', SSH_CIN_SZ in *. fld. Z.div_mod_to_equations. lia. }
  split_and!; [|..|by destruct g].
  - constructor; unfold g', SSH_CIN_SZ; fld; [by rewrite length_insert|done|apply Z.mod_pos_bound; lia].
  - unfold cin_queue at 1. rewrite Ec. unfold cin_queue.
    apply ring_list_push; [done|unfold SSH_CIN_SZ; lia|]. intros j Hj.
    assert ((g_cin_head g + Z.of_nat (cin_count g)) mod SSH_CIN_SZ = g_cin_tail g) as ->.
    { unfold cin_count, SSH_CIN_SZ. rewrite Z2Nat.id by (apply Z.mod_pos_bound; lia). Z.div_mod_to_equations. lia. }
    unfold cin_at, g'. fld. rewrite !nth_lookup. unfold SSH_CIN_SZ in Hj. case_decide as E.
    + rewrite E, list_lookup_insert_eq by lia. done.
    + rewrite list_lookup_insert_ne by lia. done.
Qed.

Lemma cin_push_wp d : forall pl i s,
  cin_wf (gl s) -> 0 <= i -> 9 + i + len d < 65536 -> rd_bytes pl (9 + i) (len d) = Some d ->
  wp (cin_push (length d) pl i) (fun _ s' => cn s' = cn s /\ rg s' = rg s /\ cin_wf (gl s')
    /\ cin_queue (gl s') = cin_queue (gl s) ++ take (255 - length (cin_queue (gl s))) d
    /\ but_cin (gl s') = but_cin (gl s)) s.
Proof.
  induction d as [|b d IH]; intros pl i s Hwf Hi Hb Hrd; cbn [cin_push length].
  { apply wp_ret. by rewrite take_nil, app_nil_r. }
  rewrite cin_queue_length. wp_run. pose proof (cin_full _ Hwf) as Hfull. pose proof (cin_count_range (gl s)).
  case_decide as Hc.
  - apply wp_ret. apply Hfull in Hc. rewrite Hc. by rewrite app_nil_r.
  - rewrite Hfull in Hc. cbn [length] in Hb, Hrd. apply rd_bytes_Some in Hrd as (H1 & _ & H3 & _ & Ed).
    assert (rd pl (9 + i) = Some b /\ rd_bytes pl (9 + (i + 1)) (len d) = Some d) as [Hb1 Hd].
    { assert (drop (Z.to_nat (9 + i)) pl = b :: d ++ drop (Z.to_nat (Z.of_nat (S (length d)))) (drop (Z.to_nat (9 + i)) pl)) as Edr.
      { rewrite <- (take_drop (Z.to_nat (Z.of_nat (S (length d)))) (drop (Z.to_nat (9 + i)) pl)) at 1. by rewrite <- Ed. }
      split.
      - rewrite <- (Z.add_0_r (9 + i)), rd_drop by lia. unfold ptr. by rewrite Edr.
      - rewrite rd_bytes_ptr by lia. replace (9 + (i + 1)) with (9 + i + 1) by lia.
        rewrite <- ptr_ptr by lia. unfold ptr at 2. rewrite Edr. by apply rd_bytes_app. }
    rewrite u16_id by (unfold is_u16; lia). apply wp_bind, (wp_lift _ b); [done|]. wp_run.
    destruct (cin_store (gl s) b Hwf Hc) as (W & Q & R).
    eapply wp_mono; [apply IH; cbn [gl]; [exact W|lia|lia|exact Hd]|].
    cbn [cn gl rg]. intros _ s' (E1 & E2 & E3 & E4 & E5). split_and!; try done.
    rewrite E4, Q, length_app, cin_queue_length, <- app_assoc. cbn [length app].
    destruct (255 - cin_count (gl s))%nat as [|k] eqn:Ek; [lia|]. cbn [firstn].
    by replace (255 - (cin_count (gl s) + 1))%nat with k by lia.
Qed.
End cin.

(** ** Flow control towards us *)

Definition topped_up (w consumed : Z) : Z :=
  let w := Z.max 0 (w - consumed) in if decide (w >= 16384) then w else SSH_LOCAL_WINDOW.

Definition but_window (c : ssh_conn) : ssh_conn := (core c) <| local_window := 0 |>.

Section window.
Context {C : Crypto} {OK : CryptoOk C}.
Implicit Types s : st C.

Lemma adjust_wp consumed s :
  ob_ok s -> 0 <= consumed -> 0 <= local_window (cn s) <= SSH_LOCAL_WINDOW ->
  wp (adjust_local_window consumed) (fun _ s' =>
    local_window (cn s') = topped_up (local_window (cn s)) consumed
    /\ but_window (cn s') = but_window (cn s) /\ ob_ok s'
    /\ (state (cn s') = state (cn s) \/ state (cn s') = SSH_ST_ERROR)
    /\ (gl s') <| g_ob := [] |> = (gl s) <| g_ob := [] |>) s.
Proof.
  unfold SSH_LOCAL_WINDOW. intros Ho Hc Hw. unfold adjust_local_window, topped_up. wp_run.
  set (w := if decide (_ >= consumed) then _ else 0).
  assert (w = Z.max 0 (local_window (cn s) - consumed)) as Ew by (unfold w; case_decide; lia).
  rewrite <- Ew. clearbody w. change (SSH_LOCAL_WINDOW / 2) with 16384. unfold SSH_LOCAL_WINDOW. case_decide as Hd.
  - apply wp_ret. cbn [cn gl]. fld. split_and!; auto.
  - wp_run. eapply wp_mono; [apply send_packet_wp; [done|cbn; lia]|]. cbn beta. intros _ s1 [Q O].
    wp_run. assert (local_window (cn s1) = w) as E1.
    { destruct Q as [Q _]. apply (f_equal local_window) in Q. exact Q. }
    rewrite E1, (u16_id (_ - w)), u32_id by (unfold is_u16, is_u32; lia). destruct Q as (Q1 & Q2 & Q3). cbn [cn gl] in *.
    split_and!; [lia| |done|done|done].
    transitivity (but_window (cn s1)); [by destruct (cn s1)|]. unfold but_window. rewrite Q1. by destruct (cn s).
Qed.
End window.

(** a CHANNEL_DATA packet appends its data to the keystroke queue in order,
    dropping exactly what exceeds the 255 free places and never overwriting
    queued keys; the receive window shrinks by the data (never below 0) and, once
    below half, is topped up to exactly 32768, the amount advertised.  Nothing
    is read outside the packet when the declared length is at most the packet. *)
Theorem channel_data_spec {C : Crypto} {OK : CryptoOk C} (s : st C) hd d r plen :
  cin_wf (gl s) -> ob_ok s -> 0 <= local_window (cn s) <= SSH_LOCAL_WINDOW ->
  len hd = 5 -> 9 + len d <= plen -> plen <= 2048 ->
  wp (handle_channel_data (hd ++ put_u32 (len d) ++ d ++ r) plen) (fun _ s' =>
    cin_wf (gl s')
    /\ cin_queue (gl s') = cin_queue (gl s) ++ take (255 - length (cin_queue (gl s))) d
    /\ local_window (cn s') = topped_up (local_window (cn s)) (len d)
    /\ but_window (cn s') = but_window (cn s)
    /\ (state (cn s') = state (cn s) \/ state (cn s') = SSH_ST_ERROR)) s.
Proof.
  intros Hwf Ho Hw Hh Hd Hp. unfold handle_channel_data. rewrite decide_False by lia.
  apply wp_bind, (wp_lift _ (len d)); [apply rd_u32_app; [done|unfold is_u32; lia]|].
  rewrite !u16_id by (unfold is_u16; rewrite ?u16_id by (unfold is_u16; lia); lia). rewrite decide_False by lia.
  rewrite Nat2Z.id. apply wp_bind. eapply wp_mono.
  { apply (cin_push_wp d); [done|lia|lia|]. rewrite app_assoc, rd_bytes_mid; [done|rewrite length_app, put_u32_length; lia|done]. }
  cbn beta. intros _ s1 (E1 & E2 & W1 & Q1 & B1).
  assert (g_ob (gl s1) = g_ob (gl s)) as Eob by exact (f_equal g_ob B1).
  eapply wp_mono; [apply adjust_wp; [unfold ob_ok; by rewrite Eob|lia|by rewrite E1]|].
  cbn beta. intros _ s2 (H1 & H2 & _ & H4 & H5). rewrite E1 in *.
  assert (cin_queue (gl s2) = cin_queue (gl s1) /\ (cin_wf (gl s1) -> cin_wf (gl s2))) as [Eq Ew].
  { pose proof (f_equal g_cin H5) as F1. pose proof (f_equal g_cin_head H5) as F2. pose proof (f_equal g_cin_tail H5) as F3.
    revert F1 F2 F3. fld. intros F1 F2 F3. split.
    - unfold cin_queue, cin_count, cin_at. by rewrite F1, F2, F3.
    - intros [? ? ?]. constructor; by rewrite ?F1, ?F2, ?F3. }
  split_and!; auto. by rewrite Eq.
Qed.

(** Taking a keystroke. *)
Lemma channel_getc_spec {C : Crypto} (s : st C) :
  cin_wf (gl s) ->
  wp ssh_channel_getc (fun b s' => cin_wf (gl s') /\ cn s' = cn s /\
    match cin_queue (gl s) with
    | [] => b = -1 /\ s' = s
    | k :: q => b = u8 k /\ cin_queue (gl s') = q
    end) s.
Proof.
  intros Hwf. unfold ssh_channel_getc. wp_run. destruct Hwf as [Hs Hh Ht]. case_decide as E.
  - apply wp_ret. split; [done|]. split; [done|]. unfold cin_queue, cin_count. by rewrite E, Z.sub_diag.
  - wp_run. apply (wp_lift _ (cin_at (gl s) (g_cin_head (gl s)))).
    { unfold rd. rewrite decide_True by lia. unfold cin_at. rewrite nth_lookup.
      destruct (lookup_lt_is_Some_2 (g_cin (gl s)) (Z.to_nat (g_cin_head (gl s)))) as [x Hx]; [lia|]. by rewrite Hx. }
    wp_run. assert (exists n, cin_count (gl s) = S n /\
      Z.to_nat ((g_cin_tail (gl s) - (g_cin_head (gl s) + 1) mod SSH_CIN_SZ) mod SSH_CIN_SZ) = n) as (n & En & En').
    { exists (cin_count (gl s) - 1)%nat. unfold cin_count, SSH_CIN_SZ. split; Z.div_mod_to_equations; lia. }
    split_and!; [|done|].
    + constructor; cbn [gl]; fld; [done|apply Z.mod_pos_bound; done|done].
    + unfold cin_queue at 1. rewrite En, ring_list_pop. unfold SSH_CIN_SZ in *. rewrite Z.mod_small by lia. split; [done|].
      unfold cin_queue, cin_count. cbn [gl]. fld. unfold SSH_CIN_SZ. rewrite En'.
      unfold cin_at. fld. done.
Qed.

Definition cin_glob : ssh_glob := SshKex.glob0.
Lemma channel_data_spec_witness :
  let s : st toy := St (conn0 <| chan_open := true |> <| local_window := 16385 |>) SshKex.glob0 (0 : @rng toy) in
  wp (handle_channel_data ([94; 0; 0; 0; 0] ++ put_u32 (len (text "ls")) ++ text "ls" ++ [13]) 11) (fun _ s' =>
    cin_wf (gl s')
    /\ cin_queue (gl s') = cin_queue (gl s) ++ take (255 - length (cin_queue (gl s))) (text "ls")
    /\ local_window (cn s') = topped_up (local_window (cn s)) (len (text "ls"))
    /\ but_window (cn s') = but_window (cn s)
    /\ (state (cn s') = state (cn s) \/ state (cn s') = SSH_ST_ERROR)) s.
Proof.
  intros s. apply (channel_data_spec (OK := toy_ok) s [94; 0; 0; 0; 0] (text "ls") [13] 11).
  - constructor; vm_compute; try reflexivity; split; first [reflexivity|discriminate].
  - vm_compute. discriminate.
  - vm_compute. split; discriminate.
  - reflexivity.
  - vm_compute. discriminate.
  - discriminate.
Defined.

(** ** Flow control towards the client *)

(** The wire form of CHANNEL_DATA packets with data [ds] and paddings [pads],
    sealed with consecutive sequence numbers from [seq]. *)
Fixpoint sealed_frames {C : Crypto} (ek : list Z) (chan seq : Z) (ds pads : list (list Z)) : list Z :=
  match ds, pads with
  | d :: ds, p :: pads => seal ek seq (channel_data chan d) p ++ sealed_frames ek chan (u32 (seq + 1)) ds pads
  | _, _ => []
  end.

Lemma channel_data_len chan d : len (channel_data chan d) = 9 + len d.
Proof. unfold channel_data. rewrite !length_app, !Nat2Z.inj_add, put_str_len, put_u32_len. cbn [length]. lia. Qed.

(** What [ssh_channel_flush] achieves. *)
Record flushed {C : Crypto} (s s' : st C) (ds pads : list (list Z)) : Prop := {
  fl_chunks : Forall (fun d => 1 <= len d <= SSH_CHAN_CHUNK /\ len d <= peer_maxpkt (cn s)) ds;
  fl_pads : length pads = length ds;
  fl_sent : g_ob (gl s') = g_ob (gl s) ++ sealed_frames (ek_s2c (cn s)) (peer_chan (cn s)) (send_seq (cn s)) ds pads;
  fl_ob : ob_ok s';
  fl_window : peer_window (cn s') = peer_window (cn s) - len (concat ds);
  fl_range : 0 <= peer_window (cn s') < 2 ^ 32;
  fl_rest : cn s' = (cn s) <| peer_window := peer_window (cn s') |> <| send_seq := send_seq (cn s') |>;
}.

(** No more can be sent now. *)
Definition flush_blocked {C : Crypto} (s : st C) (left : Z) : Prop :=
  left = 0 \/ peer_window (cn s) = 0 \/ peer_maxpkt (cn s) = 0
  \/ len (g_ob (gl s)) + SSH_CHAN_CHUNK + 64 > SSH_OB_SZ.

Section flush.
Context {C : Crypto} {OK : CryptoOk C}.
Implicit Types s : st C.

Lemma flush_refl s : ob_ok s -> 0 <= peer_window (cn s) < 2 ^ 32 -> flushed s s [] [].
Proof.
  intros Ho Hw. constructor; cbn; try done; [by rewrite app_nil_r|lia|].
  destruct s as [c g r]. by destruct c.
Qed.

Lemma flush_cons s s1 s2 d pad ds pads r :
  1 <= len d <= SSH_CHAN_CHUNK -> len d <= peer_maxpkt (cn s) -> len d <= peer_window (cn s) ->
  s1 = St ((cn s) <| send_seq := u32 (send_seq (cn s) + 1) |> <| peer_window := peer_window (cn s) - len d |>)
          ((gl s) <| g_ob := g_ob (gl s) ++ seal (ek_s2c (cn s)) (send_seq (cn s)) (channel_data (peer_chan (cn s)) d) pad |>) r ->
  flushed s1 s2 ds pads -> flushed s s2 (d :: ds) (pad :: pads).
Proof.
  intros H1 H2 H3 -> [F1 F2 F3 F4 F5 F6 F7]. cbn [cn gl] in *.
  revert F1 F3 F5 F7. fld. intros F1 F3 F5 F7. constructor; try done.
  - by apply Forall_cons.
  - cbn. congruence.
  - rewrite F3. cbn [sealed_frames]. by rewrite <- app_assoc.
  - cbn [concat]. rewrite F5, length_app. lia.
Qed.

(** The loop from [k0] bytes sent: what holds when it returns [k]. *)
Definition flush_post (k0 : Z) s (k : Z) (s' : st C) : Prop :=
  exists ds pads, flushed s s' ds pads
    /\ (gl s') <| g_ob := [] |> = (gl s) <| g_ob := [] |>
    /\ k = k0 + len (concat ds) /\ k <= len (g_cout (gl s))
    /\ concat ds = take (Z.to_nat (k - k0)) (ptr (g_cout (gl s)) k0)
    /\ flush_blocked s' (len (g_cout (gl s)) - k).

Lemma flush_stop k0 s :
  ob_ok s -> 0 <= peer_window (cn s) < 2 ^ 32 -> k0 <= len (g_cout (gl s)) ->
  flush_blocked s (len (g_cout (gl s)) - k0) -> flush_post k0 s k0 s.
Proof.
  intros Ho Hw Hk Hb. exists [], []. split; [by apply flush_refl|]. rewrite Z.sub_diag.
  split_and!; try done. cbn. lia.
Qed.

Lemma flush_step k0 s s1 k s2 d pad r :
  0 <= k0 -> rd_bytes (g_cout (gl s)) k0 (len d) = Some d ->
  1 <= len d <= SSH_CHAN_CHUNK -> len d <= peer_maxpkt (cn s) -> len d <= peer_window (cn s) ->
  s1 = St ((cn s) <| send_seq := u32 (send_seq (cn s) + 1) |> <| peer_window := peer_window (cn s) - len d |>)
          ((gl s) <| g_ob := g_ob (gl s) ++ seal (ek_s2c (cn s)) (send_seq (cn s)) (channel_data (peer_chan (cn s)) d) pad |>) r ->
  flush_post (k0 + len d) s1 k s2 -> flush_post k0 s k s2.
Proof.
  intros Hk0 Hd H1 H2 H3 Es (ds & pads & F & G & K1 & K2 & K3 & K4).
  exists (d :: ds), (pad :: pads). split; [by eapply flush_cons|]. subst s1. cbn [gl concat] in *.
  revert G K2 K3 K4. fld. intros G K2 K3 K4. rewrite length_app.
  apply rd_bytes_Some in Hd as (_ & _ & Hd2 & _ & Hd). split_and!; try done; [lia|].
  rewrite K3. assert (ptr (g_cout (gl s)) k0 = d ++ ptr (g_cout (gl s)) (k0 + len d)) as ->.
  { rewrite <- ptr_ptr by lia. unfold ptr at 3. rewrite Hd at 1. unfold ptr. by rewrite take_drop. }
  rewrite firstn_app, (take_ge d) by lia. do 2 f_equal. lia.
Qed.

Lemma flush_loop_wp fuel k0 s :
  ob_ok s -> send_encrypted (cn s) = true -> state (cn s) <> SSH_ST_ERROR ->
  0 <= peer_window (cn s) < 2 ^ 32 -> 0 <= peer_maxpkt (cn s) ->
  0 <= k0 <= len (g_cout (gl s)) -> len (g_cout (gl s)) - k0 <= Z.of_nat fuel ->
  wp (flush_loop fuel k0) (fun k s' => flush_post k0 s k s') s.
Proof.
  revert k0 s. induction fuel as [|fuel IH]; intros k0 s Ho He Hst Hw Hm Hs Hf; cbn [flush_loop].
  { apply wp_ret, flush_stop; try done; [lia|]. left. lia. }
  wp_run. case_decide as Hlt; [|apply wp_ret, flush_stop; try done; [lia|]; left; lia].
  wp_run. set (tk := Z.min _ _). assert (0 <= tk <= 200 /\ tk <= len (g_cout (gl s)) - k0 /\ tk <= peer_window (cn s)
    /\ tk <= peer_maxpkt (cn s) /\ (tk = 0 -> peer_window (cn s) = 0 \/ peer_maxpkt (cn s) = 0)) as (T1 & T2 & T3 & T4 & T5).
  { unfold tk, SSH_CHAN_CHUNK. lia. }
  case_decide as H0; [apply wp_ret, flush_stop; try done; [lia|unfold flush_blocked; tauto]|].
  unfold ob_ok, SSH_OB_SZ in *. rewrite u16_id by (unfold is_u16; lia).
  case_decide as Hfull; [apply wp_ret, flush_stop; try done; [lia|unfold flush_blocked, SSH_CHAN_CHUNK, SSH_OB_SZ; lia]|].
  wp_run. destruct (rd_bytes_is_Some (g_cout (gl s)) k0 tk) as [d Hd]; [lia..|].
  pose proof (rd_bytes_Some _ _ _ _ Hd) as (_ & _ & _ & Hdl & Ed). apply (wp_lift _ d); [done|]. wp_run.
  pose proof (channel_data_len (peer_chan (cn s)) d) as Hcl. apply wp_fits; [lia|]. wp_run.
  apply wp_send_sealed; [done|unfold SSH_ENC_MAX_PLEN; lia|unfold SSH_OB_SZ; lia|].
  intros pad r Hpad Hpb. unfold sent. wp_run. rewrite decide_False by done. wp_run.
  rewrite u32_id by (unfold is_u32; lia).
  pose proof (seal_length (ek_s2c (cn s)) (send_seq (cn s)) (channel_data (peer_chan (cn s)) d) pad) as Hsl.
  pose proof (padding_range 1 (len (channel_data (peer_chan (cn s)) d))).
  eapply wp_mono; [apply IH; unfold ob_ok, SSH_OB_SZ; cbn [cn gl]; fld; try done; try lia|].
  - rewrite length_app. lia.
  - cbn beta. intros k s2 HP. eapply (flush_step k0 s _ k s2 d pad r); try done; try lia; rewrite ?Hdl; try done.
Qed.
End flush.

(** C32: [ssh_channel_flush] sends a prefix of the staged bytes and keeps the rest,
    in order and without loss or duplication: what it queues is that prefix cut
    into CHANNEL_DATA packets, sealed with consecutive sequence numbers; every
    packet carries at least one byte and at most the chunk size and the client's
    maximum packet size; together they never exceed the client's window, which
    decreases by exactly the bytes sent; the output queue never overflows, so
    the connection never fails here; and it stops only when everything is sent,
    the window or the packet size is 0, or the queue has no room for a chunk. *)
Theorem flush_flow_control {C : Crypto} {OK : CryptoOk C} (s : st C) :
  ob_ok s -> send_encrypted (cn s) = true -> state (cn s) <> SSH_ST_ERROR ->
  chan_open (cn s) = true -> chan_closed (cn s) = false ->
  0 <= peer_window (cn s) < 2 ^ 32 -> 0 <= peer_maxpkt (cn s) ->
  wp ssh_channel_flush (fun _ s' => exists ds pads,
    flushed s s' ds pads
    /\ concat ds ++ g_cout (gl s') = g_cout (gl s)
    /\ flush_blocked s' (len (g_cout (gl s')))
    /\ (gl s') <| g_ob := [] |> <| g_cout := [] |> = (gl s) <| g_ob := [] |> <| g_cout := [] |>) s.
Proof.
  intros Ho He Hst Hop Hcl Hw Hm. unfold ssh_channel_flush. wp_run. rewrite Hop, Hcl. cbn [negb orb]. wp_run.
  eapply wp_mono; [apply flush_loop_wp; try done; lia|]. cbn beta.
  intros k s1 (ds & pads & F & G & K1 & K2 & K3 & K4).
  assert (g_cout (gl s1) = g_cout (gl s)) as Ec by exact (f_equal g_cout G).
  assert (concat ds ++ ptr (g_cout (gl s)) k = g_cout (gl s)) as Hcat.
  { rewrite K3. unfold ptr. rewrite Z.sub_0_r. cbn [drop]. apply take_drop. }
  assert (g_cout (gl s1) = ptr (g_cout (gl s)) k -> wp skip (fun _ s' => exists ds pads,
    flushed s s' ds pads /\ concat ds ++ g_cout (gl s') = g_cout (gl s)
    /\ flush_blocked s' (len (g_cout (gl s')))
    /\ (gl s') <| g_ob := [] |> <| g_cout := [] |> = (gl s) <| g_ob := [] |> <| g_cout := [] |>) s1) as Hnone.
  { intros E. apply wp_ret. exists ds, pads. rewrite E. split_and!; try done.
    - by rewrite len_ptr by lia.
    - apply (f_equal (fun g => g <| g_cout := [] |>)) in G. exact G. }
  case_bool_decide as Hk; cbn [when].
  - wp_run. exists ds, pads. cbn [gl]. fld. rewrite Ec. split_and!; try done.
    + destruct F. by constructor.
    + rewrite len_ptr by lia. exact K4.
    + apply (f_equal (fun g => g <| g_cout := [] |>)) in G. exact G.
  - apply Hnone. rewrite Ec. assert (k = 0) as -> by (apply dec_stable; tauto). done.
Qed.

Lemma flush_flow_control_witness :
  let s : st toy := St (conn0 <| chan_open := true |> <| send_encrypted := true |> <| state := SSH_ST_SESSION |>
                          <| peer_window := 250 |> <| peer_maxpkt := 100 |>)
                       (glob0 <| g_cout := replicate 300 65 |>) (0 : @rng toy) in
  wp ssh_channel_flush (fun _ s' => exists ds pads,
    flushed s s' ds pads
    /\ concat ds ++ g_cout (gl s') = g_cout (gl s)
    /\ flush_blocked s' (len (g_cout (gl s')))
    /\ (gl s') <| g_ob := [] |> <| g_cout := [] |> = (gl s) <| g_ob := [] |> <| g_cout := [] |>) s.
Proof.
  intros s. apply (flush_flow_control (OK := toy_ok) s); try reflexivity; try discriminate; vm_compute; try discriminate.
  split; [discriminate|reflexivity].
Defined.

(** [ssh_channel_emit] would send: the tests of the code. *)
Definition may_emit (c : ssh_conn) (n outmax : Z) : Prop :=
  chan_open c = true /\ shell_ready c = true /\ chan_closed c = false /\ send_encrypted c = true
  /\ 1 <= n <= SSH_CHAN_CHUNK /\ n <= peer_window c /\ n <= peer_maxpkt c /\ n + 40 <= outmax.
#[export] Instance may_emit_dec c n outmax : Decision (may_emit c n outmax).
Proof. unfold may_emit. apply _. Defined.

(** The padding of a CHANNEL_DATA packet with [n] bytes. *)
Lemma emit_padding n : 0 <= n <= 200 ->
  (n mod 8 = 3 /\ padding 1 (9 + n) = 11) \/ (n mod 8 <> 3 /\ 4 <= padding 1 (9 + n) <= 10).
Proof.
  intros Hn. unfold padding. rewrite u16_id by (unfold is_u16; lia). case_decide; Z.div_mod_to_equations; lia.
Qed.

Lemma channel_emit_wp {C : Crypto} {OK : CryptoOk C} (s : st C) plain outmax :
  0 <= peer_window (cn s) < 2 ^ 32 -> len plain mod 8 <> 3 \/ len plain + 41 <= outmax ->
  wp (ssh_channel_emit plain outmax) (fun w s' =>
    if decide (may_emit (cn s) (len plain) outmax) then
      exists pad r, len pad = padding 1 (9 + len plain) /\ all_bytes pad
        /\ w = seal (ek_s2c (cn s)) (send_seq (cn s)) (channel_data (peer_chan (cn s)) plain) pad
        /\ len w <= outmax
        /\ s' = St ((cn s) <| peer_window := peer_window (cn s) - len plain |>
                           <| send_seq := u32 (send_seq (cn s) + 1) |>) (gl s) r
    else w = [] /\ s' = s) s.
Proof.
  intros Hw Hmod. unfold ssh_channel_emit, ssh_channel_ready. wp_run.
  destruct (chan_open (cn s)) eqn:E1, (shell_ready (cn s)) eqn:E2, (chan_closed (cn s)) eqn:E3, (send_encrypted (cn s)) eqn:E4;
    cbn [negb orb andb];
    try (apply wp_ret; rewrite decide_False; [done|unfold may_emit; rewrite E1, E2, E3, E4; intros (?&?&?&?&_); done]).
  case_decide as Hn; [apply wp_ret; rewrite decide_False; [done|unfold may_emit; lia]|].
  wp_run. case_decide as Hp; [apply wp_ret; rewrite decide_False; [done|unfold may_emit; lia]|].
  case_decide as Ho; [apply wp_ret; rewrite decide_False; [done|unfold may_emit; lia]|].
  assert (may_emit (cn s) (len plain) outmax) as Hmay by (unfold may_emit; split_and!; try done; lia). unfold SSH_CHAN_CHUNK in Hn.
  wp_run. pose proof (channel_data_len (peer_chan (cn s)) plain) as Hcl. apply wp_fits; [lia|]. wp_run.
  apply aead_seal_wp. intros pad r Hpad Hpb. cbn [cn gl]. fld.
  pose proof (emit_padding (len plain) ltac:(lia)) as Hep. rewrite Hcl in Hpad.
  set (w := seal _ _ _ _). assert (len w <= outmax) as Hwl.
  { unfold w. rewrite seal_length by lia. lia. }
  apply wp_fits; [done|]. rewrite decide_True by done. exists pad, r. split_and!; try done.
  rewrite (u32_id (peer_window (cn s) - len plain)) by (unfold is_u32; change (2 ^ 32) with 4294967296 in Hw; lia). reflexivity.
Qed.

(** [ssh_channel_emit], which the resident program uses to send one rendered
    screen to many clients, either returns one sealed CHANNEL_DATA packet with
    exactly the given bytes, inside the caller's buffer, and charges them to the
    window of this client; or it returns 0 and leaves every bit of the state as
    it was.  It sends exactly when the channel is a running shell, the
    connection encrypts, and the bytes fit the chunk size, the client's window
    and packet size, and the buffer.  The hypothesis on [outmax] holds for the
    240-byte buffer of the caller in dosshd.c; without it see
    [emit_overruns_buffer]. *)
Theorem channel_emit_spec {C : Crypto} {OK : CryptoOk C} (s : st C) plain outmax :
  0 <= peer_window (cn s) < 2 ^ 32 -> len plain mod 8 <> 3 \/ len plain + 41 <= outmax ->
  wp (ssh_channel_emit plain outmax) (fun w s' =>
    if decide (may_emit (cn s) (len plain) outmax) then
      exists pad r, len pad = padding 1 (9 + len plain) /\ all_bytes pad
        /\ w = seal (ek_s2c (cn s)) (send_seq (cn s)) (channel_data (peer_chan (cn s)) plain) pad
        /\ len w <= outmax
        /\ s' = St ((cn s) <| peer_window := peer_window (cn s) - len plain |>
                           <| send_seq := u32 (send_seq (cn s) + 1) |>) (gl s) r
    else w = [] /\ s' = s) s.
Proof. apply channel_emit_wp. Qed.

Lemma channel_emit_spec_witness :
  let s : st toy := St (conn0 <| chan_open := true |> <| shell_ready := true |> <| send_encrypted := true |>
                          <| peer_window := 250 |> <| peer_maxpkt := 100 |>) glob0 (0 : @rng toy) in
  may_emit (cn s) 3 44 /\
  wp (ssh_channel_emit (text "abc") 44) (fun w s' =>
    if decide (may_emit (cn s) (len (text "abc")) 44) then
      exists pad r, len pad = padding 1 (9 + len (text "abc")) /\ all_bytes pad
        /\ w = seal (C := toy) (ek_s2c (cn s)) (send_seq (cn s)) (channel_data (peer_chan (cn s)) (text "abc")) pad
        /\ len w <= 44
        /\ s' = St ((cn s) <| peer_window := peer_window (cn s) - len (text "abc") |>
                           <| send_seq := u32 (send_seq (cn s) + 1) |>) (gl s) r
    else w = [] /\ s' = s) s.
Proof.
  intros s. split; [apply (bool_decide_unpack (may_emit (cn s) 3 44)); vm_compute; exact I|].
  apply (channel_emit_spec (OK := toy_ok) s (text "abc") 44). vm_compute. split; [discriminate|reflexivity].
  right. vm_compute. discriminate.
Defined.

(** the bound in [ssh_channel_emit] is one byte short.  Its comment takes the
    padding to be at most 8 bytes, but it is up to 11: for every payload length
    that is 3 modulo 8, a caller that passes a buffer of the promised n + 40
    bytes gets n + 41 bytes written, one past its end. *)
Theorem emit_overruns_buffer {C : Crypto} {OK : CryptoOk C} (s : st C) plain :
  may_emit (cn s) (len plain) (len plain + 40) -> len plain mod 8 = 3 ->
  ssh_channel_emit plain (len plain + 40) s = None
  /\ forall pad, len pad = padding 1 (9 + len plain) ->
       len (seal (ek_s2c (cn s)) (send_seq (cn s)) (channel_data (peer_chan (cn s)) plain) pad) = len plain + 41.
Proof.
  intros (E1 & E2 & E3 & E4 & Hn & Hw & Hm & _) Hmod. unfold SSH_CHAN_CHUNK in Hn.
  pose proof (emit_padding (len plain) ltac:(lia)) as Hep.
  pose proof (channel_data_len (peer_chan (cn s)) plain) as Hcl.
  assert (forall pad seq, len pad = padding 1 (9 + len plain) ->
    len (seal (ek_s2c (cn s)) seq (channel_data (peer_chan (cn s)) plain) pad) = len plain + 41) as Hlen.
  { intros pad seq Hp. rewrite seal_length by lia. lia. }
  split; [|intros pad; apply Hlen].
  unfold ssh_channel_emit, ssh_channel_ready, cget, gets, mret, M_ret, mbind, M_bind.
  rewrite E1, E2, E3, E4. cbn [negb orb andb]. unfold SSH_CHAN_CHUNK. rewrite !decide_False by lia.
  unfold fits at 1. rewrite decide_True by lia. unfold mret, M_ret, cset, modify, aead_seal, mbind, M_bind, random.
  pose proof (rng_bytes_length (padding 1 (len (channel_data (peer_chan (cn s)) plain))) (rg s)) as Hrl.
  fld. rewrite Hcl in *. destruct (rng_bytes (padding 1 (9 + len plain)) (rg s)) as [pad r]. cbn [fst] in Hrl.
  unfold cget, gets, cset, modify, mret, M_ret. fld. unfold fits. rewrite decide_False; [done|].
  rewrite Hlen by (apply Hrl; lia). lia.
Qed.

Lemma emit_overruns_buffer_witness :
  let s : st toy := St (conn0 <| chan_open := true |> <| shell_ready := true |> <| send_encrypted := true |>
                          <| peer_window := 250 |> <| peer_maxpkt := 100 |>) glob0 (0 : @rng toy) in
  ssh_channel_emit (text "abc") (len (text "abc") + 40) s = None.
Proof.
  intros s. apply (emit_overruns_buffer (OK := toy_ok) s (text "abc")); [|reflexivity].
  apply (bool_decide_unpack (may_emit (cn s) 3 43)). vm_compute. exact I.
Defined.
