(* ===== verification/Ssh.v ===== *)
(** * The SSH server (src/dosshd/ssh.c: dispatch, packet input, public API)

    The state machine over the handlers of SshKex, SshAuth and SshChan, the
    decoding of the inbound byte stream, and the calls the resident program
    makes. *)
From Stdlib Require Import ZArith Lia.
From stdpp Require Import base list numbers.
From S2P Require Import Prelude Sha256 Crypto SshWire SshConn SshKex SshAuth SshChan.
Local Open Scope Z_scope.

Definition MSG_IGNORE : Z := 2.
Definition MSG_UNIMPLEMENTED : Z := 3.
Definition MSG_DEBUG : Z := 4.
Definition MSG_SERVICE_REQUEST : Z := 5.
Definition MSG_KEX_ECDH_INIT : Z := 30.
Definition MSG_GLOBAL_REQUEST : Z := 80.
Definition MSG_CHANNEL_OPEN : Z := 90.

Section ssh.
Context `{C : Crypto}.

(** ** Dispatch *)

Definition handle_session (msg : Z) (pl : list Z) (plen : Z) : M (st C) unit :=
  if decide (msg = MSG_CHANNEL_OPEN) then handle_channel_open pl plen
  else if decide (msg = MSG_CHANNEL_REQUEST) then handle_channel_request pl plen
  else if decide (msg = MSG_CHANNEL_DATA) then handle_channel_data pl plen
  else if decide (msg = MSG_CHANNEL_WINDOW_ADJUST) then handle_channel_window_adjust pl plen
  else if decide (msg = MSG_CHANNEL_EOF) then cset chan_eof true
  else if decide (msg = MSG_CHANNEL_CLOSE) then
    sc ← cget chan_sent_close;
    when (negb sc) ssh_channel_close ;;
    cset chan_closed true ;;
    cset state SSH_ST_CLOSED
  else mret tt.

Definition handle_packet (pl : list Z) (plen : Z) : M (st C) unit :=
  msg ← (if decide (plen = 0) then mret 0 else lift (rd pl 0));
  if decide (msg = MSG_DISCONNECT) then cset state SSH_ST_CLOSED
  else if decide (msg = MSG_IGNORE \/ msg = MSG_DEBUG \/ msg = MSG_UNIMPLEMENTED) then mret tt
  else if decide (msg = MSG_GLOBAL_REQUEST) then handle_global_request pl plen
  else
    cst ← cget state;
    disc ← cget discard_next;
    match cst with
    | SSH_ST_EXPECT_KEXINIT =>
        if decide (msg <> MSG_KEXINIT) then fail "expected KEXINIT" else handle_kexinit pl plen
    | SSH_ST_EXPECT_ECDH_INIT =>
        if decide (msg <> MSG_KEX_ECDH_INIT /\ disc = false) then fail "expected KEX_ECDH_INIT"
        else handle_ecdh_init pl plen
    | SSH_ST_EXPECT_CLIENT_NEWKEYS =>
        if decide (msg <> MSG_NEWKEYS) then fail "expected NEWKEYS" else handle_client_newkeys pl plen
    | SSH_ST_EXPECT_SERVICE_REQUEST =>
        if decide (msg <> MSG_SERVICE_REQUEST) then fail "expected SERVICE_REQUEST"
        else handle_service_request pl plen
    | SSH_ST_AUTH =>
        if decide (msg = MSG_USERAUTH_REQUEST) then handle_userauth_request pl plen else mret tt
    | SSH_ST_SESSION => handle_session msg pl plen
    | _ => fail "unexpected packet"
    end.

(** ** Inbound bytes *)

(** The loop of [try_version] at index [i]; [n] bytes remain. *)
Fixpoint version_scan (n : nat) (i : Z) : M (st C) Z :=
  match n with
  | O => mret 0
  | S n =>
      b ← cget ib;
      ch ← lift (rd b i);
      if decide (ch = 10) then
        cr ← (if decide (i = 0) then mret 0 else lift (rd b (i - 1)));
        let linelen := if decide (cr = 13) then i - 1 else i in
        ok ← (if decide (linelen >= 4) then lift (rd_is b 0 (text "SSH-")) else mret false);
        when ok (
          v ← lift (rd_bytes b 0 (Z.min linelen 255));
          cset cli_ver v ;;
          cset state SSH_ST_EXPECT_KEXINIT) ;;
        ib_consume (i + 1) ;;
        mret 1
      else if decide (i > 300) then fail "version line too long" ;; mret (-1)
      else version_scan n (i + 1)
  end.
Definition try_version : M (st C) Z := n ← cget ib_len; version_scan (Z.to_nat n) 0.

(** What both framings do with a packet of [pkt_len] bytes at [ib + 4], the
    wire form of which is [need] bytes long. *)
Definition deliver (pkt_len need : Z) : M (st C) Z :=
  b ← cget ib;
  padlen ← lift (rd b 4);
  if decide (padlen + 1 > pkt_len) then fail "bad padding" ;; mret (-1)
  else
    handle_packet (ptr b 5) (pkt_len - 1 - padlen) ;;
    ib_consume need ;;
    seq ← cget recv_seq;
    cset recv_seq (u32 (seq + 1)) ;;
    mret 1.

Definition try_plain : M (st C) Z :=
  n ← cget ib_len;
  if decide (n < 4) then mret 0
  else
    b ← cget ib;
    pkt_len ← lift (rd_u32 b 0);
    let pkt_len := u16 pkt_len in
    if decide (pkt_len < 1 \/ u16 (pkt_len + 4) > SSH_IB_SZ) then fail "packet too large" ;; mret (-1)
    else
      let need := u16 (4 + pkt_len) in
      if decide (n < need) then mret 0 else deliver pkt_len need.

Definition try_sealed : M (st C) Z :=
  n ← cget ib_len;
  if decide (n < 4) then mret 0
  else
    b ← cget ib; ek ← cget ek_c2s; seq ← cget recv_seq;
    let k_main := take 32 ek in
    let k_header := drop 32 ek in
    let nonce := seqbuf8 seq in
    enc_len ← lift (rd_bytes b 0 4);
    pkt_len ← lift (rd_u32 (dossh_chacha20_djb (Some enc_len) 4 k_header nonce 0) 0);
    let pkt_len := u16 pkt_len in
    if decide (pkt_len < 8 \/ pkt_len mod 8 <> 0 \/ u16 (4 + pkt_len + 16) > SSH_IB_SZ)
    then fail "bad encrypted length" ;; mret (-1)
    else
      let need := u16 (4 + pkt_len + 16) in
      if decide (n < need) then mret 0
      else
        let polykey := dossh_chacha20_djb None 32 k_main nonce 0 in
        authed ← lift (rd_bytes b 0 (u16 (4 + pkt_len)));
        tag ← lift (rd_bytes b (4 + pkt_len) 16);
        if decide (dossh_poly1305 authed polykey <> tag) then fail "MAC verification failed" ;; mret (-1)
        else
          body ← lift (rd_bytes b 4 pkt_len);
          cset ib (take 4 b ++ dossh_chacha20_djb (Some body) pkt_len k_main nonce 1
                   ++ ptr b (4 + pkt_len)) ;;
          deliver pkt_len need.

Definition try_packet : M (st C) Z :=
  enc ← cget recv_encrypted; if (enc : bool) then try_sealed else try_plain.

(** ** Public API *)

Definition ssh_reset (hostkey_sk hostkey_pk : list Z) : M (st C) unit :=
  modify (fun s => s <| cn := conn0 |>) ;;
  gset g_hostkey_sk hostkey_sk ;;
  gset g_hostkey_pk hostkey_pk ;;
  gset g_ob [] ;;
  gset g_cin_head 0 ;; gset g_cin_tail 0 ;;
  gset g_cout [] ;;
  ob_append (SERVER_ID ++ [13; 10]) ;;
  build_our_kexinit ;;
  p ← cget i_s;
  send_unenc p.

Definition finished (s : ssh_state) : Prop := s = SSH_ST_ERROR \/ s = SSH_ST_CLOSED.
#[export] Instance finished_dec s : Decision (finished s).
Proof. unfold finished. apply _. Defined.

(** One round of the loop of [ssh_input]: whether it goes on. *)
Definition input_step : M (st C) bool :=
  cst ← cget state;
  if decide (finished cst) then mret false
  else
    r ← (if decide (cst = SSH_ST_VERSION) then try_version else try_packet);
    mret (bool_decide (r > 0)).

(** The loop; [false] when it has not ended after [fuel] rounds. *)
Fixpoint input_loop (fuel : nat) : M (st C) bool :=
  match fuel with
  | O => mret false
  | S fuel => go ← input_step; if (go : bool) then input_loop fuel else mret true
  end.

(** [None] stands for a call that has not returned after [fuel] packets. *)
Definition ssh_input (fuel : nat) (data : list Z) : M (st C) (option Z) :=
  cst ← cget state;
  if decide (cst = SSH_ST_ERROR) then mret (Some (-1))
  else
    n ← cget ib_len;
    if decide (u16 (n + len data) > SSH_IB_SZ) then fail "input overflow" ;; mret (Some (-1))
    else
      b ← cget ib;
      _ ← lift (rd_bytes b n (len data));
      cset ib (take (Z.to_nat n) b ++ data ++ ptr b (n + len data)) ;;
      cset ib_len (n + len data) ;;
      ended ← input_loop fuel;
      cst ← cget state;
      mret (if (ended : bool) then Some (if decide (cst = SSH_ST_ERROR) then -1 else 0) else None).

Definition ssh_output (max : Z) : M (st C) (list Z) :=
  ob ← gget g_ob;
  gset g_ob (drop (Z.to_nat max) ob) ;;
  mret (take (Z.to_nat max) ob).

Definition ssh_discard_output : M (st C) unit := gset g_ob [].
Definition ssh_done : M (st C) bool := cget done_.
Definition ssh_failed : M (st C) bool := s ← cget state; mret (bool_decide (s = SSH_ST_ERROR)).
Definition ssh_authenticated : M (st C) bool := cget authenticated.
Definition ssh_channel_eof : M (st C) bool := cget chan_eof.
Definition ssh_channel_closed : M (st C) bool := cget chan_closed.
End ssh.

Definition ssh_state_name (s : ssh_state) : string :=
  match s with
  | SSH_ST_VERSION => "VERSION"
  | SSH_ST_EXPECT_KEXINIT => "EXPECT_KEXINIT"
  | SSH_ST_EXPECT_ECDH_INIT => "EXPECT_ECDH_INIT"
  | SSH_ST_EXPECT_CLIENT_NEWKEYS => "EXPECT_CLIENT_NEWKEYS"
  | SSH_ST_EXPECT_SERVICE_REQUEST => "EXPECT_SERVICE_REQUEST"
  | SSH_ST_AUTH => "AUTH"
  | SSH_ST_SESSION => "SESSION"
  | SSH_ST_CLOSED => "CLOSED"
  | SSH_ST_ERROR => "ERROR"
  end.

(** ** Framing round trips *)

(** What [try_packet] does once it has accepted a packet: hand the payload,
    which lies at the start of [pl], to the state machine, consume the wire
    bytes and advance the sequence number. *)
Definition accept {C : Crypto} (pl : list Z) (plen need : Z) : M (st C) Z :=
  handle_packet pl plen ;;
  ib_consume need ;;
  seq ← cget recv_seq;
  cset recv_seq (u32 (seq + 1)) ;;
  mret 1.

Section framing.
Context {C : Crypto} {OK : CryptoOk C}.
Implicit Types s : st C.

Lemma deliver_frame (hd p pad rest : list Z) s pkt_len need :
  ib (cn s) = hd ++ (len pad :: p ++ pad) ++ rest -> len hd = 4 -> pkt_len = 1 + len p + len pad ->
  deliver pkt_len need s = accept (p ++ pad ++ rest) (len p) need s.
Proof.
  intros Ei Hh ->. unfold deliver. unfold mbind at 1, M_bind at 1, cget at 1, gets at 1. rewrite Ei.
  unfold mbind at 1, M_bind at 1. cbn [app]. rewrite rd_mid by done. cbn [lift].
  rewrite decide_False by lia.
  assert (ptr (hd ++ len pad :: (p ++ pad) ++ rest) 5 = p ++ pad ++ rest) as ->.
  { rewrite cons_middle, app_assoc, ptr_app by (rewrite length_app; cbn [length]; lia). by rewrite <- app_assoc. }
  replace (1 + len p + len pad - 1 - len pad) with (len p) by lia. done.
Qed.

Lemma plain_frame_length p pad : len (plain_frame p pad) = 5 + len p + len pad.
Proof. unfold plain_frame. rewrite !length_app, !Nat2Z.inj_add, put_u32_len. cbn [length]. lia. Qed.

Lemma try_plain_frame p pad rest s :
  recv_encrypted (cn s) = false ->
  ib (cn s) = plain_frame p pad ++ rest -> len (plain_frame p pad) <= ib_len (cn s) ->
  5 + len p + len pad <= 2048 ->
  try_packet s = accept (p ++ pad ++ rest) (len p) (len (plain_frame p pad)) s.
Proof.
  intros He Ei Hl Hs. rewrite plain_frame_length in *. unfold try_packet, mbind at 1, M_bind at 1, cget at 1, gets at 1.
  rewrite He. unfold try_plain, mbind at 1, M_bind at 1, cget at 1, gets at 1. rewrite decide_False by lia.
  unfold mbind at 1, M_bind at 1, cget at 1, gets at 1. unfold mbind at 1, M_bind at 1. unfold plain_frame in Ei.
  rewrite <- !app_assoc in Ei. rewrite Ei at 1. rewrite rd_u32_app0 by (done || (unfold is_u32; lia)). cbn [lift].
  rewrite !u16_id by (unfold is_u16; rewrite ?u16_id by (unfold is_u16; lia); lia). unfold SSH_IB_SZ.
  rewrite decide_False by lia. rewrite decide_False by lia.
  rewrite (deliver_frame (put_u32 (1 + len p + len pad)) p pad rest); [f_equal; lia|rewrite Ei; cbn [app]; by rewrite <- app_assoc|done|done].
Qed.

(** What the receiver leaves in its buffer for a sealed packet. *)
Definition opened (ek : list Z) (seq : Z) (p pad rest : list Z) : list Z :=
  let enc_len := dossh_chacha20_djb (Some (put_u32 (1 + len p + len pad))) 4 (drop 32 ek) (seqbuf8 seq) 0 in
  let body := len pad :: p ++ pad in
  let sealed := enc_len ++ dossh_chacha20_djb (Some body) (len body) (take 32 ek) (seqbuf8 seq) 1 in
  enc_len ++ body ++ dossh_poly1305 sealed (dossh_chacha20_djb None 32 (take 32 ek) (seqbuf8 seq) 0) ++ rest.

Lemma try_sealed_frame p pad rest s :
  recv_encrypted (cn s) = true -> all_bytes p -> all_bytes pad -> len pad <= 11 ->
  ib (cn s) = seal (ek_c2s (cn s)) (recv_seq (cn s)) p pad ++ rest ->
  len (seal (ek_c2s (cn s)) (recv_seq (cn s)) p pad) <= ib_len (cn s) ->
  (1 + len p + len pad) mod 8 = 0 -> 21 + len p + len pad <= 2048 ->
  let ib' := opened (ek_c2s (cn s)) (recv_seq (cn s)) p pad rest in
  try_packet s = accept (ptr ib' 5) (len p) (len (seal (ek_c2s (cn s)) (recv_seq (cn s)) p pad))
                   (s <| cn := ((cn s) <| ib := ib' |>) |>).
Proof.
  intros He Hp Hpad Hp11 Ei Hl Hal Hs ib'. rewrite seal_length in * by lia.
  unfold ib', opened, seal in *. rewrite (u16_id (1 + len p + len pad)) in Ei by (unfold is_u16; lia).
  rewrite (u8_id (len pad)) in Ei by (unfold is_byte; lia). cbn [app] in Ei.
  assert (len (len pad :: p ++ pad) = 1 + len p + len pad) as Ebl by (cbn [length]; rewrite length_app; lia).
  assert (all_bytes (len pad :: p ++ pad)) as Hbody by (apply Forall_cons; split; [unfold is_byte; lia|by apply Forall_app]).
  rewrite Ebl. set (k_main := take 32 (ek_c2s (cn s))) in *. set (k_header := drop 32 (ek_c2s (cn s))) in *.
  set (nonce := seqbuf8 (recv_seq (cn s))) in *. set (n := 1 + len p + len pad) in *.
  assert (n = 1 + len p + len pad) as En by done. assert (8 <= n) by (Z.div_mod_to_equations; lia). clearbody n.
  set (el := dossh_chacha20_djb (Some (put_u32 n)) 4 k_header nonce 0) in *.
  set (eb := dossh_chacha20_djb (Some (len pad :: p ++ pad)) n k_main nonce 1) in *.
  set (pk := dossh_chacha20_djb None 32 k_main nonce 0) in *.
  assert (len el = 4) as Hel by by apply chacha20_length.
  assert (len eb = n) as Heb by (apply chacha20_length; lia).
  set (tag := dossh_poly1305 (el ++ eb) pk) in *.
  assert (len tag = 16) as Htag by (unfold tag; by rewrite poly1305_length).
  rewrite <- !app_assoc in Ei.
  unfold try_packet, mbind at 1, M_bind at 1, cget at 1, gets at 1. rewrite He.
  unfold try_sealed, mbind at 1, M_bind at 1, cget at 1, gets at 1. rewrite decide_False by lia.
  do 3 (unfold mbind at 1, M_bind at 1, cget at 1, gets at 1).
  fold k_main k_header nonce pk. unfold mbind at 1, M_bind at 1. rewrite Ei.
  rewrite (rd_bytes_app el) by done. cbn [lift]. unfold mbind at 1, M_bind at 1.
  unfold el at 1. rewrite chacha20_involutive by (apply be32_bytes || done).
  rewrite <- (app_nil_r (put_u32 n)) at 1. rewrite rd_u32_app0 by (done || (unfold is_u32; lia)). cbn [lift].
  rewrite !u16_id by (unfold is_u16; rewrite ?u16_id by (unfold is_u16; lia); lia). unfold SSH_IB_SZ.
  rewrite decide_False by lia. rewrite decide_False by lia.
  unfold mbind at 1, M_bind at 1. rewrite app_assoc, (rd_bytes_app (el ++ eb)) by (rewrite length_app; lia). cbn [lift].
  unfold mbind at 1, M_bind at 1. rewrite rd_bytes_mid by (rewrite ?length_app; lia). cbn [lift].
  rewrite decide_False by (unfold tag; tauto). rewrite <- app_assoc.
  unfold mbind at 1, M_bind at 1. rewrite rd_bytes_mid by done. cbn [lift].
  unfold eb at 2. rewrite chacha20_involutive by (done || lia).
  unfold mbind at 1, M_bind at 1, cset at 1, modify at 1.
  assert (take 4 (el ++ eb ++ tag ++ rest) = el) as -> by (apply take_app_length'; lia).
  assert (ptr (el ++ eb ++ tag ++ rest) (4 + n) = tag ++ rest) as ->
    by (rewrite app_assoc; apply ptr_app; rewrite length_app; lia).
  rewrite (deliver_frame el p pad (tag ++ rest)); [|fld; by rewrite <- ?app_assoc|done|done].
  f_equal. assert (el ++ (len pad :: p ++ pad) ++ tag ++ rest = (el ++ [len pad]) ++ p ++ pad ++ tag ++ rest) as ->
    by (rewrite <- !app_assoc; cbn [app]; by rewrite <- app_assoc).
  rewrite ptr_app by (rewrite length_app; cbn [length]; lia). done.
Qed.
End framing.

(** C15: packet framing round-trips.  Whatever [send_packet] queues for a payload,
    before or after NEWKEYS, a receiver in the same encryption state, with the
    same key and sequence number, decodes to exactly that payload: [try_packet]
    accepts the packet, gives the state machine a buffer that starts with the
    payload and its exact length, consumes exactly the bytes that were queued,
    and both sequence numbers advance by one.  This covers the padding rule, the
    16-bit length arithmetic, the sealed length field, the tag position and the
    two block counters of chacha20-poly1305. *)
Theorem packet_roundtrip {C : Crypto} {OK : CryptoOk C} (a : st C) p :
  all_bytes p -> len p <= SSH_ENC_MAX_PLEN -> len (g_ob (gl a)) + len p + 32 <= SSH_OB_SZ ->
  exists wire a',
    send_packet p a = Some (tt, a')
    /\ g_ob (gl a') = g_ob (gl a) ++ wire /\ send_seq (cn a') = u32 (send_seq (cn a) + 1)
    /\ forall (b : st C) rest,
      recv_encrypted (cn b) = send_encrypted (cn a) -> ek_c2s (cn b) = ek_s2c (cn a) ->
      recv_seq (cn b) = send_seq (cn a) ->
      ib (cn b) = wire ++ rest -> len wire <= ib_len (cn b) ->
      exists ib', rd_bytes (ptr ib' 5) 0 (len p) = Some p
        /\ try_packet b = accept (ptr ib' 5) (len p) (len wire) (St ((cn b) <| ib := ib' |>) (gl b) (rg b)).
Proof.
  unfold SSH_ENC_MAX_PLEN. intros Hp Hl Hob. unfold send_packet, mbind at 1, M_bind at 1, cget at 1, gets at 1.
  destruct (send_encrypted (cn a)) eqn:Ee.
  - destruct (send_enc_exact p a) as (pad & r & Hpad & Hpb & ->); [done|done|].
    pose proof (padding_range 1 (len p)) as Hr. pose proof (padding_aligned 1 (len p) ltac:(unfold is_u16; lia)) as Hal.
    eexists _, _. split; [done|]. split; [done|]. split; [done|].
    intros b rest H1 H2 H3 H4 H5. rewrite <- H2, <- H3 in *.
    eexists (opened (ek_c2s (cn b)) (recv_seq (cn b)) p pad rest).
    assert (len pad <= 11 /\ (1 + len p + len pad) mod 8 = 0 /\ 21 + len p + len pad <= 2048) as (L1 & L2 & L3) by (rewrite Hpad; split_and!; [lia|done|lia]).
    rewrite (try_sealed_frame p pad rest) by done.
    split; [|by destruct b]. unfold opened.
    set (el := dossh_chacha20_djb (Some _) 4 _ _ 0). assert (len el = 4) as Hel by by apply chacha20_length.
    cbn [app]. rewrite cons_middle, app_assoc, ptr_app by (rewrite length_app; cbn [length]; lia).
    rewrite <- app_assoc. by apply rd_bytes_app.
  - destruct (send_unenc_exact p a) as (pad & r & Hpad & Hpb & ->); [unfold SSH_OB_SZ in *; lia|].
    pose proof (padding_range 5 (len p)) as Hr.
    eexists _, _. split; [done|]. split; [done|]. split; [done|].
    intros b rest H1 H2 H3 H4 H5. exists (ib (cn b)). pose proof (plain_frame_length p pad) as Hpl.
    assert (ptr (ib (cn b)) 5 = p ++ pad ++ rest) as Eptr.
    { rewrite H4. unfold plain_frame. rewrite <- !app_assoc, app_assoc. apply ptr_app. done. }
    rewrite Eptr, (try_plain_frame p pad rest) by (done || lia). split; [by apply rd_bytes_app|].
    f_equal. destruct b as [c g r0]. by destruct c.
Qed.

Definition rt_st : st toy := St (conn0 <| send_encrypted := true |> <| ek_s2c := replicate 64 3 |>) glob0 (0 : @rng toy).
Lemma packet_roundtrip_witness :
  exists wire a',
    send_packet (text "hello") rt_st = Some (tt, a')
    /\ g_ob (gl a') = g_ob (gl rt_st) ++ wire /\ send_seq (cn a') = u32 (send_seq (cn rt_st) + 1)
    /\ forall (b : st toy) rest,
      recv_encrypted (cn b) = send_encrypted (cn rt_st) -> ek_c2s (cn b) = ek_s2c (cn rt_st) ->
      recv_seq (cn b) = send_seq (cn rt_st) ->
      ib (cn b) = wire ++ rest -> len wire <= ib_len (cn b) ->
      exists ib', rd_bytes (ptr ib' 5) 0 (len (text "hello")) = Some (text "hello")
        /\ try_packet b = accept (ptr ib' 5) (len (text "hello")) (len wire) (St ((cn b) <| ib := ib' |>) (gl b) (rg b)).
Proof.
  apply (packet_roundtrip (OK := toy_ok) rt_st (text "hello"));
    [apply text_bytes|vm_compute; discriminate|vm_compute; discriminate].
Defined.

