(* ===== verification/SshSafe.v ===== *)
(** * Safety of the SSH server (src/dosshd/ssh.c)

    The abstract machine of the protocol: its phases, the edges between them,
    the invariant that ties encryption, authentication and the channel to the
    phase, and the theorem that every round of [ssh_input] is a step of it.  From
    this: no channel and no keystroke before authentication, and no
    authentication without a credential that arrived under a valid tag. *)
From Stdlib Require Import ZArith Lia.
From stdpp Require Import base list numbers relations.
From S2P Require Import Prelude Sha256 Crypto SshWire SshConn SshKex SshAuth SshChan Ssh.
Local Open Scope Z_scope.

(** ** The abstract machine *)

(** The protocol only moves forward, one phase at a time; every phase can fail
    or close. *)
Inductive edge : ssh_state -> ssh_state -> Prop :=
  | edge_stay q : edge q q
  | edge_version : edge SSH_ST_VERSION SSH_ST_EXPECT_KEXINIT
  | edge_kexinit : edge SSH_ST_EXPECT_KEXINIT SSH_ST_EXPECT_ECDH_INIT
  | edge_ecdh : edge SSH_ST_EXPECT_ECDH_INIT SSH_ST_EXPECT_CLIENT_NEWKEYS
  | edge_newkeys : edge SSH_ST_EXPECT_CLIENT_NEWKEYS SSH_ST_EXPECT_SERVICE_REQUEST
  | edge_service : edge SSH_ST_EXPECT_SERVICE_REQUEST SSH_ST_AUTH
  | edge_auth : edge SSH_ST_AUTH SSH_ST_SESSION
  | edge_end q q' : finished q' -> edge q q'.

(** What holds in each phase. *)
Definition gate_phase (c : ssh_conn) : Prop :=
  match state c with
  | SSH_ST_VERSION | SSH_ST_EXPECT_KEXINIT | SSH_ST_EXPECT_ECDH_INIT =>
      send_encrypted c = false /\ recv_encrypted c = false /\ authenticated c = false /\ auth_fails c = 0
  | SSH_ST_EXPECT_CLIENT_NEWKEYS =>
      send_encrypted c = true /\ recv_encrypted c = false /\ authenticated c = false /\ auth_fails c = 0
  | SSH_ST_EXPECT_SERVICE_REQUEST =>
      recv_encrypted c = true /\ authenticated c = false /\ auth_fails c = 0
  | SSH_ST_AUTH =>
      recv_encrypted c = true /\ authenticated c = false /\ auth_fails c < SSH_MAX_AUTH_TRIES
  | SSH_ST_SESSION => authenticated c = true
  | SSH_ST_CLOSED | SSH_ST_ERROR => True
  end.

Record gate (c : ssh_conn) : Prop := {
  gt_send : send_encrypted c = true -> keys_ready c = true;
  gt_recv : recv_encrypted c = true -> send_encrypted c = true;
  gt_auth : authenticated c = true -> recv_encrypted c = true;
  gt_chan : chan_open c = true \/ pty c = true \/ shell_ready c = true -> authenticated c = true;
  gt_fails : 0 <= auth_fails c <= SSH_MAX_AUTH_TRIES;
  gt_phase : gate_phase c;
}.

(** The sizes of the buffers and of the configuration. *)
Record ssh_wf {C : Crypto} (s : st C) : Prop := {
  sw_ib : len (ib (cn s)) = SSH_IB_SZ;
  sw_bytes : all_bytes (ib (cn s));
  sw_len : 0 <= ib_len (cn s) <= SSH_IB_SZ;
  sw_sid : len (session_id (cn s)) = 32;
  sw_ob : ob_ok s;
  sw_cin : cin_wf (gl s);
  sw_count : 0 <= g_authkey_count (gl s) < 2048;
  sw_keys : 32 * g_authkey_count (gl s) <= len (g_authkeys (gl s));
}.

(** What the box is configured with. *)
Definition config (g : ssh_glob) : list Z * list Z * list Z * bool * list Z * Z :=
  (g_hostkey_sk g, g_hostkey_pk g, g_password g, g_have_password g, g_authkeys g, g_authkey_count g).
Definition keystrokes (g : ssh_glob) : list Z * Z * Z := (g_cin g, g_cin_head g, g_cin_tail g).

(** ** Frames

    [sized]: sizes and configuration survive.  [framed]: moreover the fields the
    phases speak of do, and the phase is the same or final. *)
Record sized {C : Crypto} (s s' : st C) : Prop := {
  sz_ib : ib (cn s') = ib (cn s);
  sz_ib_len : ib_len (cn s') = ib_len (cn s);
  sz_sid : len (session_id (cn s)) = 32 -> len (session_id (cn s')) = 32;
  sz_config : config (gl s') = config (gl s);
  sz_ob : ob_ok s -> ob_ok s';
  sz_cin : cin_wf (gl s) -> cin_wf (gl s');
}.
#[export] Instance sized_preorder {C : Crypto} : PreOrder (@sized C).
Proof.
  split; [by intros s; constructor|]. intros s1 s2 s3 [] []. constructor; (congruence || eauto).
Qed.

Lemma sized_wf {C : Crypto} (s s' : st C) : sized s s' -> ssh_wf s -> ssh_wf s'.
Proof.
  intros [S1 S2 S3 S4 S5 S6] [W1 W2 W3 W4 W5 W6 W7 W8]. unfold config in S4. simplify_eq.
  constructor; auto; congruence.
Qed.

Definition gate_fields (c : ssh_conn) :=
  (send_encrypted c, recv_encrypted c, keys_ready c, authenticated c, auth_fails c).
Definition chan_fields (c : ssh_conn) := (chan_open c, pty c, shell_ready c).

Record framed {C : Crypto} (s s' : st C) : Prop := {
  fr_gate : gate_fields (cn s') = gate_fields (cn s);
  fr_state : state (cn s') = state (cn s) \/ finished (state (cn s'));
}.
#[export] Instance framed_preorder {C : Crypto} : PreOrder (@framed C).
Proof.
  split; [intros s; constructor; auto|]. intros s1 s2 s3 [E1 H1] [E2 H2].
  constructor; [congruence|]. destruct H2 as [->|]; auto.
Qed.

(** The fields of the channel and the keystroke ring. *)
Definition unchanneled {C : Crypto} (s s' : st C) : Prop :=
  chan_fields (cn s') = chan_fields (cn s) /\ keystrokes (gl s') = keystrokes (gl s).
#[export] Instance unchanneled_preorder {C : Crypto} : PreOrder (@unchanneled C).
Proof. split; [done|]. intros s1 s2 s3 [] []. split; congruence. Qed.

Ltac frame_set :=
  intros ?; first
    [ split; reflexivity
    | constructor; cbn [cn gl rg]; fld; first [reflexivity | (let E := fresh in intros E; exact E) | (intros []; constructor; assumption) | (left; reflexivity) | right; unfold finished; auto ] ].
Ltac frame_tac := repeat (respects_step || (unfold cset, gset; apply respects_modify; frame_set)).

Section frames.
Context {C : Crypto}.
Implicit Types s : st C.

Lemma quiet_framed s s' : quiet s s' -> framed s s'.
Proof.
  intros (Q1 & Q2 & _). constructor.
  - exact (f_equal gate_fields Q1).
  - destruct Q2 as [|E]; [by left|right; by left].
Qed.
Lemma quiet_unchanneled s s' : quiet s s' -> unchanneled s s'.
Proof.
  intros (Q1 & _ & Q3). split; [exact (f_equal chan_fields Q1)|exact (f_equal keystrokes Q3)].
Qed.
Lemma respects_mono {A} (R R' : st C -> st C -> Prop) (m : M (st C) A) :
  (forall s s', R s s' -> R' s s') -> respects R m -> respects R' m.
Proof. intros H Hm s. eapply wlp_mono; [apply Hm|]. cbn. eauto. Qed.

Lemma fail_sized why : respects sized (fail why).
Proof. unfold fail, cget. frame_tac. Qed.
Lemma ob_append_sized d : respects sized (ob_append d).
Proof.
  intros s. unfold ob_append. apply wlp_bind, wlp_gets. case_decide; [apply fail_sized|].
  apply wlp_bind, wlp_fits. intros Hl. apply wlp_modify. constructor; try done. intros []. by constructor.
Qed.
Lemma random_sized n : respects sized (random n).
Proof. intros s. unfold wlp, random. destruct (rng_bytes n (rg s)). by constructor. Qed.
End frames.
#[export] Hint Resolve fail_sized ob_append_sized random_sized : respects.

(** ** Every operation is sized; the session's are framed *)

Section sized.
Context {C : Crypto} {OK : CryptoOk C}.
Implicit Types s : st C.

Lemma send_packet_sized p : respects sized (send_packet p).
Proof. unfold send_packet, send_enc, send_unenc, aead_seal, cget. frame_tac. Qed.
Hint Resolve send_packet_sized : respects.

Lemma global_request_sized pl plen : respects sized (handle_global_request pl plen).
Proof. unfold handle_global_request. frame_tac. Qed.
Lemma global_request_quiet pl plen : respects quiet (handle_global_request pl plen).
Proof. unfold handle_global_request. respects_tac. Qed.

Lemma kexinit_sized pl plen : respects sized (handle_kexinit pl plen).
Proof. unfold handle_kexinit, negotiate, cget. frame_tac. Qed.

Lemma derive_more_sized n : forall out outlen, respects sized (derive_more n out outlen).
Proof. induction n as [|n IH]; intros out outlen; cbn [derive_more]; unfold gget; frame_tac. Qed.
Hint Resolve derive_more_sized : respects.
Lemma derive_key_sized X n : respects sized (derive_key X n).
Proof. unfold derive_key, gget, cget. frame_tac. Qed.
Hint Resolve derive_key_sized : respects.
Lemma ecdh_init_sized pl plen : respects sized (handle_ecdh_init pl plen).
Proof.
  unfold handle_ecdh_init, build_kmpint, build_ks_blob, gget, cget. frame_tac.
Qed.
Lemma newkeys_sized pl plen : respects sized (handle_client_newkeys pl plen).
Proof. unfold handle_client_newkeys. frame_tac. Qed.
Lemma service_request_sized pl plen : respects sized (handle_service_request pl plen).
Proof. unfold handle_service_request, gget, cget. frame_tac. Qed.

Lemma channel_open_sized pl plen : respects sized (handle_channel_open pl plen).
Proof. unfold handle_channel_open, cget. frame_tac. Qed.
Lemma channel_request_sized pl plen : respects sized (handle_channel_request pl plen).
Proof. unfold handle_channel_request, chan_reply, grant_request, read_winsize, cget. frame_tac. Qed.
Lemma cin_push_sized n : forall pl i, respects sized (cin_push n pl i).
Proof.
  induction n as [|n IH]; intros pl i; cbn [cin_push]; [frame_tac|]. intros s.
  do 2 (apply wlp_bind, wlp_gget). case_decide; [by apply wlp_ret|].
  apply wlp_bind, wlp_lift. intros b _. apply wlp_bind, wlp_gget. do 2 apply wlp_bind, wlp_modify.
  eapply wlp_mono; [apply IH|]. cbn beta. intros _ s'. intros S. etrans; [|exact S].
  constructor; try done. intros [L Hh T]. unfold SSH_CIN_SZ. constructor; cbn [cn gl]; fld; [|done|].
  - by rewrite length_insert.
  - apply Z.mod_pos_bound. lia.
Qed.
Hint Resolve cin_push_sized : respects.
Lemma channel_data_sized pl plen : respects sized (handle_channel_data pl plen).
Proof. unfold handle_channel_data, adjust_local_window, cget. frame_tac. Qed.
Lemma window_adjust_sized pl plen : respects sized (handle_channel_window_adjust pl plen).
Proof. unfold handle_channel_window_adjust, cget. frame_tac. Qed.
Lemma flush_loop_sized n : forall k, respects sized (flush_loop n k).
Proof. induction n as [|n IH]; intros k; cbn [flush_loop]; unfold cget, gget; frame_tac. Qed.
Hint Resolve flush_loop_sized : respects.
Lemma flush_sized : respects sized ssh_channel_flush.
Proof. unfold ssh_channel_flush, cget, gget. frame_tac. Qed.
Hint Resolve flush_sized : respects.
Lemma close_sized : respects sized ssh_channel_close.
Proof. unfold ssh_channel_close, cget. frame_tac. Qed.
Hint Resolve close_sized : respects.
Hint Resolve channel_open_sized channel_request_sized channel_data_sized window_adjust_sized : respects.
Lemma session_sized msg pl plen : respects sized (handle_session msg pl plen).
Proof. unfold handle_session, cget. frame_tac. Qed.

Lemma getc_sized : respects sized ssh_channel_getc.
Proof.
  intros s. unfold ssh_channel_getc. do 2 (apply wlp_bind, wlp_gget). case_decide; [by apply wlp_ret|].
  apply wlp_bind, wlp_gget. apply wlp_bind, wlp_lift. intros b _. apply wlp_bind, wlp_modify, wlp_ret.
  constructor; try done. intros [L H' T]. unfold SSH_CIN_SZ. constructor; cbn [cn gl]; fld; [done| |done].
  apply Z.mod_pos_bound. lia.
Qed.
Lemma putc_sized b : respects sized (ssh_channel_putc b).
Proof. unfold ssh_channel_putc, cget, gget. frame_tac. Qed.
Lemma emit_sized d n : respects sized (ssh_channel_emit d n).
Proof. unfold ssh_channel_emit, ssh_channel_ready, aead_seal, cget. frame_tac. Qed.
End sized.

Section framed.
Context {C : Crypto}.
Implicit Types s : st C.

Lemma fail_framed why : respects framed (fail why).
Proof. eapply respects_mono; [apply quiet_framed|apply fail_quiet]. Qed.
Lemma send_packet_framed p : respects framed (send_packet p).
Proof. eapply respects_mono; [apply quiet_framed|apply send_packet_quiet]. Qed.
Lemma aead_seal_framed p : respects framed (aead_seal p).
Proof. eapply respects_mono; [apply quiet_framed|apply aead_seal_quiet]. Qed.
Hint Resolve fail_framed send_packet_framed aead_seal_framed : respects.

Lemma cin_push_framed n : forall pl i, respects framed (cin_push n pl i).
Proof. induction n as [|n IH]; intros pl i; cbn [cin_push]; unfold gget; frame_tac. Qed.
Lemma flush_loop_framed n : forall k, respects framed (flush_loop n k).
Proof. induction n as [|n IH]; intros k; cbn [flush_loop]; unfold cget, gget; frame_tac. Qed.
Hint Resolve cin_push_framed flush_loop_framed : respects.
Lemma flush_framed : respects framed ssh_channel_flush.
Proof. unfold ssh_channel_flush, cget, gget. frame_tac. Qed.
Hint Resolve flush_framed : respects.
Lemma close_framed : respects framed ssh_channel_close.
Proof. unfold ssh_channel_close, cget. frame_tac. Qed.
Hint Resolve close_framed : respects.
Lemma session_framed msg pl plen : respects framed (handle_session msg pl plen).
Proof.
  unfold handle_session, handle_channel_open, handle_channel_request, chan_reply, grant_request,
    read_winsize, handle_channel_data, adjust_local_window, handle_channel_window_adjust, cget. frame_tac.
Qed.
Lemma getc_framed : respects framed ssh_channel_getc.
Proof. unfold ssh_channel_getc, gget. frame_tac. Qed.
Lemma putc_framed b : respects framed (ssh_channel_putc b).
Proof. unfold ssh_channel_putc, cget, gget. frame_tac. Qed.
Lemma emit_framed d n : respects framed (ssh_channel_emit d n).
Proof. unfold ssh_channel_emit, ssh_channel_ready, cget. frame_tac. Qed.

Lemma fail_unchanneled why : respects unchanneled (fail why).
Proof. eapply respects_mono; [apply quiet_unchanneled|apply fail_quiet]. Qed.
Lemma send_packet_unchanneled p : respects unchanneled (send_packet p).
Proof. eapply respects_mono; [apply quiet_unchanneled|apply send_packet_quiet]. Qed.
Lemma random_unchanneled n : respects unchanneled (random n).
Proof. eapply respects_mono; [apply quiet_unchanneled|apply random_quiet]. Qed.
Hint Resolve fail_unchanneled send_packet_unchanneled random_unchanneled : respects.
Lemma kexinit_unchanneled pl plen : respects unchanneled (handle_kexinit pl plen).
Proof. unfold handle_kexinit, negotiate, cget. frame_tac. Qed.
Lemma derive_more_unchanneled n : forall out outlen, respects unchanneled (derive_more n out outlen).
Proof. induction n as [|n IH]; intros out outlen; cbn [derive_more]; unfold gget; frame_tac. Qed.
Hint Resolve derive_more_unchanneled : respects.
Lemma ecdh_init_unchanneled pl plen : respects unchanneled (handle_ecdh_init pl plen).
Proof. unfold handle_ecdh_init, build_kmpint, build_ks_blob, derive_key, gget, cget. frame_tac. Qed.
Lemma service_request_unchanneled pl plen : respects unchanneled (handle_service_request pl plen).
Proof. unfold handle_service_request, cget. frame_tac. Qed.
End framed.

#[export] Hint Resolve fail_framed send_packet_framed aead_seal_framed : respects.
#[export] Hint Resolve fail_unchanneled send_packet_unchanneled random_unchanneled : respects.

(** ** One packet is one step of the machine *)

(** What handling the payload [p] does to the phase. *)
Record step_ok {C : Crypto} (p : list Z) (s s' : st C) : Prop := {
  so_gate : gate (cn s');
  so_edge : edge (state (cn s)) (state (cn s'));
  so_auth : authenticated (cn s') = true -> authenticated (cn s) = true
            \/ state (cn s) = SSH_ST_AUTH /\ recv_encrypted (cn s) = true
               /\ head p = Some MSG_USERAUTH_REQUEST
               /\ credential (gl s) (session_id (cn s)) p;
  so_mono : authenticated (cn s) = true -> authenticated (cn s') = true;
  so_keys : authenticated (cn s) = false -> keystrokes (gl s') = keystrokes (gl s);
}.

Section steps.
Context {C : Crypto}.
Implicit Types s : st C.

Lemma framed_gate s s' :
  gate (cn s) -> framed s s' -> chan_fields (cn s') = chan_fields (cn s) \/ state (cn s) = SSH_ST_SESSION ->
  gate (cn s').
Proof.
  intros [G1 G2 G3 G4 G5 G6] [F E] U. unfold gate_fields in F. injection F as Fs Fr Fk Fa Ff.
  constructor; rewrite ?Fs, ?Fr, ?Fk, ?Fa, ?Ff; try done.
  - destruct U as [U|U].
    + unfold chan_fields in U. injection U as Uc Up Us. by rewrite Uc, Up, Us.
    + intros _. unfold gate_phase in G6. rewrite U in G6. congruence.
  - unfold gate_phase in *. destruct E as [->|[-> | ->]]; [|done..]. by rewrite Fs, Fr, Fa, Ff.
Qed.

Lemma framed_ok p s s' :
  gate (cn s) -> framed s s' -> unchanneled s s' \/ state (cn s) = SSH_ST_SESSION -> step_ok p s s'.
Proof.
  intros G F U. constructor.
  - apply (framed_gate s); [done..|]. destruct U as [[]|]; auto.
  - destruct (fr_state _ _ F) as [->|]; [apply edge_stay|by apply edge_end].
  - pose proof (fr_gate _ _ F) as E. injection E as _ _ _ Ea _. left. congruence.
  - pose proof (fr_gate _ _ F) as E. injection E as _ _ _ Ea _. congruence.
  - intros Ha. destruct U as [[_ U]|U]; [done|]. pose proof (gt_phase _ G) as P. unfold gate_phase in P.
    rewrite U in P. congruence.
Qed.
End steps.

(** Walking through a handler: the part behind the current state is framed. *)
Section walk.
Context {C : Crypto}.
Implicit Types s : st C.

Lemma framed_then {A B} s0 s (m : M (st C) A) (k : A -> M (st C) B) Q :
  framed s0 s -> respects framed m -> (forall a s', framed s0 s' -> wlp (k a) Q s') -> wlp (m ≫= k) Q s.
Proof.
  intros F Hm Hk. apply wlp_bind. eapply wlp_mono; [apply Hm|]. cbn beta. intros a s' F'. apply Hk. by etrans.
Qed.
Lemma framed_end {A} s0 s (m : M (st C) A) (Q : st C -> Prop) :
  framed s0 s -> respects framed m -> (forall s', framed s0 s' -> Q s') -> wlp m (fun _ => Q) s.
Proof. intros F Hm HQ. eapply wlp_mono; [apply Hm|]. cbn beta. intros _ s' F'. apply HQ. by etrans. Qed.
Lemma random_framed n : respects framed (random n).
Proof. eapply respects_mono; [apply quiet_framed|apply random_quiet]. Qed.
Hint Resolve random_framed : respects.
Lemma derive_more_framed n : forall out outlen, respects framed (derive_more n out outlen).
Proof. induction n as [|n IH]; intros out outlen; cbn [derive_more]; unfold gget; frame_tac. Qed.
Hint Resolve derive_more_framed : respects.
Lemma derive_key_framed X n : respects framed (derive_key X n).
Proof. unfold derive_key, cget, gget. frame_tac. Qed.
Lemma negotiate_framed p plen : respects framed (negotiate p plen).
Proof. unfold negotiate, cget. frame_tac. Qed.
End walk.
#[export] Hint Resolve random_framed derive_key_framed negotiate_framed : respects.

Ltac walk_side := unfold cget, gget, build_kmpint, build_ks_blob, gget; frame_tac.
(** One more framed operation. *)
Ltac walk F :=
  lazymatch goal with
  | |- wlp (mbind _ _) _ _ =>
      eapply (framed_then _ _ _ _ _ F); [solve [walk_side]|clear F; intros ? ? F; cbv beta zeta]
  | |- wlp (if decide ?P then _ else _) _ _ => destruct (decide P)
  | |- wlp (if ?b then _ else _) _ _ => destruct b
  end.

Section kex_steps.
Context {C : Crypto}.
Implicit Types s : st C.

Lemma kexinit_phase pl plen s :
  wlp (handle_kexinit pl plen) (fun _ s' => framed s s' \/
    gate_fields (cn s') = gate_fields (cn s) /\ state (cn s') = SSH_ST_EXPECT_ECDH_INIT) s.
Proof.
  unfold handle_kexinit. assert (framed s s) as F by done. repeat walk F.
  1, 2: eapply (framed_end _ _ _ _ F); [walk_side|]; auto.
  apply wlp_modify. right. split; [apply F|done].
Qed.

Lemma ecdh_init_phase pl plen s :
  wlp (handle_ecdh_init pl plen) (fun _ s' => framed s s' \/
    (send_encrypted (cn s'), recv_encrypted (cn s'), keys_ready (cn s'), authenticated (cn s'), auth_fails (cn s'))
    = (true, recv_encrypted (cn s), true, authenticated (cn s), auth_fails (cn s))
    /\ state (cn s') = SSH_ST_EXPECT_CLIENT_NEWKEYS) s.
Proof.
  unfold handle_ecdh_init. assert (framed s s) as F by done. repeat walk F.
  1-4: eapply (framed_end _ _ _ _ F); [walk_side|]; auto.
  destruct F as [F _]. injection F as Fs Fr Fk Fa Ff. wp_step. wp_step.
  eapply wlp_bind, wlp_mono; [apply send_packet_framed|]. cbn beta. intros _ s1 [F1 _]. revert F1.
  unfold gate_fields. cbn [cn]. fld. intros [= F1s F1r F1k F1a F1f]. wp_run. right.
  by rewrite F1r, F1k, F1a, F1f, Fr, Fa, Ff.
Qed.

Lemma newkeys_phase pl plen s :
  wlp (handle_client_newkeys pl plen) (fun _ s' => s' = St ((cn s) <| recv_encrypted := true |>
    <| state := SSH_ST_EXPECT_SERVICE_REQUEST |>) (gl s) (rg s)) s.
Proof. done. Qed.

Lemma service_request_phase pl plen s :
  wlp (handle_service_request pl plen) (fun _ s' => framed s s' \/
    gate_fields (cn s') = gate_fields (cn s) /\ state (cn s') = SSH_ST_AUTH) s.
Proof.
  unfold handle_service_request. assert (framed s s) as F by done. repeat walk F.
  1, 2: eapply (framed_end _ _ _ _ F); [walk_side|]; auto.
  apply wlp_modify. right. split; [apply F|done].
Qed.
End kex_steps.

Section dispatch.
Context {C : Crypto} {OK : CryptoOk C}.
Implicit Types s : st C.

(** A handler before authentication that moves on. *)
Lemma advance_ok p s s' :
  gate (cn s) -> unchanneled s s' -> authenticated (cn s) = false ->
  edge (state (cn s)) (state (cn s')) -> gate_phase (cn s') ->
  (send_encrypted (cn s') = true -> keys_ready (cn s') = true) ->
  (recv_encrypted (cn s') = true -> send_encrypted (cn s') = true) ->
  authenticated (cn s') = false -> auth_fails (cn s') = 0 -> step_ok p s s'.
Proof.
  intros G [U K] Ha He Hp Hs Hr Ha' Hf. constructor; [|done|congruence|congruence|done].
  constructor; [done|done|congruence| |rewrite Hf; unfold SSH_MAX_AUTH_TRIES; lia|done].
  injection U as -> -> ->. intros Hc. apply (gt_chan _ G) in Hc. congruence.
Qed.

Lemma kexinit_step pl plen p s :
  gate (cn s) -> state (cn s) = SSH_ST_EXPECT_KEXINIT ->
  wlp (handle_kexinit pl plen) (fun _ s' => step_ok p s s') s.
Proof.
  intros G Es. pose proof (kexinit_phase pl plen s) as P. pose proof (kexinit_unchanneled pl plen s) as U.
  unfold wlp in *. destruct (handle_kexinit pl plen s) as [[[] s']|]; [|done].
  destruct P as [F|[F Es']]; [apply framed_ok; auto|]. injection F as Fs Fr Fk Fa Ff.
  pose proof (gt_phase _ G) as H. unfold gate_phase in H. rewrite Es in H. destruct H as (H1 & H2 & H3 & H4).
  apply advance_ok; try congruence; [rewrite Es, Es'; constructor|].
  unfold gate_phase. rewrite Es'. split_and!; congruence.
Qed.

Lemma ecdh_init_step pl plen p s :
  gate (cn s) -> state (cn s) = SSH_ST_EXPECT_ECDH_INIT ->
  wlp (handle_ecdh_init pl plen) (fun _ s' => step_ok p s s') s.
Proof.
  intros G Es. pose proof (ecdh_init_phase pl plen s) as P. pose proof (ecdh_init_unchanneled pl plen s) as U.
  unfold wlp in *. destruct (handle_ecdh_init pl plen s) as [[[] s']|]; [|done].
  destruct P as [F|[F Es']]; [apply framed_ok; auto|]. injection F as Fs Fr Fk Fa Ff.
  pose proof (gt_phase _ G) as H. unfold gate_phase in H. rewrite Es in H. destruct H as (H1 & H2 & H3 & H4).
  apply advance_ok; try congruence; [rewrite Es, Es'; constructor|].
  unfold gate_phase. rewrite Es'. split_and!; congruence.
Qed.

Lemma newkeys_step pl plen p s :
  gate (cn s) -> state (cn s) = SSH_ST_EXPECT_CLIENT_NEWKEYS ->
  wlp (handle_client_newkeys pl plen) (fun _ s' => step_ok p s s') s.
Proof.
  intros G Es. eapply wlp_mono; [apply newkeys_phase|]. cbn beta. intros _ s' ->.
  pose proof (gt_phase _ G) as H. unfold gate_phase in H. rewrite Es in H. destruct H as (H1 & H2 & H3 & H4).
  apply advance_ok; try done; cbn [cn]; fld; try congruence.
  - rewrite Es. constructor.
  - apply G.
Qed.

Lemma service_request_step pl plen p s :
  gate (cn s) -> state (cn s) = SSH_ST_EXPECT_SERVICE_REQUEST ->
  wlp (handle_service_request pl plen) (fun _ s' => step_ok p s s') s.
Proof.
  intros G Es. pose proof (service_request_phase pl plen s) as P.
  pose proof (service_request_unchanneled pl plen s) as U.
  unfold wlp in *. destruct (handle_service_request pl plen s) as [[[] s']|]; [|done].
  destruct P as [F|[F Es']]; [apply framed_ok; auto|]. injection F as Fs Fr Fk Fa Ff.
  pose proof (gt_phase _ G) as H. unfold gate_phase in H. rewrite Es in H. destruct H as (H1 & H2 & H3).
  pose proof (gt_recv _ G). pose proof (gt_send _ G).
  apply advance_ok; try congruence; [rewrite Es, Es'; constructor| |rewrite Fs, Fk; auto|rewrite Fr, Fs; auto].
  unfold gate_phase, SSH_MAX_AUTH_TRIES. rewrite Es', Fr, Fa, Ff, H3. split_and!; done || lia.
Qed.
End dispatch.

Section packet.
Context {C : Crypto} {OK : CryptoOk C}.
Implicit Types s : st C.

(** The edge an answer to an authentication request takes. *)
Lemma auth_effect_phase v s s' :
  state (cn s) = SSH_ST_AUTH -> authenticated (cn s) = false -> 0 <= auth_fails (cn s) < SSH_MAX_AUTH_TRIES ->
  auth_effect v s s' ->
  0 <= auth_fails (cn s') <= SSH_MAX_AUTH_TRIES
  /\ (v = VGrant /\ state (cn s') = SSH_ST_SESSION /\ authenticated (cn s') = true
      \/ authenticated (cn s') = false /\ (finished (state (cn s'))
          \/ state (cn s') = SSH_ST_AUTH /\ auth_fails (cn s') < SSH_MAX_AUTH_TRIES)).
Proof.
  unfold SSH_MAX_AUTH_TRIES, finished. intros Es Ha Hf [_ _ _ Ea Ef E]. rewrite Es, Ha in *.
  destruct v as [| | |[]]; rewrite ?Ef in *; (split; [lia|]); try (left; by auto); right; (split; [done|]);
    try tauto; try (destruct E; [right; split; [done|lia]|tauto]).
  all: case_decide; unfold SSH_MAX_AUTH_TRIES in *; [tauto|].
  all: destruct E; [right; split; [done|lia]|tauto].
Qed.

Lemma userauth_step pl plen s :
  ssh_wf s -> gate (cn s) -> state (cn s) = SSH_ST_AUTH ->
  all_bytes pl -> 0 <= plen <= 2048 -> plen <= len pl ->
  head (take (Z.to_nat plen) pl) = Some MSG_USERAUTH_REQUEST ->
  wlp (handle_userauth_request pl plen) (fun _ s' => step_ok (take (Z.to_nat plen) pl) s s' /\ sized s s') s.
Proof.
  intros W G Es Hb Hl Hpl Hh. pose proof (gt_phase _ G) as Hp. unfold gate_phase in Hp. rewrite Es in Hp.
  destruct Hp as (Hr & Ha & Hf). pose proof (gt_fails _ G) as Hf'.
  assert (auth_wf s) as Wa by (destruct W; constructor; try done; unfold SSH_MAX_AUTH_TRIES in *; lia).
  apply wp_wlp. eapply wp_mono; [by apply handle_userauth_wp|]. cbn beta. intros _ s' E.
  destruct (auth_effect_phase _ _ _ Es Ha ltac:(lia) E) as [Hf1 Hph]. destruct E as [Eo Ec Eg _ _ _].
  assert (forall T (f : ssh_conn -> T), f (cn s') = f (auth_rest (cn s')) -> f (cn s) = f (auth_rest (cn s)) -> f (cn s') = f (cn s)) as Fc
    by (intros T f -> ->; by rewrite Ec).
  assert (config (gl s') = config (gl s)) as Ecf by exact (f_equal config Eg).
  assert (keystrokes (gl s') = keystrokes (gl s)) as Eks by exact (f_equal keystrokes Eg).
  assert (session_id (cn s') = session_id (cn s)) as Esid by by apply Fc. split.
  - constructor; [| | |congruence|done].
    + constructor; [| | | |done|].
      * rewrite (Fc _ send_encrypted), (Fc _ keys_ready) by done. apply G.
      * rewrite (Fc _ send_encrypted), (Fc _ recv_encrypted) by done. apply G.
      * by rewrite (Fc _ recv_encrypted).
      * rewrite (Fc _ chan_open), (Fc _ pty), (Fc _ shell_ready) by done. intros Hc%(gt_chan _ G). congruence.
      * unfold gate_phase. destruct Hph as [(_ & -> & ?)|[? [[-> | ->]|[-> ?]]]]; try done.
        rewrite (Fc _ recv_encrypted) by done. done.
    + rewrite Es. destruct Hph as [(_ & -> & _)|[_ [F|[-> _]]]]; [constructor|by apply edge_end|constructor].
    + intros Ha'. right. split_and!; [done..|]. destruct Hph as [(Hv & _)|[? _]]; [|congruence].
      apply verdict_grant; [by apply Forall_take|rewrite length_take; lia|done].
  - constructor; [by apply Fc|by apply Fc|congruence|done|done|]. unfold keystrokes in Eks. injection Eks as E1 E2 E3.
    intros [L H T]. constructor; congruence.
Qed.

Lemma respects_both {A} p (m : M (st C) A) s :
  gate (cn s) -> respects sized m -> respects framed m -> respects unchanneled m \/ state (cn s) = SSH_ST_SESSION ->
  wlp m (fun _ s' => step_ok p s s' /\ sized s s') s.
Proof.
  intros G Hs Hf Hu. specialize (Hs s). specialize (Hf s).
  assert (wlp m (fun _ s' => unchanneled s s' \/ state (cn s) = SSH_ST_SESSION) s) as Hu'.
  { unfold wlp in *. destruct (m s) as [[a s']|] eqn:E; [|done]. destruct Hu as [Hu|]; [|by right].
    left. specialize (Hu s). unfold wlp in Hu. by rewrite E in Hu. }
  unfold wlp in *. destruct (m s) as [[a s']|]; [|done]. split; [by apply framed_ok|done].
Qed.
Lemma fail_step p why s : gate (cn s) -> wlp (fail why) (fun _ s' => step_ok p s s' /\ sized s s') s.
Proof. intros G. apply respects_both; [done|apply fail_sized|apply fail_framed|left; apply fail_unchanneled]. Qed.
Lemma with_sized {A} p (m : M (st C) A) s :
  respects sized m -> wlp m (fun _ s' => step_ok p s s') s -> wlp m (fun _ s' => step_ok p s s' /\ sized s s') s.
Proof. intros Hs H. specialize (Hs s). unfold wlp in *. by destruct (m s) as [[a s']|]. Qed.

Lemma packet_step pl plen s :
  ssh_wf s -> gate (cn s) -> state (cn s) <> SSH_ST_VERSION -> ~ finished (state (cn s)) ->
  (recv_encrypted (cn s) = true -> all_bytes pl /\ 0 <= plen <= 2048 /\ plen <= len pl) ->
  wlp (handle_packet pl plen) (fun _ s' => step_ok (take (Z.to_nat plen) pl) s s' /\ sized s s') s.
Proof.
  intros W G Hv Hnf Hin. unfold handle_packet. set (p := take (Z.to_nat plen) pl).
  assert (respects (@unchanneled C) (cset state SSH_ST_CLOSED)) as Hc by (apply respects_modify; by intros).
  apply wlp_bind. apply (wlp_mono _ (fun msg s' => s' = s /\ (0 < plen -> rd pl 0 = Some msg) /\ (plen = 0 -> msg = 0))).
  { case_decide; [apply wlp_ret; split_and!; [done|lia|done]|]. apply wlp_lift. intros m ->. by split_and!. }
  cbn beta. intros msg s' (-> & Hm & Hm0).
  destruct (decide (msg = MSG_DISCONNECT)).
  { apply respects_both; [done|walk_side|walk_side|by left]. }
  destruct (decide (_ \/ _ \/ _)).
  { apply respects_both; [done|walk_side|walk_side|left; walk_side]. }
  destruct (decide (msg = MSG_GLOBAL_REQUEST)).
  { apply respects_both; [done|apply global_request_sized| |left].
    - eapply respects_mono; [apply quiet_framed|apply global_request_quiet].
    - eapply respects_mono; [apply quiet_unchanneled|apply global_request_quiet]. }
  do 4 wp_step. destruct (state (cn s)) eqn:Es; try done; try (by exfalso; apply Hnf; unfold finished; auto).
  - case_decide; [by apply fail_step|]. apply with_sized; [apply kexinit_sized|by apply kexinit_step].
  - case_decide; [by apply fail_step|]. apply with_sized; [apply ecdh_init_sized|by apply ecdh_init_step].
  - case_decide; [by apply fail_step|]. apply with_sized; [apply newkeys_sized|by apply newkeys_step].
  - case_decide; [by apply fail_step|]. apply with_sized; [apply service_request_sized|by apply service_request_step].
  - case_decide as E; [|apply respects_both; [done|walk_side|walk_side|left; walk_side]].
    pose proof (gt_phase _ G) as Hp. unfold gate_phase in Hp. rewrite Es in Hp.
    destruct (Hin (proj1 Hp)) as (Hb & Hl & Hpl). apply userauth_step; try done.
    subst msg. assert (plen <> 0) by (intros H0; by specialize (Hm0 H0)). unfold rd in Hm.
    destruct pl as [|b pl]; [cbn [length] in Hpl; lia|]. replace (Z.to_nat plen) with (S (Z.to_nat (plen - 1))) by lia.
    specialize (Hm ltac:(lia)). exact Hm.
  - apply respects_both; [done|apply session_sized|apply session_framed|by right].
Qed.
End packet.

(** ** One round of [ssh_input] *)

(** The sealed packet at the front of the buffer carries the payload [p]: its
    length field decrypts to [n], its tag is valid under the client's key for
    the expected sequence number, and its body decrypts to [p] and padding. *)
Definition opens {C : Crypto} (c : ssh_conn) (p : list Z) : Prop :=
  let k_main := take 32 (ek_c2s c) in
  let k_header := drop 32 (ek_c2s c) in
  let nonce := seqbuf8 (recv_seq c) in
  exists n v pad,
    rd_u32 (dossh_chacha20_djb (Some (take 4 (ib c))) 4 k_header nonce 0) 0 = Some v /\ u16 v = n
    /\ n + 20 <= ib_len c
    /\ dossh_poly1305 (take (Z.to_nat (4 + n)) (ib c)) (dossh_chacha20_djb None 32 k_main nonce 0)
       = take 16 (drop (Z.to_nat (4 + n)) (ib c))
    /\ dossh_chacha20_djb (Some (take (Z.to_nat n) (drop 4 (ib c)))) n k_main nonce 1 = len pad :: p ++ pad.

(** What one round may do; [carried] says which payloads it can have acted on. *)
Record round_with {C : Crypto} (carried : list Z -> Prop) (s s' : st C) : Prop := {
  ro_wf : ssh_wf s';
  ro_gate : gate (cn s');
  ro_edge : edge (state (cn s)) (state (cn s'));
  ro_config : config (gl s') = config (gl s);
  ro_auth : authenticated (cn s') = true -> authenticated (cn s) = true
            \/ state (cn s) = SSH_ST_AUTH /\ recv_encrypted (cn s) = true
               /\ exists p, carried p /\ head p = Some MSG_USERAUTH_REQUEST
                    /\ credential (gl s) (session_id (cn s)) p;
  ro_mono : authenticated (cn s) = true -> authenticated (cn s') = true;
  ro_keys : authenticated (cn s) = false -> keystrokes (gl s') = keystrokes (gl s);
}.
Definition round_ok {C : Crypto} (s : st C) : st C -> Prop := round_with (opens (cn s)) s.

Section round.
Context {C : Crypto} {OK : CryptoOk C}.
Implicit Types s : st C.

Lemma quiet_round P s s' : ssh_wf s -> gate (cn s) -> quiet s s' -> sized s s' -> round_with P s s'.
Proof.
  intros W G Q S. destruct (framed_ok [] s s' G (quiet_framed _ _ Q) (or_introl (quiet_unchanneled _ _ Q))) as [G' E A Mo K].
  constructor; [by apply (sized_wf s)|done|done|apply S| |done|done]. intros Ha. left.
  rewrite <- (quiet_authenticated s s' Q). done.
Qed.
Lemma round_refl P s : ssh_wf s -> gate (cn s) -> round_with P s s.
Proof. intros W G. by apply quiet_round. Qed.
Lemma fail_round P why s : ssh_wf s -> gate (cn s) -> wlp (fail why) (fun _ s' => round_with P s s') s.
Proof.
  intros W G. pose proof (fail_quiet why s) as Q. pose proof (fail_sized why s) as S.
  unfold wlp in *. destruct (fail why s) as [[a s']|]; [|done]. by apply quiet_round.
Qed.

(** Dropping [k] bytes of input. *)
Lemma consume_wf k s :
  0 <= k -> ssh_wf s -> wlp (ib_consume k) (fun _ s' => ssh_wf s'
    /\ exists b n, s' = St ((cn s) <| ib := b |> <| ib_len := n |>) (gl s) (rg s)) s.
Proof.
  intros Hk [W1 W2 W3 W4 W5 W6 W7 W8]. unfold ib_consume. wp_step. wp_step. case_decide.
  - apply wlp_modify. split; [by constructor|]. exists (ib (cn s)), 0. by destruct s as [[] ? ?].
  - wp_run. split.
    + constructor; cbn [cn gl]; fld; try done; [| |lia].
      * rewrite length_app, length_take, length_drop. unfold ptr. rewrite length_drop. lia.
      * apply Forall_app. split; [by apply Forall_take, ptr_bytes|by apply Forall_drop].
    + by eexists _, _.
Qed.

(** Bookkeeping of the input after a packet does not matter to the phase. *)
Lemma round_after P s s1 b n q :
  round_with P s s1 -> ssh_wf (St ((cn s1) <| ib := b |> <| ib_len := n |>) (gl s1) (rg s1)) ->
  round_with P s (St ((cn s1) <| ib := b |> <| ib_len := n |> <| recv_seq := q |>) (gl s1) (rg s1)).
Proof.
  intros [R1 [G1 G2 G3 G4 G5 G6] R3 R4 R5 R6 R7] [W1 W2 W3 W4 W5 W6 W7 W8].
  constructor; [by constructor|by constructor|done..].
Qed.

(** [deliver] on a packet that, when sealed, fits the buffer. *)
Lemma deliver_round pkt_len need s :
  ssh_wf s -> gate (cn s) -> state (cn s) <> SSH_ST_VERSION -> ~ finished (state (cn s)) ->
  0 <= need -> (recv_encrypted (cn s) = true -> 1 <= pkt_len <= 2028) ->
  wlp (deliver pkt_len need) (fun _ => round_with (fun p => exists padlen,
    rd (ib (cn s)) 4 = Some padlen /\ padlen + 1 <= pkt_len
    /\ p = take (Z.to_nat (pkt_len - 1 - padlen)) (ptr (ib (cn s)) 5)) s) s.
Proof.
  intros W G Hv Hf Hn Hp. unfold deliver. do 2 wp_step. apply wlp_bind, wlp_lift. intros padlen Hpad.
  case_decide as Hd.
  - apply wlp_bind. eapply wlp_mono; [by apply fail_round|]. cbn beta. intros _ s' R. by apply wlp_ret.
  - pose proof (rd_byte _ _ _ (sw_bytes _ W) Hpad) as Hpb. unfold is_byte in Hpb.
    apply wlp_bind. eapply wlp_mono; [apply packet_step; try done|].
    { intros Hr. specialize (Hp Hr). split_and!; [apply ptr_bytes, W|lia|lia|].
      rewrite len_ptr by (rewrite (sw_ib _ W); unfold SSH_IB_SZ; lia). rewrite (sw_ib _ W). unfold SSH_IB_SZ. lia. }
    cbn beta. intros _ s1 [[S1 S2 S3 S4 S5] Z]. pose proof (sized_wf _ _ Z W) as W1.
    apply wlp_bind. eapply wlp_mono; [by apply consume_wf|]. cbn beta. intros _ s2 [W2 (b & n & ->)]. wp_run.
    apply round_after; [|done]. constructor; try done; [apply Z|].
    intros Ha. destruct (S3 Ha) as [|(? & ? & ? & ?)]; [by left|]. right. split_and!; [done..|].
    eexists. split; [|done]. exists padlen. split_and!; [done|lia|done].
Qed.

Lemma round_mono (P P' : list Z -> Prop) s s' :
  (forall p, recv_encrypted (cn s) = true -> P p -> P' p) -> round_with P s s' -> round_with P' s s'.
Proof.
  intros H [R1 R2 R3 R4 R5 R6 R7]. constructor; try done. intros Ha.
  destruct (R5 Ha) as [|(? & ? & p & ? & ?)]; [by left|]. right. split_and!; eauto.
Qed.

Lemma try_plain_round s :
  ssh_wf s -> gate (cn s) -> state (cn s) <> SSH_ST_VERSION -> ~ finished (state (cn s)) ->
  recv_encrypted (cn s) = false -> wlp try_plain (fun _ => round_ok s) s.
Proof.
  intros W G Hv Hf Hr. unfold try_plain, round_ok. do 2 wp_step. case_decide; [by apply wlp_ret, round_refl|].
  do 2 wp_step. apply wlp_bind, wlp_lift. intros v _. case_decide.
  - apply wlp_bind. eapply wlp_mono; [by apply fail_round|]. cbn beta. intros _ s' R. by apply wlp_ret.
  - case_decide; [by apply wlp_ret, round_refl|]. eapply wlp_mono; [apply deliver_round; try done|].
    + apply u16_range.
    + by rewrite Hr.
    + cbn beta. intros _ s' R. eapply round_mono; [|exact R]. by rewrite Hr.
Qed.

Lemma round_decrypted P s b s' :
  round_with P (St ((cn s) <| ib := b |>) (gl s) (rg s)) s' -> round_with P s s'.
Proof. intros [R1 R2 R3 R4 R5 R6 R7]. by constructor. Qed.

(** The buffer after a record was decrypted in place. *)
Lemma decrypted_wf s body n o k :
  ssh_wf s -> 0 <= n -> 4 + n <= 2048 ->
  ssh_wf (St ((cn s) <| ib := take 4 (ib (cn s)) ++ dossh_chacha20_djb (Some body) n k o 1 ++ ptr (ib (cn s)) (4 + n) |>) (gl s) (rg s)).
Proof.
  intros [W1 W2 W3 W4 W5 W6 W7 W8] Hn H2. pose proof (chacha20_length (Some body) n k o 1 Hn) as Lpl.
  unfold SSH_IB_SZ in W1. constructor; cbn [cn gl]; fld; try done.
  - rewrite !length_app, length_take. pose proof (len_ptr (ib (cn s)) (4 + n) ltac:(lia)). unfold SSH_IB_SZ. lia.
  - repeat (apply Forall_app; split); [by apply Forall_take|apply chacha20_bytes|by apply ptr_bytes].
Qed.

Lemma try_sealed_round s :
  ssh_wf s -> gate (cn s) -> state (cn s) <> SSH_ST_VERSION -> ~ finished (state (cn s)) ->
  recv_encrypted (cn s) = true -> wlp try_sealed (fun _ => round_ok s) s.
Proof.
  intros W G Hv Hf Hr. unfold try_sealed, round_ok. do 2 wp_step. case_decide; [by apply wlp_ret, round_refl|].
  do 6 wp_step. apply wlp_bind, wlp_lift. intros el Hel. apply wlp_bind, wlp_lift. intros v Hev. cbv beta zeta.
  set (n := u16 v). assert (is_u16 n) as Hn by apply u16_range. unfold is_u16 in Hn.
  case_decide as Hc.
  { apply wlp_bind. eapply wlp_mono; [by apply fail_round|]. cbn beta. intros _ s' R. by apply wlp_ret. }
  case_decide as Hlen; [by apply wlp_ret, round_refl|].
  apply wlp_bind, wlp_lift. intros authed Hau. apply wlp_bind, wlp_lift. intros tag Htag. case_decide as Hmac.
  { apply wlp_bind. eapply wlp_mono; [by apply fail_round|]. cbn beta. intros _ s' R. by apply wlp_ret. }
  apply wlp_bind, wlp_lift. intros body Hbody. do 2 wp_step.
  pose proof (sw_ib _ W) as Hib. pose proof (sw_len _ W) as Hibl. unfold SSH_IB_SZ in *.
  apply rd_bytes_Some in Hel as (_ & _ & _ & Lel & Hel), Hau as (_ & _ & Hau1 & _ & Hau),
    Htag as (_ & _ & Htag1 & _ & Htag), Hbody as (_ & _ & Hb1 & Lb & Hbody).
  change (Z.to_nat 0) with O in *. change (Z.to_nat 4) with 4%nat in *. change (Z.to_nat 16) with 16%nat in *. rewrite !drop_0 in *.
  assert (8 <= n /\ 4 + n <= 2032 /\ u16 (4 + n) = 4 + n /\ u16 (4 + n + 16) = 4 + n + 16) as (Hn8 & Hn2 & E1 & E2).
  { clearbody n. assert (~ n < 8) by tauto. assert (4 + n + 16 <= 2048) by lia. split_and!; [lia|lia|apply u16_id|apply u16_id]; unfold is_u16; lia. }
  rewrite E1, E2 in *.
  set (plain := dossh_chacha20_djb (Some body) n _ _ 1).
  assert (len plain = n) as Lpl by (apply chacha20_length; lia).
  assert (ssh_wf (St ((cn s) <| ib := take 4 (ib (cn s)) ++ plain ++ ptr (ib (cn s)) (4 + n) |>) (gl s) (rg s))) as W'
    by (apply decrypted_wf; [done|lia|lia]).
  eapply wlp_mono; [apply deliver_round; try done; fld; [by destruct G|lia|intros _; lia]|].
  cbn beta. intros _ s' R. eapply round_decrypted. eapply round_mono; [|exact R]. cbn [cn]. fld.
  intros p _ (padlen & Hpad & Hle & ->).
  assert (exists x pl, plain = x :: pl) as (x & pl & Epl) by (destruct plain as [|x pl]; [cbn [length] in Lpl; lia|by eexists _, _]).
  rewrite Epl in *. cbn [length] in Lpl. assert (len (take 4 (ib (cn s))) = 4) as L4 by (rewrite length_take; lia).
  cbn [app] in Hpad. rewrite rd_mid in Hpad by done. injection Hpad as <-.
  exists n, v, (drop (Z.to_nat (n - 1 - x)) pl). rewrite <- Hel. split_and!; [done|done|lia| |].
  - rewrite <- Hau. rewrite <- Htag. by destruct (decide (dossh_poly1305 authed (dossh_chacha20_djb None 32 (take 32 (ek_c2s (cn s))) (seqbuf8 (recv_seq (cn s))) 0) = tag)).
  - rewrite <- Hbody. fold plain. rewrite Epl.
    assert (ptr (el ++ (x :: pl) ++ ptr (ib (cn s)) (4 + n)) 5 = pl ++ ptr (ib (cn s)) (4 + n)) as ->.
    { cbn [app]. rewrite cons_middle, app_assoc. apply ptr_app. rewrite length_app. cbn [length]. lia. }
    pose proof (rd_byte _ _ _ (sw_bytes _ W') (rd_mid (take 4 (ib (cn s))) x (pl ++ ptr (ib (cn s)) (4 + n)) 4 ltac:(lia))) as Hx.
    unfold is_byte in Hx. rewrite take_app_le, take_drop, length_drop by lia. f_equal. lia.
Qed.

(** Dispatch on the phase of the encryption. *)
Lemma try_packet_round s :
  ssh_wf s -> gate (cn s) -> state (cn s) <> SSH_ST_VERSION -> ~ finished (state (cn s)) ->
  wlp try_packet (fun _ => round_ok s) s.
Proof.
  intros W G Hv Hf. unfold try_packet. do 2 wp_step. destruct (recv_encrypted (cn s)) eqn:E;
    [by apply try_sealed_round|by apply try_plain_round].
Qed.

Lemma round_consume P s s1 b n :
  round_with P s s1 -> ssh_wf (St ((cn s1) <| ib := b |> <| ib_len := n |>) (gl s1) (rg s1)) ->
  round_with P s (St ((cn s1) <| ib := b |> <| ib_len := n |>) (gl s1) (rg s1)).
Proof.
  intros R W. pose proof (round_after P s s1 b n (recv_seq (cn s1)) R W) as H. by destruct s1 as [[] ? ?].
Qed.

Lemma version_scan_round n : forall i s,
  0 <= i -> ssh_wf s -> gate (cn s) -> state (cn s) = SSH_ST_VERSION ->
  wlp (version_scan n i) (fun _ => round_ok s) s.
Proof.
  unfold round_ok. induction n as [|n IH]; intros i s Hi W G Es; cbn [version_scan]; [by apply wlp_ret, round_refl|].
  do 2 wp_step. apply wlp_bind, wlp_lift. intros ch _. case_decide.
  - apply wlp_bind. apply (wlp_mono _ (fun _ s' => s' = s)); [case_decide; [by apply wlp_ret|by apply wlp_lift]|].
    cbn beta. intros cr s' ->. apply wlp_bind. set (linelen := if decide (cr = 13) then _ else _).
    apply (wlp_mono _ (fun _ s' => s' = s)); [case_decide; [by apply wlp_lift|by apply wlp_ret]|].
    cbn beta. intros ok s' ->. apply wlp_bind.
    apply (wlp_mono _ (fun _ s' => ssh_wf s' /\ round_with (opens (cn s)) s s')).
    { destruct ok; cbn [when]; [|by apply wlp_ret; split; [|apply round_refl]].
      apply wlp_bind, wlp_lift. intros v _. wp_run.
      pose proof (gt_phase _ G) as Hp. unfold gate_phase in Hp. rewrite Es in Hp.
      destruct G as [G1 G2 G3 G4 G5 _], W as [W1 W2 W3 W4 W5 W6 W7 W8].
      split; [by constructor|]. constructor; [by constructor|by constructor| |done| |done|done]; cbn [cn]; fld.
      - rewrite Es. constructor.
      - by left. }
    cbn beta. intros _ s1 [W1 R]. apply wlp_bind. eapply wlp_mono; [apply consume_wf; [lia|done]|].
    cbn beta. intros _ s2 [W2 (b & m & ->)]. apply wlp_ret. by apply round_consume.
  - case_decide; [|by apply IH; [lia|..]]. apply wlp_bind. eapply wlp_mono; [by apply fail_round|].
    cbn beta. intros _ s' R. by apply wlp_ret.
Qed.

Lemma input_step_round s : ssh_wf s -> gate (cn s) -> wlp input_step (fun _ => round_ok s) s.
Proof.
  intros W G. unfold input_step. do 2 wp_step. case_decide as Hf; [by apply wlp_ret, round_refl|].
  apply wlp_bind. case_decide as Hv.
  - unfold try_version. do 2 wp_step. eapply wlp_mono; [by apply version_scan_round|].
    cbn beta. intros r s' R. by apply wlp_ret.
  - eapply wlp_mono; [by apply try_packet_round|]. cbn beta. intros r s' R. by apply wlp_ret.
Qed.
End round.

(** ** Runs *)

(** The input buffer after [d] arrived. *)
Definition received {C : Crypto} (d : list Z) (s : st C) : st C :=
  let n := ib_len (cn s) in
  St ((cn s) <| ib := take (Z.to_nat n) (ib (cn s)) ++ d ++ ptr (ib (cn s)) (n + len d) |>
             <| ib_len := n + len d |>) (gl s) (rg s).

(** One step of a connection's life after [ssh_reset]: bytes arrive in the input
    buffer, one round of the input loop runs, or the resident program calls the
    byte interface. *)
Inductive ssh_move {C : Crypto} : st C -> st C -> Prop :=
  | mv_receive s d : all_bytes d -> ib_len (cn s) + len d <= len (ib (cn s)) -> ssh_move s (received d s)
  | mv_overflow s s' : fail "input overflow" s = Some (tt, s') -> ssh_move s s'
  | mv_round s s' go : input_step s = Some (go, s') -> ssh_move s s'
  | mv_output s s' n out : ssh_output n s = Some (out, s') -> ssh_move s s'
  | mv_discard s s' : ssh_discard_output s = Some (tt, s') -> ssh_move s s'
  | mv_getc s s' b : ssh_channel_getc s = Some (b, s') -> ssh_move s s'
  | mv_putc s s' b ok : ssh_channel_putc b s = Some (ok, s') -> ssh_move s s'
  | mv_flush s s' : ssh_channel_flush s = Some (tt, s') -> ssh_move s s'
  | mv_emit s s' d n out : ssh_channel_emit d n s = Some (out, s') -> ssh_move s s'
  | mv_close s s' : ssh_channel_close s = Some (tt, s') -> ssh_move s s'.

(** What holds all along a run from [s0]. *)
Record run_inv {C : Crypto} (s0 s : st C) : Prop := {
  ri_wf : ssh_wf s;
  ri_gate : gate (cn s);
  ri_config : config (gl s) = config (gl s0);
  ri_keys : authenticated (cn s) = false -> g_cin_head (gl s) = 0 /\ g_cin_tail (gl s) = 0;
  ri_auth : authenticated (cn s) = true -> exists s1 s2 go p,
    rtc ssh_move s0 s1 /\ input_step s1 = Some (go, s2) /\ rtc ssh_move s2 s
    /\ state (cn s1) = SSH_ST_AUTH /\ opens (cn s1) p /\ head p = Some MSG_USERAUTH_REQUEST
    /\ credential (gl s0) (session_id (cn s1)) p;
}.

Lemma credential_config {C : Crypto} g g' sid p : config g = config g' -> credential g sid p -> credential g' sid p.
Proof.
  unfold config, keys_of. intros E. injection E as _ _ E1 E2 E3 E4.
  intros []; rewrite ?E1, ?E2, ?E4 in *; [by apply cred_open|by apply cred_password|].
  eapply cred_key; try done. unfold keys_of in *. by rewrite <- E3, <- E4.
Qed.

Section runs.
Context {C : Crypto} {OK : CryptoOk C}.
Implicit Types s : st C.

Lemma flush_unchanneled : respects unchanneled ssh_channel_flush.
Proof.
  unfold ssh_channel_flush, cget, gget.
  assert (forall n k, respects unchanneled (flush_loop n k)) as H; [|frame_tac].
  induction n as [|n IH]; intros k; cbn [flush_loop]; unfold cget, gget; frame_tac.
Qed.
Hint Resolve flush_unchanneled : respects.
Lemma close_unchanneled : respects unchanneled ssh_channel_close.
Proof. unfold ssh_channel_close, cget. frame_tac. Qed.
Lemma putc_unchanneled b : respects unchanneled (ssh_channel_putc b).
Proof. unfold ssh_channel_putc, cget, gget. frame_tac. Qed.
Lemma emit_unchanneled d n : respects unchanneled (ssh_channel_emit d n).
Proof. unfold ssh_channel_emit, ssh_channel_ready, aead_seal, cget. frame_tac. Qed.

Lemma output_sized n : respects sized (ssh_output n).
Proof.
  intros s. apply wlp_bind, wlp_gget, wlp_bind, wlp_modify, wlp_ret. constructor; try done.
  - unfold ob_ok. cbn [gl]. fld. rewrite length_drop. lia.
  - intros []. by constructor.
Qed.
Lemma discard_sized : respects sized ssh_discard_output.
Proof. intros s. apply wlp_modify. constructor; try done. intros []. by constructor. Qed.

(** A move other than a round: it does not touch the phase. *)
Lemma calm_move s0 s s' :
  run_inv s0 s -> ssh_move s s' -> sized s s' -> framed s s' -> chan_fields (cn s') = chan_fields (cn s) ->
  (authenticated (cn s) = false -> keystrokes (gl s') = keystrokes (gl s)) -> run_inv s0 s'.
Proof.
  intros [W G Cf K A] M Z F U Hk. pose proof (fr_gate _ _ F) as E. injection E as _ _ _ Ea _.
  constructor; [by apply (sized_wf s)|apply (framed_gate s); auto|rewrite (sz_config _ _ Z); done| |].
  - rewrite Ea. intros Ha. specialize (Hk Ha). unfold keystrokes in Hk. injection Hk as _ -> ->. auto.
  - rewrite Ea. intros Ha. destruct (A Ha) as (s1 & s2 & go & p & H1 & H2 & H3 & H). exists s1, s2, go, p.
    split_and!; try apply H; try done. by eapply rtc_r.
Qed.

Lemma respects_run {A} (R : st C -> st C -> Prop) (m : M (st C) A) a s s' :
  respects R m -> m s = Some (a, s') -> R s s'.
Proof. intros H E. specialize (H s). unfold wlp in H. by rewrite E in H. Qed.

(** Operations that leave the channel fields and the ring alone. *)
Lemma calm_op {A} s0 s s' (m : M (st C) A) a :
  run_inv s0 s -> m s = Some (a, s') -> ssh_move s s' ->
  respects sized m -> respects framed m -> respects unchanneled m -> run_inv s0 s'.
Proof.
  intros I E M H1 H2 H3. destruct (respects_run _ _ _ _ _ H3 E) as [Hc Hk].
  eapply calm_move; [done|done|exact (respects_run _ _ _ _ _ H1 E)|exact (respects_run _ _ _ _ _ H2 E)|done|done].
Qed.

Lemma getc_run_inv s0 s s' b : run_inv s0 s -> ssh_channel_getc s = Some (b, s') -> run_inv s0 s'.
Proof.
  intros I E. eapply calm_move; [done|by eapply mv_getc|exact (respects_run _ _ _ _ _ getc_sized E)
    |exact (respects_run _ _ _ _ _ getc_framed E)| |].
  - enough (keeps (fun s => chan_fields (cn s)) ssh_channel_getc) as H
      by (specialize (H s); unfold wlp in H; by rewrite E in H).
    unfold ssh_channel_getc, gget, gset. keeps_tac.
  - intros Ha. destruct (ri_keys _ _ I Ha) as [Eh Et].
    unfold ssh_channel_getc, mbind, M_bind, gget, gets in E. rewrite Eh, Et in E. cbn in E. by injection E as _ <-.
Qed.

Lemma received_wf s d :
  ssh_wf s -> all_bytes d -> ib_len (cn s) + len d <= len (ib (cn s)) -> ssh_wf (received d s).
Proof.
  intros [W1 W2 W3 W4 W5 W6 W7 W8] Hd Hl. unfold SSH_IB_SZ in *. constructor; unfold received; cbn [cn gl]; fld; try done.
  - rewrite !length_app, length_take. pose proof (len_ptr (ib (cn s)) (ib_len (cn s) + len d) ltac:(lia)).
    unfold SSH_IB_SZ. lia.
  - repeat (apply Forall_app; split); [by apply Forall_take|done|by apply ptr_bytes].
  - unfold SSH_IB_SZ. lia.
Qed.
Lemma received_gate s d : gate (cn s) -> gate (cn (received d s)).
Proof. by intros []. Qed.
Lemma receive_run_inv s0 s d :
  run_inv s0 s -> all_bytes d -> ib_len (cn s) + len d <= len (ib (cn s)) -> run_inv s0 (received d s).
Proof.
  intros [W G Cf K A] Hd Hl. constructor; [by apply received_wf|by apply received_gate|done|done|].
  intros Ha. destruct (A Ha) as (s1 & s2 & go & p & H1 & H2 & H3 & H). exists s1, s2, go, p.
  split_and!; try apply H; try done. eapply rtc_r; [done|]. by apply mv_receive.
Qed.

Lemma round_run_inv s0 s s' go :
  rtc ssh_move s0 s -> run_inv s0 s -> input_step s = Some (go, s') -> run_inv s0 s'.
Proof.
  intros Hrun [W G Cf K A] E. pose proof (input_step_round s W G) as R. unfold wlp in R. rewrite E in R.
  destruct R as [R1 R2 R3 R4 R5 R6 R7].
  constructor; [done|done|congruence| |].
  - intros Ha'. destruct (authenticated (cn s)) eqn:Ha; [by rewrite R6 in Ha'|].
    specialize (R7 eq_refl). unfold keystrokes in R7. injection R7 as _ -> ->. auto.
  - intros Ha'. destruct (R5 Ha') as [Ha|(Es & _ & p & Ho & Hh & Hc)].
    + destruct (A Ha) as (s1 & s2 & go' & p & H1 & H2 & H3 & H). exists s1, s2, go', p.
      split_and!; try apply H; try done. eapply rtc_r; [done|]. by eapply mv_round.
    + exists s, s', go, p. split_and!; try done. by apply (credential_config (gl s)).
Qed.

Lemma run_inv_rtc s0 s : run_inv s0 s0 -> rtc ssh_move s0 s -> run_inv s0 s.
Proof.
  intros I. revert s. apply rtc_ind_r; [done|]. intros y z R M J.
  destruct M as [s d|s s' E|s s' go E|s s' n out E|s s' E|s s' b E|s s' b ok E|s s' E|s s' d n out E|s s' E].
  - by apply receive_run_inv.
  - eapply calm_op; [done|exact E|by apply mv_overflow|apply fail_sized|apply fail_framed|apply fail_unchanneled].
  - by eapply round_run_inv.
  - eapply calm_op; [done|exact E|by eapply mv_output|apply output_sized|unfold ssh_output, gget; frame_tac..].
  - eapply calm_op; [done|exact E|by eapply mv_discard|apply discard_sized|unfold ssh_discard_output; frame_tac..].
  - by eapply getc_run_inv.
  - eapply calm_op; [done|exact E|by eapply mv_putc|apply putc_sized|apply putc_framed|apply putc_unchanneled].
  - eapply calm_op; [done|exact E|by eapply mv_flush|apply flush_sized|apply flush_framed|apply flush_unchanneled].
  - eapply calm_op; [done|exact E|by eapply mv_emit|apply emit_sized|apply emit_framed|apply emit_unchanneled].
  - eapply calm_op; [done|exact E|by eapply mv_close|apply close_sized|apply close_framed|apply close_unchanneled].
Qed.

Lemma input_loop_run fuel : forall s s' b, input_loop fuel s = Some (b, s') -> rtc ssh_move s s'.
Proof.
  induction fuel as [|fuel IH]; intros s s' b E; cbn [input_loop] in E; [by injection E as _ <-|].
  unfold mbind, M_bind in E. destruct (input_step s) as [[go s1]|] eqn:E1; [|done].
  eapply rtc_l; [by eapply mv_round|]. destruct go; [by eapply IH|by injection E as _ <-].
Qed.

(** What the box is before [ssh_reset]. *)
Record box_ok s : Prop := {
  bx_cin : length (g_cin (gl s)) = 256%nat;
  bx_count : 0 <= g_authkey_count (gl s) < 2048;
  bx_keys : 32 * g_authkey_count (gl s) <= len (g_authkeys (gl s));
}.

(** A fresh connection. *)
Definition fresh s : Prop :=
  ssh_wf s /\ gate (cn s) /\ authenticated (cn s) = false /\ g_cin_head (gl s) = 0 /\ g_cin_tail (gl s) = 0.

Lemma fresh_step s s' : fresh s -> sized s s' -> framed s s' -> unchanneled s s' -> fresh s'.
Proof.
  intros (W & G & A & K1 & K2) Z F [U K]. pose proof (fr_gate _ _ F) as E. injection E as _ _ _ Ea _.
  unfold keystrokes in K. injection K as _ Kh Kt. unfold fresh. rewrite Kh, Kt, Ea.
  split_and!; [by apply (sized_wf s)|apply (framed_gate s); auto|done..].
Qed.

Lemma reset_fresh sk pk s : box_ok s -> wlp (ssh_reset sk pk) (fun _ => fresh) s.
Proof.
  intros [B1 B2 B3]. unfold ssh_reset.
  apply wlp_bind, wlp_modify. do 6 apply wlp_bind, wlp_modify.
  match goal with |- wlp _ _ ?s => assert (fresh s) as F; [|generalize dependent s; intros s1 F] end.
  { unfold fresh. cbn [cn gl rg]. split_and!; try done.
    - constructor; cbn [cn gl]; fld; try done.
      apply Forall_replicate. unfold is_byte. lia.
    - constructor; try done. cbn. intros [|[|]]; done. }
  assert (forall A (m : M (st C) A), respects sized m -> respects framed m -> respects unchanneled m ->
    wlp m (fun _ => fresh) s1) as H.
  { intros A m Z R U. specialize (Z s1). specialize (R s1). specialize (U s1). unfold wlp in *.
    destruct (m s1) as [[a s']|]; [|done]. by apply (fresh_step s1). }
  assert (forall d, respects framed (ob_append d)) as Hf
    by (intros d; eapply respects_mono; [apply quiet_framed|apply ob_append_quiet]).
  assert (forall d, respects unchanneled (ob_append d)) as Hu
    by (intros d; eapply respects_mono; [apply quiet_unchanneled|apply ob_append_quiet]).
  apply H; unfold build_our_kexinit, send_unenc, cget; frame_tac.
Qed.

Lemma fresh_reset sk pk s : box_ok s -> wlp (ssh_reset sk pk) (fun _ s0 => run_inv s0 s0) s.
Proof.
  intros B. eapply wlp_mono; [by apply reset_fresh|]. cbn beta. intros _ s0 (W & G & A & K). constructor; [done..|by rewrite A].
Qed.

Lemma input_moves fuel d s r s' :
  all_bytes d -> ssh_input fuel d s = Some (r, s') -> rtc ssh_move s s'.
Proof.
  intros Hd. unfold ssh_input, mbind, M_bind, cget, gets. case_decide; [by intros [= _ <-]|]. case_decide.
  { destruct (fail _ s) as [[[] s1]|] eqn:E; [|done]. intros [= _ <-]. eapply rtc_once. by apply mv_overflow. }
  destruct (rd_bytes _ _ _) as [b|] eqn:E; [|done]. cbn [lift].
  apply rd_bytes_Some in E as (_ & _ & E & _). unfold cset, modify. change (upd cn _ _) with (received d s).
  destruct (input_loop fuel (received d s)) as [[b' s1]|] eqn:El; [|done]. intros [= _ <-].
  eapply rtc_l; [by apply mv_receive|]. by eapply input_loop_run.
Qed.

(** Programs made of calls of the public interface. *)
Definition moves {A} (m : M (st C) A) : Prop := forall s a s', m s = Some (a, s') -> rtc ssh_move s s'.
Lemma moves_bind {A B} (m : M (st C) A) (k : A -> M (st C) B) :
  moves m -> (forall a, moves (k a)) -> moves (m ≫= k).
Proof.
  intros Hm Hk s b s'. unfold mbind, M_bind. destruct (m s) as [[a s1]|] eqn:E; [|done].
  intros E2. etrans; [by eapply Hm|by eapply Hk].
Qed.
Lemma moves_ret {A} (a : A) : moves (mret a).
Proof. by intros s b s' [= _ <-]. Qed.
Lemma moves_cget {A} (f : ssh_conn -> A) : moves (cget f).
Proof. by intros s b s' [= _ <-]. Qed.
Lemma moves_input fuel d : all_bytes d -> moves (ssh_input fuel d).
Proof. intros Hd s a s'. by apply input_moves. Qed.
Lemma moves_output n : moves (ssh_output n).
Proof. intros s a s' E. eapply rtc_once. by eapply mv_output. Qed.
End runs.

(** ** Properties *)

(** C2: every round of the input loop of [ssh_input], on arbitrary input bytes,
    is a step of the abstract protocol machine.  From a connection whose phase
    invariant [gate] holds: the phase moves along one of the edges VERSION ->
    EXPECT_KEXINIT -> EXPECT_ECDH_INIT -> EXPECT_CLIENT_NEWKEYS ->
    EXPECT_SERVICE_REQUEST -> AUTH -> SESSION, stays, or ends in ERROR or CLOSED;
    the invariant and the buffer bounds hold again; the configuration does not
    change; [authenticated] is never taken back and is set only from AUTH, by a
    USERAUTH_REQUEST that holds a credential for this session and was the payload
    of a packet with a valid tag; and before it is set no keystroke is stored. *)
Theorem round_refines {C : Crypto} {OK : CryptoOk C} (s : st C) :
  ssh_wf s -> gate (cn s) -> wlp input_step (fun _ => round_ok s) s.
Proof. apply input_step_round. Qed.

(** C1: no authentication without a credential.  In every state a connection can
    reach from [ssh_reset] by any sequence of received bytes, input rounds and
    calls of the byte interface, if the connection is authenticated then at some
    earlier round, in phase AUTH, the packet at the front of the input buffer was
    valid under the session's encryption keys and its payload was a
    USERAUTH_REQUEST carrying a credential for the box's configuration. *)
Theorem authenticated_by_credential {C : Crypto} {OK : CryptoOk C} sk pk (s s0 s1 : st C) :
  box_ok s -> ssh_reset sk pk s = Some (tt, s0) -> rtc ssh_move s0 s1 ->
  authenticated (cn s1) = true ->
  exists sa sb go p,
    rtc ssh_move s0 sa /\ input_step sa = Some (go, sb) /\ rtc ssh_move sb s1
    /\ state (cn sa) = SSH_ST_AUTH /\ opens (cn sa) p /\ head p = Some MSG_USERAUTH_REQUEST
    /\ credential (gl s0) (session_id (cn sa)) p.
Proof.
  intros B E R Ha. pose proof (fresh_reset sk pk s B) as I. unfold wlp in I. rewrite E in I.
  by apply (run_inv_rtc s0 s1 I R).
Qed.

(** C3: the phase invariant of every reachable connection.  Encryption precedes
    authentication, authentication precedes the channel, the pty and the shell,
    at most three authentication attempts are ever counted and fewer than three
    while more are accepted; the buffer lengths stay within the buffers; and
    until the client is authenticated the keystroke ring is empty and the channel
    interface reports not ready. *)
Theorem reachable_gated {C : Crypto} {OK : CryptoOk C} sk pk (s s0 s1 : st C) :
  box_ok s -> ssh_reset sk pk s = Some (tt, s0) -> rtc ssh_move s0 s1 ->
  gate (cn s1) /\ ssh_wf s1 /\ config (gl s1) = config (gl s0)
  /\ (authenticated (cn s1) = false ->
        cin_queue (gl s1) = [] /\ ssh_channel_getc s1 = Some (-1, s1)
        /\ ssh_channel_ready s1 = Some (false, s1)).
Proof.
  intros B E R. pose proof (fresh_reset sk pk s B) as I. unfold wlp in I. rewrite E in I.
  destruct (run_inv_rtc s0 s1 I R) as [W G Cf K _]. split_and!; [done..|]. intros Ha.
  destruct (K Ha) as [Eh Et]. split_and!.
  - unfold cin_queue, cin_count. by rewrite Eh, Et.
  - unfold ssh_channel_getc, mbind, M_bind, gget, gets. by rewrite Eh, Et.
  - unfold ssh_channel_ready, mbind, M_bind, cget, gets. destruct (chan_open (cn s1)) eqn:Ec; [|done].
    rewrite (gt_chan _ G) in Ha by auto. done.
Qed.

(** Witnesses: a whole handshake with an open box, on the toy primitives. *)
Definition demo_box : st toy :=
  St conn0 (Glob [] [] [] [] [] [] [] [] (replicate 256 0) 0 0 [] [] [] [] [] false [] 0) (0 : @rng toy).
Definition demo_frame (p : list Z) (pad : Z) : list Z :=
  put_u32 (1 + len p + pad) ++ [pad] ++ p ++ replicate (Z.to_nat pad) 0.
Definition outcome {S} (m : M S unit) (s : S) : S := match m s with Some (_, s') => s' | None => s end.
Definition demo_st0 : st toy := outcome (ssh_reset (replicate 64 1) (replicate 32 2)) demo_box.
Definition demo_calls : M (st toy) unit :=
  ssh_output 2000 ;;
  ssh_input 9 (text "SSH-2.0-x" ++ [13; 10]) ;;
  ssh_input 9 (demo_frame (our_kexinit (replicate 16 9)) 4) ;;
  ssh_input 9 (demo_frame ([30] ++ put_str (replicate 32 7)) 4 ++ demo_frame [21] 10) ;;
  ssh_output 2000 ;;
  ek ← cget ek_c2s; seq ← cget recv_seq;
  ssh_input 9 (seal (C := toy) ek seq ([5] ++ put_nl "ssh-userauth") (replicate 6 0)) ;;
  ssh_input 9 (seal (C := toy) ek (seq + 1) ([50] ++ put_nl "me" ++ put_nl "ssh-connection" ++ put_nl "none") (replicate 6 0)) ;;
  mret tt.
Definition demo_st1 : st toy := outcome demo_calls demo_st0.

Ltac moves_step :=
  lazymatch goal with
  | |- moves (mbind _ _) => apply moves_bind; [|intros ?]
  | |- moves (mret _) => apply moves_ret
  | |- moves (cget _) => apply moves_cget
  | |- moves (ssh_output _) => apply moves_output
  | |- moves (ssh_input _ _) => apply moves_input
  end.
Lemma outcome_run {S} (m : M S unit) (s : S) :
  (match m s with Some _ => true | None => false end) = true -> m s = Some (tt, outcome m s).
Proof. unfold outcome. by destruct (m s) as [[[] s']|]. Qed.
Lemma demo_reset : ssh_reset (C := toy) (replicate 64 1) (replicate 32 2) demo_box = Some (tt, demo_st0).
Proof. refine (outcome_run (ssh_reset (C := toy) (replicate 64 1) (replicate 32 2)) demo_box _). vm_compute. reflexivity. Qed.
Lemma demo_run : rtc ssh_move demo_st0 demo_st1.
Proof.
  assert (moves demo_calls) as H.
  { unfold demo_calls. repeat moves_step.
    all: first [apply (seal_bytes (OK := toy_ok)) | apply bytes_dec_iff; vm_compute; reflexivity]. }
  refine (H demo_st0 tt demo_st1 (outcome_run demo_calls demo_st0 _)). vm_compute. reflexivity.
Qed.
Lemma demo_box_ok : box_ok demo_box.
Proof. constructor; vm_compute; [done|split; done|done]. Qed.

Lemma demo_fresh : run_inv demo_st0 demo_st0.
Proof.
  exact (wlp_Some _ _ _ _ _ (fresh_reset (replicate 64 1) (replicate 32 2) demo_box demo_box_ok) demo_reset).
Qed.

Lemma round_refines_witness : wlp input_step (fun _ => round_ok demo_st0) demo_st0.
Proof.
  exact (round_refines (OK := toy_ok) demo_st0 (ri_wf _ _ demo_fresh) (ri_gate _ _ demo_fresh)).
Defined.
Lemma demo_authenticated : authenticated (cn demo_st1) = true.
Proof. vm_compute. reflexivity. Qed.
Lemma authenticated_by_credential_witness :
  exists sa sb go p,
    rtc ssh_move demo_st0 sa /\ input_step sa = Some (go, sb) /\ rtc ssh_move sb demo_st1
    /\ state (cn sa) = SSH_ST_AUTH /\ opens (C := toy) (cn sa) p /\ head p = Some MSG_USERAUTH_REQUEST
    /\ credential (C := toy) (gl demo_st0) (session_id (cn sa)) p.
Proof.
  exact (authenticated_by_credential (OK := toy_ok) (replicate 64 1) (replicate 32 2) demo_box demo_st0 demo_st1
    demo_box_ok demo_reset demo_run demo_authenticated).
Defined.
Lemma reachable_gated_witness :
  gate (cn demo_st1) /\ ssh_wf demo_st1 /\ config (gl demo_st1) = config (gl demo_st0)
  /\ (authenticated (cn demo_st1) = false ->
        cin_queue (gl demo_st1) = [] /\ ssh_channel_getc demo_st1 = Some (-1, demo_st1)
        /\ ssh_channel_ready demo_st1 = Some (false, demo_st1)).
Proof.
  exact (reachable_gated (OK := toy_ok) (replicate 64 1) (replicate 32 2) demo_box demo_st0 demo_st1
    demo_box_ok demo_reset demo_run).
Defined.
