(* ===== verification/SshLoop.v ===== *)
(** * The input loop of the SSH server (src/dosshd/ssh.c: ssh_input)

    When the loop ends, when it does not, what it refuses and what it reads. *)
From Stdlib Require Import ZArith Lia.
From stdpp Require Import base list numbers relations.
From S2P Require Import Prelude Sha256 Crypto SshWire SshConn SshKex SshAuth SshChan Ssh SshSafe.
Local Open Scope Z_scope.

(** ** Progress *)

Section progress.
Context {C : Crypto} {OK : CryptoOk C}.
Implicit Types s : st C.

Lemma consume_shrinks k s :
  0 < k -> 0 < ib_len (cn s) -> wlp (ib_consume k) (fun _ s' => 0 <= ib_len (cn s') < ib_len (cn s)) s.
Proof.
  intros Hk Hl. unfold ib_consume. do 2 wp_step. case_decide.
  - apply wlp_modify. cbn [cn]. fld. lia.
  - wp_run. cbn [cn]. fld. lia.
Qed.

(** A round that goes on has consumed input. *)
Definition shrinks s (r : Z) s' : Prop := r > 0 -> 0 <= ib_len (cn s') < ib_len (cn s).

Lemma deliver_shrinks pkt_len need s :
  ssh_wf s -> gate (cn s) -> state (cn s) <> SSH_ST_VERSION -> ~ finished (state (cn s)) ->
  0 < need -> 0 < ib_len (cn s) -> (recv_encrypted (cn s) = true -> 1 <= pkt_len <= 2028) ->
  wlp (deliver pkt_len need) (shrinks s) s.
Proof.
  intros W G Hv Hf Hn Hl Hp. unfold deliver. do 2 wp_step. apply wlp_bind, wlp_lift. intros padlen Hpad.
  case_decide as Hd.
  - apply wlp_bind. eapply wlp_mono; [apply (fail_round (fun _ => True)); done|]. cbn beta. intros _ s' _. apply wlp_ret. by intros ?.
  - pose proof (rd_byte _ _ _ (sw_bytes _ W) Hpad) as Hpb. unfold is_byte in Hpb.
    apply wlp_bind. eapply wlp_mono; [apply packet_step; try done|].
    { intros Hr. specialize (Hp Hr). split_and!; [apply ptr_bytes, W|lia|lia|].
      rewrite len_ptr by (rewrite (sw_ib _ W); unfold SSH_IB_SZ; lia). rewrite (sw_ib _ W). unfold SSH_IB_SZ. lia. }
    cbn beta. intros _ s1 [_ Z]. pose proof (sz_ib_len _ _ Z) as El.
    apply wlp_bind. eapply wlp_mono; [apply consume_shrinks; [done|lia]|]. cbn beta. intros _ s2 H. wp_run.
    intros _. cbn [cn]. fld. lia.
Qed.

Lemma fail_shrinks why s : wlp (fail why ;; mret (-1)) (shrinks s) s.
Proof.
  apply wlp_bind. eapply wlp_mono; [apply fail_framed|]. cbn beta. intros _ s' _. apply wlp_ret. by intros ?.
Qed.
Lemma wait_shrinks s : wlp (mret 0) (shrinks s) s.
Proof. apply wlp_ret. by intros ?. Qed.

Lemma try_sealed_shrinks s :
  ssh_wf s -> gate (cn s) -> state (cn s) <> SSH_ST_VERSION -> ~ finished (state (cn s)) ->
  wlp try_sealed (shrinks s) s.
Proof.
  intros W G Hv Hf. unfold try_sealed. do 2 wp_step. case_decide; [apply wait_shrinks|].
  do 6 wp_step. apply wlp_bind, wlp_lift. intros el Hel. apply wlp_bind, wlp_lift. intros v Hev. cbv beta zeta.
  pose proof (u16_range v) as Hn. set (n := u16 v) in *. clearbody n. unfold is_u16 in Hn.
  case_decide as Hc; [apply fail_shrinks|]. case_decide as Hlen; [apply wait_shrinks|].
  apply wlp_bind, wlp_lift. intros authed Hau. apply wlp_bind, wlp_lift. intros tag Htag.
  case_decide as Hmac; [apply fail_shrinks|]. apply wlp_bind, wlp_lift. intros body Hbody. do 2 wp_step.
  pose proof (sw_ib _ W) as Hib. unfold SSH_IB_SZ in *.
  apply rd_bytes_Some in Htag as (_ & _ & Htag1 & _), Hbody as (_ & _ & Hb1 & Lb & _).
  assert (~ n < 8) by tauto. rewrite (u16_id (4 + n + 16)) in * by (unfold is_u16; lia).
  set (plain := dossh_chacha20_djb (Some body) n _ _ 1).
  assert (len plain = n) as Lpl by (apply chacha20_length; lia).
  eapply wlp_mono; [apply deliver_shrinks; try done; cbn [cn]; fld; [|by destruct G|lia|lia|intros _; lia]|].
  - destruct W as [W1 W2 W3 W4 W5 W6 W7 W8]. constructor; cbn [cn gl]; fld; try done.
    + rewrite !length_app, length_take. pose proof (len_ptr (ib (cn s)) (4 + n) ltac:(lia)). unfold SSH_IB_SZ. lia.
    + repeat (apply Forall_app; split); [by apply Forall_take|apply chacha20_bytes|by apply ptr_bytes].
  - cbn beta. intros r s' R. exact R.
Qed.

(** The states in which packets arrive sealed. *)
Definition sealed_phase (q : ssh_state) : Prop :=
  q = SSH_ST_EXPECT_SERVICE_REQUEST \/ q = SSH_ST_AUTH \/ q = SSH_ST_SESSION.

Lemma sealed_phase_recv c : gate c -> sealed_phase (state c) -> recv_encrypted c = true.
Proof.
  intros G H. pose proof (gt_phase _ G) as P. unfold gate_phase in P.
  destruct H as [E|[E|E]]; rewrite E in P; [tauto|tauto|]. by apply G.
Qed.
Lemma sealed_phase_edge q q' : sealed_phase q -> edge q q' -> sealed_phase q' \/ finished q'.
Proof. unfold sealed_phase. intros [->|[->| ->]] E; inversion E; subst; auto. Qed.

Lemma sealed_round s :
  ssh_wf s -> gate (cn s) -> sealed_phase (state (cn s)) ->
  wlp input_step (fun go s' => ssh_wf s' /\ gate (cn s') /\ (sealed_phase (state (cn s')) \/ finished (state (cn s')))
    /\ (go = true -> 0 <= ib_len (cn s') < ib_len (cn s))) s.
Proof.
  intros W G P. assert (~ finished (state (cn s)) /\ state (cn s) <> SSH_ST_VERSION) as [Hf Hv]
    by (unfold finished; destruct P as [-> |[-> | ->]]; (split; [by intros [|]|done])).
  eapply wlp_mono; [apply wlp_and; [apply input_step_round; done|]|].
  - instantiate (1 := fun (go : bool) s' => go = true -> 0 <= ib_len (cn s') < ib_len (cn s)).
    unfold input_step. do 2 wp_step. rewrite decide_False by done. apply wlp_bind. rewrite decide_False by done.
    unfold try_packet. do 2 wp_step. rewrite (sealed_phase_recv _ G P).
    eapply wlp_mono; [by apply try_sealed_shrinks|]. cbn beta. intros r s' H. apply wlp_ret.
    intros Hgo%bool_decide_eq_true. by apply H.
  - cbn beta. intros go s' [R H]. split_and!; [apply R|apply R| |done]. eapply sealed_phase_edge; [done|apply R].
Qed.

Lemma input_loop_ends fuel : forall s,
  ssh_wf s -> gate (cn s) -> sealed_phase (state (cn s)) \/ finished (state (cn s)) ->
  ib_len (cn s) < Z.of_nat fuel -> wlp (input_loop fuel) (fun ended _ => ended = true) s.
Proof.
  induction fuel as [|fuel IH]; intros s W G P Hl; [pose proof (sw_len _ W); lia|]. cbn [input_loop].
  apply wlp_bind. destruct P as [P|P].
  - eapply wlp_mono; [by apply sealed_round|]. cbn beta. intros [|] s' (W' & G' & P' & Hs); [|by apply wlp_ret].
    apply IH; [done..|]. specialize (Hs eq_refl). lia.
  - unfold input_step. do 2 wp_step. rewrite decide_True by done. apply wlp_ret. by apply wlp_ret.
Qed.
End progress.

(** ** Properties *)

(** C30: once packets arrive encrypted the input loop ends, whatever the bytes:
    every round that goes on has consumed at least one byte, so with more rounds
    of fuel than buffered bytes [input_loop] runs to its end (and by its sibling
    [round_refines] in a state that satisfies the invariants). *)
Theorem sealed_input_ends {C : Crypto} {OK : CryptoOk C} fuel (s : st C) :
  ssh_wf s -> gate (cn s) -> sealed_phase (state (cn s)) -> ib_len (cn s) < Z.of_nat fuel ->
  wlp (input_loop fuel) (fun ended _ => ended = true) s.
Proof. intros W G P. by apply input_loop_ends; [| |left]. Qed.

(** The length field that makes a plaintext packet occupy no bytes: 4 + 65532
    wraps to 0. *)
Definition hang_packet (padlen : Z) (rest : list Z) : list Z := [0; 0; 255; 252; padlen; MSG_IGNORE] ++ rest.

(** C29: before encryption the loop need not end.  A plaintext packet whose length
    field is 65532 passes the size check, because [pkt_len + 4] wraps to 0 in a
    16-bit [unsigned], and then occupies [need = 0] bytes; when its message is
    IGNORE nothing is consumed and nothing changes but the receive sequence
    number, so the loop of [ssh_input] handles the same packet for ever.  Six
    bytes sent before the key exchange, without authentication, therefore stop
    the server. *)
Theorem plaintext_hang {C : Crypto} (s : st C) padlen rest fuel :
  state (cn s) = SSH_ST_EXPECT_KEXINIT -> recv_encrypted (cn s) = false ->
  is_byte padlen -> ib (cn s) = hang_packet padlen rest -> 4 <= ib_len (cn s) <= len (ib (cn s)) ->
  exists q, input_loop fuel s = Some (false, St ((cn s) <| recv_seq := q |>) (gl s) (rg s)).
Proof.
  intros Es Er Hp Ei Hl. revert s Es Er Ei Hl. induction fuel as [|fuel IH]; intros s Es Er Ei Hl.
  { exists (recv_seq (cn s)). by destruct s as [[] ? ?]. }
  assert (input_step s = Some (true, St ((cn s) <| recv_seq := u32 (recv_seq (cn s) + 1) |>) (gl s) (rg s))) as E.
  { unfold input_step, mbind at 1, M_bind at 1, cget at 1, gets at 1. rewrite Es. cbn [decide].
    rewrite decide_False by (intros [|]; done). unfold mbind at 1, M_bind at 1. rewrite decide_False by done.
    unfold try_packet, mbind at 1, M_bind at 1, cget at 1, gets at 1. rewrite Er.
    unfold try_plain, mbind at 1, M_bind at 1, cget at 1, gets at 1. rewrite decide_False by lia.
    unfold mbind at 1, M_bind at 1, cget at 1, gets at 1. unfold mbind at 1, M_bind at 1. rewrite Ei.
    assert (rd_u32 (hang_packet padlen rest) 0 = Some 65532) as -> by done. cbn [lift].
    rewrite decide_False by (vm_compute; intros [|]; done). change (u16 (4 + u16 65532)) with 0.
    rewrite decide_False by lia. unfold deliver, mbind at 1, M_bind at 1, cget at 1, gets at 1. rewrite Ei.
    unfold mbind at 1, M_bind at 1. change (rd (hang_packet padlen rest) 4) with (Some padlen). cbn [lift].
    unfold is_byte in Hp. change (u16 65532) with 65532. rewrite decide_False by lia.
    unfold mbind at 1, M_bind at 1. unfold handle_packet, mbind at 1, M_bind at 1. rewrite decide_False by lia.
    change (rd (ptr (hang_packet padlen rest) 5) 0) with (Some MSG_IGNORE). cbn [lift].
    rewrite decide_False by done. rewrite decide_True by auto. unfold mret at 1, M_ret at 1.
    unfold mbind at 1, M_bind at 1, ib_consume at 1, mbind at 1, M_bind at 1, cget at 1, gets at 1.
    rewrite decide_False by lia. unfold mbind, M_bind, cget, gets, cset, modify, mret, M_ret. cbn [cn gl rg]. fld.
    unfold ptr. change (Z.to_nat 0) with O. rewrite !Z.sub_0_r, drop_0, take_drop. by destruct s as [[] ? ?]. }
  cbn [input_loop]. unfold mbind at 1, M_bind at 1. rewrite E.
  destruct (IH (St ((cn s) <| recv_seq := u32 (recv_seq (cn s) + 1) |>) (gl s) (rg s))) as [q Eq]; [by fld..|].
  exists q. rewrite Eq. by destruct s as [[] ? ?].
Qed.

(** A plaintext GLOBAL_REQUEST of [plen] bytes by its length field, whose name is
    said to be [nlen] bytes long, with [rest] behind it. *)
Definition overread_packet (rest : list Z) : list Z :=
  put_u32 65535 ++ [0; MSG_GLOBAL_REQUEST] ++ put_u32 60000 ++ rest.

(** before encryption a packet can make the server read outside its input
    buffer.  A length field of 65535 passes the size check ([pkt_len + 4] wraps
    to 3), only three bytes need to have arrived, and the handler of
    GLOBAL_REQUEST, which runs in every phase, then trusts the length of the name
    against a [plen] of 65534: it reads [pl[60005]], far behind the 2048-byte
    [ib].  In the model the access outside the object is a fault. *)
Theorem plaintext_overread {C : Crypto} (s : st C) rest :
  recv_encrypted (cn s) = false -> ib (cn s) = overread_packet rest -> len (ib (cn s)) = SSH_IB_SZ ->
  10 <= ib_len (cn s) -> try_packet s = None.
Proof.
  unfold SSH_IB_SZ. intros Er Ei Hib Hl. unfold try_packet, mbind at 1, M_bind at 1, cget at 1, gets at 1. rewrite Er.
  unfold try_plain, mbind at 1, M_bind at 1, cget at 1, gets at 1. rewrite decide_False by lia.
  unfold mbind at 1, M_bind at 1, cget at 1, gets at 1. unfold mbind at 1, M_bind at 1. rewrite Ei.
  unfold overread_packet at 1. rewrite rd_u32_app0 by (unfold is_u32; lia). cbn [lift].
  rewrite decide_False by (vm_compute; intros [|]; done). change (u16 (4 + u16 65535)) with 3.
  rewrite decide_False by lia. unfold deliver, mbind at 1, M_bind at 1, cget at 1, gets at 1. rewrite Ei.
  unfold mbind at 1, M_bind at 1. change (rd (overread_packet rest) 4) with (Some 0). cbn [lift].
  change (u16 65535) with 65535. rewrite decide_False by lia. unfold mbind at 1, M_bind at 1.
  unfold handle_packet, mbind at 1, M_bind at 1. rewrite decide_False by lia.
  change (rd (ptr (overread_packet rest) 5) 0) with (Some MSG_GLOBAL_REQUEST). cbn [lift].
  rewrite decide_False by done. rewrite decide_False by (intros [|[|]]; done). rewrite decide_True by done.
  unfold handle_global_request. rewrite decide_False by (vm_compute; done).
  unfold mbind at 1, M_bind at 1. change (rd_u32 (ptr (overread_packet rest) 5) 1) with (Some 60000). cbn [lift].
  change (u16 (1 + u16 (4 + u16 60000))) with 60005. rewrite decide_True by lia.
  unfold mbind at 1, M_bind at 1, rd. rewrite decide_True by lia.
  rewrite (proj2 (lookup_ge_None (ptr (overread_packet rest) 5) (Z.to_nat 60005))); [done|].
  rewrite Ei in Hib. unfold ptr. rewrite length_drop. lia.
Qed.

(** C27: a tampered record is refused before any of it is used.  When a whole
    sealed packet with an admissible length is buffered and its tag is not the
    Poly1305 tag of the received bytes under the one-time key of the expected
    sequence number, [try_packet] reports failure, latches the error "MAC
    verification failed" and changes nothing else: the payload is not decrypted,
    no handler runs, no byte is queued and no counter moves. *)
Theorem tampered_refused {C : Crypto} (s : st C) v n :
  recv_encrypted (cn s) = true -> state (cn s) <> SSH_ST_ERROR -> ib_len (cn s) <= len (ib (cn s)) ->
  rd_u32 (dossh_chacha20_djb (Some (take 4 (ib (cn s)))) 4 (drop 32 (ek_c2s (cn s))) (seqbuf8 (recv_seq (cn s))) 0) 0 = Some v ->
  n = u16 v -> 8 <= n -> n mod 8 = 0 -> 20 + n <= SSH_IB_SZ -> 20 + n <= ib_len (cn s) ->
  dossh_poly1305 (take (Z.to_nat (4 + n)) (ib (cn s)))
    (dossh_chacha20_djb None 32 (take 32 (ek_c2s (cn s))) (seqbuf8 (recv_seq (cn s))) 0)
  <> take 16 (drop (Z.to_nat (4 + n)) (ib (cn s))) ->
  try_packet s = Some (-1, St ((cn s) <| state := SSH_ST_ERROR |> <| err := 1 |>
                                 <| err_msg := "MAC verification failed"%string |>) (gl s) (rg s)).
Proof.
  unfold SSH_IB_SZ. intros Er Es Hlen Ev En H8 Ha Hsz Hl Hmac.
  unfold try_packet, mbind at 1, M_bind at 1, cget at 1, gets at 1. rewrite Er.
  unfold try_sealed, mbind at 1, M_bind at 1, cget at 1, gets at 1. rewrite decide_False by lia.
  do 3 (unfold mbind at 1, M_bind at 1, cget at 1, gets at 1). unfold mbind at 1, M_bind at 1.
  unfold rd_bytes at 1. rewrite decide_True by lia. cbn [lift]. change (Z.to_nat 0) with O.
  change (Z.to_nat 4) with 4%nat. rewrite drop_0. unfold mbind at 1, M_bind at 1. rewrite Ev. cbn [lift].
  rewrite <- En. clear v Ev En. unfold SSH_IB_SZ. rewrite !(u16_id (4 + n + 16)), !(u16_id (4 + n)) by (unfold is_u16; lia).
  rewrite decide_False by lia. rewrite decide_False by lia. unfold mbind at 1, M_bind at 1.
  unfold rd_bytes at 1. rewrite decide_True by lia. cbn [lift]. change (Z.to_nat 0) with O. rewrite drop_0.
  unfold mbind at 1, M_bind at 1, rd_bytes at 1. rewrite decide_True by lia. cbn [lift].
  change (Z.to_nat 16) with 16%nat. rewrite decide_True by done.
  unfold mbind, M_bind, fail, cget, gets, mbind, M_bind. rewrite bool_decide_eq_true_2 by done. done.
Qed.

(** ** The version line *)

Lemma version_skip {C : Crypto} (s : st C) pre l post n :
  ib (cn s) = pre ++ l ++ post -> 10 ∉ l -> len pre + len l <= 301 ->
  version_scan (length l + n) (len pre) s = version_scan n (len pre + len l) s.
Proof.
  revert pre. induction l as [|b l IH]; intros pre Ei Hn Hl; [by rewrite Z.add_0_r|].
  cbn [length Nat.add version_scan]. unfold mbind at 1, M_bind at 1, cget at 1, gets at 1.
  unfold mbind at 1, M_bind at 1. rewrite Ei. cbn [app]. rewrite rd_mid by done. cbn [lift].
  apply not_elem_of_cons in Hn as [Hb Hn]. cbn [length] in Hl. rewrite decide_False by done.
  rewrite decide_False by lia. specialize (IH (pre ++ [b])). rewrite length_app in IH. cbn [length] in IH.
  replace (len pre + 1) with (Z.of_nat (length pre + 1)) by lia. rewrite IH; [f_equal; lia| |done|lia].
  rewrite <- app_assoc. done.
Qed.

(** What a line makes of the connection. *)
Definition identified (line : list Z) (c : ssh_conn) : ssh_conn :=
  if decide (take 4 line = text "SSH-") then c <| cli_ver := take 255 line |> <| state := SSH_ST_EXPECT_KEXINIT |> else c.

(** the version exchange.  A line of at most 299 bytes, ended by CR LF or by
    LF alone, is consumed with its ending; when it starts with "SSH-" it becomes
    the client's version string, without the line ending and cut to 255 bytes,
    and key exchange begins; any other line is skipped (RFC 4253, 4.2). *)
Theorem version_line_exact {C : Crypto} (s : st C) line (cr : bool) rest :
  ib (cn s) = line ++ (if cr then [13] else []) ++ [10] ++ rest ->
  10 ∉ line -> (cr = false -> last line <> Some 13) -> len line <= 299 ->
  len line + (if cr then 2 else 1) <= ib_len (cn s) ->
  try_version s = (ib_consume (len line + if cr then 2 else 1) ;; mret 1)
                    (St (identified line (cn s)) (gl s) (rg s)).
Proof.
  intros Ei Hn Hcr Hl Hib. unfold try_version, mbind at 1, M_bind at 1, cget at 1, gets at 1.
  set (l := line ++ if cr then [13] else []).
  assert (len l = len line + (if cr then 1 else 0)) as Ll by (unfold l; rewrite length_app; destruct cr; cbn [length]; lia).
  assert (ib (cn s) = l ++ 10 :: rest) as Ei' by (rewrite Ei; unfold l; by rewrite <- app_assoc).
  replace (Z.to_nat (ib_len (cn s))) with (length l + S (Z.to_nat (ib_len (cn s) - len l - 1)))%nat by (destruct cr; lia).
  pose proof (version_skip s [] l (10 :: rest) (S (Z.to_nat (ib_len (cn s) - len l - 1)))) as Hs. cbn [length] in Hs.
  change (Z.of_nat 0) with 0 in Hs. rewrite Hs; [|done| |destruct cr; lia].
  2:{ unfold l. destruct cr; [|by rewrite app_nil_r]. rewrite not_elem_of_app. split; [done|]. by rewrite list_elem_of_singleton. }
  clear Hs. cbn [version_scan]. rewrite Z.add_0_l. unfold mbind at 1, M_bind at 1, cget at 1, gets at 1.
  unfold mbind at 1, M_bind at 1. rewrite Ei', rd_mid by done. cbn [lift]. rewrite decide_True by done.
  assert (exists x, (if decide (len l = 0) then mret 0 else lift (rd (ib (cn s)) (len l - 1))) s = Some (x, s)
    /\ (x = 13 <-> cr = true)) as (x & Ex & Hx).
  { destruct cr.
    - exists 13. rewrite decide_False by lia. replace (len l - 1) with (len line) by lia.
      rewrite Ei. cbn [app]. rewrite rd_mid by done. done.
    - unfold l in *. rewrite app_nil_r in *. destruct (decide (len line = 0)) as [E|E]; [by exists 0|].
      destruct (rd_is_Some line (len line - 1)) as [x Ex]; [lia|]. exists x.
      assert (rd (ib (cn s)) (len line - 1) = Some x) as ->.
      { rewrite Ei'. unfold rd in *. rewrite decide_True in * by lia. by apply lookup_app_l_Some. }
      split; [done|]. split; [|done]. intros ->. exfalso. apply Hcr; [done|]. rewrite last_lookup.
      unfold rd in Ex. rewrite decide_True in Ex by lia. rewrite <- Ex. f_equal. lia. }
  unfold mbind at 1, M_bind at 1. rewrite <- Ei', Ex.
  assert ((if decide (x = 13) then len l - 1 else len l) = len line) as ->
    by (destruct cr; [rewrite decide_True by tauto; lia|rewrite decide_False by (intros E; by apply Hx in E); lia]).
  unfold mbind at 1, M_bind at 1.
  assert ((if decide (len line >= 4) then lift (rd_is (ib (cn s)) 0 (text "SSH-")) else mret false) s
    = Some (bool_decide (take 4 line = text "SSH-"), s)) as ->.
  { clear Ex. case_decide as H4.
    - unfold rd_is. assert (rd_bytes (ib (cn s)) 0 (len (text "SSH-")) = Some (take 4 line)) as ->; [|reflexivity].
      rewrite Ei, <- (take_drop 4 line) at 1. rewrite <- app_assoc. apply rd_bytes_app. rewrite length_take. change (len (text "SSH-")) with 4. lia.
    - rewrite bool_decide_eq_false_2; [done|]. intros E. apply (f_equal length) in E. rewrite length_take in E. change (length (text "SSH-")) with 4%nat in E. lia. }
  unfold identified. case_bool_decide as Es.
  - rewrite decide_True by done. cbn [when]. unfold mbind at 1, M_bind at 1, mbind at 1, M_bind at 1.
    assert (rd_bytes (ib (cn s)) 0 (Z.min (len line) 255) = Some (take 255 line)) as ->.
    { rewrite Ei, <- (take_drop 255 line) at 1. rewrite <- app_assoc. apply rd_bytes_app. rewrite length_take. lia. }
    cbn [lift]. unfold mbind at 1, M_bind at 1, cset at 1, modify at 1. unfold cset at 1, modify at 1.
    replace (len l + 1) with (len line + (if cr then 2 else 1)) by (destruct cr; lia).
    done.
  - rewrite decide_False by done. cbn [when]. unfold mbind at 1, M_bind at 1. unfold skip, mret at 1, M_ret at 1.
    replace (len l + 1) with (len line + (if cr then 2 else 1)) by (destruct cr; lia). by destruct s.
Qed.

(** ** Witnesses *)

Definition loop_pad (l : list Z) : list Z := l ++ replicate (2048 - length l) 0.
Definition loop_st (c : ssh_conn) : st toy := St c glob0 (0 : @rng toy).

Definition sealed_st : st toy :=
  loop_st (conn0 <| state := SSH_ST_EXPECT_SERVICE_REQUEST |> <| send_encrypted := true |>
       <| recv_encrypted := true |> <| keys_ready := true |> <| ib_len := 60 |>).
Lemma sealed_st_wf : ssh_wf sealed_st.
Proof.
  assert (len (ib (cn sealed_st)) = SSH_IB_SZ) as H1 by (vm_compute; reflexivity).
  assert (all_bytes (ib (cn sealed_st))) as H2 by (apply bytes_dec_iff; vm_compute; reflexivity).
  assert (0 <= ib_len (cn sealed_st) <= SSH_IB_SZ) as H3 by (vm_compute; split; discriminate).
  assert (len (session_id (cn sealed_st)) = 32) as H4 by (vm_compute; reflexivity).
  assert (ob_ok sealed_st) as H5 by (vm_compute; discriminate).
  assert (cin_wf (gl sealed_st)) as H6 by (constructor; vm_compute; try split; done).
  exact (Build_ssh_wf _ _ H1 H2 H3 H4 H5 H6 (conj (Z.le_refl 0) eq_refl) (Z.le_refl 0)).
Qed.
Lemma sealed_st_gate : gate (cn sealed_st).
Proof. constructor; vm_compute; try done. by intros [|[]]. Qed.
Lemma sealed_input_ends_witness : wlp (input_loop 100) (fun ended _ => ended = true) sealed_st.
Proof.
  exact (sealed_input_ends (OK := toy_ok) 100 sealed_st sealed_st_wf sealed_st_gate (or_introl eq_refl) eq_refl).
Defined.

Definition hang_st : st toy :=
  loop_st (conn0 <| state := SSH_ST_EXPECT_KEXINIT |> <| ib := hang_packet 1 (replicate 2042 0) |> <| ib_len := 6 |>).
Lemma plaintext_hang_witness :
  exists q, input_loop 1000 hang_st = Some (false, St ((cn hang_st) <| recv_seq := q |>) (gl hang_st) (rg hang_st)).
Proof.
  apply (plaintext_hang hang_st 1 (replicate 2042 0)); [reflexivity|reflexivity|unfold is_byte; lia|reflexivity|].
  split; vm_compute; discriminate.
Defined.

Definition overread_st : st toy :=
  loop_st (conn0 <| state := SSH_ST_EXPECT_KEXINIT |> <| ib := overread_packet (replicate 2038 0) |> <| ib_len := 10 |>).
Lemma plaintext_overread_witness : try_packet overread_st = None.
Proof.
  apply (plaintext_overread overread_st (replicate 2038 0)); [reflexivity|reflexivity|vm_compute; reflexivity|vm_compute; discriminate].
Defined.

Definition tamper_rec : list Z := seal (C := toy) (replicate 64 3) 7 (text "hi") (replicate 5 0).
Definition tamper_conn : ssh_conn :=
  conn0 <| state := SSH_ST_AUTH |> <| send_encrypted := true |> <| recv_encrypted := true |> <| keys_ready := true |>
        <| ek_c2s := replicate 64 3 |> <| recv_seq := 7 |>
        <| ib := loop_pad (take 10 tamper_rec ++ [99] ++ drop 11 tamper_rec) |> <| ib_len := 28 |>.
Lemma tampered_refused_witness :
  try_packet (loop_st tamper_conn) = Some (-1, St (tamper_conn <| state := SSH_ST_ERROR |> <| err := 1 |>
                                 <| err_msg := "MAC verification failed"%string |>) glob0 (0 : @rng toy)).
Proof.
  apply (tampered_refused (loop_st tamper_conn) 8 8);
    [reflexivity|discriminate|vm_compute; discriminate|vm_compute; reflexivity|reflexivity|lia|reflexivity
    |vm_compute; discriminate|vm_compute; discriminate|vm_compute; discriminate].
Defined.

Definition version_st : st toy := loop_st (conn0 <| ib := loop_pad (text "SSH-2.0-x" ++ [13; 10]) |> <| ib_len := 11 |>).
Lemma version_line_exact_witness :
  try_version version_st = (ib_consume 11 ;; mret 1) (loop_st (identified (text "SSH-2.0-x") (cn version_st))).
Proof.
  apply (version_line_exact version_st (text "SSH-2.0-x") true (replicate 2037 0)); [reflexivity| |done| |].
  - apply (bool_decide_eq_true_1 (10 ∉ text "SSH-2.0-x")). vm_compute. reflexivity.
  - vm_compute. discriminate.
  - vm_compute. discriminate.
Defined.
