(* ===== verification/SshFault.v ===== *)
(** * Which records make the server read outside its buffers before authentication

    Once the keys of a connection are in place and until its user is
    authenticated, a round of the input loop faults for two record lengths only,
    and for those it does. *)
From Stdlib Require Import ZArith Lia.
From stdpp Require Import base list numbers.
From S2P Require Import Prelude SshWire Crypto SshConn SshKex SshAuth SshChan Ssh SshSafe SshLoop.
Local Open Scope Z_scope.

(** Keys exchanged, user not yet authenticated. *)
Definition before_auth (q : ssh_state) : Prop := q = SSH_ST_EXPECT_SERVICE_REQUEST \/ q = SSH_ST_AUTH.

Section fault.
Context {C : Crypto} {OK : CryptoOk C}.
Implicit Types s : st C.

(** Runs to an end without a fault. *)
Local Abbreviation runs m s := (wp m (fun _ _ => True) s).
Lemma runs_of {A} (m : M (st C) A) Q s : wp m Q s -> runs m s.
Proof. intros H. by eapply wp_mono. Qed.
Lemma fail_runs why s : ob_ok s -> runs (fail why) s.
Proof. intros Ho. by eapply runs_of, fail_wp. Qed.

Lemma global_request_runs pl plen s : ob_ok s -> all_bytes pl -> 0 <= plen <= len pl -> runs (handle_global_request pl plen) s.
Proof.
  intros Ho B Hl. unfold handle_global_request. case_decide as H5; [by apply wp_ret|].
  assert (5 <= plen) as Hp by (change (u16 (1 + 4)) with 5 in H5; lia).
  destruct (rd_u32_spec pl 1 B ltac:(lia) ltac:(lia)) as (v & Ev & _). apply wp_bind, (wp_lift _ v); [done|]. cbv zeta.
  case_decide as Ho2; [|by apply wp_ret]. pose proof (u16_range (1 + u16 (4 + u16 v))) as Hr. unfold is_u16 in Hr.
  destruct (rd_is_Some pl (u16 (1 + u16 (4 + u16 v)))) as [b Eb]; [lia|]. apply wp_bind, (wp_lift _ b); [done|].
  destruct (bool_decide (b <> 0)); [|by apply wp_ret]. eapply runs_of, send_packet_wp; [done|cbn; lia].
Qed.
Lemma service_request_runs pl plen s : ob_ok s -> all_bytes pl -> 0 <= plen <= len pl -> plen < 65536 -> runs (handle_service_request pl plen) s.
Proof.
  intros Ho B Hl Hu. unfold handle_service_request. case_decide; [by apply fail_runs|].
  destruct (rd_u32_spec pl 1 B ltac:(lia) ltac:(lia)) as (v & Ev & _). apply wp_bind, (wp_lift _ v); [done|]. cbv zeta.
  pose proof (u16_range v) as Hr. unfold is_u16 in Hr. case_decide as Hb; [by apply fail_runs|].
  assert (u16 v < 64 /\ 1 + 4 + u16 v <= plen) as [H1 H2].
  { assert (~ u16 v >= 64) as H64 by tauto. split; [lia|]. rewrite u16_id in Hb by (unfold is_u16; lia). lia. }
  destruct (rd_bytes_is_Some pl 5 (u16 v)) as [name En]; [lia..|]. apply wp_bind, (wp_lift _ name); [done|].
  apply rd_bytes_Some in En as (_ & _ & _ & Ln & _). do 2 apply wp_bind, wp_cset. apply wp_bind, wp_fits.
  { cbn [app length]. unfold put_str, put_u32, be32. rewrite length_app. cbn [length]. lia. }
  apply wp_bind. eapply wp_mono; [apply send_packet_wp; [exact Ho|]|].
  { cbn [app length]. unfold put_str, put_u32, be32. rewrite length_app. cbn [length]. lia. }
  cbn beta. intros _ s' _. by apply wp_cset.
Qed.
Lemma packet_runs pl plen s :
  ssh_wf s -> gate (cn s) -> before_auth (state (cn s)) -> all_bytes pl -> 0 <= plen <= len pl -> plen <= 2048 -> runs (handle_packet pl plen) s.
Proof.
  intros W G P B Hl H2. pose proof (sw_ob _ W) as Ho. unfold handle_packet. apply wp_bind.
  apply (wp_mono _ (fun _ s' => s' = s)).
  { destruct (decide (plen = 0)); [by apply wp_ret|]. destruct (rd_is_Some pl 0) as [b Eb]; [lia|]. by apply (wp_lift _ b). }
  intros msg s' ->. case_decide; [by apply wp_cset|]. case_decide; [by apply wp_ret|]. case_decide; [by apply global_request_runs|].
  apply wp_bind, wp_cget, wp_bind, wp_cget. destruct P as [E|E]; rewrite E.
  - case_decide; [by apply fail_runs|]. apply service_request_runs; [done..|lia].
  - case_decide; [|by apply wp_ret]. eapply runs_of, handle_userauth_wp; [|done|lia|lia].
    pose proof (gt_fails _ G) as Hf. destruct W. constructor; try done. unfold SSH_MAX_AUTH_TRIES in Hf. lia.
Qed.
Lemma deliver_runs pkt_len need s :
  ssh_wf s -> gate (cn s) -> before_auth (state (cn s)) -> 8 <= pkt_len <= 2028 -> runs (deliver pkt_len need) s.
Proof.
  intros W G P Hn. unfold deliver. apply wp_bind, wp_cget. pose proof (sw_ib _ W) as L. unfold SSH_IB_SZ in L.
  destruct (rd_is_Some (ib (cn s)) 4) as [p Ep]; [lia|]. pose proof (rd_byte _ _ _ (sw_bytes _ W) Ep) as Bp. unfold is_byte in Bp.
  apply wp_bind, (wp_lift _ p); [done|]. case_decide.
  { apply wp_bind. eapply wp_mono; [apply fail_runs, W|]. cbn beta. intros _ s' _. by apply wp_ret. }
  apply wp_bind. eapply wp_mono; [apply packet_runs; try done|].
  - apply ptr_bytes, W.
  - rewrite len_ptr by lia. lia.
  - lia.
  - cbn beta. intros _ s' _. apply wp_bind. unfold ib_consume. apply wp_bind, wp_cget.
    assert (forall s1, runs (seq ← cget recv_seq; cset recv_seq (u32 (seq + 1)) ;; mret 1) s1) as Hend.
    { intros s1. apply wp_bind, wp_cget, wp_bind, wp_cset. by apply wp_ret. }
    case_decide; [by apply wp_cset|]. apply wp_bind, wp_cget, wp_bind, wp_cset. by apply wp_cset.
Qed.

(** The length field of the next record, as the code decrypts and cuts it. *)
Definition next_length (c : ssh_conn) : option Z :=
  u16 <$> rd_u32 (dossh_chacha20_djb (Some (take 4 (ib c))) 4 (drop 32 (ek_c2s c)) (seqbuf8 (recv_seq c)) 0) 0.
(** [4 + len + 16] wraps to at most [have], and the length is a multiple of 8. *)
Definition wraps (have n : Z) : Prop := n = 65520 \/ n = 65528 /\ 12 <= have.
#[local] Instance wraps_dec have n : Decision (wraps have n).
Proof. unfold wraps. apply _. Defined.

Lemma next_length_some s : exists v, rd_u32 (dossh_chacha20_djb (Some (take 4 (ib (cn s)))) 4 (drop 32 (ek_c2s (cn s))) (seqbuf8 (recv_seq (cn s))) 0) 0 = Some v
  /\ next_length (cn s) = Some (u16 v).
Proof.
  unfold next_length. set (b := dossh_chacha20_djb _ _ _ _ _).
  assert (len b = 4) as L by (apply chacha20_length; lia).
  destruct (rd_u32_spec b 0 (chacha20_bytes _ _ _ _ _) ltac:(lia) ltac:(lia)) as (v & E & _). exists v. by rewrite E.
Qed.
(** The test of the code, in the arithmetic of the machine. *)
Lemma length_test n : is_u16 n -> ~ (n < 8 \/ n mod 8 <> 0 \/ u16 (4 + n + 16) > SSH_IB_SZ) ->
  (8 <= n <= 2028 /\ u16 (4 + n + 16) = 4 + n + 16) \/ (n = 65520 /\ u16 (4 + n + 16) = 4) \/ (n = 65528 /\ u16 (4 + n + 16) = 12).
Proof.
  unfold is_u16, SSH_IB_SZ, u16. intros Hn Ht. destruct (decide (4 + n + 16 < 65536)) as [Hs|Hs].
  - assert ((4 + n + 16) mod 65536 = 4 + n + 16) as E by (apply Z.mod_small; lia). rewrite E in *. left. assert (~ n < 8 /\ ~ 4 + n + 16 > 2048) as [] by tauto. lia.
  - assert ((4 + n + 16) mod 65536 = n - 65516) as E by (symmetry; apply (Z.mod_unique _ _ 1); lia). rewrite E in *. right.
    assert (n mod 8 = 0) as H8 by (destruct (decide (n mod 8 = 0)); [done|tauto]). Z.div_mod_to_equations. lia.
Qed.
Lemma first_four s : ssh_wf s -> rd_bytes (ib (cn s)) 0 4 = Some (take 4 (ib (cn s))).
Proof. intros W. pose proof (sw_ib _ W) as L. unfold SSH_IB_SZ in L. unfold rd_bytes. by rewrite decide_True by lia. Qed.

Lemma sealed_runs s n :
  ssh_wf s -> gate (cn s) -> before_auth (state (cn s)) -> next_length (cn s) = Some n -> ~ (4 <= ib_len (cn s) /\ wraps (ib_len (cn s)) n) ->
  runs try_sealed s.
Proof.
  intros W G P Hn Hw. unfold try_sealed. destruct (next_length_some s) as (v & Ev & En). assert (u16 v = n) as Eu by congruence.
  apply wp_bind, wp_cget. case_decide as H4; [by apply wp_ret|]. do 3 apply wp_bind, wp_cget. cbv zeta.
  apply wp_bind, (wp_lift _ _ _ _ (first_four s W)), wp_bind, (wp_lift _ v); [exact Ev|]. cbv zeta. rewrite Eu.
  pose proof (u16_range v) as Rn. rewrite Eu in Rn. pose proof (sw_len _ W) as Hl. pose proof (sw_ib _ W) as L. unfold SSH_IB_SZ in Hl, L.
  case_decide as Hc.
  { apply wp_bind. eapply wp_mono; [apply fail_runs, W|]. cbn beta. intros _ s' _. by apply wp_ret. }
  destruct (length_test n Rn Hc) as [[H1 E1]|[[-> E1]|[-> E1]]]; rewrite E1.
  - case_decide as Hneed; [by apply wp_ret|]. rewrite (u16_id (4 + n)) by (unfold is_u16; lia).
    destruct (rd_bytes_is_Some (ib (cn s)) 0 (4 + n)) as [au Eau]; [lia..|]. apply wp_bind, (wp_lift _ au); [done|].
    destruct (rd_bytes_is_Some (ib (cn s)) (4 + n) 16) as [tag Etag]; [lia..|]. apply wp_bind, (wp_lift _ tag); [done|]. case_decide.
    { apply wp_bind. eapply wp_mono; [apply fail_runs, W|]. cbn beta. intros _ s' _. by apply wp_ret. }
    destruct (rd_bytes_is_Some (ib (cn s)) 4 n) as [body Ebody]; [lia..|]. apply wp_bind, (wp_lift _ body); [done|].
    apply wp_bind, wp_cset. apply deliver_runs; [apply decrypted_wf; [done|lia|lia]| |done|lia]. by destruct G.
  - destruct Hw. split; [lia|by left].
  - case_decide; [by apply wp_ret|]. destruct Hw. split; [lia|]. right. split; [done|lia].
Qed.
Lemma sealed_faults s n :
  ssh_wf s -> next_length (cn s) = Some n -> 4 <= ib_len (cn s) -> wraps (ib_len (cn s)) n -> try_sealed s = None.
Proof.
  intros W Hn H4 Hw. destruct (next_length_some s) as (v & Ev & En). assert (u16 v = n) as Eu by congruence.
  pose proof (sw_ib _ W) as L. unfold SSH_IB_SZ in L.
  unfold try_sealed, mbind at 1, M_bind at 1, cget at 1, gets at 1. rewrite decide_False by lia.
  do 3 (unfold mbind at 1, M_bind at 1, cget at 1, gets at 1). unfold mbind at 1, M_bind at 1.
  rewrite first_four by done. cbn [lift]. unfold mbind at 1, M_bind at 1. rewrite Ev. cbn [lift]. rewrite Eu.
  assert (forall m, 65520 <= m < 65532 -> rd_bytes (ib (cn s)) 0 m = None) as Hnone.
  { intros m Hm. unfold rd_bytes. by rewrite decide_False by lia. }
  destruct Hw as [->|[-> H12]]; rewrite decide_False by (vm_compute; intros [|[|]]; done).
  - change (u16 (4 + 65520 + 16)) with 4. rewrite decide_False by lia. change (u16 (4 + 65520)) with 65524.
    unfold mbind at 1, M_bind at 1. by rewrite Hnone by lia.
  - change (u16 (4 + 65528 + 16)) with 12. rewrite decide_False by lia. change (u16 (4 + 65528)) with 65532.
    unfold mbind at 1, M_bind at 1. unfold rd_bytes at 1. by rewrite decide_False by lia.
Qed.
Lemma step_sealed s : gate (cn s) -> before_auth (state (cn s)) -> input_step s = None <-> try_sealed s = None.
Proof.
  intros G P. unfold input_step, try_packet, mbind, M_bind, cget, gets.
  rewrite decide_False by (unfold finished; destruct P as [-> | ->]; intros [|]; done).
  rewrite decide_False by (destruct P as [-> | ->]; done).
  rewrite (sealed_phase_recv _ G) by (unfold sealed_phase, before_auth in *; tauto). by destruct (try_sealed s) as [[r s']|].
Qed.
End fault.

(** C28: The only records that make the server read outside its buffers between the
    key exchange and authentication.  In a state of the invariant, whatever bytes
    are buffered, a round of the input loop faults if and only if the length field
    of the next record decrypts to 65520, or to 65528 with at least 12 bytes
    buffered: then [4 + len + 16] wraps in 16 bits, the size check passes and the
    tag is computed over 64 KB that start in a 2048-byte buffer.  All other
    records, and the handlers behind them, stay inside the buffers. *)
Theorem fault_iff_length_wraps {C : Crypto} {OK : CryptoOk C} (s : st C) :
  ssh_wf s -> gate (cn s) -> before_auth (state (cn s)) ->
  input_step s = None <-> 4 <= ib_len (cn s) /\ exists n, next_length (cn s) = Some n /\ wraps (ib_len (cn s)) n.
Proof.
  intros W G P. rewrite step_sealed by done. destruct (next_length_some s) as (v & _ & En). split.
  - intros E. destruct (decide (4 <= ib_len (cn s) /\ wraps (ib_len (cn s)) (u16 v))) as [[H4 Hw]|Hw]; [split; [done|eauto]|].
    pose proof (sealed_runs s _ W G P En Hw) as H. unfold wp in H. by rewrite E in H.
  - intros [H4 (n & Hn & Hw)]. by eapply sealed_faults.
Qed.

(** A record whose length field decrypts to 65520. *)
Definition wrap_st : st toy :=
  loop_st ((cn sealed_st) <| ib := loop_pad (dossh_chacha20_djb (Crypto := toy) (Some (put_u32 65520)) 4
                                     (drop 32 (ek_c2s (cn sealed_st))) (seqbuf8 (recv_seq (cn sealed_st))) 0) |> <| ib_len := 4 |>).
Lemma wrap_st_wf : ssh_wf wrap_st.
Proof.
  assert (len (ib (cn wrap_st)) = SSH_IB_SZ) as H1 by (vm_compute; reflexivity).
  assert (all_bytes (ib (cn wrap_st))) as H2 by (apply bytes_dec_iff; vm_compute; reflexivity).
  assert (0 <= ib_len (cn wrap_st) <= SSH_IB_SZ) as H3 by (vm_compute; split; discriminate).
  destruct sealed_st_wf as [_ _ _ W4 W5 W6 W7 W8].
  exact (Build_ssh_wf _ wrap_st H1 H2 H3 W4 W5 W6 W7 W8).
Qed.
Lemma fault_iff_length_wraps_witness : input_step wrap_st = None /\ next_length (C := toy) (cn wrap_st) = Some 65520.
Proof.
  assert (next_length (C := toy) (cn wrap_st) = Some 65520) as E by (vm_compute; reflexivity). split; [|exact E].
  apply (fault_iff_length_wraps (OK := toy_ok) wrap_st wrap_st_wf); [destruct sealed_st_gate; by constructor|left; reflexivity|].
  split; [discriminate|]. exists 65520. split; [exact E|left; reflexivity].
Defined.
