(* ===== verification/NetSum.v ===== *)
(** * Byte order and the Internet checksum (src/dosshd/net.c)

    [rd16], [rd32], [wr16], [wr32], [sum16] and [fin16], with the arithmetic of
    the one's-complement checksum (RFC 1071): a block whose checksum field holds
    [fin16] of the rest verifies. *)
From Stdlib Require Import ZArith Lia.
From stdpp Require Import base list numbers.
From S2P Require Import Prelude SshWire.
Local Open Scope Z_scope.

(** [rd16(p + o)] and [rd32(p + o)] *)
Definition rd16 (p : list Z) (o : Z) : option Z :=
  a ← rd p o; b ← rd p (o + 1); Some (un_be16 a b).
Definition rd32 (p : list Z) (o : Z) : option Z :=
  a ← rd p o; b ← rd p (o + 1); c ← rd p (o + 2); d ← rd p (o + 3); Some (un_be32 a b c d).
(** [wr16] and [wr32]: the bytes stored. *)
Definition wr16 (v : Z) : list Z := be16 v.
Definition wr32 (v : Z) : list Z := be32 v.

(** [sum16] over the bytes of a buffer, in a 32-bit accumulator. *)
Fixpoint sum16 (p : list Z) (sum : Z) : Z :=
  match p with
  | a :: b :: p => sum16 p (u32 (sum + un_be16 a b))
  | [a] => u32 (sum + Z.shiftl a 8)
  | [] => sum
  end.

(** The loop of [fin16]; two rounds are enough for a 32-bit sum. *)
Fixpoint fold16 (fuel : nat) (sum : Z) : Z :=
  match fuel with
  | O => sum
  | S fuel =>
      if decide (Z.shiftr sum 16 = 0) then sum
      else fold16 fuel (Z.land sum 65535 + Z.shiftr sum 16)
  end.
Definition fin16 (sum : Z) : Z := Z.land (Z.lnot (fold16 3 sum)) 65535.

(** ** The checksum *)

(** The sum of a buffer as big-endian 16-bit words. *)
Fixpoint words (p : list Z) : Z :=
  match p with
  | a :: b :: p => 256 * a + b + words p
  | [a] => 256 * a
  | [] => 0
  end.

Lemma list_ind2 {A} (P : list A -> Prop) :
  P [] -> (forall a, P [a]) -> (forall a b l, P l -> P (a :: b :: l)) -> forall l, P l.
Proof. intros H0 H1 H2. fix IH 1. intros [|a [|b l]]; [apply H0|apply H1|apply H2, IH]. Qed.

Lemma words_range p : all_bytes p -> 0 <= words p <= 65535 * (len p + 1) / 2.
Proof.
  induction p as [|a|a b p IH] using list_ind2; intros Hp; cbn [words length].
  - done.
  - apply Forall_cons in Hp as [Ha _]. unfold is_byte in Ha. Z.div_mod_to_equations. lia.
  - apply Forall_cons in Hp as [Ha Hp]. apply Forall_cons in Hp as [Hb Hp]. specialize (IH Hp).
    unfold is_byte in *. Z.div_mod_to_equations. lia.
Qed.

Lemma sum16_words p : forall sum,
  all_bytes p -> 0 <= sum -> sum + words p < 2 ^ 32 -> sum16 p sum = sum + words p.
Proof.
  change (2 ^ 32) with 4294967296.
  induction p as [|a|a b p IH] using list_ind2; intros sum Hp Hs Hw; cbn [sum16 words] in *.
  - lia.
  - apply Forall_cons in Hp as [Ha _]. unfold is_byte in Ha. rewrite Z.shiftl_mul_pow2 by lia. change (2 ^ 8) with 256.
    rewrite u32_id by (unfold is_u32; lia). lia.
  - apply Forall_cons in Hp as [Ha Hp]. apply Forall_cons in Hp as [Hb Hp]. rewrite un_be16_sum by done.
    pose proof (words_range p Hp). unfold is_byte in *. rewrite u32_id by (unfold is_u32; lia).
    rewrite IH by (done || lia). lia.
Qed.

Lemma words_app p q : Z.even (len p) = true -> words (p ++ q) = words p + words q.
Proof.
  induction p as [|a|a b p IH] using list_ind2; intros He; cbn [app words]; [done|done|].
  rewrite IH; [lia|]. rewrite <- He. cbn [length]. rewrite !Nat2Z.inj_succ, !Z.even_succ, <- Z.negb_even.
  rewrite Z.even_succ, <- Z.negb_even. by rewrite negb_involutive.
Qed.

(** One fold preserves the residue modulo 65535 and, on non-zero sums, does not
    reach zero. *)
Lemma fold_once s : 0 <= s -> Z.land s 65535 + Z.shiftr s 16 = s mod 65536 + s / 65536.
Proof. intros. change 65535 with (Z.ones 16). rewrite Z.land_ones, Z.shiftr_div_pow2 by lia. done. Qed.

Lemma fold16_spec s :
  0 <= s < 2 ^ 32 ->
  0 <= fold16 3 s < 65536 /\ fold16 3 s mod 65535 = s mod 65535 /\ (0 < s -> 0 < fold16 3 s).
Proof.
  change (2 ^ 32) with 4294967296. intros Hs. unfold fold16.
  assert (forall x, 0 <= x -> Z.shiftr x 16 = 0 -> x < 65536) as Hsmall.
  { intros x Hx E. rewrite Z.shiftr_div_pow2 in E by lia. change (2 ^ 16) with 65536 in E. Z.div_mod_to_equations. lia. }
  case_decide as E1; [apply Hsmall in E1; lia|]. rewrite (fold_once s) by lia. set (s1 := s mod 65536 + s / 65536).
  assert (0 <= s1 <= 131070 /\ s1 mod 65535 = s mod 65535 /\ (0 < s -> 0 < s1)) as (R1 & M1 & P1).
  { unfold s1. split_and!; [Z.div_mod_to_equations; lia..| |Z.div_mod_to_equations; lia].
    rewrite (Z.div_mod s 65536) at 3 by lia. rewrite <- (Z.mod_add (s mod 65536 + s / 65536) (s / 65536) 65535) by lia.
    f_equal. lia. }
  clearbody s1. case_decide as E2; [apply Hsmall in E2; lia|]. rewrite (fold_once s1) by lia.
  set (s2 := s1 mod 65536 + s1 / 65536).
  assert (0 <= s2 < 65536 /\ s2 mod 65535 = s1 mod 65535 /\ (0 < s1 -> 0 < s2)) as (R2 & M2 & P2).
  { unfold s2. split_and!; [Z.div_mod_to_equations; lia..| |Z.div_mod_to_equations; lia].
    rewrite (Z.div_mod s1 65536) at 3 by lia. rewrite <- (Z.mod_add (s1 mod 65536 + s1 / 65536) (s1 / 65536) 65535) by lia.
    f_equal. lia. }
  clearbody s2. case_decide as E3; [split_and!; [lia|lia|congruence|auto]|].
  exfalso. apply E3. rewrite Z.shiftr_div_pow2 by lia. apply Z.div_small. done.
Qed.

Lemma fin16_spec s : 0 <= s < 2 ^ 32 -> fin16 s = 65535 - fold16 3 s.
Proof.
  intros Hs. destruct (fold16_spec s Hs) as [R _]. unfold fin16. generalize dependent (fold16 3 s). intros x R.
  change 65535 with (Z.ones 16). rewrite Z.land_ones by lia. unfold Z.lnot. change (Z.ones 16) with 65535.
  change (2 ^ 16) with 65536. Z.div_mod_to_equations. lia.
Qed.

Lemma fin16_range s : 0 <= s < 2 ^ 32 -> is_u16 (fin16 s).
Proof. intros Hs. rewrite fin16_spec by done. destruct (fold16_spec s Hs) as [R _]. unfold is_u16. lia. Qed.

(** A sum to which its own checksum is added folds to all ones, the value a
    receiver accepts. *)
Lemma checksum_verifies s :
  0 < s -> s + 65535 < 2 ^ 32 -> fin16 (s + fin16 s) = 0.
Proof.
  intros Hs Hb. destruct (fold16_spec s) as (R & Mo & P); [lia|].
  assert (fin16 s = 65535 - fold16 3 s) as E by (apply fin16_spec; lia).
  destruct (fold16_spec (s + fin16 s)) as (R' & M' & P'); [lia|]. rewrite fin16_spec by lia.
  assert (fold16 3 (s + fin16 s) mod 65535 = 0) as Z0.
  { rewrite M', E. replace (s + (65535 - fold16 3 s)) with (s - fold16 3 s + 1 * 65535) by lia.
    rewrite Z.mod_add by lia. rewrite Zminus_mod, Mo, Z.sub_diag. done. }
  specialize (P' ltac:(lia)). Z.div_mod_to_equations. lia.
Qed.

(** The checksum of a block verifies (RFC 1071): its words add up to a multiple of
    65535, and not to zero. *)
Definition checksum_ok (p : list Z) : Prop := 0 < words p /\ words p mod 65535 = 0.
Lemma fin16_accepts x : 0 < x < 2 ^ 32 -> fin16 x = 0 -> x mod 65535 = 0.
Proof. intros H E. rewrite fin16_spec in E by lia. destruct (fold16_spec x) as (R & Mo & P); [lia|]. rewrite <- Mo. replace (fold16 3 x) with 65535 by lia. done. Qed.
