(* ===== verification/Net.v ===== *)
(** * The TCP/IP stack (src/dosshd/net.c)

    ARP replies, one listening TCP port, [NCONN] connection slots with their send
    and receive rings, retransmission, and the byte-stream interface.  The packet
    driver is the list [tx] of the frames handed to it and the frame [rx] its
    receiver has stored; the BIOS tick counter is the field [tick]. *)
From Stdlib Require Import ZArith Lia.
From stdpp Require Import base list numbers.
From S2P Require Import Prelude SshWire NetSum.
Local Open Scope Z_scope.

(** ** State *)

Definition TS_LISTEN : Z := 0.
Definition TS_SYNRCVD : Z := 1.
Definition TS_ESTAB : Z := 2.
Definition SND_SZ : Z := 4096.
Definition SND_MASK : Z := 4095.
Definition RCV_SZ : Z := 512.
Definition RCV_MASK : Z := 511.
Definition MSS_TX : Z := 1400.
Definition REXMIT_TICKS : Z := 9.
Definition MAX_REXMIT : Z := 24.
Definition ETH_HLEN : Z := 14.
Definition IP_OFF : Z := 14.
Definition ET_ARP : Z := 0x0806.
Definition ET_IP : Z := 0x0800.
Definition IPP_TCP : Z := 6.

(** [struct conn] *)
Record conn := TcpConn {
  tstate : Z;
  peer_mac : list Z;
  peer_ip : list Z;
  peer_port : Z;
  snd_una : Z;
  snd_nxt : Z;
  rcv_nxt : Z;
  sbuf : list Z;
  s_una : Z;
  s_nxt : Z;
  s_end : Z;
  rbuf : list Z;
  r_head : Z;
  r_tail : Z;
  rexmit_at : Z;
  rexmit_count : Z;
  just_estab : bool;
  ready : bool;
}.
#[export] Instance conn_eta : Eta conn := fun r => TcpConn (tstate r) (peer_mac r) (peer_ip r)
    (peer_port r) (snd_una r) (snd_nxt r) (rcv_nxt r) (sbuf r) (s_una r) (s_nxt r) (s_end r) (rbuf r)
    (r_head r) (r_tail r) (rexmit_at r) (rexmit_count r) (just_estab r) (ready r).
#[export] Instance upd_tstate : Upd tstate := ltac:(derive_upd tstate).
#[export] Instance upd_peer_mac : Upd peer_mac := ltac:(derive_upd peer_mac).
#[export] Instance upd_peer_ip : Upd peer_ip := ltac:(derive_upd peer_ip).
#[export] Instance upd_peer_port : Upd peer_port := ltac:(derive_upd peer_port).
#[export] Instance upd_snd_una : Upd snd_una := ltac:(derive_upd snd_una).
#[export] Instance upd_snd_nxt : Upd snd_nxt := ltac:(derive_upd snd_nxt).
#[export] Instance upd_rcv_nxt : Upd rcv_nxt := ltac:(derive_upd rcv_nxt).
#[export] Instance upd_sbuf : Upd sbuf := ltac:(derive_upd sbuf).
#[export] Instance upd_s_una : Upd s_una := ltac:(derive_upd s_una).
#[export] Instance upd_s_nxt : Upd s_nxt := ltac:(derive_upd s_nxt).
#[export] Instance upd_s_end : Upd s_end := ltac:(derive_upd s_end).
#[export] Instance upd_rbuf : Upd rbuf := ltac:(derive_upd rbuf).
#[export] Instance upd_r_head : Upd r_head := ltac:(derive_upd r_head).
#[export] Instance upd_r_tail : Upd r_tail := ltac:(derive_upd r_tail).
#[export] Instance upd_rexmit_at : Upd rexmit_at := ltac:(derive_upd rexmit_at).
#[export] Instance upd_rexmit_count : Upd rexmit_count := ltac:(derive_upd rexmit_count).
#[export] Instance upd_just_estab : Upd just_estab := ltac:(derive_upd just_estab).
#[export] Instance upd_ready : Upd ready := ltac:(derive_upd ready).

(** The statics of net.c, the tick counter and the packet driver.  [work] is the
    static buffer of [net_poll], which keeps its old contents behind a frame. *)
Record net := Net {
  g_mac : list Z;
  g_ip : list Z;
  g_rx_frames : Z;
  g_arp_replies : Z;
  g_tcp_segs : Z;
  my_port : Z;
  g_ip_id : Z;
  sending : bool;
  conns : list conn;
  work : list Z;
  tick : Z;
  rx : option (list Z);  (* pkt_stage[0..pkt_len) while pkt_flag is set *)
  tx : list (list Z);
}.
#[export] Instance net_eta : Eta net := fun r => Net (g_mac r) (g_ip r) (g_rx_frames r) (g_arp_replies r)
    (g_tcp_segs r) (my_port r) (g_ip_id r) (sending r) (conns r) (work r) (tick r) (rx r) (tx r).
#[export] Instance upd_g_mac : Upd g_mac := ltac:(derive_upd g_mac).
#[export] Instance upd_g_ip : Upd g_ip := ltac:(derive_upd g_ip).
#[export] Instance upd_g_rx_frames : Upd g_rx_frames := ltac:(derive_upd g_rx_frames).
#[export] Instance upd_g_arp_replies : Upd g_arp_replies := ltac:(derive_upd g_arp_replies).
#[export] Instance upd_g_tcp_segs : Upd g_tcp_segs := ltac:(derive_upd g_tcp_segs).
#[export] Instance upd_my_port : Upd my_port := ltac:(derive_upd my_port).
#[export] Instance upd_g_ip_id : Upd g_ip_id := ltac:(derive_upd g_ip_id).
#[export] Instance upd_sending : Upd sending := ltac:(derive_upd sending).
#[export] Instance upd_conns : Upd conns := ltac:(derive_upd conns).
#[export] Instance upd_work : Upd work := ltac:(derive_upd work).
#[export] Instance upd_tick : Upd tick := ltac:(derive_upd tick).
#[export] Instance upd_rx : Upd rx := ltac:(derive_upd rx).
#[export] Instance upd_tx : Upd tx := ltac:(derive_upd tx).

(** [conns[i]], and an assignment to it. *)
Definition the_conn (i : nat) : M net conn :=
  fun s => match conns s !! i with Some c => Some (c, s) | None => None end.
Definition set_conn (i : nat) (f : conn -> conn) : M net unit :=
  modify (fun s => s <| conns := alter f i (conns s) |>).
Definition nset {T} (f : net -> T) `{!Upd f} (v : T) : M net unit := modify (fun s => s <| f := v |>).

(** The loops over the slots: [for( i = 0; i < NCONN; i++ )]. *)
Fixpoint for_slots (n : nat) (i : nat) (body : nat -> M net unit) : M net unit :=
  match n with O => mret tt | S n => body i ;; for_slots n (S i) body end.
Definition each_slot (body : nat -> M net unit) : M net unit :=
  n ← gets (fun s => length (conns s)); for_slots n 0 body.
(** The searches: the first slot that satisfies a test. *)
Fixpoint first_slot (test : conn -> bool) (i : nat) (cs : list conn) : option nat :=
  match cs with [] => None | c :: cs => if test c then Some i else first_slot test (S i) cs end.

(** ** Transmit *)

(** The frame is the first [len] bytes of [g_txbuf]; a call during a send drops it. *)
Definition pkt_send (frame : list Z) : M net unit :=
  busy ← gets sending;
  if (busy : bool) then mret tt
  else
    nset sending true ;;
    frames ← gets tx;
    nset tx (frames ++ [frame]) ;;
    nset sending false.

(** The IP header with checksum field [ck]. *)
Definition ip_header (tot id proto ck : Z) (src dst : list Z) : list Z :=
  [0x45; 0x00] ++ wr16 tot ++ wr16 id ++ wr16 0x4000 ++ [64; proto] ++ wr16 ck ++ src ++ dst.

Definition ip_send (proto : Z) (dstmac dstip l4 : list Z) : M net unit :=
  let tot := u16 (20 + len l4) in
  id ← gets g_ip_id;
  nset g_ip_id (u16 (id + 1)) ;;
  mac ← gets g_mac; ip ← gets g_ip;
  let id := u16 (id + 1) in
  let ck := fin16 (sum16 (ip_header tot id proto 0 ip dstip) 0) in
  frame ← fits 1600 (dstmac ++ mac ++ wr16 ET_IP ++ ip_header tot id proto ck ip dstip ++ l4);
  pkt_send frame.

(** [memcmp( p + o, x, len x ) == 0] *)
Definition mem_is (p : list Z) (o : Z) (x : list Z) : option bool := rd_is p o x.

Definition arp_in (f : list Z) (n : Z) : M net unit :=
  let a := ptr f ETH_HLEN in
  if decide (n < ETH_HLEN + 28) then mret tt
  else
    ip ← gets g_ip; mac ← gets g_mac;
    htype ← lift (rd16 a 0); ptype ← lift (rd16 a 2); op ← lift (rd16 a 6);
    if decide (htype <> 0x0001) then mret tt
    else if decide (ptype <> ET_IP) then mret tt
    else if decide (op <> 0x0001) then mret tt
    else
      us ← lift (mem_is a 24 ip);
      if negb us then mret tt
      else
        (* reply = a[0..28), then the fields that change *)
        fixed ← lift (rd_bytes a 0 6);
        them_mac ← lift (rd_bytes a 8 6);
        them_ip ← lift (rd_bytes a 14 4);
        pkt_send (them_mac ++ mac ++ wr16 ET_ARP
                  ++ fixed ++ wr16 0x0002 ++ mac ++ ip ++ them_mac ++ them_ip) ;;
        k ← gets g_arp_replies;
        nset g_arp_replies (u32 (k + 1)).

(** ** TCP *)

Definition ticks : M net Z := gets tick.

(** A connection after [tcp_reset_listen]. *)
Definition reset_listen (c : conn) : conn :=
  c <| tstate := TS_LISTEN |> <| s_una := 0 |> <| s_nxt := 0 |> <| s_end := 0 |>
    <| r_head := 0 |> <| r_tail := 0 |> <| rexmit_count := 0 |> <| ready := false |>.
Definition tcp_reset_listen (i : nat) : M net unit := set_conn i reset_listen.

(** The [n] bytes of a ring of [mask + 1] cells from index [o]. *)
Definition ring_read (buf : list Z) (mask o n : Z) : option (list Z) :=
  mapM (fun i => rd buf (Z.land (u16 (o + i)) mask)) (seqZ 0 n).

(** The segment without its checksum: the 16 bytes before it and what follows it. *)
Definition seg_head (port peer seq ack hlen flags window : Z) : list Z :=
  wr16 port ++ wr16 peer ++ wr32 seq ++ wr32 ack ++ [u8 (Z.shiftl (hlen / 4) 4); flags] ++ wr16 window.
Definition seg_tail (with_mss : bool) (payload : list Z) : list Z :=
  [0; 0] ++ (if with_mss then [0x02; 0x04] ++ wr16 MSS_TX else []) ++ payload.

Definition pseudo_sum (src dst : list Z) (l : Z) : Z :=
  u32 (u32 (sum16 dst (sum16 src 0) + IPP_TCP) + l).

Definition tcp_send_seg (i : nat) (flags : Z) (with_mss : bool) (doff dlen : Z) : M net unit :=
  let hlen := if with_mss then 24 else 20 in
  c ← the_conn i;
  port ← gets my_port; ip ← gets g_ip;
  let window := u16 (RCV_SZ - 1 - Z.land (u16 (r_head c - r_tail c)) RCV_MASK) in
  let hd := seg_head port (peer_port c) (snd_nxt c) (rcv_nxt c) hlen flags window in
  payload ← lift (ring_read (sbuf c) SND_MASK doff dlen);
  let tl := seg_tail with_mss payload in
  seg ← fits (20 + 4 + MSS_TX) (hd ++ wr16 0 ++ tl);
  let sum := sum16 seg (pseudo_sum ip (peer_ip c) (hlen + dlen)) in
  ip_send IPP_TCP (peer_mac c) (peer_ip c) (hd ++ wr16 (fin16 sum) ++ tl) ;;
  k ← gets g_tcp_segs;
  nset g_tcp_segs (u32 (k + 1)).

(** The loop of [tcp_output]; every round sends at least one byte. *)
Fixpoint output_loop (fuel : nat) (i : nat) (unsent : Z) : M net unit :=
  match fuel with
  | O => mret tt
  | S fuel =>
      if decide (unsent = 0) then mret tt
      else
        let n := if decide (unsent > MSS_TX) then MSS_TX else unsent in
        c ← the_conn i;
        tcp_send_seg i 0x18 false (s_nxt c) n ;;
        c ← the_conn i;
        now ← ticks;
        when (bool_decide (snd_una c = snd_nxt c))
          (set_conn i (fun c => c <| rexmit_at := u32 (now + REXMIT_TICKS) |>)) ;;
        set_conn i (fun c => c <| s_nxt := Z.land (u16 (s_nxt c + n)) SND_MASK |>
                               <| snd_nxt := u32 (snd_nxt c + n) |>) ;;
        output_loop fuel i (unsent - n)
  end.
(** At most 4095 bytes are unsent: three segments. *)
Definition tcp_output (i : nat) : M net unit :=
  c ← the_conn i;
  if decide (tstate c <> TS_ESTAB) then mret tt
  else output_loop 3 i (Z.land (u16 (s_end c - s_nxt c)) SND_MASK).

Definition find_conn (sport : Z) (srcip : list Z) : list conn -> option nat :=
  first_slot (fun c => bool_decide (tstate c <> TS_LISTEN) && bool_decide (peer_port c = sport)
                       && bool_decide (peer_ip c = srcip)) 0.

Definition alloc_conn (srcip : list Z) (cs : list conn) : option nat :=
  match first_slot (fun c => bool_decide (tstate c <> TS_LISTEN) && bool_decide (rexmit_count c > 0)
                             && bool_decide (peer_ip c = srcip)) 0 cs with
  | Some i => Some i
  | None =>
      match first_slot (fun c => bool_decide (tstate c = TS_LISTEN)) 0 cs with
      | Some i => Some i
      | None => first_slot (fun c => bool_decide (peer_ip c = srcip)) 0 cs
      end
  end.

Definition send_rst (srcmac srcip : list Z) (sport seq : Z) : M net unit :=
  port ← gets my_port; ip ← gets g_ip;
  let hd := wr16 port ++ wr16 sport ++ wr32 0 ++ wr32 (u32 (seq + 1)) ++ [u8 (Z.shiftl (20 / 4) 4); 0x14] ++ [0; 0] in
  let sum := sum16 (hd ++ wr16 0 ++ [0; 0]) (u32 (sum16 srcip (sum16 ip 0) + (IPP_TCP + 20))) in
  ip_send IPP_TCP srcmac srcip (hd ++ wr16 (fin16 sum) ++ [0; 0]).

(** ** Receive *)

(** What a SYN makes of the slot: [send_rst]'s sibling in [tcp_in]. *)
Definition syn_conn (i : nat) (now seq sport : Z) (mac ip : list Z) (c : conn) : conn :=
  c <| peer_mac := mac |> <| peer_ip := ip |> <| peer_port := sport |>
    <| snd_una := u32 (u32 (0x13700 + now) + Z.of_nat i) |> <| snd_nxt := u32 (u32 (0x13700 + now) + Z.of_nat i) |>
    <| rcv_nxt := u32 (seq + 1) |> <| tstate := TS_SYNRCVD |> <| s_una := 0 |> <| s_nxt := 0 |> <| s_end := 0 |>
    <| r_head := 0 |> <| r_tail := 0 |> <| rexmit_count := 0 |>.

(** The SYN branch of [tcp_in] for a new peer. *)
Definition tcp_syn (srcmac srcip : list Z) (sport seq : Z) : M net unit :=
  cs ← gets conns;
  match alloc_conn srcip cs with
  | None => send_rst srcmac srcip sport seq
  | Some i =>
      now ← ticks;
      set_conn i (syn_conn i now seq sport srcmac srcip) ;;
      tcp_send_seg i 0x12 true 0 0 ;;
      now ← ticks;
      set_conn i (fun c => c <| snd_nxt := u32 (snd_nxt c + 1) |> <| rexmit_at := u32 (now + REXMIT_TICKS) |>)
  end.

(** An acknowledgement of our SYN. *)
Definition establish (ack : Z) (c : conn) : conn :=
  c <| snd_una := ack |> <| tstate := TS_ESTAB |> <| just_estab := true |> <| rexmit_count := 0 |>.

(** The acknowledgement of an established slot: it advances the send window. *)
Definition ack_conn (now ack : Z) (c : conn) : conn :=
  if decide (s32 (ack - snd_una c) > 0 /\ s32 (ack - snd_nxt c) <= 0) then
    let freed := u16 (u32 (ack - snd_una c)) in
    c <| s_una := Z.land (u16 (s_una c + freed)) SND_MASK |> <| snd_una := ack |>
      <| rexmit_at := u32 (now + REXMIT_TICKS) |> <| rexmit_count := 0 |>
  else c.

(** The loop that stores in-order data, [k] bytes to go from [t[o]]; it returns
    [stored]. *)
Fixpoint store_loop (k : nat) (i : nat) (t : list Z) (o stored : Z) : M net Z :=
  match k with
  | O => mret stored
  | S k =>
      c ← the_conn i;
      let nh := Z.land (u16 (r_head c + 1)) RCV_MASK in
      if decide (nh = r_tail c) then mret stored
      else
        b ← lift (rd t o);
        buf ← poke (rbuf c) (r_head c) b;
        set_conn i (fun c => c <| rbuf := buf |> <| r_head := nh |>) ;;
        store_loop k i t (o + 1) (stored + 1)
  end.
Definition tcp_data (i : nat) (t : list Z) (toff dlen seq : Z) : M net unit :=
  if decide (dlen = 0) then mret tt
  else
    c ← the_conn i;
    when (bool_decide (seq = rcv_nxt c))
      (stored ← store_loop (Z.to_nat dlen) i t toff 0;
       set_conn i (fun c => c <| rcv_nxt := u32 (rcv_nxt c + stored) |>)) ;;
    tcp_send_seg i 0x10 false 0 0.

Definition tcp_fin (i : nat) : M net unit :=
  set_conn i (fun c => c <| rcv_nxt := u32 (rcv_nxt c + 1) |>) ;;
  tcp_send_seg i 0x10 false 0 0 ;;
  tcp_reset_listen i.

(** The part of [tcp_in] for an established slot. *)
Definition tcp_estab (i : nat) (t : list Z) (flags toff dlen seq ack : Z) : M net unit :=
  c ← the_conn i;
  if decide (tstate c <> TS_ESTAB) then mret tt
  else
    now ← ticks;
    when (bool_decide (Z.land flags 0x10 <> 0)) (set_conn i (ack_conn now ack)) ;;
    tcp_data i t toff dlen seq ;;
    when (bool_decide (Z.land flags 0x01 <> 0)) (tcp_fin i).

Definition tcp_in (f : list Z) (n : Z) : M net unit :=
  let ip := ptr f IP_OFF in
  b0 ← lift (rd ip 0);
  let ihl := Z.land b0 0x0F * 4 in
  let t := ptr ip ihl in
  tot ← lift (rd16 ip 2);
  let tcplen := u16 (tot - ihl) in
  b12 ← lift (rd t 12);
  let toff := Z.shiftr b12 4 * 4 in
  flags ← lift (rd t 13);
  sport ← lift (rd16 t 0);
  dport ← lift (rd16 t 2);
  seq ← lift (rd32 t 4);
  ack ← lift (rd32 t 8);
  port ← gets my_port;
  if decide (dport <> port) then mret tt
  else if decide (tcplen < toff) then mret tt
  else
    let dlen := tcplen - toff in
    srcip ← lift (rd_bytes ip 12 4);
    cs ← gets conns;
    let c := find_conn sport srcip cs in
    if decide (Z.land flags 0x04 <> 0) then
      match c with Some i => tcp_reset_listen i | None => mret tt end
    else if decide (Z.land flags 0x02 <> 0) then
      match c with
      | Some _ => mret tt
      | None => mac ← lift (rd_bytes f 6 6); tcp_syn mac srcip sport seq
      end
    else
      match c with
      | None => mret tt
      | Some i =>
          k ← the_conn i;
          if decide (tstate k = TS_SYNRCVD) then
            if decide (Z.land flags 0x10 <> 0 /\ ack = snd_nxt k) then
              set_conn i (establish ack) ;; tcp_estab i t flags toff dlen seq ack
            else mret tt
          else tcp_estab i t flags toff dlen seq ack
      end.

(** ** Timer, dispatch and poll *)

Definition tcp_timer (i : nat) : M net unit :=
  c ← the_conn i;
  now ← ticks;
  if decide (tstate c < TS_SYNRCVD) then mret tt
  else if decide (s32 (snd_nxt c - snd_una c) > 0 /\ s32 (now - rexmit_at c) >= 0) then
    set_conn i (fun c => c <| rexmit_count := u16 (rexmit_count c + 1) |>) ;;
    if decide (u16 (rexmit_count c + 1) > MAX_REXMIT) then tcp_reset_listen i
    else
      set_conn i (fun c => c <| s_nxt := s_una c |> <| snd_nxt := snd_una c |>) ;;
      when (bool_decide (tstate c = TS_SYNRCVD)) (tcp_send_seg i 0x12 true 0 0) ;;
      set_conn i (fun c => c <| rexmit_at := u32 (now + REXMIT_TICKS) |>)
  else mret tt.

Definition handle_frame (f : list Z) (n : Z) : M net unit :=
  if decide (n < ETH_HLEN) then mret tt
  else
    et ← lift (rd16 f 12);
    if decide (et = ET_ARP) then arp_in f n
    else if decide (et <> ET_IP) then mret tt
    else if decide (n < IP_OFF + 20) then mret tt
    else
      v ← lift (rd f IP_OFF);
      if decide (Z.shiftr v 4 <> 4) then mret tt
      else
        ip ← gets g_ip;
        us ← lift (mem_is f (IP_OFF + 16) ip);
        if negb us then mret tt
        else
          proto ← lift (rd f (IP_OFF + 9));
          when (bool_decide (proto = IPP_TCP)) (tcp_in f n).

(** The receiver's frame is copied over the front of [work]. *)
Definition net_poll : M net unit :=
  each_slot tcp_timer ;;
  stage ← gets rx;
  match stage with
  | None => skip
  | Some pkt =>
      old ← gets work;
      let flen := Z.min (len pkt) 1600 in
      nset work (take (Z.to_nat flen) pkt ++ drop (Z.to_nat flen) old) ;;
      nset rx None ;;
      k ← gets g_rx_frames;
      nset g_rx_frames (u32 (k + 1)) ;;
      f ← gets work;
      handle_frame f flen
  end ;;
  each_slot tcp_output.

(** ** The byte-stream interface *)

Definition net_connected (cs : list conn) : bool :=
  match first_slot (fun c => bool_decide (tstate c = TS_ESTAB)) 0 cs with Some _ => true | None => false end.
Definition net_slots (s : net) : Z := len (conns s).

(** The index of a new connection, or -1. *)
Definition net_take_new_slot : M net Z :=
  cs ← gets conns;
  match first_slot just_estab 0 cs with
  | Some i => set_conn i (fun c => c <| just_estab := false |>) ;; mret (Z.of_nat i)
  | None => mret (-1)
  end.

Definition s_used (c : conn) : Z := Z.land (u16 (s_end c - s_una c)) SND_MASK.
Definition s_full (c : conn) : bool := bool_decide (s_used c >= SND_SZ - 1).
Definition admitted (c : conn) : bool := bool_decide (tstate c = TS_ESTAB) && ready c.

(** The first loop of [net_tx_putc]: false as soon as a live client is full. *)
Fixpoint putc_room (n i : nat) : M net bool :=
  match n with
  | O => mret true
  | S n =>
      c ← the_conn i;
      if admitted c && s_full c then
        if decide (rexmit_count c > 0) then tcp_reset_listen i ;; putc_room n (S i) else mret false
      else putc_room n (S i)
  end.
(** One byte into the send ring of slot [i]. *)
Definition queue_byte (i : nat) (ch : Z) : M net unit :=
  c ← the_conn i;
  buf ← poke (sbuf c) (s_end c) (u8 ch);
  set_conn i (fun c => c <| sbuf := buf |> <| s_end := Z.land (u16 (s_end c + 1)) SND_MASK |>).
Definition net_tx_putc (ch : Z) : M net Z :=
  n ← gets (fun s => length (conns s));
  ok ← putc_room n 0;
  if (ok : bool) then
    each_slot (fun i => c ← the_conn i; when (admitted c) (queue_byte i ch)) ;; mret 1
  else mret 0.

(** [i >= 0 && i < NCONN] *)
Definition in_slots (i : Z) : M net bool :=
  n ← gets (fun s => len (conns s)); mret (bool_decide (0 <= i < n)).

Definition net_slot_ready (i v : Z) : M net unit :=
  ok ← in_slots i;
  when ok (set_conn (Z.to_nat i) (fun c => c <| ready := bool_decide (v <> 0) |>)).

Definition net_slot_drop (i : Z) : M net unit :=
  ok ← in_slots i;
  if negb ok then mret tt
  else
    c ← the_conn (Z.to_nat i);
    when (bool_decide (tstate c = TS_ESTAB)) (tcp_send_seg (Z.to_nat i) 0x14 false 0 0) ;;
    tcp_reset_listen (Z.to_nat i).

Definition net_tx_putc_slot (i ch : Z) : M net Z :=
  ok ← in_slots i;
  if negb ok then mret 0
  else
    c ← the_conn (Z.to_nat i);
    if s_full c then mret 0 else queue_byte (Z.to_nat i) ch ;; mret 1.

Definition net_tx_flush : M net unit := each_slot tcp_output.

Definition net_slot_connected (i : Z) : M net bool :=
  ok ← in_slots i;
  if negb ok then mret false else c ← the_conn (Z.to_nat i); mret (bool_decide (tstate c = TS_ESTAB)).

Definition net_tx_room_slot (i : Z) : M net Z :=
  ok ← in_slots i;
  if negb ok then mret 0 else c ← the_conn (Z.to_nat i); mret (SND_SZ - 1 - s_used c).

Definition net_slot_stalled (i : Z) : M net bool :=
  ok ← in_slots i;
  if negb ok then mret false
  else
    c ← the_conn (Z.to_nat i);
    if decide (tstate c <> TS_ESTAB) then mret false
    else mret (s_full c && bool_decide (rexmit_count c > 0)).

Definition net_rx_getc (i : Z) : M net Z :=
  ok ← in_slots i;
  if negb ok then mret (-1)
  else
    c ← the_conn (Z.to_nat i);
    if decide (r_tail c = r_head c) then mret (-1)
    else
      ch ← lift (rd (rbuf c) (r_tail c));
      set_conn (Z.to_nat i) (fun c => c <| r_tail := Z.land (u16 (r_tail c + 1)) RCV_MASK |>) ;;
      mret ch.

(** The statics at program start, and the state [net_open] leaves when the packet
    driver answers with the address [mac]. *)
Definition conn0 : conn :=
  TcpConn TS_LISTEN (repeat 0 6) (repeat 0 4) 0 0 0 0 (repeat 0 4096) 0 0 0 (repeat 0 512) 0 0 0 0 false false.
Definition net0 (nconn : nat) : net :=
  Net (repeat 0 6) (repeat 0 4) 0 0 0 0 0 false (repeat conn0 nconn) (repeat 0 1600) 0 None [].
Definition net_open (found : bool) (mac : list Z) (a b c d port : Z) : M net Z :=
  nset g_ip [a; b; c; d] ;;
  nset my_port port ;;
  nset rx None ;;
  each_slot (fun i => tcp_reset_listen i ;; set_conn i (fun c => c <| just_estab := false |>)) ;;
  if found then nset g_mac mac ;; mret 1 else mret 0.
