(* ===== verification/NetInv.v ===== *)
(** * The invariant of the TCP/IP stack (src/dosshd/net.c)

    [conn_wf] ties the indices of a slot's rings to its sequence numbers;
    [net_wf] is the invariant of the statics of net.c.  Every operation runs
    without an access outside its buffers and keeps the invariant, and every
    frame handed to the packet driver carries correct checksums. *)
From Stdlib Require Import ZArith Lia.
From stdpp Require Import base list numbers.
From S2P Require Import Prelude SshWire NetSum Net.
Local Open Scope Z_scope.

Lemma snd_land x : Z.land (u16 x) SND_MASK = x mod 4096.
Proof. unfold SND_MASK. change 4095 with (Z.ones 12). rewrite Z.land_ones by lia. change (2 ^ 12) with 4096. unfold u16. Z.div_mod_to_equations. lia. Qed.
Lemma rcv_land x : Z.land (u16 x) RCV_MASK = x mod 512.
Proof. unfold RCV_MASK. change 511 with (Z.ones 9). rewrite Z.land_ones by lia. change (2 ^ 9) with 512. unfold u16. Z.div_mod_to_equations. lia. Qed.

(** ** Slots *)

(** The bytes in flight, and all the bytes of the send ring. *)
Definition inflight (c : conn) : Z := (s_nxt c - s_una c) mod 4096.
Definition queued (c : conn) : Z := (s_end c - s_una c) mod 4096.

Record conn_wf (c : conn) : Prop := {
  w_state : tstate c = TS_LISTEN \/ tstate c = TS_SYNRCVD \/ tstate c = TS_ESTAB;
  w_mac : len (peer_mac c) = 6 /\ all_bytes (peer_mac c);
  w_ip : len (peer_ip c) = 4 /\ all_bytes (peer_ip c);
  w_port : is_u16 (peer_port c);
  w_sbuf : len (sbuf c) = SND_SZ /\ all_bytes (sbuf c);
  w_rbuf : len (rbuf c) = RCV_SZ /\ all_bytes (rbuf c);
  w_send : 0 <= s_una c < SND_SZ /\ 0 <= s_nxt c < SND_SZ /\ 0 <= s_end c < SND_SZ;
  w_recv : 0 <= r_head c < RCV_SZ /\ 0 <= r_tail c < RCV_SZ;
  w_seq : is_u32 (snd_una c) /\ is_u32 (snd_nxt c) /\ is_u32 (rcv_nxt c) /\ is_u16 (rexmit_count c);
  (* una <= nxt <= end in the ring, and the sequence numbers agree with it *)
  w_order : inflight c <= queued c;
  w_agree : if decide (tstate c = TS_ESTAB) then u32 (snd_nxt c - snd_una c) = inflight c
            else s_nxt c = s_una c
}.

(** The frames of a host with hardware address [mac], address [ip] and TCP port
    [port], byte by byte.  An ARP reply (RFC 826, opcode 2) sends both of its
    addresses to the one that asked; [hl] and [pl] are the length bytes of the
    request, which the code repeats. *)
Definition arp_reply (mac ip f : list Z) : Prop := exists them_mac them_ip hl pl,
  len them_mac = 6 /\ len them_ip = 4 /\
  f = them_mac ++ mac ++ [0x08; 0x06] ++ [0x00; 0x01; 0x08; 0x00; hl; pl; 0x00; 0x02] ++ mac ++ ip ++ them_mac ++ them_ip.
(** A TCP header from [port]: without options, or alone with the maximum segment
    size 1400. *)
Definition tcp_shape (port : Z) (seg : list Z) : Prop :=
  take 2 seg = be16 port /\
  (rd seg 12 = Some 0x50 /\ 20 <= len seg \/ rd seg 12 = Some 0x60 /\ drop 20 seg = [0x02; 0x04] ++ be16 1400).
(** An IPv4 packet (RFC 791) without options or fragments, with a TCP segment. *)
Definition tcp_packet (mac ip : list Z) (port : Z) (f : list Z) : Prop := exists them_mac them_ip id ck seg,
  let hd := [0x45; 0x00] ++ be16 (20 + len seg) ++ be16 id ++ [0x40; 0x00; 64; 6] ++ be16 ck ++ ip ++ them_ip in
  len them_mac = 6 /\ len them_ip = 4 /\ f = them_mac ++ mac ++ [0x08; 0x00] ++ hd ++ seg /\
  checksum_ok hd /\ tcp_shape port seg /\ checksum_ok (ip ++ them_ip ++ [0; 6] ++ be16 (len seg) ++ seg).
(** A frame as it goes on the wire. *)
Definition frame_ok (mac ip : list Z) (port : Z) (f : list Z) : Prop :=
  all_bytes f /\ len f <= 1458 /\ (arp_reply mac ip f \/ tcp_packet mac ip port f).

Record net_wf (s : net) : Prop := {
  w_gmac : len (g_mac s) = 6 /\ all_bytes (g_mac s);
  w_gip : len (g_ip s) = 4 /\ all_bytes (g_ip s);
  w_myport : is_u16 (my_port s);
  w_idle : sending s = false;
  w_tick : is_u32 (tick s);
  w_work : len (work s) = 1600 /\ all_bytes (work s);
  w_rx : match rx s with Some p => all_bytes p | None => True end;
  w_conns : Forall conn_wf (conns s);
  w_tx : Forall (frame_ok (g_mac s) (g_ip s) (my_port s)) (tx s)
}.

(** ** Checksums of what is sent *)

Lemma words_mid p v q : Z.even (len p) = true -> is_u16 v -> words (p ++ wr16 v ++ q) = words p + v + words q.
Proof.
  intros He Hv. rewrite words_app by done. unfold wr16, be16. cbn [app words].
  unfold u8. rewrite Z.shiftr_div_pow2 by lia. change (2 ^ 8) with 256. unfold is_u16 in Hv.
  Z.div_mod_to_equations. lia.
Qed.

Lemma words_le p : all_bytes p -> 0 <= words p <= 32768 * len p + 32768.
Proof. intros Hp. pose proof (words_range p Hp). Z.div_mod_to_equations. lia. Qed.

Lemma wr16_0 : wr16 0 = [0; 0].
Proof. reflexivity. Qed.

(** Writing [fin16] of a block into its zeroed checksum field makes it verify. *)
Lemma checksum_filled p q s :
  Z.even (len p) = true -> all_bytes p -> all_bytes q -> 0 < s -> s <= 4000000 -> len p + len q < 2000 ->
  fin16 (sum16 (p ++ wr16 (fin16 (sum16 (p ++ wr16 0 ++ q) s)) ++ q) s) = 0.
Proof.
  intros He Hp Hq Hs Hm Hl.
  pose proof (words_le p Hp) as Wp. pose proof (words_le q Hq) as Wq.
  assert (forall v, is_u16 v -> sum16 (p ++ wr16 v ++ q) s = s + (words p + words q) + v) as E.
  { intros v Hv. rewrite sum16_words, words_mid; try done; try lia.
    - repeat apply Forall_app_2; try done. apply be16_bytes.
    - rewrite words_mid by done. unfold is_u16 in Hv. change (2 ^ 32) with 4294967296. lia. }
  rewrite (E 0) by (unfold is_u16; lia). rewrite Z.add_0_r.
  rewrite E by (apply fin16_range; change (2 ^ 32) with 4294967296; lia).
  apply checksum_verifies; change (2 ^ 32) with 4294967296; lia.
Qed.
Lemma checksum_filled0 p q :
  Z.even (len p) = true -> all_bytes p -> all_bytes q -> 0 < words p -> len p + len q < 2000 ->
  fin16 (sum16 (p ++ wr16 (fin16 (sum16 (p ++ wr16 0 ++ q) 0)) ++ q) 0) = 0.
Proof.
  intros He Hp Hq H0 Hl.
  pose proof (words_le p Hp) as Wp. pose proof (words_le q Hq) as Wq.
  assert (forall v, is_u16 v -> sum16 (p ++ wr16 v ++ q) 0 = (words p + words q) + v) as E.
  { intros v Hv. rewrite sum16_words, words_mid; try done; try lia.
    - repeat apply Forall_app_2; try done. apply be16_bytes.
    - rewrite words_mid by done. unfold is_u16 in Hv. change (2 ^ 32) with 4294967296. lia. }
  rewrite (E 0) by (unfold is_u16; lia). rewrite Z.add_0_r.
  rewrite E by (apply fin16_range; change (2 ^ 32) with 4294967296; lia).
  apply checksum_verifies; change (2 ^ 32) with 4294967296; lia.
Qed.

Lemma pseudo_range src dst l :
  all_bytes src -> all_bytes dst -> len src = 4 -> len dst = 4 -> 0 <= l <= 2000 ->
  6 <= pseudo_sum src dst l <= 4000000 /\ pseudo_sum src dst l = words src + words dst + 6 + l.
Proof.
  intros Hs Hd Ls Ld Hl. pose proof (words_le src Hs) as Ws. pose proof (words_le dst Hd) as Wd.
  unfold pseudo_sum, IPP_TCP.
  rewrite (sum16_words src) by (try done; change (2 ^ 32) with 4294967296; lia).
  rewrite (sum16_words dst) by (try done; change (2 ^ 32) with 4294967296; lia).
  rewrite (u32_id (_ + 6)) by (unfold is_u32; lia). rewrite u32_id by (unfold is_u32; lia). lia.
Qed.

(** ** Running the code of net.c *)

Lemma wp_the_conn i c Q s : conns s !! i = Some c -> Q c s -> wp (the_conn i) Q s.
Proof. intros E HQ. unfold wp, the_conn. by rewrite E. Qed.
Lemma wp_set_conn i f Q s : Q tt (s <| conns := alter f i (conns s) |>) -> wp (set_conn i f) Q s.
Proof. done. Qed.
Lemma wp_nset {T} (f : net -> T) `{!Upd f} v Q s : Q tt (s <| f := v |>) -> wp (nset f v) Q s.
Proof. done. Qed.
Lemma wp_ticks Q s : Q (tick s) s -> wp ticks Q s.
Proof. done. Qed.

Ltac net_step :=
  lazymatch goal with
  | |- wp (mbind _ _) _ _ => apply wp_bind
  | |- wp (gets _) _ _ => apply wp_gets
  | |- wp ticks _ _ => apply wp_ticks
  | |- wp (nset _ _) _ _ => apply wp_nset
  | |- wp (set_conn _ _) _ _ => apply wp_set_conn
  | |- wp (the_conn _) _ _ => eapply wp_the_conn; [eassumption|]
  | |- wp (mret _) _ _ => apply wp_ret
  | |- wp skip _ _ => apply wp_ret
  | |- wp (when ?b _) _ _ => destruct b eqn:?; cbn [when]
  | |- wp (if decide ?P then _ else _) _ _ => destruct (decide P)
  | |- wp (if ?b then _ else _) _ _ => destruct b eqn:?
  end; cbv beta zeta; fld.
Ltac net_run := repeat net_step.

(** ** Sending *)

(** The driver's view of a sent IP packet. *)
Definition ip_frame (s : net) (dstmac dstip l4 : list Z) : list Z :=
  let id := u16 (g_ip_id s + 1) in
  let tot := u16 (20 + len l4) in
  let ck := fin16 (sum16 (ip_header tot id IPP_TCP 0 (g_ip s) dstip) 0) in
  dstmac ++ g_mac s ++ wr16 ET_IP ++ ip_header tot id IPP_TCP ck (g_ip s) dstip ++ l4.
Definition sent_ip (f : list Z) (s : net) : net :=
  s <| g_ip_id := u16 (g_ip_id s + 1) |> <| tx := tx s ++ [f] |>.

Lemma wp_pkt_send f Q s : sending s = false -> Q tt (s <| tx := tx s ++ [f] |>) -> wp (pkt_send f) Q s.
Proof.
  destruct s. cbn. intros -> HQ. exact HQ.
Qed.

Lemma ip_header_length tot id proto ck src dst : len src = 4 -> len dst = 4 -> len (ip_header tot id proto ck src dst) = 20.
Proof. intros. unfold ip_header, wr16, be16. rewrite !length_app. cbn [length]. lia. Qed.

Lemma wp_ip_send dstmac dstip l4 Q s :
  net_wf s -> len dstmac = 6 -> len dstip = 4 -> len l4 <= 1424 ->
  Q tt (sent_ip (ip_frame s dstmac dstip l4) s) -> wp (ip_send IPP_TCP dstmac dstip l4) Q s.
Proof.
  intros Hs Hm Hi Hl HQ. destruct Hs as [[Hg _] [Hgi _] _ Hidle _ _ _ _ _].
  unfold ip_send. net_run. apply wp_fits.
  { rewrite !length_app. unfold wr16, be16. cbn [length].
    pose proof (fun t i c => ip_header_length t i IPP_TCP c (g_ip s) dstip Hgi Hi) as H20.
    rewrite !Nat2Z.inj_add, H20. lia. }
  apply wp_pkt_send; fld; [done|]. exact HQ.
Qed.

(** [sbuf[j]], and the [n] bytes of the send ring from [o]. *)
Definition s_at (c : conn) (j : Z) : Z := sbuf c !!! Z.to_nat j.
Definition s_ring (c : conn) (o : Z) (n : nat) : list Z := ring_list (s_at c) 4096 o n.

Lemma ring_read_snd c o (n : nat) :
  len (sbuf c) = SND_SZ -> ring_read (sbuf c) SND_MASK o (Z.of_nat n) = Some (s_ring c o n).
Proof.
  intros Hl. unfold SND_SZ in Hl. apply mapM_Some. unfold s_ring, ring_list, seqZ.
  rewrite Nat2Z.id, Forall2_fmap. apply Forall_Forall2_diag, Forall_true. intros i.
  rewrite snd_land. unfold rd, s_at. set (j := (o + (Z.of_nat i + 0)) mod 4096).
  replace ((o + Z.of_nat i) mod 4096) with j by (unfold j; f_equal; lia).
  assert (0 <= j < 4096) by (apply Z.mod_pos_bound; lia). rewrite decide_True by lia.
  apply list_lookup_lookup_total_lt. lia.
Qed.

Lemma s_ring_length c o n : length (s_ring c o n) = n.
Proof. apply ring_list_length. Qed.
Lemma s_ring_bytes c o n : conn_wf c -> all_bytes (s_ring c o n).
Proof.
  intros [_ _ _ _ [Hl Hb] _ _ _ _ _ _]. unfold SND_SZ in Hl. apply Forall_fmap, Forall_true. intros i. cbn. unfold s_at.
  assert (0 <= (o + Z.of_nat i) mod 4096 < 4096) by (apply Z.mod_pos_bound; lia).
  eapply (Forall_lookup_1 is_byte); [done|]. apply list_lookup_lookup_total_lt. lia.
Qed.

(** The advertised window, and the segment [tcp_send_seg] builds. *)
Definition window (c : conn) : Z := 511 - (r_head c - r_tail c) mod 512.
Definition segment (s : net) (c : conn) (flags : Z) (with_mss : bool) (payload : list Z) : list Z :=
  let hd := seg_head (my_port s) (peer_port c) (snd_nxt c) (rcv_nxt c) (if with_mss then 24 else 20) flags (window c) in
  let tl := seg_tail with_mss payload in
  let sum := sum16 (hd ++ wr16 0 ++ tl) (pseudo_sum (g_ip s) (peer_ip c) (len (hd ++ wr16 0 ++ tl))) in
  hd ++ wr16 (fin16 sum) ++ tl.
Definition seg_frame (s : net) (c : conn) (flags : Z) (with_mss : bool) (payload : list Z) : list Z :=
  ip_frame s (peer_mac c) (peer_ip c) (segment s c flags with_mss payload).
Definition sent_seg (f : list Z) (s : net) : net :=
  sent_ip f s <| g_tcp_segs := u32 (g_tcp_segs s + 1) |>.

Lemma seg_head_length port peer seq ack hlen flags w : len (seg_head port peer seq ack hlen flags w) = 16.
Proof. done. Qed.
Lemma seg_tail_length mss p : len (seg_tail mss p) = (if (mss : bool) then 6 else 2) + len p.
Proof. unfold seg_tail. destruct mss; rewrite !length_app; cbn -[Z.of_nat]; lia. Qed.
Lemma seg_head_bytes port peer seq ack hlen flags w : is_byte flags -> all_bytes (seg_head port peer seq ack hlen flags w).
Proof.
  intros. unfold seg_head, wr16, wr32. rewrite !Forall_app.
  split_and!; first [apply be16_bytes|apply be32_bytes|idtac]. constructor; [apply u8_byte|by constructor].
Qed.
Lemma seg_tail_bytes mss p : all_bytes p -> all_bytes (seg_tail mss p).
Proof.
  intros. unfold seg_tail. destruct mss; rewrite !Forall_app; split_and!; try done; try apply be16_bytes;
    repeat constructor; unfold is_byte; lia.
Qed.
Lemma segment_length s c flags mss p : len (segment s c flags mss p) = (if mss then 24 else 20) + len p.
Proof. unfold segment. rewrite !length_app, !Nat2Z.inj_add, seg_tail_length, seg_head_length. cbn [length wr16 be16]. destruct mss; lia. Qed.

Lemma ip_header_split tot id proto ck src dst :
  ip_header tot id proto ck src dst = ([0x45; 0x00] ++ wr16 tot ++ wr16 id ++ wr16 0x4000 ++ [64; proto]) ++ wr16 ck ++ (src ++ dst).
Proof. unfold ip_header. by rewrite <- !app_assoc. Qed.

Lemma len4 {A} (l : list A) : len l = 4 -> exists a b c d, l = [a; b; c; d].
Proof. do 5 (destruct l as [|? l]; try (cbn; lia)). eauto. Qed.
Lemma len6 {A} (l : list A) : len l = 6 -> exists a b c d e f, l = [a; b; c; d; e; f].
Proof. do 7 (destruct l as [|? l]; try (cbn; lia)). eauto 7. Qed.

Lemma un_be16_wr16 v : is_u16 v -> un_be16 (u8 (Z.shiftr v 8)) (u8 v) = v.
Proof. apply un_be16_be16. Qed.

(** The code's checksums, as the receiver sees them. *)
Lemma header_accepted tot id ck src dst : all_bytes src -> all_bytes dst -> len src = 4 -> len dst = 4 ->
  fin16 (sum16 (ip_header tot id IPP_TCP ck src dst) 0) = 0 -> checksum_ok (ip_header tot id IPP_TCP ck src dst).
Proof.
  intros Bs Bd Ls Ld H. assert (all_bytes (ip_header tot id IPP_TCP ck src dst)) as Bh.
  { unfold ip_header. rewrite !Forall_app. split_and!; try done; try apply be16_bytes; repeat constructor; unfold is_byte, IPP_TCP; lia. }
  pose proof (words_le _ Bh) as R. rewrite ip_header_length in R by done.
  assert (0 < words (ip_header tot id IPP_TCP ck src dst)) as Hp.
  { assert (forall v r, words (be16 v ++ r) = 256 * u8 (Z.shiftr v 8) + u8 v + words r) as Ew by done.
    unfold ip_header, wr16. cbn [app words]. rewrite !Ew. cbn [app words]. rewrite Ew. assert (all_bytes (src ++ dst)) as Bi by (by apply Forall_app). pose proof (words_range _ Bi).
    pose proof (u8_byte tot). pose proof (u8_byte (Z.shiftr tot 8)). pose proof (u8_byte id). pose proof (u8_byte (Z.shiftr id 8)).
    pose proof (u8_byte ck). pose proof (u8_byte (Z.shiftr ck 8)). unfold is_byte, IPP_TCP in *.
    change (u8 (Z.shiftr 0x4000 8)) with 64. change (u8 0x4000) with 0. lia. }
  rewrite sum16_words in H by (done || (change (2 ^ 32) with 4294967296; lia)). split; [exact Hp|].
  apply fin16_accepts; [change (2 ^ 32) with 4294967296; lia|exact H].
Qed.
Lemma segment_accepted src dst l4 : all_bytes src -> all_bytes dst -> len src = 4 -> len dst = 4 -> all_bytes l4 -> 20 <= len l4 <= 1424 ->
  fin16 (sum16 l4 (pseudo_sum src dst (len l4))) = 0 -> checksum_ok (src ++ dst ++ [0; 6] ++ be16 (len l4) ++ l4).
Proof.
  intros Bs Bd Ls Ld Bl Hl H. destruct (pseudo_range src dst (len l4)) as [R Ep]; [done..|lia|]. pose proof (words_le _ Bl) as Rl.
  rewrite sum16_words in H by (done || (change (2 ^ 32) with 4294967296; lia)).
  assert (words (src ++ dst ++ [0; 6] ++ be16 (len l4) ++ l4) = pseudo_sum src dst (len l4) + words l4) as Ew.
  { rewrite words_app by (by rewrite Ls). rewrite words_app by (by rewrite Ld). rewrite Ep. unfold be16. cbn [app words].
    unfold u8. rewrite Z.shiftr_div_pow2 by lia. change (2 ^ 8) with 256. Z.div_mod_to_equations. lia. }
  unfold checksum_ok. rewrite Ew. split; [lia|]. apply fin16_accepts; [change (2 ^ 32) with 4294967296; lia|exact H].
Qed.
Lemma ip_frame_ok s dm di l4 :
  net_wf s -> len dm = 6 -> all_bytes dm -> len di = 4 -> all_bytes di ->
  all_bytes l4 -> 20 <= len l4 <= 1424 ->
  fin16 (sum16 l4 (pseudo_sum (g_ip s) di (len l4))) = 0 -> tcp_shape (my_port s) l4 ->
  frame_ok (g_mac s) (g_ip s) (my_port s) (ip_frame s dm di l4).
Proof.
  intros [[Hg Bg] [Hi Bi] _ _ _ _ _ _ _] Lm Bm Ld Bd Bl Hl Hck Hsh.
  unfold ip_frame. cbv zeta. set (id := u16 (g_ip_id s + 1)). set (tot := u16 (20 + len l4)).
  set (ck := fin16 _).
  assert (fin16 (sum16 (ip_header tot id IPP_TCP ck (g_ip s) di) 0) = 0) as Hip.
  { unfold ck. rewrite !ip_header_split. apply checksum_filled0.
    - done.
    - rewrite !Forall_app; split_and!; try apply be16_bytes; repeat constructor; unfold is_byte, IPP_TCP; lia.
    - by apply Forall_app.
    - cbn [app words wr16 be16]. pose proof (u8_byte tot) as B1. pose proof (u8_byte (Z.shiftr tot 8)) as B2.
      pose proof (u8_byte id) as B3. pose proof (u8_byte (Z.shiftr id 8)) as B4. 
      pose proof (u8_byte 0x4000) as B5. pose proof (u8_byte (Z.shiftr 0x4000 8)) as B6. unfold is_byte, IPP_TCP in *. lia.
    - rewrite !length_app. cbn [length wr16 be16]. lia. }
  assert (Hlen : len (ip_header tot id IPP_TCP ck (g_ip s) di) = 20) by (by apply ip_header_length).
  assert (is_byte 0x45) by (unfold is_byte; lia).
  repeat split.
  - rewrite !Forall_app; split_and!; try done; [apply be16_bytes|]. unfold ip_header. rewrite !Forall_app.
    split_and!; try done; try apply be16_bytes; repeat constructor; unfold is_byte, IPP_TCP; lia.
  - rewrite !length_app, !Nat2Z.inj_add, Hlen, Lm, Hg. cbn [length wr16 be16]. lia.
  - right. assert (tot = 20 + len l4) as Ht by (unfold tot; rewrite u16_id by (unfold is_u16; lia); lia).
    exists dm, di, id, ck, l4. cbv zeta. rewrite <- Ht.
    change ([69; 0] ++ be16 tot ++ be16 id ++ [64; 0; 64; 6] ++ be16 ck ++ g_ip s ++ di) with (ip_header tot id IPP_TCP ck (g_ip s) di).
    split_and!; [done|done|done|by apply header_accepted|done|by apply segment_accepted].
Qed.

Lemma segment_checksum s c flags mss p :
  net_wf s -> conn_wf c -> is_byte flags -> all_bytes p -> len p <= 1400 -> 
  fin16 (sum16 (segment s c flags mss p) (pseudo_sum (g_ip s) (peer_ip c) (len (segment s c flags mss p)))) = 0.
Proof.
  intros Hs Hc Hf Hp Hl. rewrite segment_length. unfold segment.
  rewrite !length_app, !Nat2Z.inj_add, seg_tail_length, seg_head_length.
  set (w := pseudo_sum _ _ _). set (w' := pseudo_sum _ _ _).
  replace w' with w by (unfold w, w'; cbn [length wr16 be16]; f_equal; destruct mss; lia).
  destruct Hs as [_ [Hi Bi] _ _ _ _ _ _ _], Hc as [_ _ [Li Lb] _ _ _ _ _ _ _ _].
  destruct (pseudo_range (g_ip s) (peer_ip c) (16 + (len (wr16 0) + ((if mss then 6 else 2) + len p)))) as [R _]; try done.
  { cbn [length wr16 be16]. destruct mss; lia. }
  apply checksum_filled; fold w in R; try done; try lia.
  - by apply seg_head_bytes.
  - by apply seg_tail_bytes.
  - rewrite seg_head_length, seg_tail_length. destruct mss; lia.
Qed.

Lemma seg_frame_ok s c flags (mss : bool) p :
  net_wf s -> conn_wf c -> is_byte flags -> all_bytes p -> len p <= (if mss then 0 else 1400) ->
  frame_ok (g_mac s) (g_ip s) (my_port s) (seg_frame s c flags mss p).
Proof.
  intros Hs Hc Hf Hp Hl'. assert (len p <= 1400) as Hl by (destruct mss; lia). pose proof (segment_checksum s c flags mss p Hs Hc Hf Hp Hl) as Hck.
  pose proof Hc as [_ [? ?] [? ?] _ _ _ _ _ _ _ _].
  apply ip_frame_ok; try done.
  - unfold segment. rewrite !Forall_app. split_and!; [by apply seg_head_bytes|apply be16_bytes|by apply seg_tail_bytes].
  - rewrite segment_length. destruct mss; lia.
  - split; [done|]. destruct mss; [right|left]; (split; [done|]).
    + destruct p; [done|cbn in Hl'; lia].
    + rewrite segment_length. lia.
Qed.

Lemma net_wf_sent_ip f s : net_wf s -> frame_ok (g_mac s) (g_ip s) (my_port s) f -> net_wf (sent_ip f s).
Proof. intros [? ? ? ? ? ? ? ? ?] Hf. constructor; unfold sent_ip; fld; try done. by apply Forall_app_2; [|apply Forall_singleton]. Qed.
Lemma net_wf_sent f s : net_wf s -> frame_ok (g_mac s) (g_ip s) (my_port s) f -> net_wf (sent_seg f s).
Proof. intros Hs Hf. destruct (net_wf_sent_ip f s Hs Hf). unfold sent_seg. by constructor; fld. Qed.

Lemma wp_send_seg i c flags (mss : bool) doff (n : nat) Q s :
  net_wf s -> conns s !! i = Some c -> conn_wf c -> (n <= if mss then 0 else 1400)%nat ->
  Q tt (sent_seg (seg_frame s c flags mss (s_ring c doff n)) s) ->
  wp (tcp_send_seg i flags mss doff (Z.of_nat n)) Q s.
Proof.
  intros Hs E Hc Hn HQ. unfold tcp_send_seg. net_run.
  apply (wp_lift _ (s_ring c doff n)); [by apply ring_read_snd, (w_sbuf c Hc)|]. net_run.
  rewrite rcv_land. unfold RCV_SZ.
  assert (u16 (512 - 1 - (r_head c - r_tail c) mod 512) = window c) as ->.
  { unfold window. assert (0 <= (r_head c - r_tail c) mod 512 < 512) by (apply Z.mod_pos_bound; lia).
    rewrite u16_id by (unfold is_u16; lia). lia. }
  assert (len (seg_head (my_port s) (peer_port c) (snd_nxt c) (rcv_nxt c) (if mss then 24 else 20) flags (window c)
     ++ wr16 0 ++ seg_tail mss (s_ring c doff n)) = (if mss then 24 else 20) + Z.of_nat n) as El.
  { rewrite !length_app, !Nat2Z.inj_add, seg_tail_length, seg_head_length, s_ring_length. cbn [length wr16 be16]. destruct mss; lia. }
  apply wp_fits; [rewrite El; unfold MSS_TX; destruct mss; lia|]. net_run.
  rewrite <- El. apply wp_ip_send; [done| | | |].
  - apply Hc.
  - apply Hc.
  - change (len (segment s c flags mss (s_ring c doff n)) <= 1424). rewrite segment_length, s_ring_length.
    destruct mss; lia.
  - net_run. exact HQ.
Qed.

(** ** Preservation, slot by slot *)

Lemma reset_listen_wf c : conn_wf c -> conn_wf (reset_listen c).
Proof.
  intros []. unfold reset_listen. constructor; fld; try done; unfold SND_SZ, RCV_SZ, is_u16, inflight, queued; fld; try lia.
  - destruct w_seq0 as (?&?&?&?). split_and!; try done; lia.
Qed.

Lemma syn_conn_wf i now seq sport mac ip c :
  conn_wf c -> len mac = 6 -> all_bytes mac -> len ip = 4 -> all_bytes ip -> is_u16 sport ->
  conn_wf (syn_conn i now seq sport mac ip c).
Proof.
  intros [] Lm Bm Li Bi Hp. unfold syn_conn. constructor; fld; try done; unfold SND_SZ, RCV_SZ, inflight, queued; fld; try lia.
  - split_and!; try apply u32_range. unfold is_u16. lia.
Qed.
Lemma syn_sent_wf now c :
  conn_wf c -> tstate c = TS_SYNRCVD ->
  conn_wf (c <| snd_nxt := u32 (snd_nxt c + 1) |> <| rexmit_at := u32 (now + REXMIT_TICKS) |>).
Proof.
  intros [] Ht. constructor; fld; unfold inflight, queued in *; fld; try done.
  - destruct w_seq0 as (?&?&?&?). split_and!; try done. apply u32_range.
  - rewrite Ht in *. done.
Qed.

Lemma establish_wf c : conn_wf c -> tstate c = TS_SYNRCVD -> conn_wf (establish (snd_nxt c) c).
Proof.
  intros [] Ht. unfold establish. destruct w_seq0 as (?&?&?&?).
  rewrite Ht in w_agree0. constructor; fld; unfold inflight, queued in *; fld; try done.
  - by right; right.
  - cbn in *. rewrite w_agree0, !Z.sub_diag. done.
Qed.

(** An acceptable acknowledgement: it releases at most the bytes in flight. *)
Lemma ack_range una nxt ack d :
  is_u32 una -> is_u32 nxt -> is_u32 ack -> u32 (nxt - una) = d -> d < 4096 ->
  s32 (ack - una) > 0 -> s32 (ack - nxt) <= 0 ->
  0 < u32 (ack - una) <= d /\ u32 (nxt - ack) = d - u32 (ack - una).
Proof. unfold is_u32, u32, s32. intros. Z.div_mod_to_equations. lia. Qed.

Lemma ack_conn_cases now ack c :
  conn_wf c -> tstate c = TS_ESTAB -> is_u32 ack ->
  ack_conn now ack c = c \/
  exists k, 0 < k <= inflight c /\ ack = u32 (snd_una c + k) /\
    ack_conn now ack c = c <| s_una := (s_una c + k) mod 4096 |> <| snd_una := ack |>
      <| rexmit_at := u32 (now + REXMIT_TICKS) |> <| rexmit_count := 0 |>.
Proof.
  intros [] Ht Ha. unfold ack_conn.
  destruct (decide (s32 (ack - snd_una c) > 0 /\ s32 (ack - snd_nxt c) <= 0)) as [Hc|]; [right|by left]. destruct w_seq0 as (?&?&?&?).
  rewrite decide_True in w_agree0 by done.
  assert (0 <= inflight c < 4096) by (apply Z.mod_pos_bound; lia).
  destruct (ack_range (snd_una c) (snd_nxt c) ack (inflight c)) as [Hk _]; try done; try lia; try (by destruct Hc).
  exists (u32 (ack - snd_una c)). split; [done|]. split; [clear -Ha; wrap_lia|].
  rewrite (u16_id (u32 _)) by (unfold is_u16; lia). by rewrite snd_land.
Qed.

Lemma ack_conn_wf now ack c : conn_wf c -> tstate c = TS_ESTAB -> is_u32 ack -> conn_wf (ack_conn now ack c).
Proof.
  intros Hc Ht Ha. destruct (ack_conn_cases now ack c Hc Ht Ha) as [->|(k & Hk & Ek & ->)]; [done|].
  destruct Hc. destruct w_seq0 as (?&?&?&?). rewrite decide_True in w_agree0 by done.
  constructor; fld; unfold inflight, queued, SND_SZ in *; fld; try done.
  - destruct w_send0 as (?&?&?). split; [apply Z.mod_pos_bound; lia|done].
  - clear -w_send0 w_order0 Hk. Z.div_mod_to_equations. lia.
  - rewrite decide_True by done. clear -w_send0 w_agree0 Hk Ek. subst ack. wrap_lia.
Qed.

(** Going back to the oldest unacknowledged byte. *)
Lemma go_back_wf c : conn_wf c -> conn_wf (c <| s_nxt := s_una c |> <| snd_nxt := snd_una c |>).
Proof.
  intros []. constructor; fld; unfold inflight, queued in *; fld; try done.
  - by destruct w_send0 as (?&?&?).
  - by destruct w_seq0 as (?&?&?&?).
  - rewrite Z.sub_diag. apply Z.mod_pos_bound. lia.
  - rewrite !Z.sub_diag. by case_decide.
Qed.

(** ** The receive ring *)

Definition r_at (c : conn) (j : Z) : Z := rbuf c !!! Z.to_nat j.
Definition r_used (c : conn) : Z := (r_head c - r_tail c) mod 512.
(** The received bytes not yet taken by [net_rx_getc], and the free space. *)
Definition r_queue (c : conn) : list Z := ring_list (r_at c) 512 (r_tail c) (Z.to_nat (r_used c)).
Definition r_free (c : conn) : nat := Z.to_nat (511 - r_used c).
(** Everything of a slot except the receive ring. *)
Definition but_rbuf (c : conn) : conn := c <| rbuf := [] |> <| r_head := 0 |>.

Lemma lookup_total_store (l : list Z) i j v :
  0 <= i < len l -> 0 <= j -> <[Z.to_nat i := v]> l !!! Z.to_nat j = if decide (j = i) then v else l !!! Z.to_nat j.
Proof.
  intros Hi Hj. case_decide as E.
  - subst. apply list_lookup_total_insert_eq. lia.
  - apply list_lookup_total_insert_ne. lia.
Qed.

Definition r_push (b : Z) (c : conn) : conn :=
  c <| rbuf := <[Z.to_nat (r_head c) := b]> (rbuf c) |> <| r_head := (r_head c + 1) mod 512 |>.

Lemma r_full c : conn_wf c -> (r_head c + 1) mod 512 = r_tail c <-> r_free c = O.
Proof.
  intros [_ _ _ _ _ _ _ [H1 H2] _ _ _]. unfold r_free, r_used, RCV_SZ in *. clear -H1 H2.
  split; intros; Z.div_mod_to_equations; lia.
Qed.

Lemma r_push_spec b c :
  conn_wf c -> is_byte b -> r_free c <> O ->
  conn_wf (r_push b c) /\ r_queue (r_push b c) = r_queue c ++ [b] /\ r_free (r_push b c) = pred (r_free c).
Proof.
  intros Hc Hb Hf. pose proof Hc as [? ? ? ? ? [Lr Br] ? [H1 H2] ? ? ?]. unfold RCV_SZ in *.
  assert (r_used (r_push b c) = r_used c + 1) as Eu.
  { unfold r_free, r_used, r_push in *. fld. clear -H1 H2 Hf. Z.div_mod_to_equations. lia. }
  assert (0 <= r_used c < 511) by (split; [apply Z.mod_pos_bound; lia|unfold r_free in Hf; lia]).
  split_and!.
  - constructor; unfold r_push, inflight, queued, RCV_SZ in *; fld; try done.
    + rewrite length_insert. split; [done|]. by apply Forall_insert.
    + split; [apply Z.mod_pos_bound; lia|done].
  - unfold r_queue. rewrite Eu. replace (Z.to_nat (r_used c + 1)) with (S (Z.to_nat (r_used c))) by lia.
    unfold r_push at 2. fld. apply ring_list_push; [lia|lia|]. intros j Hj. unfold r_at, r_push. fld.
    rewrite lookup_total_store by lia. replace ((r_tail c + Z.of_nat (Z.to_nat (r_used c))) mod 512) with (r_head c); [done|].
    unfold r_used. clear -H1 H2. rewrite Z2Nat.id by (apply Z.mod_pos_bound; lia). Z.div_mod_to_equations. lia.
  - unfold r_free. rewrite Eu. lia.
Qed.

Lemma alter_insert {A} (l : list A) i f x : l !! i = Some x -> alter f i l = <[i := f x]> l.
Proof.
  revert i. induction l as [|y l IH]; intros [|i] E; try done; cbn in E |- *.
  - by injection E as ->.
  - f_equal. by apply IH.
Qed.

Definition with_conn (i : nat) (c : conn) (s : net) : net := s <| conns := <[i := c]> (conns s) |>.

Lemma wp_set_the i f c Q s : conns s !! i = Some c -> Q tt (with_conn i (f c) s) -> wp (set_conn i f) Q s.
Proof. intros E HQ. unfold wp, set_conn, modify. by rewrite (alter_insert _ _ f c). Qed.
Lemma with_conn_lookup i c s : (i < length (conns s))%nat -> conns (with_conn i c s) !! i = Some c.
Proof. intros. unfold with_conn. fld. by apply list_lookup_insert_eq. Qed.
Lemma with_conn_twice i c c' s : with_conn i c' (with_conn i c s) = with_conn i c' s.
Proof. unfold with_conn. destruct s. cbn. by rewrite list_insert_insert_eq. Qed.
Lemma with_conn_id i c s : conns s !! i = Some c -> with_conn i c s = s.
Proof. intros E. unfold with_conn. destruct s; cbn in *. by rewrite list_insert_id. Qed.
Lemma with_conn_wf i c s : net_wf s -> conn_wf c -> net_wf (with_conn i c s).
Proof. intros [? ? ? ? ? ? ? ? ?] Hc. constructor; unfold with_conn; fld; try done. by apply Forall_insert. Qed.
Lemma with_conn_slots i c s : length (conns (with_conn i c s)) = length (conns s).
Proof. unfold with_conn. fld. by rewrite length_insert. Qed.
Lemma slot_wf i c s : net_wf s -> conns s !! i = Some c -> conn_wf c.
Proof. intros Hs E. by eapply (Forall_lookup_1 conn_wf); [apply Hs|]. Qed.

(** The store loop keeps what fits, in order. *)
Lemma store_loop_wp d : forall i c t o st s,
  conns s !! i = Some c -> conn_wf c -> all_bytes d -> 0 <= o -> 
  rd_bytes t o (Z.of_nat (length d `min` r_free c)) = Some (take (r_free c) d) ->
  wp (store_loop (length d) i t o st) (fun r s' => exists c', s' = with_conn i c' s /\ conn_wf c' /\
    r = st + Z.of_nat (length d `min` r_free c) /\ r_queue c' = r_queue c ++ take (r_free c) d /\
    but_rbuf c' = but_rbuf c) s.
Proof.
  induction d as [|b d IH]; intros i c t o st s E Hc Hd Ho Hr; cbn [store_loop length].
  { apply wp_ret. exists c. rewrite with_conn_id, take_nil, app_nil_r by done. split_and!; try done. cbn. lia. }
  apply Forall_cons in Hd as [Hb Hd]. net_run.
  - rewrite rcv_land in *. exists c. rewrite with_conn_id by done.
    assert (r_free c = 0%nat) as -> by (by apply r_full). rewrite Nat.min_0_r, take_0, app_nil_r. split_and!; try done. lia.
  - rewrite rcv_land in *. assert (r_free c <> 0%nat) as Hf by (intros Hf; by apply r_full in Hf).
    destruct (r_free c) as [|k] eqn:Ek; [done|]. cbn [length Nat.min firstn] in Hr.
    apply rd_bytes_Some in Hr as (_ & _ & Hl & _ & Er).
    assert (drop (Z.to_nat o) t = b :: take (length d `min` k) d ++ drop (Z.to_nat (Z.of_nat (S (length d `min` k)))) (drop (Z.to_nat o) t)) as Ed.
    { rewrite <- (take_drop (Z.to_nat (Z.of_nat (S (length d `min` k)))) (drop (Z.to_nat o) t)) at 1. rewrite <- Er. cbn [app].
      do 2 f_equal. symmetry. destruct (Nat.le_ge_cases (length d) k); [by rewrite !Nat.min_l, !take_ge by lia|by rewrite Nat.min_r]. }
    apply (wp_lift _ b).
    { unfold rd. rewrite decide_True by done. rewrite <- (Nat.add_0_r (Z.to_nat o)), <- lookup_drop, Ed. done. }
    net_run. pose proof Hc as [? ? ? ? ? [Lr Br] ? [H1 H2] ? ? ?]. apply wp_poke; [lia|]. net_step. eapply wp_set_the; [done|].
    destruct (r_push_spec b c Hc Hb) as (W & Q & F); [by rewrite Ek|]. fold (r_push b c).
    assert (i < length (conns s))%nat as Hi by (by eapply lookup_lt_Some).
    eapply wp_mono; [apply (IH i (r_push b c)); try done|].
    + by apply with_conn_lookup.
    + lia.
    + rewrite F, Ek. cbn [pred]. unfold rd_bytes. rewrite decide_True by lia. f_equal.
      replace (Z.to_nat (o + 1)) with (S (Z.to_nat o)) by lia.
      replace (drop (S (Z.to_nat o)) t) with (drop 1 (drop (Z.to_nat o) t)) by (rewrite drop_drop; f_equal; lia).
      rewrite Ed. cbn [drop]. rewrite Nat2Z.id. rewrite drop_0, take_app_length'.
      * destruct (Nat.le_ge_cases (length d) k); [by rewrite !Nat.min_l, !take_ge by lia|by rewrite Nat.min_r].
      * rewrite length_take. lia.
    + cbn beta. intros r s' (c' & -> & Wc & -> & Eq & Eb). exists c'. rewrite with_conn_twice, Ek in *. split_and!; try done.
      * rewrite F. cbn [length Nat.min pred]. lia.
      * rewrite Eq, Q, F, <- app_assoc. done.
Qed.

(** ** Transmission *)

(** What a receiver reads in a TCP frame. *)
Record tcp_seg := Seg {
  v_dst : list Z; v_sport : Z; v_dport : Z; v_seq : Z; v_ack : Z; v_flags : Z; v_window : Z; v_data : list Z
}.
Definition seg_view (f : list Z) : option tcp_seg :=
  dst ← rd_bytes f 30 4; sp ← rd16 f 34; dp ← rd16 f 36; seq ← rd32 f 38; ack ← rd32 f 42;
  off ← rd f 46; flags ← rd f 47; win ← rd16 f 48;
  Some (Seg dst sp dp seq ack flags win (ptr f (34 + off / 16 * 4))).

(** The segments carry consecutive bytes from sequence number [seq] on. *)
Fixpoint contiguous (seq : Z) (gs : list tcp_seg) : Prop :=
  match gs with
  | [] => True
  | g :: gs => v_seq g = seq /\ 0 < len (v_data g) <= MSS_TX /\ contiguous (u32 (seq + len (v_data g))) gs
  end.

Lemma seg_view_layout dm gm tot id ck ck' src dst port peer seq ack flags w (mss : bool) p :
  len dm = 6 -> len gm = 6 -> len src = 4 -> len dst = 4 ->
  is_u16 port -> is_u16 peer -> is_u32 seq -> is_u32 ack -> is_u16 w ->
  seg_view (dm ++ gm ++ wr16 ET_IP ++ ip_header tot id IPP_TCP ck src dst
            ++ seg_head port peer seq ack (if mss then 24 else 20) flags w ++ wr16 ck' ++ seg_tail mss p)
  = Some (Seg dst port peer seq ack flags w p).
Proof.
  intros Lm Lg Ls Ld Hp Hq Hs Ha Hw.
  apply len6 in Lm as (m0&m1&m2&m3&m4&m5&->). apply len6 in Lg as (g0&g1&g2&g3&g4&g5&->).
  apply len4 in Ls as (i0&i1&i2&i3&->). apply len4 in Ld as (d0&d1&d2&d3&->).
  unfold seg_view. unfold rd_bytes at 1. rewrite decide_True.
  2: { split; [lia|]. split; [lia|]. rewrite !length_app. cbn [length wr16 be16 ip_header app]. lia. }
  cbn [mbind option_bind].
  transitivity (Some (Seg [d0;d1;d2;d3] (un_be16 (u8 (Z.shiftr port 8)) (u8 port)) (un_be16 (u8 (Z.shiftr peer 8)) (u8 peer))
    (un_be32 (u8 (Z.shiftr seq 24)) (u8 (Z.shiftr seq 16)) (u8 (Z.shiftr seq 8)) (u8 seq))
    (un_be32 (u8 (Z.shiftr ack 24)) (u8 (Z.shiftr ack 16)) (u8 (Z.shiftr ack 8)) (u8 ack))
    flags (un_be16 (u8 (Z.shiftr w 8)) (u8 w)) p)).
  { destruct mss; reflexivity. }
  by rewrite !un_be16_wr16, !un_be32_be32.
Qed.

Lemma seg_view_frame s c flags (mss : bool) p :
  net_wf s -> conn_wf c ->
  seg_view (seg_frame s c flags mss p)
  = Some (Seg (peer_ip c) (my_port s) (peer_port c) (snd_nxt c) (rcv_nxt c) flags (window c) p).
Proof.
  intros [[Hg _] [Hi _] Hp _ _ _ _ _ _] [_ [Lm _] [Li _] Hq _ _ _ _ (Hu&Hn&Hr&_) _ _].
  apply seg_view_layout; try done.
  unfold window, is_u16. assert (0 <= (r_head c - r_tail c) mod 512 < 512) by (apply Z.mod_pos_bound; lia). lia.
Qed.

Definition unsent (c : conn) : Z := (s_end c - s_nxt c) mod 4096.
Definition unsent_bytes (c : conn) : list Z := s_ring c (s_nxt c) (Z.to_nat (unsent c)).
(** The unacknowledged and the unsent bytes. *)
Definition send_queue (c : conn) : list Z := s_ring c (s_una c) (Z.to_nat (queued c)).
(** Everything of a slot that sending does not touch. *)
Definition but_sent (c : conn) : conn := c <| s_nxt := 0 |> <| snd_nxt := 0 |> <| rexmit_at := 0 |>.

(** Sending the next [n] bytes. *)
Definition advance (now n : Z) (c : conn) : conn :=
  (if bool_decide (snd_una c = snd_nxt c) then c <| rexmit_at := u32 (now + REXMIT_TICKS) |> else c)
    <| s_nxt := (s_nxt c + n) mod 4096 |> <| snd_nxt := u32 (snd_nxt c + n) |>.

Lemma unsent_split c : conn_wf c -> unsent c = queued c - inflight c.
Proof.
  intros [_ _ _ _ _ _ (H1&H2&H3) _ _ Ho _]. unfold unsent, queued, inflight, SND_SZ in *. clear -H1 H2 H3 Ho.
  Z.div_mod_to_equations. lia.
Qed.

Lemma advance_spec now n c :
  conn_wf c -> tstate c = TS_ESTAB -> 0 <= n <= unsent c ->
  let c' := advance now n c in
  conn_wf c' /\ tstate c' = TS_ESTAB /\ unsent c' = unsent c - n /\ s_end c' = s_end c /\
  s_nxt c' = (s_nxt c + n) mod 4096 /\ snd_nxt c' = u32 (snd_nxt c + n) /\ but_sent c' = but_sent c /\
  unsent_bytes c' = drop (Z.to_nat n) (unsent_bytes c).
Proof.
  intros Hc Ht Hn c'. pose proof (unsent_split c Hc) as Eu.
  assert (0 <= unsent c < 4096) as Hu by (apply Z.mod_pos_bound; lia).
  assert (s_nxt c' = (s_nxt c + n) mod 4096) as E1 by done.
  assert (snd_nxt c' = u32 (snd_nxt c + n)) as E2 by done.
  assert (but_sent c' = but_sent c) as Eb by (unfold c', advance; by case_bool_decide).
  assert (forall T (f : conn -> T), f (but_sent c') = f (but_sent c)) as F by (intros; by rewrite Eb).
  pose proof (F _ tstate) as Ft. pose proof (F _ s_una) as Fu. pose proof (F _ s_end) as Fe. pose proof (F _ snd_una) as Fs.
  pose proof (F _ sbuf) as Fb. unfold but_sent in Ft, Fu, Fe, Fs, Fb. revert Ft Fu Fe Fs Fb. fld. intros Ft Fu Fe Fs Fb.
  pose proof Hc as [_ _ _ _ _ _ (H1&H2&H3) _ (S1&S2&S3&S4) Ho Ha]. rewrite decide_True in Ha by done.
  assert (unsent c' = unsent c - n) as E3.
  { unfold unsent in *. rewrite E1, Fe. unfold SND_SZ in *. clear -H1 H2 H3 Hn Hu. Z.div_mod_to_equations. lia. }
  assert (inflight c' = inflight c + n /\ queued c' = queued c) as [E4 E5].
  { unfold inflight, queued in *. rewrite E1, Fu, Fe. split; [|done]. unfold unsent, SND_SZ in *. clear -H1 H2 H3 Hn Eu Ho.
    Z.div_mod_to_equations. lia. }
  split_and!; try done; [|congruence|].
  - clearbody c'. constructor; try (rewrite Ft); try (rewrite E4, E5).
    + destruct Hc; tauto.
    + pose proof (F _ peer_mac) as X. unfold but_sent in X. revert X. fld. intros ->. apply Hc.
    + pose proof (F _ peer_ip) as X. unfold but_sent in X. revert X. fld. intros ->. apply Hc.
    + pose proof (F _ peer_port) as X. unfold but_sent in X. revert X. fld. intros ->. apply Hc.
    + rewrite Fb. apply Hc.
    + pose proof (F _ rbuf) as X. unfold but_sent in X. revert X. fld. intros ->. apply Hc.
    + rewrite E1, Fu, Fe. split; [done|split; [|done]]. apply Z.mod_pos_bound. unfold SND_SZ. lia.
    + pose proof (F _ r_head) as X. pose proof (F _ r_tail) as Y. unfold but_sent in X, Y. revert X Y. fld. intros -> ->. apply Hc.
    + pose proof (F _ rcv_nxt) as X. pose proof (F _ rexmit_count) as Y. unfold but_sent in X, Y. revert X Y. fld. intros -> ->.
      rewrite E2, Fs. split_and!; try done. apply u32_range.
    + lia.
    + rewrite decide_True by done. rewrite E2, Fs, E4, <- Ha. 
      assert (inflight c + n < 4096) as Hb by (unfold queued in Eu; pose proof (Z.mod_pos_bound (s_end c - s_una c) 4096); lia).
      assert (0 <= inflight c) by (apply Z.mod_pos_bound; lia). clear -S1 S2 Ha Hb Hn H. rewrite <- Ha in *. wrap_lia.
  - unfold unsent_bytes. rewrite E3, E1. replace (Z.to_nat (unsent c - n)) with (Z.to_nat (unsent c) - Z.to_nat n)%nat by lia.
    unfold s_ring. rewrite <- ring_list_drop by lia. rewrite Z2Nat.id by lia.
    apply ring_list_ext. intros i _. unfold s_at. by rewrite Fb.
Qed.

(** The segment of the next bytes describes the slot it is sent from. *)
Definition seg_of (s : net) (c : conn) (g : tcp_seg) : Prop :=
  v_dst g = peer_ip c /\ v_sport g = my_port s /\ v_dport g = peer_port c /\ v_ack g = rcv_nxt c /\
  v_flags g = 0x18 /\ v_window g = window c.

Lemma seg_of_but_sent s s' c c' g :
  but_sent c' = but_sent c -> my_port s' = my_port s -> seg_of s' c' g -> seg_of s c g.
Proof.
  intros E Ep. unfold seg_of, window.
  pose proof (f_equal peer_ip E) as E1. pose proof (f_equal peer_port E) as E2. pose proof (f_equal rcv_nxt E) as E3.
  pose proof (f_equal r_head E) as E4. pose proof (f_equal r_tail E) as E5. unfold but_sent in *. revert E1 E2 E3 E4 E5. fld.
  by intros -> -> -> -> ->; rewrite Ep.
Qed.

Lemma sent_seg_fields f s :
  conns (sent_seg f s) = conns s /\ tx (sent_seg f s) = tx s ++ [f] /\ my_port (sent_seg f s) = my_port s /\ tick (sent_seg f s) = tick s.
Proof. unfold sent_seg, sent_ip. split_and!; fld; done. Qed.
Lemma with_conn_fields i c s :
  conns (with_conn i c s) = <[i := c]> (conns s) /\ tx (with_conn i c s) = tx s /\ my_port (with_conn i c s) = my_port s.
Proof. unfold with_conn. split_and!; fld; done. Qed.

(** The outcome of sending the bytes [data] of slot [i]. *)
Definition sent_all (i : nat) (c : conn) (data : list Z) (s : net) (c' : conn) (s' : net) : Prop :=
  exists frames gs,
    net_wf s' /\ conns s' = <[i := c']> (conns s) /\ tx s' = tx s ++ frames /\ my_port s' = my_port s /\
    mapM seg_view frames = Some gs /\ contiguous (snd_nxt c) gs /\ concat (v_data <$> gs) = data /\
    Forall (seg_of s c) gs /\
    conn_wf c' /\ s_nxt c' = s_end c /\ snd_nxt c' = u32 (snd_nxt c + unsent c) /\ but_sent c' = but_sent c.

Lemma output_loop_wp fuel : forall i c s,
  net_wf s -> conns s !! i = Some c -> tstate c = TS_ESTAB -> unsent c <= 1400 * Z.of_nat fuel ->
  wp (output_loop fuel i (unsent c)) (fun _ s' => exists c', sent_all i c (unsent_bytes c) s c' s') s.
Proof.
  induction fuel as [|fuel IH]; intros i c s Hs E Ht Hb; pose proof (slot_wf i c s Hs E) as Hc;
    assert (0 <= unsent c < 4096) as Hu by (apply Z.mod_pos_bound; lia).
  all: assert (unsent c = 0 -> exists c', sent_all i c (unsent_bytes c) s c' s) as Hdone.
  1, 3: intros E0; exists c, [], []; rewrite app_nil_r, list_insert_id by done; split_and!; try done;
    [unfold unsent_bytes; by rewrite E0 
    |pose proof Hc as [_ _ _ _ _ _ (H1&H2&H3) _ _ _ _]; unfold unsent, SND_SZ in *; clear -E0 H2 H3; Z.div_mod_to_equations; lia
    |rewrite E0, Z.add_0_r, u32_id; [done|apply Hc]].
  { apply wp_ret, Hdone. lia. }
  cbn [output_loop]. net_step; [apply wp_ret; auto|].
  set (m := if decide (unsent c > MSS_TX) then MSS_TX else unsent c).
  assert (0 < m <= 1400 /\ m <= unsent c /\ (m = 1400 \/ m = unsent c)) as (Hn&Hn'&Hm) by (unfold m, MSS_TX in *; case_decide; lia).
  net_step. net_step. net_step. rewrite <- (Z2Nat.id m) at 1 by lia.
  apply (wp_send_seg i c); [done..|lia|]. net_step.
  destruct (sent_seg_fields (seg_frame s c 24 false (s_ring c (s_nxt c) (Z.to_nat m))) s) as (F1&F2&F3&F4).
  assert (net_wf (sent_seg (seg_frame s c 24 false (s_ring c (s_nxt c) (Z.to_nat m))) s)) as Hs1.
  { apply net_wf_sent; [done|]. apply seg_frame_ok; try done; [by apply s_ring_bytes|]. rewrite s_ring_length. lia. }
  revert F1 F2 F3 F4 Hs1. generalize (sent_seg (seg_frame s c 24 false (s_ring c (s_nxt c) (Z.to_nat m))) s). intros s1 F1 F2 F3 F4 Hs1.
  rewrite <- F1 in E. net_step. net_step. net_step. net_step.
  apply (wp_mono _ (fun _ s2 => s2 = with_conn i (if bool_decide (snd_una c = snd_nxt c) then c <| rexmit_at := u32 (tick s1 + REXMIT_TICKS) |> else c) s1)).
  { destruct (bool_decide _); cbn [when]; [by eapply wp_set_the|]. apply wp_ret. by rewrite with_conn_id. }
  intros _ s2 ->. net_step. eapply wp_set_the; [apply with_conn_lookup; by eapply lookup_lt_Some|]. rewrite with_conn_twice, snd_land.
  destruct (advance_spec (tick s1) m c Hc Ht ltac:(lia)) as (W&T&U&Ee&En&Es&Eb&Ed).
  match goal with |- wp _ _ (with_conn i ?x _) => replace x with (advance (tick s1) m c) by (unfold advance; by case_bool_decide) end.
  rewrite <- U. eapply wp_mono; [apply IH; [by apply with_conn_wf|apply with_conn_lookup; by eapply lookup_lt_Some|done|lia]|].
  intros _ s' (c' & frames & gs & P1 & P2 & P3 & P4 & P5 & P6 & P7 & P8 & P9 & P10 & P11 & P12).
  destruct (with_conn_fields i (advance (tick s1) m c) s1) as (G1&G2&G3). rewrite G1, F1, list_insert_insert_eq in P2.
  rewrite G2, F2, <- app_assoc in P3. 
  exists c', ([seg_frame s c 24 false (s_ring c (s_nxt c) (Z.to_nat m))] ++ frames),
    (Seg (peer_ip c) (my_port s) (peer_port c) (snd_nxt c) (rcv_nxt c) 24 (window c) (s_ring c (s_nxt c) (Z.to_nat m)) :: gs).
  split_and!; try done.
  - congruence.
  - cbn [app mapM]. rewrite seg_view_frame by done. cbn [mbind option_bind]. by rewrite P5.
  - cbn [contiguous v_seq v_data]. rewrite s_ring_length, Z2Nat.id by lia. split_and!; [done|lia|unfold MSS_TX; lia|].
    by rewrite Es in P6.
  - cbn [fmap list_fmap concat v_data]. rewrite P7, Ed. unfold unsent_bytes, s_ring.
    replace (ring_list (s_at c) 4096 (s_nxt c) (Z.to_nat m)) with (take (Z.to_nat m) (ring_list (s_at c) 4096 (s_nxt c) (Z.to_nat (unsent c)))); [apply take_drop|].
    unfold ring_list. rewrite <- fmap_take, take_seq. do 2 f_equal. lia.
  - constructor; [done|]. eapply Forall_impl; [done|]. intros g. cbn beta. apply seg_of_but_sent; [done|congruence].
  - congruence.
  - rewrite P11, Es, U, u32_add_l. f_equal. lia.
  - congruence.
Qed.

(** ** Operations that keep the invariant *)

(** [m] runs without a fault from every state of the invariant with [n] slots and
    leaves such a state. *)
Definition safe {A} (n : nat) (m : M net A) : Prop :=
  forall s, net_wf s -> length (conns s) = n -> wp m (fun _ s' => net_wf s' /\ length (conns s') = n) s.

Section safe.
Context (n : nat).
Implicit Types (i : nat) (s : net).

Lemma safe_ret {A} (a : A) : safe n (mret a).
Proof. intros s Hs Hn. by apply wp_ret. Qed.
Lemma safe_bind {A B} (m : M net A) (k : A -> M net B) : safe n m -> (forall a, safe n (k a)) -> safe n (m ≫= k).
Proof. intros Hm Hk s Hs Hn. apply wp_bind. eapply wp_mono; [by apply Hm|]. intros a s' [? ?]. by apply Hk. Qed.
Lemma safe_use {A} (m : M net A) Q s :
  safe n m -> net_wf s -> length (conns s) = n -> (forall a s', net_wf s' -> length (conns s') = n -> Q a s') -> wp m Q s.
Proof. intros Hm Hs Hn HQ. eapply wp_mono; [by apply Hm|]. intros a s' [? ?]. by apply HQ. Qed.
Lemma safe_gets {A} (f : net -> A) : safe n (gets f).
Proof. intros s Hs Hn. by apply wp_gets. Qed.
(** Reading the state: the continuation may rely on a value the invariant allows. *)
Lemma safe_gets_bind {A B} (f : net -> A) (k : A -> M net B) :
  (forall s, net_wf s -> length (conns s) = n -> safe n (k (f s))) -> safe n (gets f ≫= k).
Proof. intros Hk s Hs Hn. apply wp_bind, wp_gets. by apply Hk. Qed.
Lemma safe_the_conn {B} i (k : conn -> M net B) :
  (i < n)%nat -> (forall c, conn_wf c -> safe n (k c)) -> safe n (the_conn i ≫= k).
Proof.
  intros Hi Hk s Hs Hn. destruct (lookup_lt_is_Some_2 (conns s) i) as [c E]; [lia|].
  apply wp_bind. eapply wp_the_conn; [done|]. apply Hk; try done. by eapply slot_wf.
Qed.
Lemma safe_set_conn i f : (forall c, conn_wf c -> conn_wf (f c)) -> safe n (set_conn i f).
Proof.
  intros Hf s Hs Hn. apply wp_set_conn. split; [|fld; by rewrite length_alter].
  destruct Hs. constructor; fld; try done. apply Forall_alter; [done|]. intros. by apply Hf.
Qed.
Lemma safe_lift_bind {A B} (o : option A) (k : A -> M net B) : (exists a, o = Some a /\ safe n (k a)) -> safe n (lift o ≫= k).
Proof. intros (a & E & Hk) s Hs Hn. apply wp_bind, (wp_lift _ a); [done|]. by apply Hk. Qed.
Lemma safe_when b (m : M net unit) : (b = true -> safe n m) -> safe n (when b m).
Proof. destruct b; [auto|]. intros _. apply safe_ret. Qed.
Lemma safe_for_slots (body : nat -> M net unit) : (forall i, (i < n)%nat -> safe n (body i)) ->
  forall k i, (i + k <= n)%nat -> safe n (for_slots k i body).
Proof.
  intros Hb. induction k as [|k IH]; intros i Hi; cbn [for_slots]; [apply safe_ret|].
  apply safe_bind; [apply Hb; lia|]. intros _. apply IH. lia.
Qed.
Lemma safe_each_slot body : (forall i, (i < n)%nat -> safe n (body i)) -> safe n (each_slot body).
Proof. intros Hb. unfold each_slot. apply safe_gets_bind. intros s _ ->. by apply safe_for_slots. Qed.

Lemma safe_send_seg i flags (mss : bool) doff (m : nat) :
  (i < n)%nat -> is_byte flags -> (m <= if mss then 0 else 1400)%nat -> safe n (tcp_send_seg i flags mss doff (Z.of_nat m)).
Proof.
  intros Hi Hf Hm s Hs Hn. destruct (lookup_lt_is_Some_2 (conns s) i) as [c E]; [lia|].
  pose proof (slot_wf i c s Hs E) as Hc. apply (wp_send_seg i c); try done.
  split; [|done]. apply net_wf_sent; [done|]. apply seg_frame_ok; try done; [by apply s_ring_bytes|].
  rewrite s_ring_length. destruct mss; lia.
Qed.
Lemma safe_send_ack i flags mss : (i < n)%nat -> is_byte flags -> safe n (tcp_send_seg i flags mss 0 0).
Proof. intros. apply (safe_send_seg _ _ _ _ 0); try done. lia. Qed.

Lemma safe_reset i : safe n (tcp_reset_listen i).
Proof. apply safe_set_conn, reset_listen_wf. Qed.

Lemma safe_output i : (i < n)%nat -> safe n (tcp_output i).
Proof.
  intros Hi s Hs Hn. destruct (lookup_lt_is_Some_2 (conns s) i) as [c E]; [lia|].
  unfold tcp_output. net_run; [done|]. rewrite snd_land. fold (unsent c).
  eapply wp_mono; [apply output_loop_wp; try done|].
  - destruct (decide (tstate c = TS_ESTAB)); done.
  - assert (0 <= unsent c < 4096) by (apply Z.mod_pos_bound; lia). lia.
  - cbn beta. intros _ s' (c' & fs & gs & ? & E' & _). split; [done|]. by rewrite E', length_insert.
Qed.
End safe.

(** The searches find a slot that satisfies the test. *)
Lemma first_slot_Some test cs : forall k i,
  first_slot test k cs = Some i -> exists c, (k <= i)%nat /\ cs !! (i - k)%nat = Some c /\ test c = true.
Proof.
  induction cs as [|c cs IH]; intros k i; cbn [first_slot]; [done|]. destruct (test c) eqn:Et.
  - intros [= ->]. exists c. rewrite Nat.sub_diag. done.
  - intros (c' & Hk & E & Ht)%IH. exists c'. split_and!; [lia| |done]. by replace (i - k)%nat with (S (i - S k)) by lia.
Qed.
Lemma first_slot_found test cs i :
  first_slot test 0 cs = Some i -> exists c, cs !! i = Some c /\ test c = true.
Proof. intros (c & _ & E & Ht)%first_slot_Some. rewrite Nat.sub_0_r in E. eauto. Qed.
Lemma find_conn_Some sport ip cs i :
  find_conn sport ip cs = Some i ->
  exists c, cs !! i = Some c /\ tstate c <> TS_LISTEN /\ peer_port c = sport /\ peer_ip c = ip.
Proof.
  intros (c & E & Ht)%first_slot_found. exists c. split; [done|].
  apply andb_prop in Ht as [[H1 H2]%andb_prop H3]. by rewrite !bool_decide_eq_true in *.
Qed.
Lemma alloc_conn_lt ip cs i : alloc_conn ip cs = Some i -> (i < length cs)%nat.
Proof.
  unfold alloc_conn. intros Ha. repeat case_match; simplify_eq;
    match goal with E : first_slot _ 0 _ = Some _ |- _ => apply first_slot_found in E as (c & E & _) end; by eapply lookup_lt_Some.
Qed.

(** The outcome of the data of a segment: [m] of its bytes are kept and exactly
    these are acknowledged. *)
Definition data_kept (c : conn) (t : list Z) (toff dlen : Z) (c' : conn) : Prop :=
  let m := (Z.to_nat dlen `min` r_free c)%nat in
  conn_wf c' /\ r_queue c' = r_queue c ++ take m (ptr t toff) /\ rcv_nxt c' = u32 (rcv_nxt c + Z.of_nat m) /\
  (but_rbuf c') <| rcv_nxt := 0 |> = (but_rbuf c) <| rcv_nxt := 0 |>.

Lemma zeros_bytes k : all_bytes (repeat 0 k).
Proof. induction k; constructor; [unfold is_byte; lia|done]. Qed.

Lemma r_free_bound c : (r_free c <= 511)%nat.
Proof. unfold r_free, r_used. pose proof (Z.mod_pos_bound (r_head c - r_tail c) 512). lia. Qed.

Lemma but_rbuf_rcv v c : conn_wf c -> is_u32 v -> conn_wf (c <| rcv_nxt := v |>).
Proof. intros [] Hv. constructor; fld; try done. destruct w_seq0 as (?&?&?&?). by split_and!. Qed.

Lemma store_data_wp i c t toff dlen s :
  conns s !! i = Some c -> conn_wf c -> all_bytes t -> 0 <= toff -> 0 < dlen -> toff + 511 <= len t ->
  wp (stored ← store_loop (Z.to_nat dlen) i t toff 0;
      set_conn i (fun c => c <| rcv_nxt := u32 (rcv_nxt c + stored) |>))
     (fun _ s' => exists c', s' = with_conn i c' s /\ data_kept c t toff dlen c') s.
Proof.
  intros E Hc Ht Ho Hd Hl. pose proof (r_free_bound c) as Hf.
  set (d := take (Z.to_nat dlen) (ptr t toff ++ repeat 0 (Z.to_nat dlen))).
  assert (length d = Z.to_nat dlen) as El by (unfold d; rewrite length_take, length_app, repeat_length; lia).
  assert (length (ptr t toff) = (length t - Z.to_nat toff)%nat) as Ep by (unfold ptr; by rewrite length_drop).
  assert (take (r_free c) d = take (Z.to_nat dlen `min` r_free c) (ptr t toff)) as Etk.
  { unfold d. rewrite take_take, Nat.min_comm. rewrite take_app_le; [done|]. lia. }
  apply wp_bind. rewrite <- El. eapply wp_mono; [apply (store_loop_wp d i c); try done|].
  - unfold d. apply Forall_take, Forall_app. split; [by apply ptr_bytes|]. apply zeros_bytes.
  - rewrite Etk, El. unfold rd_bytes, ptr. rewrite decide_True by lia. by rewrite Nat2Z.id.
  - cbn beta. intros r s1 (c1 & -> & W & -> & Eq & Eb).
    assert (i < length (conns s))%nat as Hi by (by eapply lookup_lt_Some).
    eapply wp_set_the; [by apply with_conn_lookup|]. rewrite with_conn_twice. eexists. split; [done|].
    assert (rcv_nxt c1 = rcv_nxt c) as Er by (pose proof (f_equal rcv_nxt Eb) as X; unfold but_rbuf in X; revert X; by fld).
    unfold data_kept. rewrite El, Etk in *. split_and!; fld.
    + apply but_rbuf_rcv; [done|apply u32_range].
    + exact Eq.
    + by rewrite Er.
    + pose proof (f_equal (fun c => c <| rcv_nxt := 0 |>) Eb) as X. revert X. unfold but_rbuf. by destruct c1, c.
Qed.

Lemma tcp_data_wp i c t toff dlen seq s :
  net_wf s -> conns s !! i = Some c -> all_bytes t -> 0 <= toff -> 0 <= dlen -> toff + 511 <= len t ->
  wp (tcp_data i t toff dlen seq) (fun _ s' =>
    if decide (dlen = 0) then s' = s
    else exists c', s' = sent_seg (seg_frame s c' 0x10 false []) (with_conn i c' s) /\
      if decide (seq = rcv_nxt c) then data_kept c t toff dlen c' else c' = c) s.
Proof.
  intros Hs E Ht Ho Hd Hl. pose proof (slot_wf i c s Hs E) as Hc. unfold tcp_data.
  destruct (decide (dlen = 0)) as [|Hz]; [by apply wp_ret|]. net_step. net_step. net_step.
  apply (wp_mono _ (fun _ s1 => exists c', s1 = with_conn i c' s /\ if decide (seq = rcv_nxt c) then data_kept c t toff dlen c' else c' = c)).
  - case_bool_decide as Hq; cbn [when].
    + eapply wp_mono; [apply store_data_wp; try done; lia|]. cbn beta. intros _ s' (c' & -> & K). exists c'. by rewrite decide_True.
    + apply wp_ret. exists c. rewrite with_conn_id, decide_False by done. done.
  - intros _ s1 (c' & -> & K). assert (conn_wf c') as Hc' by (case_decide; [apply K|by subst]).
    assert (i < length (conns s))%nat as Hi by (by eapply lookup_lt_Some).
    apply (wp_send_seg i c' _ false 0 0); [by apply with_conn_wf|by apply with_conn_lookup|done|lia|].
    exists c'. split; [|done]. done.
Qed.

Section safe_in.
Context (n : nat).
Implicit Types (i : nat) (s : net).

Lemma safe_timer i : (i < n)%nat -> safe n (tcp_timer i).
Proof.
  intros Hi. unfold tcp_timer. apply safe_the_conn; [done|]. intros c Hc. apply safe_bind; [apply safe_gets|]. intros now.
  case_decide; [apply safe_ret|]. case_decide; [|apply safe_ret].
  apply safe_bind; [apply safe_set_conn|intros _].
  { intros k []. constructor; fld; try done. destruct w_seq0 as (?&?&?&?). split_and!; try done. apply u16_range. }
  case_decide; [apply safe_reset|]. apply safe_bind; [apply safe_set_conn, go_back_wf|intros _].
  apply safe_bind; [apply safe_when; intros _; apply safe_send_ack; [done|unfold is_byte; lia]|intros _].
  apply safe_set_conn. intros k []. by constructor.
Qed.

Lemma send_rst_safe mac ip sport seq :
  len mac = 6 -> all_bytes mac -> len ip = 4 -> all_bytes ip -> safe n (send_rst mac ip sport seq).
Proof.
  intros Lm Bm Li Bi s Hs Hn. unfold send_rst. net_run. apply wp_ip_send; try done.
  pose proof Hs as [_ [Lg Bg] _ _ _ _ _ _ _]. split; [|done]. apply net_wf_sent_ip; [done|].
  set (hd := wr16 (my_port s) ++ wr16 sport ++ wr32 0 ++ wr32 (u32 (seq + 1)) ++ [u8 (Z.shiftl (20 / 4) 4); 0x14] ++ [0; 0]).
  assert (all_bytes hd) as Bh.
  { unfold hd, wr16, wr32. rewrite !Forall_app. split_and!; first [apply be16_bytes|apply be32_bytes|repeat constructor; try apply u8_byte; unfold is_byte; lia]. }
  replace (u32 (sum16 ip (sum16 (g_ip s) 0) + (IPP_TCP + 20))) with (pseudo_sum (g_ip s) ip 20).
  2: { unfold pseudo_sum. rewrite u32_add_l. f_equal. lia. }
  destruct (pseudo_range (g_ip s) ip 20) as [R _]; try done.
  apply ip_frame_ok; try done.
  - rewrite !Forall_app. split_and!; [done|apply be16_bytes|repeat constructor; unfold is_byte; lia].
  - change (len (hd ++ wr16 (fin16 (sum16 (hd ++ wr16 0 ++ [0; 0]) (pseudo_sum (g_ip s) ip 20))) ++ [0; 0])) with 20.
    apply checksum_filled; try done; try lia. repeat constructor; unfold is_byte; lia.
  - split; [done|left]. split; [done|]. match goal with |- 20 <= ?x => change (20 <= 20) end. lia.
Qed.

Lemma syn_safe mac ip sport seq :
  len mac = 6 -> all_bytes mac -> len ip = 4 -> all_bytes ip -> is_u16 sport -> safe n (tcp_syn mac ip sport seq).
Proof.
  intros Lm Bm Li Bi Hp. unfold tcp_syn. apply safe_gets_bind. intros s0 Hs0 Hn0.
  destruct (alloc_conn ip (conns s0)) as [i|] eqn:Ea; [|by apply send_rst_safe].
  apply alloc_conn_lt in Ea. rewrite Hn0 in Ea. clear s0 Hs0 Hn0. intros s Hs Hn.
  destruct (lookup_lt_is_Some_2 (conns s) i) as [c E]; [lia|]. pose proof (slot_wf i c s Hs E) as Hc.
  net_step. net_step. net_step. eapply wp_set_the; [done|]. set (c1 := syn_conn _ _ _ _ _ _ c).
  assert (conn_wf c1) as Hc1 by (by apply syn_conn_wf). assert (tstate c1 = TS_SYNRCVD) as Ht by done. clearbody c1.
  assert (conns (with_conn i c1 s) !! i = Some c1) as E1 by (by apply with_conn_lookup; lia).
  assert (net_wf (with_conn i c1 s)) as Hs1 by (by apply with_conn_wf).
  assert (length (conns (with_conn i c1 s)) = n) as Hn1 by (by rewrite with_conn_slots).
  revert E1 Hs1 Hn1. generalize (with_conn i c1 s). clear dependent s. intros s E Hs Hn.
  net_step. apply (wp_send_seg i c1 _ true 0 0); try done. set (f := seg_frame _ _ _ _ _).
  assert (net_wf (sent_seg f s)) as Hs1. { apply net_wf_sent, seg_frame_ok; try done; unfold is_byte; cbn; lia. }
  net_step. net_step. destruct (sent_seg_fields f s) as (F & _). rewrite <- F in E, Hn.
  eapply wp_set_the; [done|]. rewrite with_conn_slots. split; [|done]. apply with_conn_wf; [done|]. by apply syn_sent_wf.
Qed.

Lemma data_safe i t toff dlen seq :
  (i < n)%nat -> all_bytes t -> 0 <= toff -> 0 <= dlen -> toff + 511 <= len t -> safe n (tcp_data i t toff dlen seq).
Proof.
  intros Hi Ht Ho Hd Hl s Hs Hn. destruct (lookup_lt_is_Some_2 (conns s) i) as [c E]; [lia|].
  eapply wp_mono; [by apply (tcp_data_wp i c)|]. cbn beta. intros _ s'. case_decide; [by intros ->|].
  intros (c' & -> & K). destruct (sent_seg_fields (seg_frame s c' 0x10 false []) (with_conn i c' s)) as (F & _).
  rewrite F, with_conn_slots. split; [|done]. 
  assert (conn_wf c') as Hc' by (case_decide; [apply K|subst; by eapply slot_wf]).
  apply net_wf_sent; [by apply with_conn_wf|]. apply (seg_frame_ok s c'); try done; unfold is_byte; cbn; lia.
Qed.

Lemma fin_safe i : (i < n)%nat -> safe n (tcp_fin i).
Proof.
  intros Hi. unfold tcp_fin. apply safe_bind; [apply safe_set_conn|intros _].
  { intros c Hc. apply but_rbuf_rcv; [done|apply u32_range]. }
  apply safe_bind; [apply safe_send_ack; [done|unfold is_byte; lia]|intros _]. apply safe_reset.
Qed.

Lemma estab_safe i t flags toff dlen seq ack :
  (i < n)%nat -> all_bytes t -> 0 <= toff -> 0 <= dlen -> toff + 511 <= len t -> is_u32 ack ->
  safe n (tcp_estab i t flags toff dlen seq ack).
Proof.
  intros Hi Ht Ho Hd Hl Ha s Hs Hn. destruct (lookup_lt_is_Some_2 (conns s) i) as [c E]; [lia|].
  pose proof (slot_wf i c s Hs E) as Hc. unfold tcp_estab. net_step. net_step. net_step; [by net_step|]. net_step. net_step. net_step.
  assert (tstate c = TS_ESTAB) as He by (destruct (decide (tstate c = TS_ESTAB)); done).
  assert (forall s1, net_wf s1 -> length (conns s1) = n ->
    wp (tcp_data i t toff dlen seq ;; when (bool_decide (Z.land flags 0x01 <> 0)) (tcp_fin i)) (fun _ s' => net_wf s' /\ length (conns s') = n) s1) as Hrest.
  { intros s1 Hs1 Hn1. apply (safe_bind n); try done; [by apply data_safe|]. intros _. apply safe_when. intros _. by apply fin_safe. }
  destruct (bool_decide (Z.land flags 16 <> 0)); cbn [when].
  - eapply wp_set_the; [done|]. apply Hrest; [|by rewrite with_conn_slots]. apply with_conn_wf; [done|]. by apply ack_conn_wf.
  - apply wp_ret. by apply Hrest.
Qed.
End safe_in.

(** ** Receiving a frame *)

Lemma rd16_is_Some p o : all_bytes p -> 0 <= o -> o + 2 <= len p -> exists v, rd16 p o = Some v /\ is_u16 v.
Proof.
  intros Hp Ho Hl. destruct (rd_is_Some p o) as [a Ea]; [lia|]. destruct (rd_is_Some p (o + 1)) as [b Eb]; [lia|].
  exists (un_be16 a b). unfold rd16. rewrite Ea, Eb. split; [done|]. apply un_be16_range; by eapply rd_byte.
Qed.
Lemma rd32_is_Some p o : all_bytes p -> 0 <= o -> o + 4 <= len p -> exists v, rd32 p o = Some v /\ is_u32 v.
Proof.
  intros Hp Ho Hl. destruct (rd_is_Some p o) as [a Ea]; [lia|]. destruct (rd_is_Some p (o + 1)) as [b Eb]; [lia|].
  destruct (rd_is_Some p (o + 2)) as [c Ec]; [lia|]. destruct (rd_is_Some p (o + 3)) as [d Ed]; [lia|].
  exists (un_be32 a b c d). unfold rd32. rewrite Ea, Eb, Ec, Ed. split; [done|]. apply un_be32_range; by eapply rd_byte.
Qed.
Lemma rd_is_byte p o : all_bytes p -> 0 <= o < len p -> exists v, rd p o = Some v /\ is_byte v.
Proof. intros Hp Ho. destruct (rd_is_Some p o Ho) as [x E]. exists x. split; [done|]. by eapply rd_byte. Qed.
Lemma rd_mem_is p o x : 0 <= o -> o + len x <= len p -> exists b, mem_is p o x = Some b.
Proof. intros Ho Hl. unfold mem_is, rd_is. destruct (rd_bytes_is_Some p o (len x)) as [b ->]; [lia..|]. eexists. done. Qed.
Lemma nibble_range b : is_byte b -> 0 <= Z.land b 0x0F < 16 /\ 0 <= Z.shiftr b 4 < 16.
Proof.
  intros Hb. change 0x0F with (Z.ones 4). rewrite Z.land_ones, Z.shiftr_div_pow2 by lia. change (2 ^ 4) with 16.
  unfold is_byte in Hb. Z.div_mod_to_equations. lia.
Qed.

Section safe_frame.
Context (n : nat).

(** Reading a field of a frame. *)
Lemma safe_rd16 {B} p o (k : Z -> M net B) :
  all_bytes p -> 0 <= o -> o + 2 <= len p -> (forall v, is_u16 v -> safe n (k v)) -> safe n (lift (rd16 p o) ≫= k).
Proof. intros Hp Ho Hl Hk. apply safe_lift_bind. destruct (rd16_is_Some p o) as (v & E & Hv); eauto. Qed.
Lemma safe_rd32 {B} p o (k : Z -> M net B) :
  all_bytes p -> 0 <= o -> o + 4 <= len p -> (forall v, is_u32 v -> safe n (k v)) -> safe n (lift (rd32 p o) ≫= k).
Proof. intros Hp Ho Hl Hk. apply safe_lift_bind. destruct (rd32_is_Some p o) as (v & E & Hv); eauto. Qed.
Lemma safe_rd {B} p o (k : Z -> M net B) :
  all_bytes p -> 0 <= o -> o < len p -> (forall v, is_byte v -> safe n (k v)) -> safe n (lift (rd p o) ≫= k).
Proof. intros Hp Ho Hl Hk. apply safe_lift_bind. destruct (rd_is_byte p o) as (v & E & Hv); eauto. Qed.
Lemma safe_rd_bytes {B} p o l (k : list Z -> M net B) :
  all_bytes p -> 0 <= o -> 0 <= l -> o + l <= len p -> (forall v, len v = l -> all_bytes v -> safe n (k v)) ->
  safe n (lift (rd_bytes p o l) ≫= k).
Proof.
  intros Hp Ho H0 Hl Hk. apply safe_lift_bind. destruct (rd_bytes_is_Some p o l) as (v & E); [done..|].
  exists v. split; [done|]. apply Hk; [|by eapply rd_bytes_bytes]. by apply rd_bytes_Some in E as (_&_&_&?&_).
Qed.
Lemma safe_mem_is {B} p o x (k : bool -> M net B) :
  0 <= o -> o + len x <= len p -> (forall b, safe n (k b)) -> safe n (lift (mem_is p o x) ≫= k).
Proof. intros Ho Hl Hk. apply safe_lift_bind. destruct (rd_mem_is p o x) as (b & E); eauto. Qed.

Lemma tcp_in_safe f m : len f = 1600 -> all_bytes f -> safe n (tcp_in f m).
Proof.
  intros Lf Bf. unfold tcp_in. cbv zeta.
  assert (forall k, 0 <= k <= 1600 -> len (ptr f k) = 1600 - k /\ all_bytes (ptr f k)) as Hp.
  { intros k Hk. split; [|by apply ptr_bytes]. rewrite len_ptr; lia. }
  destruct (Hp IP_OFF ltac:(unfold IP_OFF; lia)) as [Li Bi]. unfold IP_OFF in *.
  apply safe_rd; [done|lia|lia|intros b0 B0].
  destruct (nibble_range b0 B0) as [Hl _]. set (ihl := Z.land b0 15 * 4) in *.
  rewrite ptr_ptr by lia. destruct (Hp (14 + ihl) ltac:(lia)) as [Lt Bt]. set (t := ptr f (14 + ihl)) in *.
  apply safe_rd16; [done|lia|lia|intros tot Htot]. apply safe_rd; [done|lia|lia|intros b12 B12].
  destruct (nibble_range b12 B12) as [_ Ho]. apply safe_rd; [done|lia|lia|intros flags Bfl].
  apply safe_rd16; [done|lia|lia|intros sport Hsp]. apply safe_rd16; [done|lia|lia|intros dport Hdp].
  apply safe_rd32; [done|lia|lia|intros seq Hseq]. apply safe_rd32; [done|lia|lia|intros ack Hack].
  apply safe_bind; [apply safe_gets|intros port]. case_decide; [apply safe_ret|]. case_decide as Hlen; [apply safe_ret|].
  apply safe_rd_bytes; [done|lia|lia|lia|intros srcip Ls Bs].
  apply safe_gets_bind. intros s0 Hs0 Hn0.
  assert (forall i, find_conn sport srcip (conns s0) = Some i -> (i < n)%nat) as Hfind.
  { intros i (c & E & _)%find_conn_Some. subst n. by eapply lookup_lt_Some. }
  destruct (find_conn sport srcip (conns s0)) as [i|].
  all: case_decide; [first [apply safe_reset|apply safe_ret]|].
  all: case_decide; [try apply safe_ret|].
  - specialize (Hfind i eq_refl).
    assert (safe n (tcp_estab i t flags (Z.shiftr b12 4 * 4) (u16 (tot - ihl) - Z.shiftr b12 4 * 4) seq ack)) as Hest.
    { apply estab_safe; try done; lia. }
    intros s Hs Hn. destruct (lookup_lt_is_Some_2 (conns s) i) as [c E]; [lia|]. pose proof (slot_wf i c s Hs E) as Hc.
    net_step. net_step. net_step; [|by apply Hest].
    net_step; [|by apply wp_ret]. net_step. eapply wp_set_the; [done|].
    destruct (decide (Z.land flags 16 <> 0 /\ ack = snd_nxt c)) as [[_ ->]|]; [|tauto].
    apply Hest; [|by rewrite with_conn_slots]. apply with_conn_wf; [done|]. by apply establish_wf.
  - apply safe_rd_bytes; [done|lia|lia|lia|intros mac Lm Bm]. by apply syn_safe.
  - apply safe_ret.
Qed.

(** A counter of the stack. *)
Lemma safe_count (f : net -> Z) `{!Upd f} v :
  (forall s, net_wf s -> net_wf (s <| f := v |>)) -> (forall s, conns (s <| f := v |>) = conns s) -> safe n (nset f v).
Proof. intros Hw Hc s Hs Hn. apply wp_nset. rewrite Hc. auto. Qed.

(** The first six bytes of a request the code answers. *)
Lemma arp_fixed a fixed : all_bytes a -> rd16 a 0 = Some 1 -> rd16 a 2 = Some ET_IP -> rd_bytes a 0 6 = Some fixed ->
  exists hl pl, fixed = [0x00; 0x01; 0x08; 0x00; hl; pl].
Proof.
  intros Ba E0 E2 (_ & _ & Hl & _ & ->)%rd_bytes_Some. destruct a as [|a0 [|a1 [|a2 [|a3 [|a4 [|a5 a]]]]]]; try (cbn in Hl; lia).
  repeat (apply Forall_cons in Ba as [? Ba]). change (Some (un_be16 a0 a1) = Some 1) in E0. change (Some (un_be16 a2 a3) = Some ET_IP) in E2.
  injection E0 as E0. injection E2 as E2. rewrite un_be16_sum in E0, E2 by done. unfold is_byte, ET_IP in *.
  assert (a0 = 0 /\ a1 = 1 /\ a2 = 8 /\ a3 = 0) as (-> & -> & -> & ->) by lia. exists a4, a5. cbn. by rewrite ?take_0.
Qed.
Lemma arp_safe f m : len f = 1600 -> all_bytes f -> m <= 1600 -> safe n (arp_in f m).
Proof.
  intros Lf Bf Hm s Hs Hn. unfold arp_in, ETH_HLEN. cbv zeta. case_decide; [by apply wp_ret|].
  pose proof Hs as [[Lg Bg] [Li Bi] _ _ _ _ _ _ _]. net_step. net_step. net_step. net_step.
  assert (len (ptr f 14) = 1586 /\ all_bytes (ptr f 14)) as [La Ba] by (split; [rewrite len_ptr; lia|by apply ptr_bytes]). revert La Ba.
  generalize (ptr f 14). intros a La Ba.
  destruct (rd16_is_Some a 0) as (htype & E0 & _); [done|lia..|]. destruct (rd16_is_Some a 2) as (ptype & E2 & _); [done|lia..|].
  destruct (rd16_is_Some a 6) as (op & E6 & _); [done|lia..|].
  apply wp_bind, (wp_lift _ htype); [done|]. apply wp_bind, (wp_lift _ ptype); [done|]. apply wp_bind, (wp_lift _ op); [done|].
  case_decide as H1; [by apply wp_ret|]. case_decide as H2; [by apply wp_ret|]. case_decide as H3; [by apply wp_ret|].
  subst htype ptype. clear H3.
  destruct (rd_mem_is a 24 (g_ip s)) as (b & Eb); [lia..|]. apply wp_bind, (wp_lift _ b); [done|]. destruct (negb b); [by apply wp_ret|].
  destruct (rd_bytes_is_Some a 0 6) as (fixed & Ef); [lia..|]. destruct (rd_bytes_is_Some a 8 6) as (them & Em); [lia..|].
  destruct (rd_bytes_is_Some a 14 4) as (tip & Et); [lia..|].
  apply wp_bind, (wp_lift _ fixed); [done|]. apply wp_bind, (wp_lift _ them); [done|]. apply wp_bind, (wp_lift _ tip); [done|].
  apply wp_bind, wp_pkt_send; [apply Hs|]. net_run. split; [|done].
  destruct (arp_fixed a fixed Ba E0 E2 Ef) as (hl & pl & ->).
  pose proof (rd_bytes_bytes _ _ _ _ Ba Ef) as Bx. pose proof (rd_bytes_bytes _ _ _ _ Ba Em) as Bm. pose proof (rd_bytes_bytes _ _ _ _ Ba Et) as Bt.
  apply rd_bytes_Some in Em as (_ & _ & _ & Lm & _). apply rd_bytes_Some in Et as (_ & _ & _ & Lt & _).
  destruct Hs. constructor; fld; try done. apply Forall_app_2; [done|]. apply Forall_singleton. split_and!.
  - rewrite !Forall_app. split_and!; first [done|apply be16_bytes].
  - rewrite !length_app. cbn [length wr16 be16]. lia.
  - left. by exists them, tip, hl, pl.
Qed.

Lemma handle_frame_safe f m : len f = 1600 -> all_bytes f -> m <= 1600 -> safe n (handle_frame f m).
Proof.
  intros Lf Bf Hm. unfold handle_frame, ETH_HLEN, IP_OFF. case_decide; [apply safe_ret|].
  apply safe_rd16; [done|lia|lia|intros et _]. case_decide; [by apply arp_safe|]. case_decide; [apply safe_ret|].
  case_decide; [apply safe_ret|]. apply safe_rd; [done|lia|lia|intros v _]. case_decide; [apply safe_ret|].
  apply safe_gets_bind; intros s [_ [Li _] _ _ _ _ _ _ _] _. apply safe_mem_is; [lia|lia|intros us]. destruct (negb us); [apply safe_ret|].
  apply safe_rd; [done|lia|lia|intros proto _]. apply safe_when. intros _. by apply tcp_in_safe.
Qed.

Lemma poll_safe : safe n net_poll.
Proof.
  unfold net_poll. apply safe_bind; [apply safe_each_slot, safe_timer|intros _].
  intros s Hs Hn. net_step. net_step. net_step. apply (wp_mono _ (fun _ s' => net_wf s' /\ length (conns s') = n)).
  2: { intros _ s' [? ?]. apply (safe_each_slot n _); [apply safe_output|done|done]. }
  pose proof (w_rx s Hs) as Hrx. destruct (rx s) as [pkt|]; [|by apply wp_ret].
  net_run. pose proof Hs as [? ? ? ? ? [Lw Bw] ? ? ?].
  apply handle_frame_safe; [|by apply Forall_app; split; [apply Forall_take|apply Forall_drop]|lia| |done].
  - rewrite length_app, length_take, length_drop. lia.
  - constructor; fld; try done. split; [|by apply Forall_app; split; [apply Forall_take|apply Forall_drop]].
    rewrite length_app, length_take, length_drop. lia.
Qed.

(** The byte interface. *)
Lemma in_slots_bind {B} i (k : bool -> M net B) :
  safe n (k false) -> (0 <= i < Z.of_nat n -> safe n (k true)) -> safe n (in_slots i ≫= k).
Proof.
  intros Hf Ht s Hs Hn. unfold in_slots. net_run. rewrite Hn. case_bool_decide; [by apply Ht|by apply Hf].
Qed.

End safe_frame.

(** ** The send ring *)

Definition s_push (ch : Z) (c : conn) : conn :=
  c <| sbuf := <[Z.to_nat (s_end c) := u8 ch]> (sbuf c) |> <| s_end := (s_end c + 1) mod 4096 |>.

Lemma queue_byte_wf ch c :
  conn_wf c -> s_full c = false ->
  conn_wf (s_push ch c).
Proof.
  intros [] Hf. unfold s_push. unfold s_full, s_used, SND_SZ in *. rewrite snd_land in Hf. apply bool_decide_eq_false in Hf.
  constructor; fld; unfold inflight, queued, SND_SZ in *; fld; try done.
  - rewrite length_insert. split; [apply w_sbuf0|]. apply Forall_insert; [apply w_sbuf0|apply u8_byte].
  - destruct w_send0 as (?&?&?). split; [done|split; [done|]]. apply Z.mod_pos_bound; lia.
  - clear -w_order0 w_send0 Hf. Z.div_mod_to_equations. lia.
Qed.

Lemma s_push_queue ch c : conn_wf c -> s_full c = false -> send_queue (s_push ch c) = send_queue c ++ [u8 ch].
Proof.
  intros [_ _ _ _ [Ls _] _ (H1&H2&H3) _ _ _ _] Hf. unfold s_full, s_used, SND_SZ in *. rewrite snd_land in Hf.
  apply bool_decide_eq_false in Hf.
  assert (queued (s_push ch c) = queued c + 1) as Eq.
  { unfold queued, s_push. fld. clear -H1 H3 Hf. Z.div_mod_to_equations. lia. }
  assert (0 <= queued c < 4095) as Hq by (unfold queued in *; pose proof (Z.mod_pos_bound (s_end c - s_una c) 4096); lia).
  unfold send_queue. rewrite Eq. replace (Z.to_nat (queued c + 1)) with (S (Z.to_nat (queued c))) by lia.
  unfold s_ring. assert (s_una (s_push ch c) = s_una c) as -> by done.
  apply ring_list_push; [lia|lia|]. intros j Hj. unfold s_at, s_push. fld. rewrite lookup_total_store by lia.
  replace ((s_una c + Z.of_nat (Z.to_nat (queued c))) mod 4096) with (s_end c); [done|].
  unfold queued. rewrite Z2Nat.id by (apply Z.mod_pos_bound; lia). clear -H1 H3. Z.div_mod_to_equations. lia.
Qed.

Lemma queue_byte_run i ch c Q s :
  conns s !! i = Some c -> conn_wf c -> Q tt (with_conn i (s_push ch c) s) -> wp (queue_byte i ch) Q s.
Proof.
  intros E Hc HQ. unfold queue_byte. net_step. net_step. net_step.
  apply wp_poke. { pose proof Hc as [_ _ _ _ [-> _] _ (_&_&?) _ _ _ _]. done. }
  eapply wp_set_the; [done|]. rewrite snd_land. exact HQ.
Qed.

Section api_safe.
Context (n : nat).

Lemma putc_slot_safe i ch : safe n (net_tx_putc_slot i ch).
Proof.
  unfold net_tx_putc_slot. apply in_slots_bind; cbn [negb]; [apply safe_ret|intros Hi].
  intros s Hs Hn. destruct (lookup_lt_is_Some_2 (conns s) (Z.to_nat i)) as [c E]; [lia|].
  pose proof (slot_wf _ c s Hs E) as Hc. net_step. net_step. net_step; [by apply wp_ret|]. net_step.
  eapply queue_byte_run; [done..|]. apply wp_ret. rewrite with_conn_slots. split; [|done].
  apply with_conn_wf; [done|]. by apply queue_byte_wf.
Qed.

Lemma flag_wf (c c' : conn) :
  conn_wf c -> c' <| just_estab := false |> <| ready := false |> = c <| just_estab := false |> <| ready := false |> -> conn_wf c'.
Proof.
  intros [] E. destruct c, c'. cbn in E. injection E. intros. subst. by constructor.
Qed.
Lemma ready_safe i v : safe n (net_slot_ready i v).
Proof.
  unfold net_slot_ready. apply in_slots_bind; cbn [when]; [apply safe_ret|intros Hi].
  apply safe_set_conn. intros c Hc. eapply flag_wf; [done|]. by destruct c.
Qed.
Lemma take_new_safe : safe n net_take_new_slot.
Proof.
  unfold net_take_new_slot. apply safe_gets_bind. intros s _ _. destruct (first_slot _ _ _); [|apply safe_ret].
  apply safe_bind; [|intros _; apply safe_ret]. apply safe_set_conn. intros c Hc. eapply flag_wf; [done|]. by destruct c.
Qed.
Lemma drop_safe i : safe n (net_slot_drop i).
Proof.
  unfold net_slot_drop. apply in_slots_bind; cbn [negb]; [apply safe_ret|intros Hi].
  apply safe_the_conn; [lia|intros c Hc]. apply safe_bind; [|intros _; apply safe_reset].
  apply safe_when. intros _. apply safe_send_ack; [lia|unfold is_byte; lia].
Qed.
Lemma flush_safe : safe n net_tx_flush.
Proof. apply safe_each_slot, safe_output. Qed.
Lemma getc_safe i : safe n (net_rx_getc i).
Proof.
  unfold net_rx_getc. apply in_slots_bind; cbn [negb]; [apply safe_ret|intros Hi].
  apply safe_the_conn; [lia|intros c Hc]. case_decide; [apply safe_ret|].
  pose proof (w_rbuf c Hc) as [Lr Br]. pose proof (w_recv c Hc) as [H1 H2].
  apply safe_lift_bind. destruct (rd_is_byte (rbuf c) (r_tail c) Br) as (v & E & Hv); [lia|]. exists v. split; [done|].
  apply safe_bind; [|intros _; apply safe_ret]. apply safe_set_conn. intros c' [].
  constructor; fld; try done. rewrite rcv_land. split; [apply w_recv0|]. apply Z.mod_pos_bound. unfold RCV_SZ. lia.
Qed.
Lemma connected_safe i : safe n (net_slot_connected i).
Proof.
  unfold net_slot_connected. apply in_slots_bind; cbn [negb]; [apply safe_ret|intros Hi].
  apply safe_the_conn; [lia|intros c Hc]. apply safe_ret.
Qed.
End api_safe.
