(* ===== verification/NetProps.v ===== *)
(** * What the TCP/IP stack guarantees (src/dosshd/net.c)

    The stack as a transition system and its reachable states; the sender, the
    receiver and the broadcast as operations on byte queues; the two places where
    the code does not do what it means to. *)
From Stdlib Require Import ZArith Lia.
From stdpp Require Import base list numbers.
From S2P Require Import Prelude SshWire NetSum Net NetInv.
Local Open Scope Z_scope.

(** ** The broadcast *)

(** An admitted client with a full ring is dead when it has stopped
    acknowledging, and slow otherwise. *)
Definition dead (c : conn) : bool := admitted c && s_full c && bool_decide (rexmit_count c > 0).
Definition slow (c : conn) : bool := admitted c && s_full c && negb (dead c).
Definition evict (c : conn) : conn := if dead c then reset_listen c else c.
Definition put_admitted (ch : Z) (c : conn) : conn := if admitted c then s_push ch c else c.

Lemma lookup_split {A} (l : list A) i x : l !! i = Some x -> l = take i l ++ x :: drop (S i) l.
Proof. intros E. by rewrite take_drop_middle. Qed.

Lemma putc_room_wp k : forall i s l r,
  conns s = l ++ r -> length l = i -> length r = k ->
  wp (putc_room k i) (fun ok s' =>
    if existsb slow r then ok = false /\ exists r', conns s' = l ++ r' /\ Forall2 (fun c c' => c' = c \/ dead c = true /\ c' = evict c) r r'
      /\ s' = s <| conns := l ++ r' |>
    else ok = true /\ s' = s <| conns := l ++ (evict <$> r) |>) s.
Proof.
  induction k as [|k IH]; intros i s l r E Hl Hr; cbn [putc_room].
  { destruct r; [|done]. apply wp_ret. cbn. split; [done|]. rewrite <- E. by destruct s. }
  destruct r as [|c r]; [done|]. injection Hr as Hr.
  assert (conns s !! i = Some c) as Ec by (rewrite E; by apply list_lookup_middle).
  net_step. net_step. cbn [existsb].
  assert (forall s1 c1, s1 = s <| conns := l ++ c1 :: r |> -> slow c = false -> (c1 = c \/ dead c = true /\ c1 = evict c) -> evict c = c1 ->
    wp (putc_room k (S i)) (fun ok s' =>
    if slow c || existsb slow r then ok = false /\ exists r', conns s' = l ++ r' /\ Forall2 (fun c c' => c' = c \/ dead c = true /\ c' = evict c) (c :: r) r'
      /\ s' = s <| conns := l ++ r' |>
    else ok = true /\ s' = s <| conns := l ++ (evict <$> c :: r) |>) s1) as Hgo.
  { intros s1 c1 E1 -> Hor Hev. cbn [orb].
    eapply wp_mono; [apply (IH (S i) s1 (l ++ [c1]) r)|].
    - subst s1. fld. by rewrite <- app_assoc.
    - rewrite length_app. cbn. lia.
    - done.
    - cbn beta. intros ok s' Hk. destruct (existsb slow r).
      + destruct Hk as (-> & r' & E2 & F & E3). split; [done|]. exists (c1 :: r').
        rewrite <- app_assoc in *. split; [done|]. split; [by constructor|]. rewrite E3, E1. done.
      + destruct Hk as (-> & ->). split; [done|]. rewrite <- app_assoc, E1. cbn [fmap list_fmap app]. by rewrite Hev. }
  assert (s = s <| conns := l ++ c :: r |>) as Es by (rewrite <- E; by destruct s).
  net_step.
  - net_step; [net_step; eapply wp_set_the; [done|]; eapply Hgo|].
    + unfold with_conn. rewrite E. rewrite insert_app_r_alt by lia. subst i. by rewrite Nat.sub_diag.
    + unfold slow, dead. rewrite Heqb. case_bool_decide; [done|tauto].
    + right. unfold evict, dead. rewrite Heqb. case_bool_decide; [done|tauto].
    + unfold evict, dead. rewrite Heqb. case_bool_decide; [done|tauto].
    + net_step. unfold slow, dead. rewrite Heqb. case_bool_decide as Hd; [tauto|]. cbn. split; [done|].
      exists (c :: r). split; [done|]. split; [|done]. apply Forall_Forall2_diag, Forall_true. by left.
  - eapply Hgo; [done|..].
    + unfold slow. by rewrite Heqb.
    + by left.
    + unfold evict, dead. by rewrite Heqb.
Qed.

Lemma put_all_wp ch k : forall i s l r,
  conns s = l ++ r -> length l = i -> length r = k -> Forall conn_wf r ->
  wp (for_slots k i (fun i => c ← the_conn i; when (admitted c) (queue_byte i ch)))
     (fun _ s' => s' = s <| conns := l ++ (put_admitted ch <$> r) |>) s.
Proof.
  induction k as [|k IH]; intros i s l r E Hl Hr Hw; cbn [for_slots].
  { destruct r; [|done]. apply wp_ret. cbn. rewrite <- E. by destruct s. }
  destruct r as [|c r]; [done|]. injection Hr as Hr. apply Forall_cons in Hw as [Hc Hw].
  assert (conns s !! i = Some c) as Ec by (rewrite E; by apply list_lookup_middle).
  net_step. net_step. net_step.
  apply (wp_mono _ (fun _ s1 => s1 = s <| conns := l ++ put_admitted ch c :: r |>)).
  - unfold put_admitted. destruct (admitted c); cbn [when].
    + apply (queue_byte_run i ch c); [done..|]. unfold with_conn. rewrite E, insert_app_r_alt by lia. subst i. by rewrite Nat.sub_diag.
    + apply wp_ret. rewrite <- E. by destruct s.
  - intros _ s1 ->. eapply wp_mono; [apply (IH _ _ (l ++ [put_admitted ch c]) r)|].
    + fld. by rewrite <- app_assoc.
    + rewrite length_app. cbn. lia.
    + done.
    + done.
    + cbn beta. intros _ s' ->. rewrite <- app_assoc. done.
Qed.

(** What one successful call of [net_tx_putc] makes of a slot. *)
Definition broadcast (ch : Z) (c : conn) : conn := put_admitted ch (evict c).

Lemma evict_admitted c : admitted (evict c) = admitted c && negb (dead c).
Proof.
  unfold evict. destruct (dead c) eqn:Ed; [|by rewrite andb_true_r]. rewrite andb_false_r. reflexivity.
Qed.

Lemma Forall_fmap_wf (f : conn -> conn) l : (forall c, conn_wf c -> conn_wf (f c)) -> Forall conn_wf l -> Forall conn_wf (f <$> l).
Proof. intros Hf Hl. apply Forall_fmap. eapply Forall_impl; [done|]. apply Hf. Qed.
Lemma evict_wf c : conn_wf c -> conn_wf (evict c).
Proof. intros Hc. unfold evict. destruct (dead c); [by apply reset_listen_wf|done]. Qed.

Lemma existsb_none {A} (f : A -> bool) l x : existsb f l = false -> x ∈ l -> f x = false.
Proof.
  induction l as [|y l IH]; cbn; [by intros _ ?%elem_of_nil|]. intros [Hy Hl]%orb_false_elim [->|Hx]%elem_of_cons; [done|auto].
Qed.

Lemma putc_wp ch s :
  net_wf s ->
  wp (net_tx_putc ch) (fun r s' =>
    if existsb slow (conns s) then
      r = 0 /\ exists r', Forall2 (fun c c' => c' = c \/ dead c = true /\ c' = evict c) (conns s) r' /\ s' = s <| conns := r' |>
    else r = 1 /\ s' = s <| conns := broadcast ch <$> conns s |>) s.
Proof.
  intros Hs. pose proof (w_conns s Hs) as Hw. unfold net_tx_putc. net_step. net_step. net_step.
  eapply wp_mono; [apply (putc_room_wp _ 0 s [] (conns s)); done|]. cbn [app].
  intros ok s1 H1. destruct (existsb slow (conns s)) eqn:Ex.
  - destruct H1 as (-> & r' & Er & Hf & ->). apply wp_ret. eauto.
  - destruct H1 as (-> & ->). net_step. unfold each_slot. net_step. net_step. 
    eapply wp_mono; [apply (put_all_wp ch _ 0 _ [] (evict <$> conns s)); fld; try done|].
    + by apply Forall_fmap_wf; [apply evict_wf|].
    + cbn [app]. intros _ s2 ->. apply wp_ret. split; [done|]. rewrite <- list_fmap_compose. done.
Qed.

(** The byte goes to the end of the queue of a live admitted client. *)
Lemma broadcast_cases ch c :
  conn_wf c -> slow c = false ->
  if dead c then broadcast ch c = reset_listen c
  else if admitted c then broadcast ch c = s_push ch c /\ send_queue (broadcast ch c) = send_queue c ++ [u8 ch]
  else broadcast ch c = c.
Proof.
  intros Hc Hslow. unfold broadcast, put_admitted. rewrite evict_admitted. unfold slow in Hslow. unfold evict.
  destruct (dead c) eqn:Ed; [by rewrite andb_false_r|]. rewrite andb_true_r.
  destruct (admitted c); [|done]. split; [done|]. apply s_push_queue; [done|]. by destruct (s_full c).
Qed.
Lemma broadcast_wf ch c : conn_wf c -> slow c = false -> conn_wf (broadcast ch c).
Proof.
  intros Hc Hslow. pose proof (broadcast_cases ch c Hc Hslow) as H. destruct (dead c) eqn:Ed; [rewrite H; by apply reset_listen_wf|].
  destruct (admitted c) eqn:Ea; [|by rewrite H]. destruct H as [-> _]. apply queue_byte_wf; [done|].
  unfold slow in Hslow. rewrite Ed, Ea in Hslow. by destruct (s_full c).
Qed.
Lemma putc_safe n ch : safe n (net_tx_putc ch).
Proof.
  intros s Hs Hn. pose proof (w_conns s Hs) as Hw. eapply wp_mono; [by apply putc_wp|]. cbn beta. intros r s'.
  destruct (existsb slow (conns s)) eqn:Ex.
  - intros (_ & r' & Hf & ->). fld. split; [|by erewrite <- Forall2_length].
    destruct Hs. constructor; fld; try done. eapply Forall2_Forall_r; [done|].
    eapply Forall_impl; [done|]. intros c Hc c' [->|[_ ->]]; [done|by apply evict_wf].
  - intros (_ & ->). fld. rewrite length_fmap. split; [|done]. destruct Hs. constructor; fld; try done.
    apply Forall_fmap, Forall_forall. intros c Hin. apply broadcast_wf; [by eapply Forall_forall|by eapply existsb_none].
Qed.

(** [net_tx_putc] is all or none.  When no admitted client is slow it
    returns 1, appends the byte at the end of the send queue of every admitted
    live client, resets the dead ones and leaves every other slot (in particular
    every slot not admitted) exactly as it was.  Otherwise it returns 0 and no
    slot changes except that dead clients may have been reset. *)
Theorem broadcast_all_or_none ch s :
  net_wf s ->
  wp (net_tx_putc ch) (fun r s' =>
    if existsb slow (conns s) then
      r = 0 /\ tx s' = tx s /\ Forall2 (fun c c' => c' = c \/ dead c = true /\ c' = reset_listen c) (conns s) (conns s')
    else
      r = 1 /\ tx s' = tx s /\ Forall2 (fun c c' =>
        if dead c then c' = reset_listen c
        else if admitted c then c' = s_push ch c /\ send_queue c' = send_queue c ++ [u8 ch]
        else c' = c) (conns s) (conns s')) s.
Proof.
  intros Hs. pose proof (w_conns s Hs) as Hw. eapply wp_mono; [by apply putc_wp|]. cbn beta. intros r s'.
  destruct (existsb slow (conns s)) eqn:Ex.
  - intros (-> & r' & Hf & ->). fld. split_and!; try done.
    eapply Forall2_impl; [done|]. cbn beta. intros c c' [->|[Hd ->]]; [by left|]. right. unfold evict. by rewrite Hd.
  - intros (-> & ->). fld. split_and!; try done. apply Forall2_fmap_r, Forall_Forall2_diag, Forall_forall.
    intros c Hin. assert (slow c = false) as Hslow by (by eapply existsb_none).
    pose proof (broadcast_cases ch c ltac:(by eapply Forall_forall) Hslow) as H.
    destruct (dead c); [done|]. destruct (admitted c); [|done]. by destruct H as [<- ?].
Qed.

(** ** The stack as a transition system *)

(** What can happen to the stack: time passes, the driver stores a frame (it is
    lost while the previous one has not been taken), the framing code calls. *)
Inductive net_event :=
  | Tick (t : Z) | Frame (p : list Z) | Poll | Putc (ch : Z) | Putc_slot (i ch : Z)
  | Slot_ready (i v : Z) | Slot_drop (i : Z) | Flush | Getc (i : Z) | Take_new.

Definition net_act (e : net_event) : M net unit :=
  match e with
  | Tick t => nset tick t
  | Frame p => busy ← gets rx; match busy with None => nset rx (Some p) | Some _ => skip end
  | Poll => net_poll
  | Putc ch => net_tx_putc ch ;; mret tt
  | Putc_slot i ch => net_tx_putc_slot i ch ;; mret tt
  | Slot_ready i v => net_slot_ready i v
  | Slot_drop i => net_slot_drop i
  | Flush => net_tx_flush
  | Getc i => net_rx_getc i ;; mret tt
  | Take_new => net_take_new_slot ;; mret tt
  end.
Definition event_ok (e : net_event) : Prop :=
  match e with Tick t => is_u32 t | Frame p => all_bytes p | _ => True end.

(** The states of a stack of [n] slots that [net_open] has started. *)
Inductive reachable (n : nat) : net -> Prop :=
  | reach_open mac a b c d port s :
      len mac = 6 -> all_bytes mac -> is_byte a -> is_byte b -> is_byte c -> is_byte d -> is_u16 port ->
      net_open true mac a b c d port (net0 n) = Some (1, s) -> reachable n s
  | reach_act e s s' : reachable n s -> event_ok e -> net_act e s = Some (tt, s') -> reachable n s'.

Lemma net_act_safe n e : event_ok e -> safe n (net_act e).
Proof.
  intros He. destruct e; cbn [net_act event_ok] in *.
  - intros s [] Hn. apply wp_nset. split; [by constructor; fld|done].
  - apply safe_gets_bind. intros s0 _ _. destruct (rx s0); [apply safe_ret|].
    intros s [] Hn. apply wp_nset. split; [by constructor; fld|done].
  - apply poll_safe.
  - apply safe_bind; [apply putc_safe|intros; apply safe_ret].
  - apply safe_bind; [apply putc_slot_safe|intros; apply safe_ret].
  - apply ready_safe.
  - apply drop_safe.
  - apply flush_safe.
  - apply safe_bind; [apply getc_safe|intros; apply safe_ret].
  - apply safe_bind; [apply take_new_safe|intros; apply safe_ret].
Qed.

Lemma conn0_wf : conn_wf conn0.
Proof.
  constructor; cbn -[repeat Z.of_nat]; rewrite ?repeat_length; unfold is_u16, is_u32, SND_SZ, RCV_SZ, inflight, queued, TS_LISTEN; cbn -[repeat Z.of_nat];
    repeat split; try apply zeros_bytes; try lia.
Qed.
Lemma net0_wf n : net_wf (net0 n).
Proof.
  constructor; cbn -[repeat Z.of_nat]; rewrite ?repeat_length; unfold is_u16, is_u32; repeat split; try apply zeros_bytes; try lia.
  - induction n; constructor; [apply conn0_wf|done].
  - constructor.
Qed.

Lemma keeps_tx_slots k : forall i body, (forall i, keeps tx (body i)) -> keeps tx (for_slots k i body).
Proof. induction k as [|k IH]; intros i body Hb; cbn [for_slots]; [done|]. apply keeps_bind; [apply Hb|]. intros _. by apply IH. Qed.
Lemma open_wf n mac a b c d port :
  len mac = 6 -> all_bytes mac -> is_byte a -> is_byte b -> is_byte c -> is_byte d -> is_u16 port ->
  wlp (net_open true mac a b c d port) (fun _ s => net_wf s /\ length (conns s) = n) (net0 n).
Proof.
  intros Lm Bm Ba Bb Bc Bd Hp. unfold net_open. do 3 apply wlp_bind, wlp_modify.
  match goal with |- wlp _ _ ?x => assert (net_wf x /\ length (conns x) = n /\ tx x = []) as (W & Hn & Ht); [|generalize dependent x; intros s W Hn Ht] end.
  { split; [|split; [apply repeat_length|done]]. destruct (net0_wf n). constructor; fld; try done.
    split; [done|do 4 (apply Forall_cons; split; [done|]); constructor]. }
  apply wlp_bind. eapply wlp_mono; [apply (wlp_and _ (fun _ s' => net_wf s' /\ length (conns s') = n) (fun _ s' => tx s' = tx s))|].
  - apply wp_wlp. revert W Hn. generalize s. apply safe_each_slot. intros i Hi. apply safe_bind; [apply safe_reset|intros _].
    apply safe_set_conn. intros k Hk. eapply flag_wf; [done|]. by destruct k.
  - unfold each_slot. apply wlp_bind, wlp_gets. apply keeps_tx_slots. intros i. by apply keeps_bind.
  - cbn beta. intros _ s1 [[W1 Hn1] Ht1]. apply wlp_bind, wlp_modify, wlp_ret. split; [|done].
    destruct W1. constructor; fld; try done. by rewrite Ht1, Ht.
Qed.

Lemma reachable_wf n s : reachable n s -> net_wf s /\ length (conns s) = n.
Proof.
  induction 1 as [mac a b c d port s Lm Bm Ba Bb Bc Bd Hp E|e s s' _ [Hw Hn] He E].
  - exact (wlp_Some _ _ _ _ _ (open_wf n mac a b c d port Lm Bm Ba Bb Bc Bd Hp) E).
  - pose proof (net_act_safe n e He s Hw Hn) as H. unfold wp in H. by rewrite E in H.
Qed.

(** ** Safety *)

(** C10: In every state the stack can reach, whatever frames arrive and however
    the framing code calls it, the invariant of the slots holds (ring indices in
    range, una <= nxt <= end, sequence numbers that agree with the ring) and the
    next operation runs to its end without an access outside a buffer. *)
Theorem stack_safe n s e :
  reachable n s -> event_ok e ->
  net_wf s /\ length (conns s) = n /\ exists s', net_act e s = Some (tt, s').
Proof.
  intros Hr He. destruct (reachable_wf n s Hr) as [Hw Hn]. split; [done|]. split; [done|].
  pose proof (net_act_safe n e He s Hw Hn) as H. unfold wp in H. destruct (net_act e s) as [[[] s']|]; [eauto|done].
Qed.

(** C38: Every frame the stack hands to the driver fits an Ethernet frame and is, byte
    by byte, an ARP reply (opcode 2) that sends the stack's two addresses to the one
    that asked, or an IPv4 packet from the stack's address with the right length,
    header checksum and protocol number around a TCP segment from the stack's port
    with the right data offset and checksum; the only option ever sent is the
    maximum segment size. *)
Theorem frames_valid n s f : reachable n s -> f ∈ tx s -> frame_ok (g_mac s) (g_ip s) (my_port s) f.
Proof. intros Hr Hf. destruct (reachable_wf n s Hr) as [Hw _]. by eapply Forall_forall; [apply Hw|]. Qed.

(** ** The sender *)

(** C12: [tcp_output] sends exactly the bytes not yet sent, in order: the segments
    of the frames it emits carry consecutive sequence numbers from [snd_nxt], at
    most [MSS_TX] bytes each, and their payloads put together are the unsent bytes
    of the ring; nothing is dropped from the ring. *)
Theorem output_in_order i c s :
  net_wf s -> conns s !! i = Some c -> tstate c = TS_ESTAB ->
  wp (tcp_output i) (fun _ s' => exists c' frames gs,
    conns s' = <[i := c']> (conns s) /\ tx s' = tx s ++ frames /\
    mapM seg_view frames = Some gs /\ Forall (seg_of s c) gs /\
    contiguous (snd_nxt c) gs /\ concat (v_data <$> gs) = unsent_bytes c /\
    snd_nxt c' = u32 (snd_nxt c + len (unsent_bytes c)) /\ unsent_bytes c' = [] /\ send_queue c' = send_queue c) s.
Proof.
  intros Hs E Ht. unfold tcp_output. net_step. net_step. net_step; [done|]. rewrite snd_land. fold (unsent c).
  assert (0 <= unsent c < 4096) as Hu by (apply Z.mod_pos_bound; lia).
  eapply wp_mono; [apply output_loop_wp; try done; lia|]. cbn beta.
  intros _ s' (c' & frames & gs & _ & P2 & P3 & _ & P5 & P6 & P7 & P8 & P9 & P10 & P11 & P12).
  exists c', frames, gs. split_and!; try done.
  - unfold unsent_bytes. rewrite s_ring_length, Z2Nat.id by lia. done.
  - pose proof (f_equal s_end P12) as X. unfold but_sent in X. revert X. fld. intros X.
    unfold unsent_bytes, unsent. by rewrite X, P10, Z.sub_diag.
  - pose proof (f_equal s_end P12) as X. pose proof (f_equal s_una P12) as Y. pose proof (f_equal sbuf P12) as W.
    unfold but_sent in X, Y, W. revert X Y W. fld. intros X Y W. unfold send_queue, queued. rewrite X, Y.
    apply ring_list_ext. intros k _. unfold s_at. by rewrite W.
Qed.

(** An acknowledgement that covers [k] of the bytes in flight releases exactly
    the first [k] bytes of the send queue; every other acknowledgement (old, or of
    bytes never sent) changes nothing. *)
Theorem ack_exact now ack c :
  conn_wf c -> tstate c = TS_ESTAB -> is_u32 ack ->
  let k := u32 (ack - snd_una c) in
  if decide (0 < k <= inflight c) then
    send_queue (ack_conn now ack c) = drop (Z.to_nat k) (send_queue c) /\
    unsent_bytes (ack_conn now ack c) = unsent_bytes c /\
    snd_una (ack_conn now ack c) = ack /\ rexmit_count (ack_conn now ack c) = 0
  else ack_conn now ack c = c.
Proof.
  intros Hc Ht Ha k. pose proof Hc as [_ _ _ _ _ _ (H1&H2&H3) _ (S1&S2&_) Ho Hag]. rewrite decide_True in Hag by done.
  assert (0 <= inflight c < 4096) as Hi by (apply Z.mod_pos_bound; lia).
  destruct (decide (0 < k <= inflight c)) as [Hk|Hk].
  - unfold ack_conn. rewrite decide_True.
    2: { clear -Hk Hag Hi S1 S2 Ha. unfold k in *. clear k. wrap_lia. }
    fold k. rewrite (u16_id k) by (unfold is_u16; lia). rewrite snd_land. split_and!; fld; try done.
    unfold send_queue, queued, s_ring. fld.
      assert ((s_end c - (s_una c + k) mod 4096) mod 4096 = queued c - k) as ->.
      { unfold queued, inflight, SND_SZ in *. clear -H1 H2 H3 Ho Hk. Z.div_mod_to_equations. lia. }
      replace (Z.to_nat (queued c - k)) with (Z.to_nat (queued c) - Z.to_nat k)%nat by (unfold queued in *; lia).
      fold (queued c). rewrite <- ring_list_drop by lia. rewrite Z2Nat.id by lia. reflexivity.
  - destruct (ack_conn_cases now ack c Hc Ht Ha) as [E|(m & Hm & Em & _)]; [done|]. exfalso. apply Hk. unfold k. subst ack.
    clear -Hm Hi S1. wrap_lia.
Qed.

(** ** The receiver *)

(** C11: The data of an in-order segment is appended to the slot's receive queue
    as far as it fits, exactly the stored bytes are acknowledged, and the
    acknowledgement advertises the space that is left; data out of order changes
    nothing and is answered by repeating the acknowledgement. *)
Theorem data_in_order i c t toff dlen seq s :
  net_wf s -> conns s !! i = Some c -> all_bytes t -> 0 <= toff -> 0 < dlen -> toff + 511 <= len t ->
  wp (tcp_data i t toff dlen seq) (fun _ s' => exists c' f,
    conns s' = <[i := c']> (conns s) /\ tx s' = tx s ++ [f] /\
    seg_view f = Some (Seg (peer_ip c) (my_port s) (peer_port c) (snd_nxt c) (rcv_nxt c') 0x10 (Z.of_nat (r_free c')) []) /\
    if decide (seq = rcv_nxt c) then
      r_queue c' = r_queue c ++ take (Z.to_nat dlen `min` r_free c) (ptr t toff) /\
      rcv_nxt c' = u32 (rcv_nxt c + Z.of_nat (Z.to_nat dlen `min` r_free c))
    else c' = c) s.
Proof.
  intros Hs E Ht Ho Hd Hl. pose proof (slot_wf i c s Hs E) as Hc.
  eapply wp_mono; [apply (tcp_data_wp i c); try done; lia|]. cbn beta. intros _ s'. rewrite decide_False by lia.
  intros (c' & -> & K). exists c', (seg_frame s c' 0x10 false []).
  assert (conn_wf c') as Hc' by (case_decide; [apply K|by subst]).
  assert (forall T (f : conn -> T), (if decide (seq = rcv_nxt c) then f ((but_rbuf c') <| rcv_nxt := 0 |>) else f c')
     = if decide (seq = rcv_nxt c) then f ((but_rbuf c) <| rcv_nxt := 0 |>) else f c) as F.
  { intros T f. case_decide; [f_equal; apply K|by subst]. }
  split_and!; try done.
  - rewrite seg_view_frame by done. f_equal. 
    pose proof (F _ peer_ip) as X. pose proof (F _ peer_port) as Y. pose proof (F _ snd_nxt) as W. unfold but_rbuf in X, Y, W. revert X Y W. fld.
    assert (window c' = Z.of_nat (r_free c')) as ->.
    { unfold window, r_free, r_used. pose proof (Z.mod_pos_bound (r_head c' - r_tail c') 512). lia. }
    case_decide; by intros -> -> ->.
  - case_decide; [|done]. split; apply K.
Qed.

(** ** A handshake that cannot be repeated *)






(** ** Instances *)

Definition demo_mac : list Z := [2; 0; 0; 0; 0; 9].
Definition demo_ip : list Z := [10; 0; 2; 2].
(** A slot after the SYN|ACK, after the handshake, and admitted with "Hi" queued. *)
Definition demo_half : conn :=
  let c := syn_conn 0 0 1000 5000 demo_mac demo_ip conn0 in
  c <| snd_nxt := u32 (snd_nxt c + 1) |> <| rexmit_at := u32 (0 + REXMIT_TICKS) |>.
Definition demo_estab : conn := (establish (snd_nxt demo_half) demo_half) <| ready := true |>.
Definition demo_conn : conn := s_push 105 (s_push 72 demo_estab).
Definition demo_net (c : conn) : net := with_conn 0 c (net0 1).

Lemma demo_half_wf : conn_wf demo_half.
Proof.
  unfold demo_half. apply (syn_sent_wf 0); [|done]. apply syn_conn_wf; try done; try apply conn0_wf; repeat constructor; done.
Qed.
Lemma demo_estab_wf : conn_wf demo_estab.
Proof. apply (flag_wf (establish (snd_nxt demo_half) demo_half)); [|done]. apply establish_wf; [apply demo_half_wf|done]. Qed.
Lemma demo_conn_wf : conn_wf demo_conn.
Proof. do 2 (apply queue_byte_wf; [|done]). apply demo_estab_wf. Qed.
Lemma demo_net_wf c : conn_wf c -> net_wf (demo_net c).
Proof. intros Hc. by apply with_conn_wf; [apply net0_wf|]. Qed.

Lemma broadcast_all_or_none_witness :
  net_wf (demo_net demo_conn) /\ wp (net_tx_putc 33) (fun r s' => r = 1 /\ exists c', conns s' = [c'] /\ send_queue c' = [72; 105; 33]) (demo_net demo_conn).
Proof.
  pose proof (demo_net_wf _ demo_conn_wf) as Hw. split; [exact Hw|].
  eapply wp_mono; [exact (broadcast_all_or_none 33 (demo_net demo_conn) Hw)|]. cbn beta.
  assert (existsb slow (conns (demo_net demo_conn)) = false) as -> by (vm_compute; reflexivity).
  assert (dead demo_conn = false /\ admitted demo_conn = true) as [Hd Ha] by (vm_compute; split; reflexivity).
  assert (send_queue demo_conn = [72; 105]) as Hq by (vm_compute; reflexivity).
  intros r s' (-> & _ & Hf). split; [reflexivity|]. change (conns (demo_net demo_conn)) with [demo_conn] in Hf.
  apply Forall2_cons_inv_l in Hf as (c' & l' & Hc & Hl & E).
  apply Forall2_nil_inv_l in Hl. subst l'. rewrite Hd, Ha in Hc. destruct Hc as [_ Hc].
  exists c'. split; [exact E|]. rewrite Hc, Hq. reflexivity.
Defined.

Lemma output_in_order_witness :
  wp (tcp_output 0) (fun _ s' => exists frames gs, tx s' = frames /\ mapM seg_view frames = Some gs /\ concat (v_data <$> gs) = [72; 105])
    (demo_net demo_conn).
Proof.
  eapply wp_mono; [exact (output_in_order 0 demo_conn (demo_net demo_conn) (demo_net_wf _ demo_conn_wf) eq_refl eq_refl)|].
  assert (unsent_bytes demo_conn = [72; 105]) as Hq by (vm_compute; reflexivity).
  cbn beta. intros _ s' (c' & frames & gs & _ & Ht & Hv & _ & _ & Hc & _). exists frames, gs. rewrite Hc, Hq, Ht. auto.
Defined.

Lemma ack_exact_witness :
  let c := advance 0 2 demo_conn in
  inflight c = 2 /\ send_queue (ack_conn 7 (u32 (snd_una c + 1)) c) = [105].
Proof.
  destruct (advance_spec 0 2 demo_conn demo_conn_wf eq_refl) as (W & T & _); [vm_compute; split; discriminate|].
  split; [vm_compute; reflexivity|].
  assert (is_u32 (u32 (snd_una (advance 0 2 demo_conn) + 1))) as Hu by apply u32_range.
  pose proof (ack_exact 7 (u32 (snd_una (advance 0 2 demo_conn) + 1)) (advance 0 2 demo_conn) W T Hu) as H.
  cbv zeta in H. rewrite decide_True in H by (vm_compute; split; [reflexivity|discriminate]). destruct H as [-> _]. vm_compute. reflexivity.
Defined.

Lemma data_in_order_witness :
  wp (tcp_data 0 (repeat 65 600) 20 3 1001) (fun _ s' => exists c', conns s' = [c'] /\ r_queue c' = [65; 65; 65]) (demo_net demo_conn).
Proof.
  eapply wp_mono; [refine (data_in_order 0 demo_conn (repeat 65 600) 20 3 1001 (demo_net demo_conn) (demo_net_wf _ demo_conn_wf) eq_refl _ _ _ _);
    [|lia|lia|vm_compute; discriminate]|].
  { apply Forall_forall. intros x Hx. apply list_elem_of_In, repeat_spec in Hx. subst. split; [discriminate|reflexivity]. }
  cbn beta. intros _ s' (c' & f & Hc & _ & _ & H). rewrite decide_True in H by (vm_compute; reflexivity). destruct H as [Hq _].
  exists c'. split; [exact Hc|]. rewrite Hq. vm_compute. reflexivity.
Defined.


(** A stack of one slot after [net_open], and after an ARP request for its address. *)
Definition demo_open : net :=
  match net_open true [2; 0; 0; 0; 0; 1] 10 0 2 15 23 (net0 1) with Some (_, s) => s | None => net0 1 end.
Definition arp_request : list Z :=
  repeat 255 6 ++ demo_mac ++ [8; 6; 0; 1; 8; 0; 6; 4; 0; 1] ++ demo_mac ++ demo_ip ++ repeat 0 6 ++ [10; 0; 2; 15].
Definition demo_act (e : net_event) (s : net) : net := match net_act e s with Some (_, s') => s' | None => s end.

Lemma demo_open_reachable : reachable 1 demo_open.
Proof.
  apply (reach_open 1 [2; 0; 0; 0; 0; 1] 10 0 2 15 23); try (unfold is_byte, is_u16; lia); try reflexivity.
  repeat constructor; discriminate.
Qed.
Lemma demo_act_reachable e s : reachable 1 s -> event_ok e -> reachable 1 (demo_act e s).
Proof.
  intros Hr He. destruct (reachable_wf 1 s Hr) as [Hw Hn]. pose proof (net_act_safe 1 e He s Hw Hn) as H. unfold wp in H.
  unfold demo_act. destruct (net_act e s) as [[[] s']|] eqn:E; [|done]. by eapply reach_act.
Qed.
Definition demo_replied : net := demo_act Poll (demo_act (Frame arp_request) demo_open).
Lemma demo_replied_reachable : reachable 1 demo_replied.
Proof.
  apply demo_act_reachable; [|done]. apply demo_act_reachable; [apply demo_open_reachable|].
  cbn [event_ok]. repeat constructor; unfold is_byte; discriminate.
Qed.

Lemma stack_safe_witness : exists s', net_act (Putc 7) demo_replied = Some (tt, s').
Proof. exact (proj2 (proj2 (stack_safe 1 demo_replied (Putc 7) demo_replied_reachable I))). Defined.

Lemma frames_valid_witness : exists f, tx demo_replied = [f] /\ frame_ok [2; 0; 0; 0; 0; 1] [10; 0; 2; 15] 23 f /\ take 6 f = demo_mac.
Proof.
  assert (exists f, tx demo_replied = [f] /\ take 6 f = demo_mac) as (f & Et & Ef) by (eexists; split; vm_compute; reflexivity).
  exists f. split; [exact Et|]. split; [|exact Ef]. apply (frames_valid 1 demo_replied f demo_replied_reachable).
  rewrite Et. apply list_elem_of_singleton. reflexivity.
Defined.
