(* ===== verification/Cp437.v ===== *)
(** * CP437 to UTF-8 (src/dosshd/cp437.c)

    The generated glyph table, and what makes it safe to send to a terminal: every
    entry is the UTF-8 encoding of one printable code point. *)
From Stdlib Require Import ZArith Lia.
From stdpp Require Import base list numbers.
From S2P Require Import Prelude.
Local Open Scope Z_scope.

(** [cp437_utf8[c]] is the length and three bytes. *)
Definition cp437_utf8 : list (list Z) :=
  [ [1; 32; 0; 0]; [3; 226; 152; 186]; [3; 226; 152; 187]; [3; 226; 153; 165]; [3; 226; 153; 166];
    [3; 226; 153; 163]; [3; 226; 153; 160]; [3; 226; 128; 162]; [3; 226; 151; 152];
    [3; 226; 151; 139]; [3; 226; 151; 153]; [3; 226; 153; 130]; [3; 226; 153; 128];
    [3; 226; 153; 170]; [3; 226; 153; 171]; [3; 226; 152; 188]; [3; 226; 150; 186];
    [3; 226; 151; 132]; [3; 226; 134; 149]; [3; 226; 128; 188]; [2; 194; 182; 0];
    [2; 194; 167; 0]; [3; 226; 150; 172]; [3; 226; 134; 168]; [3; 226; 134; 145];
    [3; 226; 134; 147]; [3; 226; 134; 146]; [3; 226; 134; 144]; [3; 226; 136; 159];
    [3; 226; 134; 148]; [3; 226; 150; 178]; [3; 226; 150; 188]; [1; 32; 0; 0]; [1; 33; 0; 0];
    [1; 34; 0; 0]; [1; 35; 0; 0]; [1; 36; 0; 0]; [1; 37; 0; 0]; [1; 38; 0; 0]; [1; 39; 0; 0];
    [1; 40; 0; 0]; [1; 41; 0; 0]; [1; 42; 0; 0]; [1; 43; 0; 0]; [1; 44; 0; 0]; [1; 45; 0; 0];
    [1; 46; 0; 0]; [1; 47; 0; 0]; [1; 48; 0; 0]; [1; 49; 0; 0]; [1; 50; 0; 0]; [1; 51; 0; 0];
    [1; 52; 0; 0]; [1; 53; 0; 0]; [1; 54; 0; 0]; [1; 55; 0; 0]; [1; 56; 0; 0]; [1; 57; 0; 0];
    [1; 58; 0; 0]; [1; 59; 0; 0]; [1; 60; 0; 0]; [1; 61; 0; 0]; [1; 62; 0; 0]; [1; 63; 0; 0];
    [1; 64; 0; 0]; [1; 65; 0; 0]; [1; 66; 0; 0]; [1; 67; 0; 0]; [1; 68; 0; 0]; [1; 69; 0; 0];
    [1; 70; 0; 0]; [1; 71; 0; 0]; [1; 72; 0; 0]; [1; 73; 0; 0]; [1; 74; 0; 0]; [1; 75; 0; 0];
    [1; 76; 0; 0]; [1; 77; 0; 0]; [1; 78; 0; 0]; [1; 79; 0; 0]; [1; 80; 0; 0]; [1; 81; 0; 0];
    [1; 82; 0; 0]; [1; 83; 0; 0]; [1; 84; 0; 0]; [1; 85; 0; 0]; [1; 86; 0; 0]; [1; 87; 0; 0];
    [1; 88; 0; 0]; [1; 89; 0; 0]; [1; 90; 0; 0]; [1; 91; 0; 0]; [1; 92; 0; 0]; [1; 93; 0; 0];
    [1; 94; 0; 0]; [1; 95; 0; 0]; [1; 96; 0; 0]; [1; 97; 0; 0]; [1; 98; 0; 0]; [1; 99; 0; 0];
    [1; 100; 0; 0]; [1; 101; 0; 0]; [1; 102; 0; 0]; [1; 103; 0; 0]; [1; 104; 0; 0];
    [1; 105; 0; 0]; [1; 106; 0; 0]; [1; 107; 0; 0]; [1; 108; 0; 0]; [1; 109; 0; 0];
    [1; 110; 0; 0]; [1; 111; 0; 0]; [1; 112; 0; 0]; [1; 113; 0; 0]; [1; 114; 0; 0];
    [1; 115; 0; 0]; [1; 116; 0; 0]; [1; 117; 0; 0]; [1; 118; 0; 0]; [1; 119; 0; 0];
    [1; 120; 0; 0]; [1; 121; 0; 0]; [1; 122; 0; 0]; [1; 123; 0; 0]; [1; 124; 0; 0];
    [1; 125; 0; 0]; [1; 126; 0; 0]; [3; 226; 140; 130]; [2; 195; 135; 0]; [2; 195; 188; 0];
    [2; 195; 169; 0]; [2; 195; 162; 0]; [2; 195; 164; 0]; [2; 195; 160; 0]; [2; 195; 165; 0];
    [2; 195; 167; 0]; [2; 195; 170; 0]; [2; 195; 171; 0]; [2; 195; 168; 0]; [2; 195; 175; 0];
    [2; 195; 174; 0]; [2; 195; 172; 0]; [2; 195; 132; 0]; [2; 195; 133; 0]; [2; 195; 137; 0];
    [2; 195; 166; 0]; [2; 195; 134; 0]; [2; 195; 180; 0]; [2; 195; 182; 0]; [2; 195; 178; 0];
    [2; 195; 187; 0]; [2; 195; 185; 0]; [2; 195; 191; 0]; [2; 195; 150; 0]; [2; 195; 156; 0];
    [2; 194; 162; 0]; [2; 194; 163; 0]; [2; 194; 165; 0]; [3; 226; 130; 167]; [2; 198; 146; 0];
    [2; 195; 161; 0]; [2; 195; 173; 0]; [2; 195; 179; 0]; [2; 195; 186; 0]; [2; 195; 177; 0];
    [2; 195; 145; 0]; [2; 194; 170; 0]; [2; 194; 186; 0]; [2; 194; 191; 0]; [3; 226; 140; 144];
    [2; 194; 172; 0]; [2; 194; 189; 0]; [2; 194; 188; 0]; [2; 194; 161; 0]; [2; 194; 171; 0];
    [2; 194; 187; 0]; [3; 226; 150; 145]; [3; 226; 150; 146]; [3; 226; 150; 147];
    [3; 226; 148; 130]; [3; 226; 148; 164]; [3; 226; 149; 161]; [3; 226; 149; 162];
    [3; 226; 149; 150]; [3; 226; 149; 149]; [3; 226; 149; 163]; [3; 226; 149; 145];
    [3; 226; 149; 151]; [3; 226; 149; 157]; [3; 226; 149; 156]; [3; 226; 149; 155];
    [3; 226; 148; 144]; [3; 226; 148; 148]; [3; 226; 148; 180]; [3; 226; 148; 172];
    [3; 226; 148; 156]; [3; 226; 148; 128]; [3; 226; 148; 188]; [3; 226; 149; 158];
    [3; 226; 149; 159]; [3; 226; 149; 154]; [3; 226; 149; 148]; [3; 226; 149; 169];
    [3; 226; 149; 166]; [3; 226; 149; 160]; [3; 226; 149; 144]; [3; 226; 149; 172];
    [3; 226; 149; 167]; [3; 226; 149; 168]; [3; 226; 149; 164]; [3; 226; 149; 165];
    [3; 226; 149; 153]; [3; 226; 149; 152]; [3; 226; 149; 146]; [3; 226; 149; 147];
    [3; 226; 149; 171]; [3; 226; 149; 170]; [3; 226; 148; 152]; [3; 226; 148; 140];
    [3; 226; 150; 136]; [3; 226; 150; 132]; [3; 226; 150; 140]; [3; 226; 150; 144];
    [3; 226; 150; 128]; [2; 206; 177; 0]; [2; 195; 159; 0]; [2; 206; 147; 0]; [2; 207; 128; 0];
    [2; 206; 163; 0]; [2; 207; 131; 0]; [2; 194; 181; 0]; [2; 207; 132; 0]; [2; 206; 166; 0];
    [2; 206; 152; 0]; [2; 206; 169; 0]; [2; 206; 180; 0]; [3; 226; 136; 158]; [2; 207; 134; 0];
    [2; 206; 181; 0]; [3; 226; 136; 169]; [3; 226; 137; 161]; [2; 194; 177; 0];
    [3; 226; 137; 165]; [3; 226; 137; 164]; [3; 226; 140; 160]; [3; 226; 140; 161];
    [2; 195; 183; 0]; [3; 226; 137; 136]; [2; 194; 176; 0]; [3; 226; 136; 153];
    [2; 194; 183; 0]; [3; 226; 136; 154]; [3; 226; 129; 191]; [2; 194; 178; 0];
    [3; 226; 150; 160]; [2; 194; 160; 0] ].

(** The bytes [e_char] emits for a character: [u[1..u[0]]]. *)
Definition glyph (ch : Z) : option (list Z) :=
  u ← cp437_utf8 !! Z.to_nat ch; n ← rd u 0; rd_bytes u 1 n.

(** ** UTF-8 (RFC 3629) *)

Definition is_cont (b : Z) : bool := bool_decide (0x80 <= b < 0xC0).
(** The code point a byte sequence of one to three bytes encodes. *)
Definition utf8 (bs : list Z) : option Z :=
  match bs with
  | [a] => if decide (0 <= a < 0x80) then Some a else None
  | [a; b] =>
      let p := (a - 0xC0) * 64 + (b - 0x80) in
      if decide (0xC0 <= a < 0xE0 /\ is_cont b = true /\ 0x80 <= p) then Some p else None
  | [a; b; c] =>
      let p := ((a - 0xE0) * 64 + (b - 0x80)) * 64 + (c - 0x80) in
      if decide (0xE0 <= a < 0xF0 /\ is_cont b = true /\ is_cont c = true /\ 0x800 <= p) then Some p else None
  | _ => None
  end.

(** The code point a CP437 character is shown as. *)
Definition code_point (ch : Z) : option Z := g ← glyph ch; utf8 g.

(** Printable: neither a C0 nor a C1 control nor DEL. *)
Definition printable (p : Z) : bool := bool_decide (0x20 <= p /\ p <> 0x7F /\ ~ (0x80 <= p < 0xA0)).

Definition entry_ok (ch : Z) : bool :=
  match glyph ch, code_point ch with
  | Some g, Some p => bool_decide (1 <= len g <= 3) && printable p && bool_decide (0x20 <= ch < 0x7F -> p = ch)
  | _, _ => false
  end.

Lemma table_ok : forallb entry_ok (seqZ 0 256) = true.
Proof. vm_compute. reflexivity. Qed.

Lemma entry_ok_byte ch : is_byte ch -> entry_ok ch = true.
Proof.
  intros Hc. pose proof table_ok as H. rewrite forallb_forall in H. apply H.
  apply list_elem_of_In, elem_of_seqZ. unfold is_byte in Hc. lia.
Qed.

(** Every CP437 character is sent as the UTF-8 encoding of exactly one
    printable code point, so no control byte of the screen reaches the terminal;
    the ASCII characters are sent as themselves. *)
Lemma glyph_printable ch :
  is_byte ch ->
  exists g p, glyph ch = Some g /\ 1 <= len g <= 3 /\ utf8 g = Some p /\ printable p = true /\ (0x20 <= ch < 0x7F -> p = ch).
Proof.
  intros Hc. pose proof (entry_ok_byte ch Hc) as H. unfold entry_ok, code_point in H.
  destruct (glyph ch) as [g|]; [|done]. cbn [mbind option_bind] in H. destruct (utf8 g) as [p|] eqn:E; [|done].
  apply andb_prop in H as [[H1 H2]%andb_prop H3]. rewrite bool_decide_eq_true in H1, H3. eauto 10.
Qed.
