(* ===== verification/Render.v ===== *)
(** * The screen renderer (src/dosshd/render.c)

    The diff between the VGA text buffer and the shadow of what the terminals
    show, emitted as cursor moves, colour changes and UTF-8 text in chunks of at
    most [OBUF] bytes. *)
From Stdlib Require Import ZArith Lia.
From stdpp Require Import base list numbers.
From S2P Require Import Prelude Cp437.
Local Open Scope Z_scope.

(** ** The machine the renderer looks at *)

(** The BIOS data area at segment 0040h and the two text buffers. *)
Record machine := Machine { bda : list Z; mono : list Z; color : list Z }.

Definition scr_cols (e : machine) : option Z := rd (bda e) 0x4A.
Definition scr_rows (e : machine) : option Z := r ← rd (bda e) 0x84; Some (r + 1).
Definition scr_mode (e : machine) : option Z := rd (bda e) 0x49.
Definition scr_base (e : machine) : option (list Z) :=
  m ← scr_mode e; Some (if decide (m = 7) then mono e else color e).
(** A little-endian word of the BIOS data area. *)
Definition bda_word (e : machine) (o : Z) : option Z :=
  a ← rd (bda e) o; b ← rd (bda e) (o + 1); Some (a + 256 * b).
Definition cursor_rc (e : machine) : option Z := bda_word e 0x50.
Definition cursor_visible (e : machine) : option bool :=
  t ← bda_word e 0x60; Some (bool_decide (Z.land (Z.shiftr t 8) 0x20 = 0)).
Definition ticks (e : machine) : option Z :=
  a ← bda_word e 0x6C; b ← bda_word e 0x6E; Some (a + 65536 * b).

(** ** State *)

Definition OBUF : Z := 2048.
Definition SHADOW_BYTES : Z := 4000.
Definition CADENCE_TICKS : Z := 36.
Definition HEAL_TICKS : Z := 72.

(** The statics of render.c; [obuf] is the array up to [o_len]. *)
Record rend := Rend {
  obuf : list Z;
  o_off : Z;
  pushed : Z;
  shadow : list Z;
  shadow_valid : bool;
  sh_cols : Z;
  sh_rows : Z;
  force_kf : bool;
  last_kf : Z;
  heal_kf : Z;
  frame_active : bool;
  is_repaint : bool;
  is_toobig : bool;
  walk_cell : Z;
  total_cells : Z;
  f_cols : Z;
  last_emit : Z;
  cur_sgr : Z;
  last_cur_r : Z;
  last_cur_c : Z;
}.
#[export] Instance rend_eta : Eta rend := fun r => Rend (obuf r) (o_off r) (pushed r) (shadow r) (shadow_valid r)
    (sh_cols r) (sh_rows r) (force_kf r) (last_kf r) (heal_kf r) (frame_active r) (is_repaint r) (is_toobig r)
    (walk_cell r) (total_cells r) (f_cols r) (last_emit r) (cur_sgr r) (last_cur_r r) (last_cur_c r).
#[export] Instance upd_obuf : Upd obuf := ltac:(derive_upd obuf).
#[export] Instance upd_o_off : Upd o_off := ltac:(derive_upd o_off).
#[export] Instance upd_pushed : Upd pushed := ltac:(derive_upd pushed).
#[export] Instance upd_shadow : Upd shadow := ltac:(derive_upd shadow).
#[export] Instance upd_shadow_valid : Upd shadow_valid := ltac:(derive_upd shadow_valid).
#[export] Instance upd_sh_cols : Upd sh_cols := ltac:(derive_upd sh_cols).
#[export] Instance upd_sh_rows : Upd sh_rows := ltac:(derive_upd sh_rows).
#[export] Instance upd_force_kf : Upd force_kf := ltac:(derive_upd force_kf).
#[export] Instance upd_last_kf : Upd last_kf := ltac:(derive_upd last_kf).
#[export] Instance upd_heal_kf : Upd heal_kf := ltac:(derive_upd heal_kf).
#[export] Instance upd_frame_active : Upd frame_active := ltac:(derive_upd frame_active).
#[export] Instance upd_is_repaint : Upd is_repaint := ltac:(derive_upd is_repaint).
#[export] Instance upd_is_toobig : Upd is_toobig := ltac:(derive_upd is_toobig).
#[export] Instance upd_walk_cell : Upd walk_cell := ltac:(derive_upd walk_cell).
#[export] Instance upd_total_cells : Upd total_cells := ltac:(derive_upd total_cells).
#[export] Instance upd_f_cols : Upd f_cols := ltac:(derive_upd f_cols).
#[export] Instance upd_last_emit : Upd last_emit := ltac:(derive_upd last_emit).
#[export] Instance upd_cur_sgr : Upd cur_sgr := ltac:(derive_upd cur_sgr).
#[export] Instance upd_last_cur_r : Upd last_cur_r := ltac:(derive_upd last_cur_r).
#[export] Instance upd_last_cur_c : Upd last_cur_c := ltac:(derive_upd last_cur_c).

(** The statics at program start. *)
Definition rend0 : rend :=
  Rend [] 0 (-1) (repeat 0 4000) false 0 0 true 0 0 false false false 0 0 0 0 0 255 255.

Definition rset {T} (f : rend -> T) `{!Upd f} (v : T) : M rend unit := modify (fun r => r <| f := v |>).

(** ** Emitters *)

Definition e_b (c : Z) : M rend unit :=
  o ← gets obuf; when (bool_decide (len o < OBUF)) (rset obuf (o ++ [c])).
Fixpoint e_s (s : list Z) : M rend unit :=
  match s with [] => mret tt | c :: s => e_b c ;; e_s s end.

(** The digits [e_num] collects in [t[6]], in the order it emits them. *)
Fixpoint dec_digits (fuel : nat) (v : Z) : list Z :=
  match fuel with
  | O => []
  | S fuel => if decide (v = 0) then [] else dec_digits fuel (v / 10) ++ [48 + v mod 10]
  end.
(** A 16-bit value has at most five digits. *)
Definition e_num (v : Z) : M rend unit :=
  if decide (v = 0) then e_b 48 else e_s (dec_digits 5 v).
Definition e_cup (row col : Z) : M rend unit :=
  e_s [27; 91] ;; e_num (u16 (row + 1)) ;; e_b 59 ;; e_num (u16 (col + 1)) ;; e_b 72.
Definition v2a : list Z := [0; 4; 2; 6; 1; 5; 3; 7].
Definition e_sgr (attr : Z) : M rend unit :=
  let fg := Z.land attr 0x0F in
  let bg := Z.land (Z.shiftr attr 4) 0x07 in
  f ← lift (if decide (fg < 8) then x ← rd v2a fg; Some (30 + x) else x ← rd v2a (fg - 8); Some (90 + x));
  b ← lift (rd v2a bg);
  e_s [27; 91; 48; 59] ;; e_num f ;; e_b 59 ;; e_num (40 + b) ;;
  when (bool_decide (Z.land attr 0x80 <> 0)) (e_s [59; 53]) ;;
  e_b 109.
Definition e_char (ch : Z) : M rend unit := g ← lift (glyph ch); e_s g.

(** ** Frames *)

Definition render_reset (e : machine) : M rend unit :=
  rset shadow_valid false ;; rset force_kf true ;; rset frame_active false ;;
  rset obuf [] ;; rset o_off 0 ;; rset pushed (-1) ;;
  rset cur_sgr (-1) ;; rset last_emit (-2) ;; rset last_cur_r 255 ;; rset last_cur_c 255 ;;
  now ← lift (ticks e);
  rset heal_kf now.

(** [v[c] != shadow[c] || v[c + 1] != shadow[c + 1]] *)
Definition cell_differs (v sh : list Z) (c : Z) : option bool :=
  a ← rd v c; a' ← rd sh c; b ← rd v (c + 1); b' ← rd sh (c + 1);
  Some (bool_decide (a <> a') || bool_decide (b <> b')).
(** The loop that counts the changed cells, [n] to go. *)
Fixpoint count_changed (n : nat) (v sh : list Z) (c changed : Z) : option Z :=
  match n with
  | O => Some changed
  | S n => d ← cell_differs v sh c; count_changed n v sh (c + 2) (if (d : bool) then changed + 1 else changed)
  end.

(** The part of [frame_decide] that starts a frame. *)
Definition start_frame (cols rows : Z) (clear repaint : bool) : M rend unit :=
  rset f_cols cols ;; rset total_cells (cols * rows) ;;
  rset is_repaint repaint ;; rset walk_cell 0 ;;
  rset last_emit (-2) ;; rset cur_sgr (-1) ;; rset frame_active true ;;
  e_s ([27; 91; 63; 55; 108] ++ [27; 91; 63; 50; 53; 108]) ;;
  when clear (e_s ([27; 91; 50; 74] ++ [27; 91; 72])) ;;
  when repaint (rset sh_cols cols ;; rset sh_rows rows).

Definition frame_decide (e : machine) (serial : bool) : M rend unit :=
  c ← lift (scr_cols e); rw ← lift (scr_rows e);
  let cols := if decide (c = 0 \/ c > 132) then 80 else c in
  let rows := if decide (rw = 0 \/ rw > 60) then 25 else rw in
  let bytes := cols * rows * 2 in
  v ← lift (scr_base e);
  now ← lift (ticks e);
  let toobig := bool_decide (bytes > SHADOW_BYTES) in
  rset is_toobig toobig ;;
  fk ← gets force_kf; sv ← gets shadow_valid; sc ← gets sh_cols; sr ← gets sh_rows;
  lk ← gets last_kf; hk ← gets heal_kf;
  let clear := fk || negb sv || bool_decide (cols <> sc) || bool_decide (rows <> sr) in
  let due := bool_decide (s32 (now - lk) >= CADENCE_TICKS) in
  let repaint := clear || due && (serial || bool_decide (s32 (now - hk) < HEAL_TICKS)) in
  let clear := if toobig then fk || due else clear in
  let repaint := if toobig then clear else repaint in
  if toobig && negb repaint then mret tt
  else if repaint then start_frame cols rows clear true
  else
    sh ← gets shadow;
    changed ← lift (count_changed (Z.to_nat (bytes / 2)) v sh 0 0);
    rc ← lift (cursor_rc e);
    lr ← gets last_cur_r; lc ← gets last_cur_c;
    if bool_decide (changed = 0) && bool_decide (u8 (Z.shiftr rc 8) = lr) && bool_decide (u8 rc = lc) then mret tt
    else
      when (bool_decide (changed <> 0)) (rset heal_kf now) ;;
      start_frame cols rows clear (bool_decide (u16 (changed * 4) > u16 (bytes / 2 * 3))).

(** One iteration of the loop of [frame_fill] for cell [c]. *)
Definition fill_cell (v : list Z) (cols c : Z) : M rend unit :=
  let idx := c * 2 in
  ch ← lift (rd v idx); at_ ← lift (rd v (idx + 1));
  rep ← gets is_repaint; big ← gets is_toobig; sh ← gets shadow;
  changed ← lift (if rep || big then Some true
                  else a ← rd sh idx; if decide (ch <> a) then Some true else b ← rd sh (idx + 1); Some (bool_decide (at_ <> b)));
  if negb changed then mret tt
  else
    last ← gets last_emit;
    let col := c mod cols in
    when (bool_decide (c <> last + 1) || bool_decide (col = 0)) (e_cup (c / cols) col) ;;
    sgr ← gets cur_sgr;
    when (bool_decide (at_ <> sgr)) (e_sgr at_ ;; rset cur_sgr at_) ;;
    e_char ch ;;
    when (negb big) (sh ← poke sh idx ch; sh ← poke sh (idx + 1) at_; rset shadow sh) ;;
    rset last_emit c.
(** The loop; it stops with the index of the first cell not done. *)
Fixpoint fill_loop (n : nat) (v : list Z) (cols total c : Z) : M rend Z :=
  match n with
  | O => mret c
  | S n =>
      if decide (c < total) then
        o ← gets obuf;
        if decide (len o + 48 > OBUF) then mret c
        else fill_cell v cols c ;; fill_loop n v cols total (c + 1)
      else mret c
  end.

Definition frame_fill (e : machine) : M rend unit :=
  v ← lift (scr_base e);
  c ← gets walk_cell; total ← gets total_cells; cols ← gets f_cols;
  c ← fill_loop (Z.to_nat (total - c)) v cols total c;
  rset walk_cell c ;;
  if decide (c >= total) then
    rc ← lift (cursor_rc e);
    let cr := u8 (Z.shiftr rc 8) in
    let cc := u8 rc in
    e_cup cr cc ;;
    vis ← lift (cursor_visible e);
    e_s (if (vis : bool) then [27; 91; 63; 50; 53; 104] else [27; 91; 63; 50; 53; 108]) ;;
    rset last_cur_r cr ;; rset last_cur_c cc ;;
    rset frame_active false ;;
    big ← gets is_toobig; rep ← gets is_repaint; now ← lift (ticks e);
    when (negb big) (rset shadow_valid true) ;;
    when rep (rset force_kf false) ;;
    when (rep || big) (rset last_kf now)
  else mret tt.

(** [obuf[o_off++]] *)
Definition take_byte : M rend Z :=
  o ← gets obuf; off ← gets o_off; b ← lift (rd o off); rset o_off (off + 1) ;; mret b.
Definition render_next_byte (e : machine) (serial : bool) : M rend Z :=
  p ← gets pushed;
  if decide (p >= 0) then rset pushed (-1) ;; mret p
  else
    o ← gets obuf; off ← gets o_off;
    if decide (off < len o) then take_byte
    else
      rset obuf [] ;; rset o_off 0 ;;
      act ← gets frame_active;
      when (negb act) (frame_decide e serial) ;;
      act ← gets frame_active;
      when act (frame_fill e) ;;
      o ← gets obuf; off ← gets o_off;
      if decide (off < len o) then take_byte else mret (-1).
Definition render_pushback (b : Z) : M rend unit := rset pushed b.
