(* ===== verification/Terminal.v ===== *)
(** * A terminal

    The specification side of the screen renderer: a character-cell terminal that
    interprets the control sequences of ECMA-48 the renderer uses, byte by byte.
    It models no code of the repository; Mirror.v proves that what render.c sends
    makes this terminal show the screen of the machine. *)
From Stdlib Require Import ZArith Lia.
From stdpp Require Import base list numbers.
From S2P Require Import Prelude Cp437.
Local Open Scope Z_scope.

(** ** State *)

(** The graphic rendition: ANSI colours 0..15 and blink. *)
Record attr := Attr { a_fg : Z; a_bg : Z; a_blink : bool }.
Definition attr0 : attr := Attr 7 0 false.
(** A cell shows a code point. *)
Definition cell : Type := Z * attr.

(** Where the parser is: in text, after ESC, in a control sequence (private?, the
    parameters so far, the current one), in a UTF-8 sequence (bytes to go). *)
Inductive tmode := Ground | Esc | Csi (priv : bool) (ps : list Z) (n : Z) | Utf (k : nat) (p : Z).

Record term := Term {
  t_mode : tmode;
  t_grid : Z -> Z -> cell;
  t_row : Z;
  t_col : Z;
  t_attr : attr;
  t_wrap : bool;
  t_vis : bool;
}.

(** ** Control functions *)

(** One SGR parameter. *)
Definition sgr1 (a : attr) (n : Z) : attr :=
  if decide (n = 0) then attr0
  else if decide (n = 5) then Attr (a_fg a) (a_bg a) true
  else if decide (30 <= n < 38) then Attr (n - 30) (a_bg a) (a_blink a)
  else if decide (90 <= n < 98) then Attr (n - 82) (a_bg a) (a_blink a)
  else if decide (40 <= n < 48) then Attr (a_fg a) (n - 40) (a_blink a)
  else a.

Definition ground (t : term) : term :=
  Term Ground (t_grid t) (t_row t) (t_col t) (t_attr t) (t_wrap t) (t_vis t).
Definition in_mode (m : tmode) (t : term) : term :=
  Term m (t_grid t) (t_row t) (t_col t) (t_attr t) (t_wrap t) (t_vis t).
Definition move_to (r c : Z) (t : term) : term :=
  Term Ground (t_grid t) r c (t_attr t) (t_wrap t) (t_vis t).
Definition with_attr (a : attr) (t : term) : term :=
  Term Ground (t_grid t) (t_row t) (t_col t) a (t_wrap t) (t_vis t).
Definition erase (t : term) : term :=
  Term Ground (fun _ _ => (32, attr0)) (t_row t) (t_col t) (t_attr t) (t_wrap t) (t_vis t).
Definition with_wrap (b : bool) (t : term) : term :=
  Term Ground (t_grid t) (t_row t) (t_col t) (t_attr t) b (t_vis t).
Definition with_vis (b : bool) (t : term) : term :=
  Term Ground (t_grid t) (t_row t) (t_col t) (t_attr t) (t_wrap t) b.

(** A position parameter counts from one; zero or nothing is one. *)
Definition position (n : Z) : Z := Z.max 1 n - 1.

(** The final byte of a control sequence. *)
Definition control (priv : bool) (ps : list Z) (b : Z) (t : term) : term :=
  if decide (b = 72) then (* H: cursor position *)
    if priv then ground t else move_to (position (default 0 (ps !! 0%nat))) (position (default 0 (ps !! 1%nat))) t
  else if decide (b = 74) then (* J: erase *)
    if decide (priv = false /\ ps = [2]) then erase t else ground t
  else if decide (b = 109) then (* m: graphic rendition *)
    if priv then ground t else with_attr (foldl sgr1 (t_attr t) ps) t
  else if decide (b = 104 \/ b = 108) then (* h, l: modes *)
    if decide (priv = true /\ ps = [7]) then with_wrap (bool_decide (b = 104)) t
    else if decide (priv = true /\ ps = [25]) then with_vis (bool_decide (b = 104)) t
    else ground t
  else ground t.

Section terminal.
Context (W H : Z).

(** A printable character at the cursor; in the last column the cursor stays
    (autowrap off) or the text goes on in the next line. *)
Definition print (p : Z) (t : term) : term :=
  let g := fun r c => if decide (r = t_row t /\ c = t_col t) then (p, t_attr t) else t_grid t r c in
  if decide (t_col t + 1 < W) then Term Ground g (t_row t) (t_col t + 1) (t_attr t) (t_wrap t) (t_vis t)
  else if negb (t_wrap t) then Term Ground g (t_row t) (t_col t) (t_attr t) (t_wrap t) (t_vis t)
  else if decide (t_row t + 1 < H) then Term Ground g (t_row t + 1) 0 (t_attr t) (t_wrap t) (t_vis t)
  else Term Ground (fun r c => g (r + 1) c) (t_row t) 0 (t_attr t) (t_wrap t) (t_vis t).

Definition term_byte (t : term) (b : Z) : term :=
  if decide (b = 27) then in_mode Esc t
  else
    match t_mode t with
    | Ground =>
        if decide (0x20 <= b < 0x7F) then print b t
        else if decide (0xC0 <= b < 0xE0) then in_mode (Utf 1 (b - 0xC0)) t
        else if decide (0xE0 <= b < 0xF0) then in_mode (Utf 2 (b - 0xE0)) t
        else t
    | Esc => if decide (b = 91) then in_mode (Csi false [] 0) t else ground t
    | Csi pv ps n =>
        if decide (b = 63) then in_mode (Csi true ps n) t
        else if decide (48 <= b < 58) then in_mode (Csi pv ps (n * 10 + (b - 48))) t
        else if decide (b = 59) then in_mode (Csi pv (ps ++ [n]) 0) t
        else control pv (ps ++ [n]) b t
    | Utf k p =>
        let p := p * 64 + (b - 0x80) in
        if is_cont b then match k with S (S k) => in_mode (Utf (S k) p) t | _ => print p t end
        else ground t
    end.
Definition run (t : term) (bs : list Z) : term := foldl term_byte t bs.

Lemma run_app t a b : run t (a ++ b) = run (run t a) b.
Proof. apply foldl_app. Qed.

End terminal.
