(* ===== verification/Mirror.v ===== *)
(** * The mirror: terminals show the screen (src/dosshd/render.c)

    Every terminal that is fed the renderer's bytes shows the VGA text screen
    whenever the renderer has nothing left to send. *)
From Stdlib Require Import ZArith Lia.
From stdpp Require Import base list numbers relations.
From S2P Require Import Prelude Cp437 Render Terminal.
Local Open Scope Z_scope.

(** ** What a cell of the text buffer means *)

(** VGA colours are blue-green-red, ANSI colours red-green-blue; bit 3 is bright. *)
Definition swap_rb (n : Z) : Z :=
  (if Z.testbit n 2 then 1 else 0) + (if Z.testbit n 1 then 2 else 0) + (if Z.testbit n 0 then 4 else 0) + Z.land n 8.
Definition vga_attr (a : Z) : attr :=
  Attr (swap_rb (Z.land a 0x0F)) (swap_rb (Z.land (Z.shiftr a 4) 0x07)) (Z.testbit a 7).
Definition cell_view (ch at_ : Z) : cell := (default 0 (code_point ch), vga_attr at_).

(** ** The emitted sequences *)

Definition num_bytes (v : Z) : list Z := if decide (v = 0) then [48] else dec_digits 5 v.
Definition cup_bytes (row col : Z) : list Z :=
  [27; 91] ++ num_bytes (u16 (row + 1)) ++ [59] ++ num_bytes (u16 (col + 1)) ++ [72].
Definition fg_code (at_ : Z) : Z := let n := swap_rb (Z.land at_ 0x0F) in if decide (n < 8) then 30 + n else 82 + n.
Definition bg_code (at_ : Z) : Z := 40 + swap_rb (Z.land (Z.shiftr at_ 4) 0x07).
Definition sgr_bytes (at_ : Z) : list Z :=
  [27; 91; 48; 59] ++ num_bytes (fg_code at_) ++ [59] ++ num_bytes (bg_code at_)
  ++ (if Z.testbit at_ 7 then [59; 53] else []) ++ [109].

Section sequences.
Context (W H : Z).
Abbreviation run := (run W H).
Abbreviation term_byte := (term_byte W H).

Lemma dec_run k : forall v pv ps t,
  0 <= v < 10 ^ Z.of_nat k -> t_mode t = Csi pv ps 0 -> run t (dec_digits k v) = in_mode (Csi pv ps v) t.
Proof.
  induction k as [|k IH]; intros v pv ps t Hv Ht; cbn [dec_digits].
  - assert (v = 0) as -> by lia. rewrite <- Ht. by destruct t.
  - case_decide as Hz; [subst; rewrite <- Ht; by destruct t|].
    rewrite Nat2Z.inj_succ, Z.pow_succ_r in Hv by lia.
    rewrite run_app, (IH _ pv ps) by (try done; Z.div_mod_to_equations; lia).
    cbn [foldl Terminal.run]. unfold Terminal.term_byte. cbn [t_mode in_mode].
    assert (0 <= v mod 10 < 10) as Hm by (apply Z.mod_pos_bound; lia).
    rewrite (decide_False (P := 48 + v mod 10 = 27)), (decide_False (P := 48 + v mod 10 = 63)), decide_True by lia.
    unfold in_mode. cbn. do 2 f_equal. Z.div_mod_to_equations. lia.
Qed.

Lemma num_run v pv ps t :
  0 <= v < 65536 -> t_mode t = Csi pv ps 0 -> run t (num_bytes v) = in_mode (Csi pv ps v) t.
Proof.
  intros Hv Ht. unfold num_bytes. case_decide as Hz.
  - subst v. cbn. unfold Terminal.term_byte. rewrite Ht. done.
  - apply dec_run; [|done]. change (10 ^ Z.of_nat 5) with 100000. lia.
Qed.

Lemma cup_run r c t : 0 <= r < 65535 -> 0 <= c < 65535 -> run t (cup_bytes r c) = move_to r c t.
Proof.
  intros Hr Hc. unfold cup_bytes. rewrite !run_app. change (run t [27; 91]) with (in_mode (Csi false [] 0) t).
  rewrite (num_run (u16 (r + 1)) false []) by (done || apply u16_range). 
  change (run (in_mode (Csi false [] (u16 (r + 1))) (in_mode (Csi false [] 0) t)) [59]) with (in_mode (Csi false [u16 (r + 1)] 0) t).
  rewrite (num_run (u16 (c + 1)) false [u16 (r + 1)]) by (done || apply u16_range).
  rewrite !u16_id by (unfold is_u16; lia). cbn. unfold Terminal.term_byte. cbn. unfold control, move_to, position. cbn. f_equal; lia.
Qed.

Lemma swap_rb_range n : 0 <= n < 16 -> 0 <= swap_rb n < 16 /\ (n < 8 -> swap_rb n < 8).
Proof.
  intros Hn. unfold swap_rb. assert (Z.land n 8 = if Z.testbit n 3 then 8 else 0) as E.
  { apply Z.bits_inj'. intros i Hi. rewrite Z.land_spec. destruct (decide (i = 3)) as [->|Hne].
    - by destruct (Z.testbit n 3).
    - replace (Z.testbit 8 i) with false; [rewrite andb_false_r; destruct (Z.testbit n 3)|]; [..|].
      + symmetry. change 8 with (2 ^ 3). apply Z.pow2_bits_false. lia.
      + by rewrite Z.bits_0.
      + symmetry. change 8 with (2 ^ 3). apply Z.pow2_bits_false. lia. }
  rewrite E. assert (n < 8 -> Z.testbit n 3 = false) as Hs.
  { intros H8. rewrite Z.testbit_false by lia. change (2 ^ 3) with 8. rewrite Z.div_small by lia. done. }
  destruct (Z.testbit n 0), (Z.testbit n 1), (Z.testbit n 2), (Z.testbit n 3); split; intros; try lia; by specialize (Hs ltac:(lia)).
Qed.
Lemma attr_parts at_ : 0 <= Z.land at_ 0x0F < 16 /\ 0 <= Z.land (Z.shiftr at_ 4) 0x07 < 8.
Proof.
  change 0x0F with (Z.ones 4). change 0x07 with (Z.ones 3). rewrite !Z.land_ones by lia.
  change (2 ^ 4) with 16. change (2 ^ 3) with 8. split; apply Z.mod_pos_bound; lia.
Qed.
Lemma codes_range at_ : 30 <= fg_code at_ < 98 /\ 40 <= bg_code at_ < 48.
Proof.
  unfold fg_code, bg_code. destruct (attr_parts at_) as [H1 H2].
  destruct (swap_rb_range _ H1) as [H3 _]. destruct (swap_rb_range (Z.land (Z.shiftr at_ 4) 0x07)) as [H4 H5]; [lia|].
  case_decide; lia.
Qed.

Lemma sgr_fold at_ a :
  foldl sgr1 a ([0; fg_code at_; bg_code at_] ++ (if Z.testbit at_ 7 then [5] else [])) = vga_attr at_.
Proof.
  destruct (attr_parts at_) as [H1 H2]. destruct (swap_rb_range _ H1) as [H3 _].
  destruct (swap_rb_range (Z.land (Z.shiftr at_ 4) 0x07)) as [H4 H5]; [lia|].
  rewrite foldl_app. cbn [foldl]. unfold vga_attr, fg_code, bg_code. cbv zeta. set (f := swap_rb (Z.land at_ 0x0F)) in *. set (b := swap_rb (Z.land (Z.shiftr at_ 4) 0x07)) in *.
  assert (sgr1 (sgr1 (sgr1 a 0) (if decide (f < 8) then 30 + f else 82 + f)) (40 + b) = Attr f b false) as ->.
  { clearbody f b. unfold sgr1. rewrite (decide_True (P := 0 = 0)) by done.
    destruct (decide (f < 8)).
    - rewrite (decide_False (P := 30 + f = 0)), (decide_False (P := 30 + f = 5)), (decide_True (P := 30 <= 30 + f < 38)) by lia.
      rewrite (decide_False (P := 40 + b = 0)), (decide_False (P := 40 + b = 5)), (decide_False (P := 30 <= 40 + b < 38)),
        (decide_False (P := 90 <= 40 + b < 98)), (decide_True (P := 40 <= 40 + b < 48)) by lia. cbn. f_equal; lia.
    - rewrite (decide_False (P := 82 + f = 0)), (decide_False (P := 82 + f = 5)), (decide_False (P := 30 <= 82 + f < 38)),
        (decide_True (P := 90 <= 82 + f < 98)) by lia.
      rewrite (decide_False (P := 40 + b = 0)), (decide_False (P := 40 + b = 5)), (decide_False (P := 30 <= 40 + b < 38)),
        (decide_False (P := 90 <= 40 + b < 98)), (decide_True (P := 40 <= 40 + b < 48)) by lia. cbn. f_equal; lia. }
  by destruct (Z.testbit at_ 7).
Qed.

Lemma sgr_run at_ t : run t (sgr_bytes at_) = with_attr (vga_attr at_) t.
Proof.
  unfold sgr_bytes. destruct (codes_range at_) as [Hf Hb]. rewrite !run_app.
  change (run t [27; 91; 48; 59]) with (in_mode (Csi false [0] 0) t).
  rewrite (num_run (fg_code at_) false [0]) by (done || lia).
  change (run (in_mode (Csi false [0] (fg_code at_)) (in_mode (Csi false [0] 0) t)) [59]) with (in_mode (Csi false [0; fg_code at_] 0) t).
  rewrite (num_run (bg_code at_) false [0; fg_code at_]) by (done || lia).
  pose proof (sgr_fold at_ (t_attr t)) as Ha. destruct (Z.testbit at_ 7).
  - change (with_attr (foldl sgr1 (t_attr t) ([0; fg_code at_; bg_code at_] ++ [5])) t = with_attr (vga_attr at_) t). by rewrite Ha.
  - change (with_attr (foldl sgr1 (t_attr t) ([0; fg_code at_; bg_code at_] ++ [])) t = with_attr (vga_attr at_) t). by rewrite Ha.
Qed.

Lemma glyph_run ch g t :
  is_byte ch -> glyph ch = Some g -> t_mode t = Ground -> run t g = print W H (default 0 (code_point ch)) t.
Proof.
  intros Hc Eg Ht. destruct (glyph_printable ch Hc) as (g' & p & Eg' & _ & Eu & Hp & _). rewrite Eg in Eg'. injection Eg' as <-.
  unfold code_point. rewrite Eg. cbn [mbind option_bind]. rewrite Eu. cbn [default from_option].
  unfold printable in Hp. apply bool_decide_eq_true in Hp as (P1 & P2 & P3). 
  destruct g as [|a [|b [|c [|]]]]; try done; cbn in Eu; case_decide as Hd; try done; injection Eu as <-; cbn [Terminal.run foldl].
  - unfold Terminal.term_byte. rewrite decide_False, Ht, decide_True by lia. done.
  - destruct Hd as (Ha & Hb & _). unfold Terminal.term_byte at 2. rewrite decide_False, Ht, decide_False, decide_True by lia.
    unfold is_cont in Hb. apply bool_decide_eq_true in Hb.
    unfold Terminal.term_byte. rewrite decide_False by lia. cbn [t_mode in_mode]. unfold is_cont. rewrite bool_decide_eq_true_2 by lia.
    destruct t. reflexivity.
  - destruct Hd as (Ha & Hb & Hcc & _). unfold is_cont in Hb, Hcc. apply bool_decide_eq_true in Hb, Hcc.
    unfold Terminal.term_byte at 3. rewrite decide_False, Ht, decide_False, decide_False, decide_True by lia.
    unfold Terminal.term_byte at 2. rewrite decide_False by lia. cbn [t_mode in_mode]. unfold is_cont at 1. rewrite bool_decide_eq_true_2 by lia.
    unfold Terminal.term_byte. rewrite decide_False by lia. cbn [t_mode in_mode]. unfold is_cont. rewrite bool_decide_eq_true_2 by lia.
    destruct t. reflexivity.
Qed.
End sequences.

(** ** Emitting *)

Ltac rend_step :=
  lazymatch goal with
  | |- wp (mbind _ _) _ _ => apply wp_bind
  | |- wp (gets _) _ _ => apply wp_gets
  | |- wp (rset _ _) _ _ => apply wp_modify
  | |- wp (mret _) _ _ => apply wp_ret
  | |- wp skip _ _ => apply wp_ret
  end; cbv beta zeta; fld.
Ltac rend_run := repeat rend_step.

(** The renderer after emitting [bs]. *)
Definition emit (bs : list Z) (r : rend) : rend := r <| obuf := obuf r ++ bs |>.
Definition room (n : Z) (r : rend) : Prop := len (obuf r) + n <= OBUF.

Lemma emit_nil r : emit [] r = r.
Proof. unfold emit. rewrite app_nil_r. by destruct r. Qed.
Lemma emit_emit a b r : emit b (emit a r) = emit (a ++ b) r.
Proof. unfold emit. fld. by rewrite <- app_assoc; destruct r. Qed.
Lemma room_emit n bs r : room n (emit bs r) <-> room (len bs + n) r.
Proof. unfold room, emit. fld. rewrite length_app. lia. Qed.
Lemma obuf_emit bs r : obuf (emit bs r) = obuf r ++ bs.
Proof. done. Qed.

Lemma wp_e_s s : forall Q r, room (len s) r -> Q tt (emit s r) -> wp (e_s s) Q r.
Proof.
  induction s as [|c s IH]; intros Q r Hr HQ; cbn [e_s].
  - rewrite emit_nil in HQ. by apply wp_ret.
  - rend_step. unfold e_b. rend_step. rend_step. unfold room in Hr. cbn [length] in Hr. rewrite bool_decide_eq_true_2 by (unfold OBUF in *; lia).
    cbn [when]. rend_step. change (r <| obuf := obuf r ++ [c] |>) with (emit [c] r). apply IH.
    + rewrite room_emit. unfold room. cbn [length]. lia.
    + by rewrite emit_emit.
Qed.
Lemma wp_e_b c Q r : room 1 r -> Q tt (emit [c] r) -> wp (e_b c) Q r.
Proof. intros Hr HQ. unfold e_b. rend_step. rend_step. unfold room in Hr. rewrite bool_decide_eq_true_2 by lia. done. Qed.
Lemma wp_e_num v Q r : room (len (num_bytes v)) r -> Q tt (emit (num_bytes v) r) -> wp (e_num v) Q r.
Proof. unfold e_num, num_bytes. case_decide; [apply wp_e_b|apply wp_e_s]. Qed.

Ltac emit_tac :=
  repeat first
    [ rend_step
    | apply wp_e_s; [rewrite ?room_emit; rewrite ?length_app in *; cbn [length] in *; unfold room in *; lia|rewrite ?emit_emit]
    | apply wp_e_b; [rewrite ?room_emit; rewrite ?length_app in *; cbn [length] in *; unfold room in *; lia|rewrite ?emit_emit]
    | apply wp_e_num; [rewrite ?room_emit; rewrite ?length_app in *; cbn [length] in *; unfold room in *; lia|rewrite ?emit_emit] ].

Lemma wp_e_cup row col Q r : room (len (cup_bytes row col)) r -> Q tt (emit (cup_bytes row col) r) -> wp (e_cup row col) Q r.
Proof.
  unfold e_cup, cup_bytes. intros Hr HQ. emit_tac. by rewrite <- !app_assoc.
Qed.

Lemma v2a_swap n : 0 <= n < 8 -> rd v2a n = Some (swap_rb n).
Proof. intros Hn. assert (n = 0 \/ n = 1 \/ n = 2 \/ n = 3 \/ n = 4 \/ n = 5 \/ n = 6 \/ n = 7) as H by lia. by repeat destruct H as [->|H]; [..|subst]. Qed.
Lemma swap_bright n : 8 <= n < 16 -> swap_rb n = 8 + swap_rb (n - 8).
Proof.
  intros Hn. assert (n = 8 \/ n = 9 \/ n = 10 \/ n = 11 \/ n = 12 \/ n = 13 \/ n = 14 \/ n = 15) as H by lia.
  by repeat destruct H as [->|H]; [..|subst].
Qed.
Lemma blink_bit at_ : is_byte at_ -> bool_decide (Z.land at_ 0x80 <> 0) = Z.testbit at_ 7.
Proof.
  intros _. destruct (Z.testbit at_ 7) eqn:E.
  - apply bool_decide_eq_true. intros H. apply (f_equal (fun x => Z.testbit x 7)) in H. rewrite Z.land_spec, E in H. done.
  - apply bool_decide_eq_false. intros H. apply H. apply Z.bits_inj'. intros i Hi. rewrite Z.land_spec, Z.bits_0.
    change 0x80 with (2 ^ 7). destruct (decide (i = 7)) as [->|]; [by rewrite E|]. rewrite Z.pow2_bits_false by lia. apply andb_false_r.
Qed.

Lemma wp_e_sgr at_ Q r :
  is_byte at_ -> room (len (sgr_bytes at_)) r -> Q tt (emit (sgr_bytes at_) r) -> wp (e_sgr at_) Q r.
Proof.
  intros Hb Hr HQ. unfold e_sgr. destruct (attr_parts at_) as [H1 H2]. rewrite blink_bit by done.
  apply wp_bind, (wp_lift _ (fg_code at_)).
  { unfold fg_code. cbv zeta. set (f := Z.land at_ 0x0F) in *. destruct (decide (f < 8)).
    - rewrite v2a_swap by lia. cbn. destruct (swap_rb_range f) as [_ ?]; [lia|]. rewrite decide_True by lia. done.
    - rewrite v2a_swap by lia. cbn. rewrite (swap_bright f) by lia. destruct (swap_rb_range (f - 8)); [lia|].
      rewrite decide_False by lia. f_equal. lia. }
  apply wp_bind, (wp_lift _ (swap_rb (Z.land (Z.shiftr at_ 4) 0x07))); [by apply v2a_swap|].
  fold (bg_code at_). unfold sgr_bytes in Hr, HQ. destruct (Z.testbit at_ 7); cbn [when]; emit_tac; cbn [when]; emit_tac; by rewrite <- ?app_assoc.
Qed.
Lemma wp_e_char ch g Q r : glyph ch = Some g -> room (len g) r -> Q tt (emit g r) -> wp (e_char ch) Q r.
Proof. intros E Hr HQ. unfold e_char. rend_step. apply (wp_lift _ g); [done|]. by apply wp_e_s. Qed.

(** Lengths, for the reserve of 48 bytes, and ranges. *)
Lemma dec_digits_length k : forall m v, 0 <= v < 10 ^ Z.of_nat m -> (length (dec_digits k v) <= m)%nat.
Proof.
  induction k as [|k IH]; intros m v Hv; cbn [dec_digits]; [cbn; lia|]. case_decide; [cbn; lia|].
  destruct m as [|m]; [cbn in Hv; lia|]. rewrite Nat2Z.inj_succ, Z.pow_succ_r in Hv by lia.
  rewrite length_app. cbn [length]. specialize (IH m (v / 10)). assert (0 <= v / 10 < 10 ^ Z.of_nat m) by (Z.div_mod_to_equations; lia). lia.
Qed.
Lemma num_length m v : (1 <= m)%nat -> 0 <= v < 10 ^ Z.of_nat m -> (length (num_bytes v) <= m)%nat.
Proof. intros. unfold num_bytes. case_decide; [done|]. by apply dec_digits_length. Qed.
Lemma dec_digits_bytes k : forall v, all_bytes (dec_digits k v).
Proof.
  induction k as [|k IH]; intros v; cbn [dec_digits]; [done|]. case_decide; [done|]. apply Forall_app_2; [done|].
  apply Forall_singleton. pose proof (Z.mod_pos_bound v 10). unfold is_byte. lia.
Qed.
Lemma num_bytes_bytes v : all_bytes (num_bytes v).
Proof. unfold num_bytes. case_decide; [by apply Forall_singleton|apply dec_digits_bytes]. Qed.

Lemma cup_length r c : 0 <= r < 999 -> 0 <= c < 999 -> len (cup_bytes r c) <= 10.
Proof.
  intros Hr Hc. unfold cup_bytes. rewrite !u16_id by (unfold is_u16; lia). rewrite !length_app. cbn [length].
  pose proof (num_length 3 (r + 1) ltac:(lia) ltac:(lia)). pose proof (num_length 3 (c + 1) ltac:(lia) ltac:(lia)). lia.
Qed.
Lemma sgr_length at_ : len (sgr_bytes at_) <= 12.
Proof.
  unfold sgr_bytes. destruct (codes_range at_). rewrite !length_app. cbn [length].
  pose proof (num_length 2 (fg_code at_) ltac:(lia) ltac:(lia)). pose proof (num_length 2 (bg_code at_) ltac:(lia) ltac:(lia)).
  destruct (Z.testbit at_ 7); cbn [length]; lia.
Qed.
Ltac bytes_tac := rewrite ?Forall_app; split_and!; try apply num_bytes_bytes; try done; repeat (apply Forall_cons; split; [unfold is_byte; lia|]); try constructor.
Lemma cup_bytes_bytes r c : all_bytes (cup_bytes r c).
Proof. unfold cup_bytes. bytes_tac. Qed.
Lemma sgr_bytes_bytes at_ : all_bytes (sgr_bytes at_).
Proof. unfold sgr_bytes. destruct (Z.testbit at_ 7); bytes_tac. Qed.
Lemma rd_sub_bytes : forallb (fun ch => match glyph ch with Some g => forallb (fun b => bool_decide (is_byte b)) g | None => false end) (seqZ 0 256) = true.
Proof. vm_compute. reflexivity. Qed.
Lemma glyph_bytes ch : is_byte ch -> exists g, glyph ch = Some g /\ 1 <= len g <= 3 /\ all_bytes g.
Proof.
  intros Hc. destruct (glyph_printable ch Hc) as (g & p & Eg & Hl & _). exists g. split_and!; try done; try lia.
  pose proof rd_sub_bytes as H. rewrite forallb_forall in H.
  assert (In ch (seqZ 0 256)) as Hin by (apply list_elem_of_In, elem_of_seqZ; unfold is_byte in Hc; lia).
  specialize (H ch Hin). rewrite Eg, forallb_forall in H. apply Forall_forall. intros b Hb%list_elem_of_In. by apply H, bool_decide_eq_true in Hb.
Qed.

(** ** The invariant of a frame *)

Section mirror.
Context (W H : Z) (HW : 0 < W <= 132) (HH : 0 < H <= 60) (HWH : W * H <= 2000).
Abbreviation run := (run W H).

(** A machine in a text mode of [W] x [H] cells. *)
Record screen_ok (e : machine) : Prop := {
  sc_bda : 0x84 < len (bda e) /\ all_bytes (bda e);
  sc_cols : rd (bda e) 0x4A = Some W;
  sc_rows : rd (bda e) 0x84 = Some (H - 1);
  sc_mono : W * H * 2 <= len (mono e) /\ all_bytes (mono e);
  sc_color : W * H * 2 <= len (color e) /\ all_bytes (color e)
}.

(** Cell [j] of a text buffer. *)
Definition buf_cell (v : list Z) (j : Z) : cell := cell_view (v !!! Z.to_nat (j * 2)) (v !!! Z.to_nat (j * 2 + 1)).
Definition shows (t : term) (v : list Z) (n : Z) : Prop :=
  forall j, 0 <= j < n -> t_grid t (j / W) (j mod W) = buf_cell v j.

(** During a frame, with cells below [c] done; [t] has received everything
    emitted so far. *)
Record frame_inv (c : Z) (r : rend) (t : term) : Prop := {
  fi_mode : t_mode t = Ground /\ t_wrap t = false;
  fi_geom : f_cols r = W /\ total_cells r = W * H /\ is_toobig r = false /\ sh_cols r = W /\ sh_rows r = H;
  fi_shadow : len (shadow r) = SHADOW_BYTES /\ all_bytes (shadow r);
  fi_last : last_emit r = -2 \/ 0 <= last_emit r < c /\ t_row t = last_emit r / W /\ t_col t = Z.min (last_emit r mod W + 1) (W - 1);
  fi_sgr : cur_sgr r = -1 \/ t_attr t = vga_attr (cur_sgr r);
  fi_shown : shows t (shadow r) (if is_repaint r then c else W * H);
  fi_valid : is_repaint r = false -> shadow_valid r = true
}.

(** What filling does not touch. *)
Definition but_fill (r : rend) : rend := r <| obuf := [] |> <| shadow := [] |> <| cur_sgr := 0 |> <| last_emit := 0 |>.

Lemma cell_pos_inj i j : i / W = j / W -> i mod W = j mod W -> i = j.
Proof. intros E1 E2. rewrite (Z.div_mod i W), (Z.div_mod j W) by lia. congruence. Qed.

Lemma next_pos l c : c = l + 1 -> c mod W <> 0 -> c / W = l / W /\ c mod W = Z.min (l mod W + 1) (W - 1).
Proof.
  intros -> Hz. pose proof (Z.mod_pos_bound l W ltac:(lia)) as Hm. pose proof (Z.div_mod l W ltac:(lia)) as E.
  assert (l mod W + 1 < W \/ l mod W + 1 = W) as [Hl|Hl] by lia.
  - assert (l + 1 = (l / W) * W + (l mod W + 1)) as E' by lia. 
    split; [|rewrite Z.min_l by lia]; rewrite E'.
    + rewrite Z.div_add_l, (Z.div_small (l mod W + 1)) by lia. lia.
    + rewrite (Z.add_comm (l / W * W)), Z.mod_add, (Z.mod_small (l mod W + 1)) by lia. lia.
  - exfalso. apply Hz. replace (l + 1) with ((l / W + 1) * W) by lia. apply Z.mod_mul. lia.
Qed.

(** Printing the cell at its place. *)
Lemma print_grid p t r c :
  t_grid (print W H p t) r c = (if decide (r = t_row t /\ c = t_col t) then (p, t_attr t) else t_grid t r c) \/ t_wrap t = true.
Proof. unfold print. case_decide; [by left|]. destruct (t_wrap t); [by right|by left]. Qed.
Lemma print_pos p t :
  t_wrap t = false -> 0 <= t_col t < W ->
  t_mode (print W H p t) = Ground /\ t_wrap (print W H p t) = false /\ t_attr (print W H p t) = t_attr t /\
  t_row (print W H p t) = t_row t /\ t_col (print W H p t) = Z.min (t_col t + 1) (W - 1).
Proof. intros Hw Hc. unfold print. rewrite Hw. case_decide; cbn; rewrite ?Hw; split_and!; try done; lia. Qed.

Definition filled (c : Z) (r : rend) (t : term) (r' : rend) : Prop :=
  exists bs, obuf r' = obuf r ++ bs /\ len bs <= 25 /\ all_bytes bs /\ frame_inv c r' (run t bs) /\ but_fill r' = but_fill r.

Lemma rd_total v i : 0 <= i < len v -> rd v i = Some (v !!! Z.to_nat i).
Proof. intros Hi. unfold rd. rewrite decide_True by lia. apply list_lookup_lookup_total_lt. lia. Qed.
Lemma total_byte v i : all_bytes v -> 0 <= i < len v -> is_byte (v !!! Z.to_nat i).
Proof. intros Hv Hi. eapply rd_byte; [done|]. by apply rd_total. Qed.
Lemma lookup_total_insert2 (l : list Z) i j v :
  0 <= i < len l -> 0 <= j -> <[Z.to_nat i := v]> l !!! Z.to_nat j = if decide (j = i) then v else l !!! Z.to_nat j.
Proof.
  intros Hi Hj. case_decide as E.
  - subst. apply list_lookup_total_insert_eq. lia.
  - apply list_lookup_total_insert_ne. lia.
Qed.

Lemma with_attr_id t : t_mode t = Ground -> with_attr (t_attr t) t = t.
Proof. destruct t. cbn. by intros ->. Qed.

(** The optional cursor move of a changed cell. *)
Lemma move_wp c r t :
  0 <= c < W * H -> frame_inv c r t -> room 10 r ->
  wp (when (bool_decide (c <> last_emit r + 1) || bool_decide (c mod W = 0)) (e_cup (c / W) (c mod W)))
    (fun _ r' => exists bs, r' = emit bs r /\ len bs <= 10 /\ all_bytes bs /\ t_row (run t bs) = c / W /\ t_col (run t bs) = c mod W /\
      t_mode (run t bs) = Ground /\ t_wrap (run t bs) = false /\ t_attr (run t bs) = t_attr t /\ t_grid (run t bs) = t_grid t) r.
Proof.
  intros Hc [[Hm Hwr] _ _ Hl _ _ _] Hr.
  assert (0 <= c / W < 60 /\ 0 <= c mod W < 132) as [Hrow Hcol].
  { split; [|pose proof (Z.mod_pos_bound c W); lia]. split; [apply Z.div_pos; lia|]. apply Z.div_lt_upper_bound; nia. }
  destruct (bool_decide (c <> last_emit r + 1) || bool_decide (c mod W = 0)) eqn:Eb; cbn [when].
  - pose proof (cup_length (c / W) (c mod W) ltac:(lia) ltac:(lia)). apply wp_e_cup; [unfold room in *; lia|].
    exists (cup_bytes (c / W) (c mod W)). rewrite cup_run by lia. split_and!; try done. apply cup_bytes_bytes.
  - apply orb_false_elim in Eb as [E1 E2]. apply bool_decide_eq_false in E1, E2. apply dec_stable in E1.
    apply wp_ret. exists []. rewrite emit_nil. destruct Hl as [Hl|(Hl & R1 & R2)]; [exfalso; lia|].
    destruct (next_pos (last_emit r) c E1 E2) as [N1 N2]. cbn. rewrite R1, R2, N1, N2. split_and!; done || lia.
Qed.

Lemma fill_cell_wp v c r t :
  W * H * 2 <= len v -> all_bytes v -> 0 <= c < W * H -> frame_inv c r t -> room 25 r ->
  wp (fill_cell v W c) (fun _ r' => filled (c + 1) r t r') r.
Proof.
  intros Lv Bv Hc Hi Hr. pose proof Hi as [[Hm Hwr] (G1&G2&G3&G4&G5) [Ls Bs] Hl Hs Hsh Hv]. unfold SHADOW_BYTES in *.
  unfold fill_cell. rend_step. apply (wp_lift _ (v !!! Z.to_nat (c * 2))); [apply rd_total; lia|].
  rend_step. apply (wp_lift _ (v !!! Z.to_nat (c * 2 + 1))); [apply rd_total; lia|].
  set (ch := v !!! Z.to_nat (c * 2)). set (at_ := v !!! Z.to_nat (c * 2 + 1)).
  assert (is_byte ch /\ is_byte at_) as [Bch Bat] by (split; apply total_byte; done || lia).
  do 7 rend_step. rewrite G3, orb_false_r.
  apply (wp_lift _ (is_repaint r || bool_decide (ch <> shadow r !!! Z.to_nat (c * 2)) || bool_decide (at_ <> shadow r !!! Z.to_nat (c * 2 + 1)))).
  { destruct (is_repaint r); [done|]. rewrite (rd_total (shadow r) (c * 2)), (rd_total (shadow r) (c * 2 + 1)) by lia. cbn [mbind option_bind orb].
    destruct (decide (ch <> shadow r !!! Z.to_nat (c * 2))) as [E|E]; [by rewrite (bool_decide_eq_true_2 _ E)|by rewrite (bool_decide_eq_false_2 _ E)]. }
  destruct (is_repaint r || _ || _) eqn:Eb; cbn [negb].
  2: { apply orb_false_elim in Eb as [[E0 E1]%orb_false_elim E2]. apply bool_decide_eq_false in E1, E2. apply dec_stable in E1, E2.
    apply wp_ret. exists []. rewrite app_nil_r. split_and!; try done. constructor; try done.
    - destruct Hl as [?|(?&?)]; [by left|]. right. split; [lia|done].
    - intros j Hj. apply Hsh. rewrite E0 in *. done. }
  rend_step. rend_step. rend_step. 
  eapply wp_mono; [apply (move_wp c r t Hc Hi); unfold room in *; lia|]. cbn beta.
  intros _ r1 (b1 & -> & L1 & B1 & R1 & C1 & M1 & W1 & A1 & Gr1). set (t1 := run t b1) in *.
  rend_step. rend_step. rend_step. change (cur_sgr (emit b1 r)) with (cur_sgr r).
  apply (wp_mono _ (fun _ r2 => exists b2, r2 = (emit (b1 ++ b2) r) <| cur_sgr := at_ |> /\ len b2 <= 12 /\ all_bytes b2 /\ 
     run t1 b2 = with_attr (vga_attr at_) t1)).
  { destruct (bool_decide (at_ <> cur_sgr r)) eqn:E; cbn [when].
    - rend_step. pose proof (sgr_length at_). apply wp_e_sgr; [done|rewrite room_emit; unfold room in *; lia|]. rewrite emit_emit. rend_step.
      exists (sgr_bytes at_). rewrite sgr_run. split_and!; try done. apply sgr_bytes_bytes.
    - apply bool_decide_eq_false, dec_stable in E. apply wp_ret. exists []. rewrite app_nil_r. split_and!; try done.
      + rewrite E. unfold emit. by destruct r.
      + cbn. destruct Hs as [Hs|Hs]; [unfold is_byte in *; lia|]. rewrite E, <- Hs, <- A1. by rewrite with_attr_id. }
  intros _ r2 (b2 & -> & L2 & B2 & E2). destruct (glyph_bytes ch Bch) as (g & Eg & Lg & Bg).
  rend_step. apply (wp_e_char ch g); [done|unfold room in *; unfold emit; fld; rewrite !length_app; lia|].
  assert (forall k, 0 <= k < W * H * 2 -> k < len (shadow r)) as Hk by lia.
  apply (wp_mono _ (fun _ r3 => r3 = (emit (b1 ++ b2 ++ g) r) <| cur_sgr := at_ |>
      <| shadow := <[Z.to_nat (c * 2 + 1) := at_]> (<[Z.to_nat (c * 2) := ch]> (shadow r)) |> <| last_emit := c |>)).
  { cbn [negb when]. rend_step. rend_step. apply wp_poke; [lia|]. rend_step. apply wp_poke; [rewrite length_insert; lia|].
    rend_step. rend_step. unfold emit. destruct r; cbn. by rewrite <- !app_assoc. }
  intros _ r3 ->. exists (b1 ++ b2 ++ g). 
  assert (run t (b1 ++ b2 ++ g) = print W H (default 0 (code_point ch)) (with_attr (vga_attr at_) t1)) as Er.
  { rewrite !run_app. fold t1. rewrite E2. by rewrite (glyph_run W H ch g). }
  set (t2 := with_attr (vga_attr at_) t1) in *.
  assert (t_wrap t2 = false /\ t_row t2 = c / W /\ t_col t2 = c mod W /\ t_attr t2 = vga_attr at_ /\ t_grid t2 = t_grid t) as (W2&R2&C2&A2&G2') by done.
  destruct (print_pos (default 0 (code_point ch)) t2) as (P1&P2&P3&P4&P5); [done|rewrite C2; apply Z.mod_pos_bound; lia|].
  split_and!; fld.
  - done.
  - rewrite !length_app. lia.
  - by repeat apply Forall_app_2.
  - rewrite Er. constructor; fld; try done.
    + rewrite !length_insert. split; [done|]. by repeat apply Forall_insert.
    + right. rewrite P4, P5, R2, C2. split; [lia|done].
    + right. by rewrite P3.
    + intros j Hj. destruct (print_grid (default 0 (code_point ch)) t2 (j / W) (j mod W)) as [->|Hx]; [|congruence].
      rewrite R2, C2, A2, G2'. unfold buf_cell.
      assert (0 <= j < W * H) as Hj' by (change (is_repaint (emit (b1 ++ b2 ++ g) r)) with (is_repaint r) in Hj; destruct (is_repaint r); lia).
      rewrite !lookup_total_insert2 by (rewrite ?length_insert; lia).
      destruct (decide (j = c)) as [->|Hne].
      * rewrite (decide_False (P := c * 2 = c * 2 + 1)) by lia. by rewrite !decide_True by done.
      * rewrite decide_False by (intros [X Y]; by apply Hne, (cell_pos_inj j c)).
        rewrite !decide_False by lia. apply Hsh. change (is_repaint (emit (b1 ++ b2 ++ g) r)) with (is_repaint r) in Hj. destruct (is_repaint r); lia.
  - unfold but_fill, emit. by destruct r.
Qed.

Lemma but_fill_field {T} (f : rend -> T) r r' : but_fill r' = but_fill r -> f (but_fill r') = f (but_fill r).
Proof. by intros ->. Qed.

(** The loop stops at the end of the screen or when less than 48 bytes are free. *)
Lemma fill_loop_wp v n : forall c r t,
  W * H * 2 <= len v -> all_bytes v -> 0 <= c -> c + Z.of_nat n = W * H -> frame_inv c r t -> len (obuf r) <= 2025 ->
  wp (fill_loop n v W (W * H) c) (fun c' r' => c <= c' <= W * H /\ len (obuf r') <= 2025 /\ (c' < W * H -> obuf r' <> []) /\
    exists bs, obuf r' = obuf r ++ bs /\ all_bytes bs /\ frame_inv c' r' (run t bs) /\ but_fill r' = but_fill r) r.
Proof.
  induction n as [|n IH]; intros c r t Lv Bv Hc Hn Hi Ho; cbn [fill_loop].
  - apply wp_ret. split_and!; try lia. exists []. by rewrite app_nil_r.
  - rewrite decide_True by lia. rend_step. rend_step. case_decide as Hfull.
    + apply wp_ret. split_and!; try lia. { intros _ E. rewrite E in Hfull. unfold OBUF in Hfull. cbn in Hfull. lia. } exists []. by rewrite app_nil_r.
    + rend_step. eapply wp_mono; [apply (fill_cell_wp v c r t); try done; [lia|unfold room, OBUF in *; lia]|].
      intros _ r1 (b1 & E1 & L1 & B1 & I1 & F1).
      eapply wp_mono; [apply (IH (c + 1) r1 (run t b1)); try done; try lia|].
      { rewrite E1, length_app. unfold OBUF in *. lia. }
      cbn beta. intros c' r' (Hc' & Ho' & Hne & b2 & E2 & B2 & I2 & F2). split_and!; try done; try lia.
      exists (b1 ++ b2). rewrite E2, E1, <- app_assoc, run_app. split_and!; try done; [by apply Forall_app_2|congruence].
Qed.

(** Between frames. *)
Record idle_inv (r : rend) (t : term) : Prop := {
  ii_shadow : len (shadow r) = SHADOW_BYTES /\ all_bytes (shadow r);
  ii_shown : shadow_valid r = true -> sh_cols r = W /\ sh_rows r = H /\ shows t (shadow r) (W * H) /\
    t_row t = last_cur_r r /\ t_col t = last_cur_c r
}.

Definition screen (e : machine) : list Z := default [] (scr_base e).
Lemma scr_base_ok e : screen_ok e -> scr_base e = Some (screen e) /\ W * H * 2 <= len (screen e) /\ all_bytes (screen e).
Proof.
  intros [[Hl Hb] _ _ [? ?] [? ?]]. unfold screen, scr_base, scr_mode. rewrite (rd_total _ 0x49) by lia. cbn.
  case_decide; cbn; done.
Qed.
Lemma bda_word_ok e o : screen_ok e -> 0 <= o < 0x84 -> exists w, bda_word e o = Some w /\ 0 <= w < 65536.
Proof.
  intros [[Hl Hb] _ _ _ _] Ho. unfold bda_word. rewrite (rd_total _ o), (rd_total _ (o + 1)) by lia. cbn. eexists. split; [done|].
  pose proof (total_byte (bda e) o Hb ltac:(lia)). pose proof (total_byte (bda e) (o + 1) Hb ltac:(lia)). unfold is_byte in *. lia.
Qed.
Lemma ticks_ok e : screen_ok e -> exists w, ticks e = Some w.
Proof.
  intros He. unfold ticks. destruct (bda_word_ok e 0x6C He) as (a & -> & _); [lia|]. destruct (bda_word_ok e 0x6E He) as (b & -> & _); [lia|].
  cbn. eauto.
Qed.

Definition cursor_of (e : machine) : Z * Z :=
  let rc := default 0 (cursor_rc e) in (u8 (Z.shiftr rc 8), u8 rc).

Lemma frame_fill_wp e r t :
  screen_ok e -> frame_active r = true -> 0 <= walk_cell r <= W * H -> frame_inv (walk_cell r) r t -> len (obuf r) <= 2025 ->
  wp (frame_fill e) (fun _ r' => obuf r' <> [] /\ len (obuf r') <= OBUF /\ o_off r' = o_off r /\ pushed r' = pushed r /\
    exists bs, obuf r' = obuf r ++ bs /\ all_bytes bs /\
      if frame_active r' then 0 <= walk_cell r' <= W * H /\ frame_inv (walk_cell r') r' (run t bs) else idle_inv r' (run t bs)) r.
Proof.
  intros He Ha Hw Hi Ho. destruct (scr_base_ok e He) as (Eb & Lv & Bv). pose proof Hi as [_ (G1&G2&G3&_) _ _ _ _ _].
  unfold frame_fill. rend_step. apply (wp_lift _ (screen e)); [done|]. do 7 rend_step. rewrite G1, G2.
  eapply wp_mono; [apply (fill_loop_wp (screen e) (Z.to_nat (W * H - walk_cell r)) (walk_cell r) r t); try done; lia|].
  cbn beta. intros c r1 (Hc & Ho1 & Hne & bs & E1 & B1 & I1 & F1). rend_step. rend_step.
  assert (frame_active r1 = true /\ o_off r1 = o_off r /\ pushed r1 = pushed r) as (Fa & Fo & Fp).
  { pose proof (but_fill_field frame_active _ _ F1) as X. pose proof (but_fill_field o_off _ _ F1) as Y. pose proof (but_fill_field pushed _ _ F1) as Z'.
    unfold but_fill in X, Y, Z'. revert X Y Z'. fld. intros X Y Z'. split_and!; congruence. }
  case_decide as Hd.
  2: { apply wp_ret. fld. split_and!; try done; [apply Hne; lia|unfold OBUF; lia|]. exists bs. rewrite Fa. split_and!; try done; [lia|lia|].
       destruct I1. by constructor; fld. }
  assert (c = W * H) as -> by lia. unfold cursor_rc. destruct (bda_word_ok e 0x50 He) as (rc & Erc & Hrc); [lia|].
  destruct (bda_word_ok e 0x60 He) as (tv & Etv & _); [lia|]. destruct (ticks_ok e He) as (now & En).
  rend_step. apply (wp_lift _ rc); [done|]. cbv zeta. set (cr := u8 (Z.shiftr rc 8)). set (cc := u8 rc).
  assert (is_byte cr /\ is_byte cc) as [Bcr Bcc] by (split; apply u8_byte).
  pose proof (cup_length cr cc ltac:(unfold is_byte in *; lia) ltac:(unfold is_byte in *; lia)) as Lc.
  rend_step. apply wp_e_cup; [unfold room, OBUF; fld; lia|].
  unfold cursor_visible. rewrite Etv. cbn [mbind option_bind]. rend_step. apply (wp_lift _ (bool_decide (Z.land (Z.shiftr tv 8) 0x20 = 0))); [done|].
  set (vis := bool_decide _). set (tail := if vis then [27; 91; 63; 50; 53; 104] else [27; 91; 63; 50; 53; 108]).
  assert (len tail = 6 /\ all_bytes tail /\ forall t', run t' tail = with_vis vis t') as (Lt & Bt & Rt).
  { unfold tail. destruct vis; (split; [done|split; [repeat (apply Forall_cons; split; [unfold is_byte; lia|]); constructor|by intros []]]). }
  clearbody tail. rend_step. apply wp_e_s; [rewrite room_emit, Lt; unfold room, OBUF; fld; lia|]. rewrite emit_emit. rend_run.
  apply (wp_lift _ now); [done|]. destruct I1 as [[M1 W1] (_&_&G3'&G4&G5) [Ls Bs] _ _ Sh Hv].
  set (r2 := emit (cup_bytes cr cc ++ tail) (r1 <| walk_cell := W * H |>)).
  assert (is_toobig r2 = false /\ is_repaint r2 = is_repaint r1) as [-> ->] by done. rewrite orb_false_r. cbn [negb when].
  apply (wp_mono _ (fun _ r' => exists fk lk, r' = r2 <| last_cur_r := cr |> <| last_cur_c := cc |> <| frame_active := false |>
     <| shadow_valid := true |> <| force_kf := fk |> <| last_kf := lk |>)).
  { destruct (is_repaint r1); cbn [when]; rend_run; [exists false, now|exists (force_kf r2), (last_kf r2)]; unfold r2, emit; by destruct r1. }
  intros _ r' (fk & lk & ->). unfold r2, emit. fld. split_and!; try done.
  - destruct (obuf r1); done.
  - rewrite !length_app. unfold OBUF. lia.
  - exists (bs ++ cup_bytes cr cc ++ tail). rewrite E1, <- app_assoc. split_and!; [done|rewrite !Forall_app; split_and!; [done|apply cup_bytes_bytes|done]|].
    rewrite !run_app, Rt, cup_run by (unfold is_byte in *; lia). constructor; fld; [done|]. intros _. split_and!; try done.
    intros j Hj. cbn. apply Sh. destruct (is_repaint r1); lia.
Qed.

(** ** Deciding *)

Lemma cell_differs_ok v sh c :
  0 <= c -> c + 2 <= len v -> c + 2 <= len sh ->
  cell_differs v sh c = Some (bool_decide (v !!! Z.to_nat c <> sh !!! Z.to_nat c) || bool_decide (v !!! Z.to_nat (c + 1) <> sh !!! Z.to_nat (c + 1))).
Proof. intros. unfold cell_differs. by rewrite !rd_total by lia. Qed.

(** No change is counted exactly when all cells agree. *)
Lemma count_changed_ok v sh n : forall c k,
  0 <= c -> c + 2 * Z.of_nat n <= len v -> c + 2 * Z.of_nat n <= len sh ->
  exists m, count_changed n v sh c k = Some m /\ k <= m /\
    (m = k -> forall i, 0 <= i < Z.of_nat n -> v !!! Z.to_nat (c + i * 2) = sh !!! Z.to_nat (c + i * 2)
       /\ v !!! Z.to_nat (c + i * 2 + 1) = sh !!! Z.to_nat (c + i * 2 + 1)).
Proof.
  induction n as [|n IH]; intros c k Hc Lv Ls; cbn [count_changed].
  - exists k. split; [done|]. split; [lia|]. intros _ i Hi. lia.
  - rewrite cell_differs_ok by lia. cbn [mbind option_bind]. destruct (_ || _) eqn:E.
    + destruct (IH (c + 2) (k + 1)) as (m & Em & Hm & _); [lia..|]. exists m. split; [done|]. split; [lia|]. intros ->. lia.
    + destruct (IH (c + 2) k) as (m & Em & Hm & Hi); [lia..|]. exists m. split; [done|]. split; [lia|]. intros -> i Hr.
      apply orb_false_elim in E as [E1 E2]. apply bool_decide_eq_false, dec_stable in E1, E2.
      destruct (decide (i = 0)) as [->|]; [by rewrite Z.add_0_r|]. specialize (Hi eq_refl (i - 1) ltac:(lia)).
      by replace (c + 2 + (i - 1) * 2) with (c + i * 2) in Hi by lia.
Qed.

Lemma prefix_run (t : term) : run t ([27; 91; 63; 55; 108] ++ [27; 91; 63; 50; 53; 108]) = with_vis false (with_wrap false t).
Proof. by destruct t. Qed.
Lemma clear_run (t : term) : run t ([27; 91; 50; 74] ++ [27; 91; 72]) = move_to 0 0 (erase t).
Proof. by destruct t. Qed.

Lemma start_frame_wp clear repaint r t :
  obuf r = [] -> is_toobig r = false -> len (shadow r) = SHADOW_BYTES /\ all_bytes (shadow r) ->
  (repaint = false -> clear = false /\ shadow_valid r = true /\ sh_cols r = W /\ sh_rows r = H /\ shows t (shadow r) (W * H)) ->
  wp (start_frame W H clear repaint) (fun _ r' => frame_active r' = true /\ walk_cell r' = 0 /\ len (obuf r') <= 18 /\ all_bytes (obuf r') /\
    o_off r' = o_off r /\ pushed r' = pushed r /\ frame_inv 0 r' (run t (obuf r'))) r.
Proof.
  intros Ho Hbig Hsh Hd. unfold start_frame.
  set (pre := [27; 91; 63; 55; 108] ++ [27; 91; 63; 50; 53; 108]). set (cl := [27; 91; 50; 74] ++ [27; 91; 72]).
  assert (len pre = 11 /\ len cl = 7 /\ all_bytes pre /\ all_bytes cl) as (Lp & Lc & Bp & Bc).
  { split_and!; try done; repeat (apply Forall_cons; split; [unfold is_byte; lia|]); constructor. }
  pose proof (prefix_run t) as Rp. fold pre in Rp. pose proof (clear_run (with_vis false (with_wrap false t))) as Rc. fold cl in Rc.
  clearbody pre cl. do 15 rend_step. apply wp_e_s; [rewrite Lp; unfold room, OBUF; fld; rewrite Ho; cbn; lia|].
  rend_step. set (r0 := emit pre _).
  assert (frame_active r0 = true /\ walk_cell r0 = 0 /\ obuf r0 = pre /\ o_off r0 = o_off r /\ pushed r0 = pushed r) as (F1&F2&F3&F4&F5).
  { unfold r0, emit. fld. rewrite Ho. done. }
  assert (f_cols r0 = W /\ total_cells r0 = W * H /\ is_toobig r0 = false /\ is_repaint r0 = repaint) as (G1&G2&G3&G4).
  { unfold r0, emit. fld. done. }
  assert (shadow r0 = shadow r /\ last_emit r0 = -2 /\ cur_sgr r0 = -1 /\ sh_cols r0 = sh_cols r /\ sh_rows r0 = sh_rows r /\ shadow_valid r0 = shadow_valid r)
    as (K1&K2&K3&K4&K5&K6).
  { unfold r0, emit. fld. done. }
  clearbody r0. set (bs := pre ++ if clear then cl else []).
  assert (t_mode (run t bs) = Ground /\ t_wrap (run t bs) = false /\ (repaint = false -> t_grid (run t bs) = t_grid t)) as (M1&M2&M3).
  { unfold bs. rewrite run_app, Rp. destruct clear; [rewrite Rc|]; split_and!; try reflexivity. intros Hr. destruct (Hd Hr) as [? _]. done. }
  apply (wp_mono _ (fun _ r1 => r1 = emit (if clear then cl else []) r0)).
  { destruct clear; cbn [when].
    - apply wp_e_s; [unfold room, OBUF; rewrite F3; lia|]. done.
    - apply wp_ret. by rewrite emit_nil. }
  intros _ r1 ->. apply (wp_mono _ (fun _ r2 => r2 = (emit (if clear then cl else []) r0) <| sh_cols := W |> <| sh_rows := H |>)).
  { destruct repaint; cbn [when]; rend_run; [done|]. destruct (Hd eq_refl) as (_&_&E1&E2&_). rewrite <- E1, <- E2, <- K4, <- K5.
    unfold emit. by destruct r0. }
  intros _ r2 ->. unfold emit. fld. rewrite F3. fold bs. split_and!; try done.
  - unfold bs. rewrite length_app. destruct clear; cbn [length]; lia.
  - unfold bs. apply Forall_app_2; [done|]. by destruct clear.
  - constructor; fld; try done.
    + by rewrite K1.
    + by left.
    + by left.
    + rewrite K1, G4. intros j Hj. destruct repaint; [lia|]. rewrite M3 by done. by apply Hd.
    + rewrite G4, K6. intros Hr. by apply Hd.
Qed.

(** What is known when nothing is worth sending. *)
Definition mirrored (e : machine) (t : term) : Prop :=
  shows t (screen e) (W * H) /\ (t_row t, t_col t) = cursor_of e.

Lemma frame_decide_wp e serial r t :
  screen_ok e -> frame_active r = false -> obuf r = [] -> idle_inv r t ->
  wp (frame_decide e serial) (fun _ r' => o_off r' = o_off r /\ pushed r' = pushed r /\
    if frame_active r' then walk_cell r' = 0 /\ len (obuf r') <= 18 /\ all_bytes (obuf r') /\ frame_inv 0 r' (run t (obuf r'))
    else obuf r' = [] /\ idle_inv r' t /\ mirrored e t) r.
Proof.
  intros He Ha Ho [[Ls Bs] Hs]. unfold SHADOW_BYTES in *. destruct (scr_base_ok e He) as (Eb & Lv & Bv). destruct (ticks_ok e He) as (now & En).
  destruct (bda_word_ok e 0x50 He) as (rc & Erc & Hrc); [lia|].
  unfold frame_decide. rend_step. apply (wp_lift _ W); [apply He|]. rend_step. apply (wp_lift _ H).
  { unfold scr_rows. rewrite (sc_rows e He). cbn. f_equal. lia. }
  rewrite (decide_False (P := W = 0 \/ W > 132)), (decide_False (P := H = 0 \/ H > 60)) by lia. cbv zeta.
  rend_step. apply (wp_lift _ (screen e)); [done|]. rend_step. apply (wp_lift _ now); [done|].
  rewrite (bool_decide_eq_false_2 (W * H * 2 > SHADOW_BYTES)) by (unfold SHADOW_BYTES; lia). do 14 rend_step. cbn [andb].
  assert (forall clear repaint r1, (repaint = false -> clear = false /\ shadow_valid r = true /\ sh_cols r = W /\ sh_rows r = H) ->
    obuf r1 = [] -> is_toobig r1 = false -> shadow r1 = shadow r -> shadow_valid r1 = shadow_valid r -> sh_cols r1 = sh_cols r -> sh_rows r1 = sh_rows r ->
    o_off r1 = o_off r -> pushed r1 = pushed r ->
    wp (start_frame W H clear repaint) (fun _ r' => o_off r' = o_off r /\ pushed r' = pushed r /\
    if frame_active r' then walk_cell r' = 0 /\ len (obuf r') <= 18 /\ all_bytes (obuf r') /\ frame_inv 0 r' (run t (obuf r'))
    else obuf r' = [] /\ idle_inv r' t /\ mirrored e t) r1) as Hstart.
  { intros clear repaint r1 Hc E1 E2 E3 E4 E5 E6 E7 E8.
    eapply wp_mono; [apply (start_frame_wp clear repaint r1 t); try done; [by rewrite E3|]|].
    - intros Hr. destruct (Hc Hr) as (-> & V & C & R). rewrite E3, E4, E5, E6. split_and!; try done. by apply Hs.
    - cbn beta. intros _ r' (-> & W0 & L & B & -> & -> & I). rewrite E7, E8. done. }
  set (clear := force_kf r || _ || _ || _). destruct (clear || _) eqn:Er.
  - apply Hstart; try done.
  - apply orb_false_elim in Er as [Ec _]. pose proof Ec as Ec'. unfold clear in Ec.
    apply orb_false_elim in Ec as [[[_ E1]%orb_false_elim E2]%orb_false_elim E3].
    apply negb_false_iff in E1. apply bool_decide_eq_false, dec_stable in E2, E3.
    destruct (Hs E1) as (_ & _ & Sh & R & C). rend_step. rend_step.
    destruct (count_changed_ok (screen e) (shadow r) (Z.to_nat (W * H * 2 / 2)) 0 0) as (m & Em & Hm & Hz); [lia|rewrite Z.div_mul by lia; lia|rewrite Z.div_mul by lia; lia|].
    rend_step. apply (wp_lift _ m); [done|]. rend_step. apply (wp_lift _ rc); [done|]. do 4 rend_step.
    destruct (bool_decide (m = 0) && _ && _) eqn:Ei.
    + apply andb_prop in Ei as [[I1 I2]%andb_prop I3]. apply bool_decide_eq_true in I1, I2, I3.
      apply wp_ret. fld. rewrite Ha. do 3 (split; [done|]). split; [constructor; fld; [by split|exact Hs]|]. split.
      * intros j Hj. rewrite Sh by done. rewrite Z.div_mul in Hz by lia. destruct (Hz I1 j ltac:(lia)) as [X Y]. rewrite Z.add_0_l in X, Y.
         unfold buf_cell. by rewrite X, Y.
      * unfold cursor_of, cursor_rc. rewrite Erc. cbn. by rewrite R, C, <- I2, <- I3.
    + rend_step. destruct (bool_decide (m <> 0)); cbn [when]; rend_step; apply Hstart; try done; intros _; by split_and!.
Qed.

(** ** The renderer and a terminal *)

(** The bytes produced and not yet handed over. *)
Definition pending (r : rend) : list Z :=
  (if decide (pushed r >= 0) then [pushed r] else []) ++ drop (Z.to_nat (o_off r)) (obuf r).

Record mirror_inv (r : rend) (t : term) : Prop := {
  mi_buf : len (obuf r) <= OBUF /\ all_bytes (obuf r) /\ 0 <= o_off r <= len (obuf r);
  mi_pushed : pushed r = -1 \/ is_byte (pushed r);
  mi_state : if frame_active r then 0 <= walk_cell r <= W * H /\ frame_inv (walk_cell r) r (run t (pending r))
             else idle_inv r (run t (pending r))
}.

Lemma frame_inv_same c r r' t :
  r' <| o_off := 0 |> <| pushed := 0 |> <| obuf := [] |> = r <| o_off := 0 |> <| pushed := 0 |> <| obuf := [] |> -> frame_inv c r t -> frame_inv c r' t.
Proof. intros E [? ? ? ? ? ? ?]. destruct r, r'. injection E. intros. subst. by constructor. Qed.
Lemma idle_inv_same r r' t :
  r' <| o_off := 0 |> <| pushed := 0 |> <| obuf := [] |> = r <| o_off := 0 |> <| pushed := 0 |> <| obuf := [] |> -> idle_inv r t -> idle_inv r' t.
Proof. intros E [? ?]. destruct r, r'. injection E. intros. subst. by constructor. Qed.

(** Handing over the next byte of the buffer. *)
Lemma take_byte_wp r t :
  mirror_inv r t -> pushed r = -1 -> o_off r < len (obuf r) ->
  wp take_byte (fun b r' => is_byte b /\ pushed r' = -1 /\ mirror_inv r' (term_byte W H t b)) r.
Proof.
  intros [(L & B & O) _ St] Hp Ho. unfold take_byte. do 5 rend_step.
  destruct (rd_is_Some (obuf r) (o_off r)) as [b Eb]; [lia|]. apply (wp_lift _ b); [done|]. rend_run.
  pose proof (rd_byte _ _ _ B Eb) as Bb. split; [done|]. split; [done|].
  assert (drop (Z.to_nat (o_off r)) (obuf r) = b :: drop (Z.to_nat (o_off r + 1)) (obuf r)) as Ed.
  { replace (Z.to_nat (o_off r + 1)) with (S (Z.to_nat (o_off r))) by lia. apply drop_S. unfold rd in Eb. by rewrite decide_True in Eb by lia. }
  assert (run t (pending r) = run (term_byte W H t b) (pending (r <| o_off := o_off r + 1 |>))) as Er.
  { unfold pending. fld. rewrite Hp. by rewrite Ed. }
  constructor; fld; [split_and!; done || lia|by left|].
  rewrite Er in St. destruct (frame_active r).
  - split; [apply St|]. eapply frame_inv_same; [|apply St]. by destruct r.
  - eapply idle_inv_same; [|apply St]. by destruct r.
Qed.

(** One call: the byte it returns goes to the terminal; without a byte the
    terminal shows the screen. *)
Lemma next_byte_wp e serial r t :
  screen_ok e -> mirror_inv r t ->
  wp (render_next_byte e serial) (fun b r' => pushed r' = -1 /\
    if decide (b = -1) then mirror_inv r' t /\ mirrored e t else is_byte b /\ mirror_inv r' (term_byte W H t b)) r.
Proof.
  intros He Hi. pose proof Hi as [(L & B & O) P St]. unfold render_next_byte. rend_step. rend_step. case_decide as Hp.
  - rend_step. rend_step. rend_step. destruct P as [P|P]; [lia|]. split; [done|]. rewrite decide_False by lia. split; [done|].
    assert (run t (pending r) = run (term_byte W H t (pushed r)) (pending (r <| pushed := -1 |>))) as Er.
    { unfold pending. fld. by rewrite decide_True. }
    constructor; fld; [done|by left|]. rewrite Er in St. destruct (frame_active r).
    + split; [apply St|]. eapply frame_inv_same; [|apply St]. by destruct r.
    + eapply idle_inv_same; [|apply St]. by destruct r.
  - assert (pushed r = -1) as Pm by (destruct P as [?|P]; [done|unfold is_byte in P; lia]). do 4 rend_step. case_decide as Ho.
    + eapply wp_mono; [by apply (take_byte_wp r t)|]. cbn beta. intros b r' (Bb & P' & I). split; [done|].
      rewrite decide_False by (unfold is_byte in Bb; lia). done.
    + assert (pending r = []) as Ep.
      { unfold pending. rewrite decide_False by lia. cbn [app]. apply drop_ge. lia. }
      rewrite Ep in St. cbn in St. do 6 rend_step.
      set (r0 := r <| obuf := [] |> <| o_off := 0 |>).
      assert (obuf r0 = [] /\ o_off r0 = 0 /\ pushed r0 = -1 /\ frame_active r0 = frame_active r /\ walk_cell r0 = walk_cell r) as (R1&R2&R3&R4&R5) by done.
      assert (if frame_active r0 then 0 <= walk_cell r0 <= W * H /\ frame_inv (walk_cell r0) r0 t else idle_inv r0 t) as S0.
      { rewrite R4, R5. destruct (frame_active r); [split; [apply St|]; eapply frame_inv_same; [|apply St]|eapply idle_inv_same; [|apply St]]; by destruct r. }
      rewrite <- R4. clearbody r0. clear St. rend_step.
      apply (wp_mono _ (fun _ r1 => o_off r1 = 0 /\ pushed r1 = -1 /\
         if frame_active r1 then 0 <= walk_cell r1 <= W * H /\ len (obuf r1) <= 18 /\ all_bytes (obuf r1) /\ frame_inv (walk_cell r1) r1 (run t (obuf r1))
         else obuf r1 = [] /\ idle_inv r1 t /\ mirrored e t)).
      { destruct (frame_active r0) eqn:Fa; cbn [negb when].
        - apply wp_ret. rewrite Fa, R1. split_and!; try done; apply S0.
        - eapply wp_mono; [by apply frame_decide_wp|]. cbn beta. intros _ r1 (-> & -> & D). split; [done|]. split; [done|].
          destruct (frame_active r1); [|done]. destruct D as (-> & ? & ? & ?). split_and!; try done; lia. }
      intros _ r1 (O1 & P1 & S1). rend_step. rend_step. destruct (frame_active r1) eqn:Fa; cbn [when].
      * rend_step. destruct S1 as (Hw & Hl & Hb & Hf).
        eapply wp_mono; [apply (frame_fill_wp e r1 (run t (obuf r1))); try done; lia|]. cbn beta.
        intros _ r2 (Hne & L2 & O2 & P2 & bs & E2 & B2 & S2). do 4 rend_step.
        assert (mirror_inv r2 t) as I2.
        { assert (run t (pending r2) = run (run t (obuf r1)) bs) as Er.
          { unfold pending. rewrite P2, P1, O2, O1. cbn [decide_rel app drop Z.to_nat]. by rewrite E2, <- run_app. }
          constructor.
          - split_and!; [done|rewrite E2; by apply Forall_app_2|lia|lia].
          - left. congruence.
          - by rewrite Er. }
        assert (0 < len (obuf r2)) by (destruct (obuf r2); [done|cbn; lia]). rewrite decide_True by lia.
        eapply wp_mono; [apply (take_byte_wp r2 t); [done|congruence|lia]|]. cbn beta. intros b r' (Bb & P' & I). split; [done|].
        rewrite decide_False by (unfold is_byte in Bb; lia). done.
      * destruct S1 as (E1 & I1 & M1). rend_run. rewrite decide_False by (rewrite E1, O1; done). rend_step. split; [done|]. rewrite decide_True by done. split; [|done].
        assert (pending r1 = []) as Ep1 by (unfold pending; rewrite P1, E1, O1; done).
        constructor; [rewrite E1, O1; split_and!; done|by left|]. rewrite Fa, Ep1. exact I1.
Qed.

(** ** The mirror as a transition system *)

(** A byte that is handed out reaches the terminal, or comes back by
    [render_pushback]; [render_reset] may find any terminal (a new client). *)
Inductive mirror_step : rend * term -> rend * term -> Prop :=
  | ms_send e serial b r r' t : screen_ok e -> render_next_byte e serial r = Some (b, r') -> b <> -1 ->
      mirror_step (r, t) (r', term_byte W H t b)
  | ms_idle e serial r r' t : screen_ok e -> render_next_byte e serial r = Some (-1, r') -> mirror_step (r, t) (r', t)
  | ms_push e serial b r r' r'' t : screen_ok e -> render_next_byte e serial r = Some (b, r') -> b <> -1 ->
      render_pushback b r' = Some (tt, r'') -> mirror_step (r, t) (r'', t)
  | ms_reset e r r' t t' : screen_ok e -> render_reset e r = Some (tt, r') -> mirror_step (r, t) (r', t').
Definition mirror_reachable (r : rend) (t : term) : Prop := exists t0, rtc mirror_step (rend0, t0) (r, t).

Lemma mirror_inv_start t : mirror_inv rend0 t.
Proof.
  constructor; [|by left|].
  - split; [done|]. split; [constructor|]. cbn. lia.
  - constructor; [|done]. split; [done|]. change (all_bytes (repeat 0 4000)).
    generalize 4000%nat. intros k. induction k; constructor; [unfold is_byte; lia|done].
Qed.

Lemma reset_wp e r t t' : screen_ok e -> mirror_inv r t -> wp (render_reset e) (fun _ r' => mirror_inv r' t') r.
Proof.
  intros He [_ _ St]. destruct (ticks_ok e He) as (now & En). unfold render_reset. rend_run. apply (wp_lift _ now); [done|]. rend_run.
  assert (len (shadow r) = SHADOW_BYTES /\ all_bytes (shadow r)) as Hsh by (destruct (frame_active r); [by destruct St as [_ []]|by destruct St]).
  constructor; fld; [|by left|].
  - split; [done|]. split; [constructor|]. cbn. lia.
  - constructor; fld; [done|done].
Qed.

(** Pushing the byte back that was just produced. *)
Lemma push_inv b r t : is_byte b -> pushed r = -1 -> mirror_inv r (term_byte W H t b) -> mirror_inv (r <| pushed := b |>) t.
Proof.
  intros Bb P' [M _ St].
  assert (run t (pending (r <| pushed := b |>)) = run (term_byte W H t b) (pending r)) as Er.
  { unfold pending. fld. rewrite P'. rewrite decide_True by (unfold is_byte in Bb; lia). done. }
  constructor; fld; [done|by right|]. rewrite <- Er in St. destruct (frame_active r).
  - split; [apply St|]. eapply frame_inv_same; [|apply St]. by destruct r.
  - eapply idle_inv_same; [|apply St]. by destruct r.
Qed.

Lemma mirror_step_inv x y : mirror_step x y -> mirror_inv x.1 x.2 -> mirror_inv y.1 y.2.
Proof.
  intros Hs Hi. destruct Hs as [e serial b r r' t He E Hb|e serial r r' t He E|e serial b r r' r'' t He E Hb Ep|e r r' t t' He E]; cbn in *.
  1-3: pose proof (next_byte_wp e serial r t He Hi) as H1; unfold wp in H1; rewrite E in H1; destruct H1 as [P' H1].
  - rewrite decide_False in H1 by done. apply H1.
  - rewrite decide_True in H1 by done. apply H1.
  - rewrite decide_False in H1 by done. destruct H1 as [Bb H1]. injection Ep as <-. by apply push_inv.
  - pose proof (reset_wp e r t t' He Hi) as H1. unfold wp in H1. by rewrite E in H1.
Qed.
Lemma mirror_reachable_inv r t : mirror_reachable r t -> mirror_inv r t.
Proof.
  intros [t0 Hr]. change (mirror_inv (r, t).1 (r, t).2). remember (r, t) as y. clear Heqy r t.
  remember (rend0, t0) as x eqn:Ex. assert (mirror_inv x.1 x.2) as Hi by (subst; apply mirror_inv_start). clear Ex.
  induction Hr as [|x y z Hs _ IH]; [done|]. apply IH. by eapply mirror_step_inv.
Qed.

(** C5: The mirror is faithful.  However the screen, the cursor and the clock
    change between calls, whichever bytes are pushed back and whenever
    [render_reset] announces a new terminal: a call of [render_next_byte] accesses
    no byte outside its buffers, and when it reports that there is nothing to send,
    the terminal shows exactly the VGA text screen of that moment (the character
    and the colours of every cell) with its cursor at the BIOS cursor. *)
Theorem mirror_exact e serial r t :
  mirror_reachable r t -> screen_ok e ->
  exists b r', render_next_byte e serial r = Some (b, r') /\ -1 <= b < 256 /\ len (obuf r') <= OBUF /\ (b = -1 -> mirrored e t).
Proof.
  intros Hr He. pose proof (next_byte_wp e serial r t He (mirror_reachable_inv r t Hr)) as Hw. unfold wp in Hw.
  destruct (render_next_byte e serial r) as [[b r']|]; [|done]. exists b, r'. split; [done|]. destruct Hw as [_ Hw].
  destruct (decide (b = -1)) as [->|Hb].
  - destruct Hw as [[(L&_) _ _] M]. split; [lia|]. split; [exact L|]. intros _. exact M.
  - destruct Hw as [Bb [(L&_) _ _]]. unfold is_byte in Bb. split; [lia|]. split; [exact L|]. by intros ->.
Qed.
End mirror.

(** ** An instance: a screen of 2 x 2 cells *)

Definition demo_screen : machine :=
  let b := <[0x49%nat := 3]> (<[0x4A%nat := 2]> (<[0x84%nat := 1]> (<[0x51%nat := 1]> (<[0x61%nat := 6]> (repeat 0 256))))) in
  Machine b (repeat 0 8) [72; 0x1E; 105; 0x1E; 32; 0x07; 219; 0x84].
Definition demo_term : term := Term Ground (fun _ _ => (63, attr0)) 5 5 attr0 true true.
(** Send every byte until there is none. *)
Fixpoint drive (n : nat) (r : rend) (t : term) : option (rend * term) :=
  match n with
  | O => Some (r, t)
  | S n => match render_next_byte demo_screen false r with
           | Some (b, r') => if decide (b = -1) then Some (r, t) else drive n r' (term_byte 2 2 t b)
           | None => None
           end
  end.

Lemma demo_screen_ok : screen_ok 2 2 demo_screen.
Proof.
  assert (forallb (fun b => bool_decide (is_byte b)) (bda demo_screen ++ mono demo_screen ++ color demo_screen) = true) as Hb by (vm_compute; reflexivity).
  rewrite forallb_forall in Hb.
  assert (all_bytes (bda demo_screen ++ mono demo_screen ++ color demo_screen)) as [H1 [H2 H3]%Forall_app]%Forall_app.
  { apply Forall_forall. intros x Hx%list_elem_of_In. by apply Hb, bool_decide_eq_true in Hx. }
  constructor; try reflexivity; (split; [vm_compute; try reflexivity; discriminate|done]).
Qed.
Lemma drive_reachable n : forall r t r' t', drive n r t = Some (r', t') -> rtc (mirror_step 2 2) (r, t) (r', t').
Proof.
  induction n as [|n IH]; intros r t r' t'; cbn [drive]; [by intros [= -> ->]|].
  destruct (render_next_byte demo_screen false r) as [[b r1]|] eqn:E; [|done]. case_decide as Hb; [by intros [= -> ->]|].
  intros Hd%IH. eapply rtc_l; [|done]. by eapply ms_send; [apply demo_screen_ok| |].
Qed.

Lemma mirror_exact_witness :
  exists r t, mirror_reachable 2 2 r t /\ t_grid t 0 1 = (105, Attr 11 4 false) /\ t_grid t 1 1 = (9608, Attr 1 0 true) /\ t_row t = 1.
Proof.
  destruct (drive 200 rend0 demo_term) as [[r t]|] eqn:E; [|vm_compute in E; discriminate E].
  pose proof (drive_reachable 200 _ _ _ _ E) as Hr.
  assert (mirror_reachable 2 2 r t) as Hm by (exists demo_term; exact Hr).
  destruct (mirror_exact 2 2 ltac:(split; reflexivity || discriminate) ltac:(split; reflexivity || discriminate) ltac:(discriminate) demo_screen false r t Hm demo_screen_ok)
    as (b & r' & Eb & _ & _ & M).
  assert (match drive 200 rend0 demo_term with Some (r, _) => render_next_byte demo_screen false r | None => None end
     = match drive 200 rend0 demo_term with Some (r, _) => option_map (fun x => (-1, x.2)) (render_next_byte demo_screen false r) | None => None end) as Hi
    by (vm_compute; reflexivity).
  rewrite E, Eb in Hi. cbn in Hi. injection Hi as ->. destruct (M eq_refl) as [Hg Hc].
  exists r, t. split; [exact Hm|]. split; [exact (Hg 1 ltac:(split; reflexivity || discriminate))|].
  split; [exact (Hg 3 ltac:(split; reflexivity || discriminate))|]. injection Hc as Hc _. exact Hc.
Defined.
