(* ===== verification/Telnet.v ===== *)
(** * The telnet server (src/dosshd/telnet.c)

    Option negotiation, the password gate and the way of a client's keystrokes
    into the machine, over the slots of Net.v, the key machine of Ansikey.v, the
    BIOS keyboard ring of Kbd.v and the renderer of Render.v. *)
From Stdlib Require Import ZArith Lia.
From stdpp Require Import base list numbers.
From S2P Require Import Prelude Kbd Ansikey SshWire NetSum Net Render.
Local Open Scope Z_scope.

Definition IAC : Z := 255.
Definition SE : Z := 240.
Definition SB : Z := 250.
Definition WILL : Z := 251.
Definition WONT : Z := 252.
Definition DO : Z := 253.
Definition DONT : Z := 254.
Definition OPT_BINARY : Z := 0.
Definition OPT_ECHO : Z := 1.
Definition OPT_SGA : Z := 3.
Definition OPT_NAWS : Z := 31.
Definition AU_OK : Z := 0.
Definition AU_PW : Z := 1.

(** ** State *)

(** The per-slot arrays of telnet.c at one index. *)
Record tslot := TSlot {
  iac : Z; verb : Z; willed : Z; doed : Z;
  sb_buf : list Z; sb_len : Z; naws_w : Z; naws_h : Z;
  au_state : Z; au_buf : list Z; au_len : Z; au_tries : Z;
}.
#[export] Instance tslot_eta : Eta tslot := fun r => TSlot (iac r) (verb r) (willed r) (doed r) (sb_buf r)
    (sb_len r) (naws_w r) (naws_h r) (au_state r) (au_buf r) (au_len r) (au_tries r).
#[export] Instance upd_iac : Upd iac := ltac:(derive_upd iac).
#[export] Instance upd_verb : Upd verb := ltac:(derive_upd verb).
#[export] Instance upd_willed : Upd willed := ltac:(derive_upd willed).
#[export] Instance upd_doed : Upd doed := ltac:(derive_upd doed).
#[export] Instance upd_sb_buf : Upd sb_buf := ltac:(derive_upd sb_buf).
#[export] Instance upd_sb_len : Upd sb_len := ltac:(derive_upd sb_len).
#[export] Instance upd_naws_w : Upd naws_w := ltac:(derive_upd naws_w).
#[export] Instance upd_naws_h : Upd naws_h := ltac:(derive_upd naws_h).
#[export] Instance upd_au_state : Upd au_state := ltac:(derive_upd au_state).
#[export] Instance upd_au_buf : Upd au_buf := ltac:(derive_upd au_buf).
#[export] Instance upd_au_len : Upd au_len := ltac:(derive_upd au_len).
#[export] Instance upd_au_tries : Upd au_tries := ltac:(derive_upd au_tries).
Definition tslot0 : tslot := TSlot 0 0 0 0 (repeat 0 8) 0 0 0 0 (repeat 0 32) 0 0.

(** The resident program in network mode: the stack, the telnet slots, the
    renderer, the key machine, the keyboard ring and the screen it looks at.
    [reboot] is [g_reboot]. *)
Record box := Box {
  nt : net;
  slots : list tslot;
  g_password : list Z;
  g_eof_exit : bool;
  rn : rend;
  keys : ansikey;
  kbd : mem;
  reboot : bool;
  mach : machine;
}.
#[export] Instance box_eta : Eta box := fun r => Box (nt r) (slots r) (g_password r) (g_eof_exit r) (rn r)
    (keys r) (kbd r) (reboot r) (mach r).
#[export] Instance upd_nt : Upd nt := ltac:(derive_upd nt).
#[export] Instance upd_slots : Upd slots := ltac:(derive_upd slots).
#[export] Instance upd_g_password : Upd g_password := ltac:(derive_upd g_password).
#[export] Instance upd_g_eof_exit : Upd g_eof_exit := ltac:(derive_upd g_eof_exit).
#[export] Instance upd_rn : Upd rn := ltac:(derive_upd rn).
#[export] Instance upd_keys : Upd keys := ltac:(derive_upd keys).
#[export] Instance upd_kbd : Upd kbd := ltac:(derive_upd kbd).
#[export] Instance upd_reboot : Upd reboot := ltac:(derive_upd reboot).
#[export] Instance upd_mach : Upd mach := ltac:(derive_upd mach).

(** Calls into net.c and render.c. *)
Definition on_net {A} (m : M net A) : M box A :=
  fun s => match m (nt s) with Some (a, n) => Some (a, s <| nt := n |>) | None => None end.
Definition on_rend {A} (m : machine -> M rend A) : M box A :=
  fun s => match m (mach s) (rn s) with Some (a, r) => Some (a, s <| rn := r |>) | None => None end.

(** The calls of ansikey.c into dosshd.c. *)
Definition key_event (s : box) (e : kev) : box :=
  match e with
  | Inject sc a => s <| kbd := inject_key sc a (kbd s) |>
  | Reboot => s <| reboot := true |>
  end.
Definition on_keys (f : ansikey -> list kev * ansikey) : M box unit :=
  modify (fun s => let '(ev, k) := f (keys s) in foldl key_event (s <| keys := k |>) ev).
Definition key_in (b : Z) : M box unit := on_keys (ansi_key_byte b).

(** [xs[i]], and an assignment to it. *)
Definition slot (i : nat) : M box tslot :=
  fun s => match slots s !! i with Some c => Some (c, s) | None => None end.
Definition set_slot (i : nat) (f : tslot -> tslot) : M box unit :=
  modify (fun s => s <| slots := alter f i (slots s) |>).

(** ** Negotiation *)

Definition tx1 (i : nat) (b : Z) : M box unit := on_net (net_tx_putc_slot (Z.of_nat i) b) ;; mret tt.
Definition put3 (i : nat) (a b c : Z) : M box unit := tx1 i a ;; tx1 i b ;; tx1 i c.

Definition telnet_reset (i : nat) : M box unit :=
  set_slot i (fun c => c <| iac := 0 |> <| willed := 0 |> <| doed := 0 |> <| sb_len := 0 |> <| naws_w := 0 |> <| naws_h := 0 |>).

Definition telnet_hello (i : nat) : M box unit :=
  put3 i IAC WILL OPT_ECHO ;; put3 i IAC WILL OPT_SGA ;; put3 i IAC DO OPT_SGA ;;
  put3 i IAC WILL OPT_BINARY ;; put3 i IAC DO OPT_BINARY ;; put3 i IAC DO OPT_NAWS ;;
  set_slot i (fun c => c <| willed := Z.lor (Z.lor (Z.shiftl 1 OPT_ECHO) (Z.shiftl 1 OPT_SGA)) (Z.shiftl 1 OPT_BINARY) |>
                         <| doed := Z.lor (Z.shiftl 1 OPT_SGA) (Z.shiftl 1 OPT_BINARY) |>).

(** A C string: the bytes up to the first NUL. *)
Fixpoint c_str (p : list Z) : list Z :=
  match p with [] => [] | b :: p => if decide (b = 0) then [] else b :: c_str p end.

(** [g_password] is the string; at most 31 characters are kept. *)
Definition telnet_set_password (pw : list Z) : M box unit :=
  modify (fun s => s <| g_password := take 31 (c_str pw) |>).

Fixpoint au_say (i : nat) (s : list Z) : M box unit :=
  match s with [] => mret tt | b :: s => tx1 i b ;; au_say i s end.

Definition CRLF : list Z := [13; 10].
Definition denied : list Z := CRLF ++ text "Access denied." ++ CRLF.
Definition wrong : list Z := CRLF ++ text "Wrong password." ++ CRLF ++ text "Password: ".
Definition prompt : list Z := CRLF ++ text "Password: ".

Definition au_check (i : nat) : M box unit :=
  c ← slot i;
  buf ← poke (au_buf c) (au_len c) 0;
  set_slot i (fun c => c <| au_buf := buf |>) ;;
  pw ← gets g_password;
  if decide (c_str buf = pw) then
    set_slot i (fun c => c <| au_state := AU_OK |> <| au_len := 0 |>) ;;
    on_net (net_slot_ready (Z.of_nat i) 1) ;;
    on_rend render_reset
  else
    set_slot i (fun c => c <| au_len := 0 |> <| au_tries := u8 (au_tries c + 1) |>) ;;
    if decide (u8 (au_tries c + 1) >= 3) then
      au_say i denied ;; on_net (net_slot_drop (Z.of_nat i))
    else au_say i wrong.

Definition feed_data (i : nat) (b : Z) : M box unit :=
  c ← slot i;
  if decide (au_state c = AU_OK) then
    eof ← gets g_eof_exit;
    if decide (eof = true /\ b = 0x04) then on_net (net_slot_drop (Z.of_nat i))
    else key_in b
  else if decide (b = 13) then au_check i
  else if decide (b = 10 \/ b = 0) then mret tt
  else if decide (b = 8 \/ b = 127) then
    when (bool_decide (au_len c > 0)) (set_slot i (fun c => c <| au_len := au_len c - 1 |>))
  else if decide (au_len c < 32 - 1) then
    buf ← poke (au_buf c) (au_len c) b;
    set_slot i (fun c => c <| au_buf := buf |> <| au_len := au_len c + 1 |>)
  else mret tt.

Definition resize_request : list Z := 27 :: text "[8;25;80t".

Definition telnet_begin (i : nat) : M box unit :=
  telnet_reset i ;;
  telnet_hello i ;;
  au_say i resize_request ;;
  set_slot i (fun c => c <| au_len := 0 |> <| au_tries := 0 |>) ;;
  pw ← gets g_password;
  match pw with
  | _ :: _ => set_slot i (fun c => c <| au_state := AU_PW |>) ;; au_say i prompt
  | [] =>
      set_slot i (fun c => c <| au_state := AU_OK |>) ;;
      on_net (net_slot_ready (Z.of_nat i) 1) ;;
      on_rend render_reset
  end.

Definition ours (opt : Z) : bool := bool_decide (opt = OPT_ECHO \/ opt = OPT_SGA \/ opt = OPT_BINARY).

Definition respond (i : nat) (v opt : Z) : M box unit :=
  c ← slot i;
  let bit := if decide (opt < 8) then u8 (Z.shiftl 1 opt) else 0 in
  if decide (v = DO) then
    if ours opt then
      when (bool_decide (Z.land (willed c) bit = 0))
        (put3 i IAC WILL opt ;; set_slot i (fun c => c <| willed := Z.lor (willed c) bit |>))
    else put3 i IAC WONT opt
  else if decide (v = WILL) then
    if decide (opt = OPT_SGA \/ opt = OPT_BINARY) then
      when (bool_decide (Z.land (doed c) bit = 0))
        (put3 i IAC DO opt ;; set_slot i (fun c => c <| doed := Z.lor (doed c) bit |>))
    else if decide (opt = OPT_NAWS) then mret tt
    else put3 i IAC DONT opt
  else if decide (v = WONT) then put3 i IAC DONT opt
  else if decide (v = DONT) then put3 i IAC WONT opt
  else mret tt.

Definition sb_push (i : nat) (b : Z) : M box unit :=
  c ← slot i;
  if decide (sb_len c < 8) then
    buf ← poke (sb_buf c) (sb_len c) b;
    set_slot i (fun c => c <| sb_buf := buf |> <| sb_len := sb_len c + 1 |>)
  else mret tt.

Definition sb_done (i : nat) : M box unit :=
  c ← slot i;
  b0 ← lift (rd (sb_buf c) 0);
  if decide (sb_len c >= 5 /\ b0 = OPT_NAWS) then
    w ← lift (rd16 (sb_buf c) 1);
    h ← lift (rd16 (sb_buf c) 3);
    if decide (w <> naws_w c \/ h <> naws_h c) then
      let had := bool_decide (naws_w c <> 0 \/ naws_h c <> 0) in
      set_slot i (fun c => c <| naws_w := w |> <| naws_h := h |>) ;;
      when (had && bool_decide (au_state c = AU_OK)) (on_rend render_reset)
    else mret tt
  else mret tt.

Definition telnet_in (i : nat) (b : Z) : M box unit :=
  c ← slot i;
  let to st := set_slot i (fun c => c <| iac := st |>) in
  if decide (iac c = 0) then
    if decide (b = IAC) then to 1 else feed_data i b
  else if decide (iac c = 1) then
    if decide (b = IAC) then feed_data i IAC ;; to 0
    else if decide (b = SB) then set_slot i (fun c => c <| sb_len := 0 |> <| iac := 3 |>)
    else if decide (WILL <= b <= DONT) then set_slot i (fun c => c <| verb := b |> <| iac := 2 |>)
    else to 0
  else if decide (iac c = 2) then respond i (verb c) b ;; to 0
  else if decide (iac c = 3) then
    if decide (b = IAC) then to 4 else sb_push i b
  else if decide (iac c = 4) then
    if decide (b = SE) then sb_done i ;; to 0
    else if decide (b = IAC) then sb_push i IAC ;; to 3
    else to 3
  else mret tt.
