(* ===== verification/Tick.v ===== *)
(** * The timer tick in network mode (src/dosshd/dosshd.c)

    [net_tick]: poll the stack, greet new clients, merge their keystrokes, pump
    the screen; and the part of [tick_isr] around it. *)
From Stdlib Require Import ZArith Lia.
From stdpp Require Import base list numbers.
From S2P Require Import Prelude Kbd Ansikey SshWire NetSum Net Render Telnet.
Local Open Scope Z_scope.

Definition TX_BUDGET : nat := 512.

(** [tx_pump] with [g_net] set: [budget] bytes to go. *)
Fixpoint tx_pump (budget : nat) : M box unit :=
  match budget with
  | O => mret tt
  | S budget =>
      b ← on_rend (fun e => render_next_byte e false);
      if decide (b < 0) then mret tt
      else
        ok ← on_net (net_tx_putc b);
        if decide (ok = 0) then on_rend (fun _ => render_pushback b) else tx_pump budget
  end.

(** [while( (i = net_take_new_slot()) >= 0 ) telnet_begin( i );]: every round
    clears the flag of a slot, so as many rounds as slots and one more are enough. *)
Fixpoint greet (fuel : nat) : M box unit :=
  match fuel with
  | O => mret tt
  | S fuel =>
      i ← on_net net_take_new_slot;
      if decide (i >= 0) then telnet_begin (Z.to_nat i) ;; greet fuel else mret tt
  end.

(** [while( (b = net_rx_getc( i )) >= 0 ) telnet_in( i, b );]: the ring holds at
    most 511 bytes. *)
Fixpoint merge_slot (fuel : nat) (i : nat) : M box unit :=
  match fuel with
  | O => mret tt
  | S fuel =>
      b ← on_net (net_rx_getc (Z.of_nat i));
      if decide (b >= 0) then telnet_in i (u8 b) ;; merge_slot fuel i else mret tt
  end.
(** [for( i = 0; i < net_slots(); i++ )] *)
Fixpoint merge_slots (n i : nat) : M box unit :=
  match n with O => mret tt | S n => merge_slot 512 i ;; merge_slots n (S i) end.

Definition net_tick : M box unit :=
  on_net net_poll ;;
  n ← gets (fun s => length (conns (nt s)));
  greet (S n) ;;
  merge_slots n 0 ;;
  up ← gets (fun s => net_connected (conns (nt s)));
  when up (tx_pump TX_BUDGET ;; on_net net_tx_flush).

(** [tick_isr] with [g_net] set and [in_tick] clear, up to the reboot. *)
Definition tick_isr : M box unit := on_keys ansi_key_tick ;; net_tick.

(** ** The command line *)

Definition is_dig (c : Z) : bool := bool_decide (48 <= c <= 57).
(** The digits of one number of [parse_ip] in a 32-bit [long]; the rest follows. *)
Fixpoint ip_digits (s : list Z) (v : Z) : Z * list Z :=
  match s with
  | c :: s' => if is_dig c then ip_digits s' (s32 (s32 (v * 10) + (c - 48))) else (v, s)
  | [] => (v, [])
  end.
(** The loop of [parse_ip], [n] numbers to go; the string ends with the list. *)
Fixpoint ip_loop (n : nat) (s : list Z) : option (list Z) :=
  match n with
  | O => match s with [] => Some [] | _ => None end
  | S n =>
      match s with
      | c :: _ =>
          if is_dig c then
            let '(v, s) := ip_digits s 0 in
            if decide (v > 255) then None
            else
              match n, s with
              | O, _ => option_map (cons (u8 v)) (ip_loop n s)
              | _, 46 :: s => option_map (cons (u8 v)) (ip_loop n s)
              | _, _ => None
              end
          else None
      | [] => None
      end
  end.
Definition parse_ip (s : list Z) : option (list Z) := ip_loop 4 s.

(** [stricmp( a, b ) == 0] *)
Definition lower (c : Z) : Z := if decide (65 <= c <= 90) then c + 32 else c.
Definition stricmp0 (a b : list Z) : bool := bool_decide (lower <$> a = lower <$> b).
Definition opt_is (a name : list Z) : bool :=
  match a with
  | c :: a => (bool_decide (c = 47) || bool_decide (c = 45)) && stricmp0 a name
  | [] => false
  end.
