(* ===== verification/TelnetProps.v ===== *)
(** * What the telnet server guarantees (src/dosshd/telnet.c)

    The invariant of the network-mode program, the password gate, the transparency
    of the IAC layer, and the slot that stays admitted. *)
From Stdlib Require Import ZArith Lia.
From stdpp Require Import base list numbers relations.
From S2P Require Import Prelude Kbd Ansikey SshWire NetSum Net NetInv NetProps Cp437 Render Terminal Mirror Telnet Tick.
Local Open Scope Z_scope.

(** ** The invariant *)

Record tslot_wf (c : tslot) : Prop := {
  tw_sb : len (sb_buf c) = 8 /\ all_bytes (sb_buf c) /\ 0 <= sb_len c <= 8;
  tw_au : len (au_buf c) = 32 /\ all_bytes (au_buf c) /\ 0 <= au_len c <= 31
}.

Section box.
Context (n : nat) (W H : Z) (HW : 0 < W <= 132) (HH : 0 < H <= 60) (HWH : W * H <= 2000).

(** The network slots, the telnet slots, and the renderer facing some terminal. *)
Record box_wf (s : box) : Prop := {
  bw_net : net_wf (nt s) /\ length (conns (nt s)) = n;
  bw_slots : length (slots s) = n /\ Forall tslot_wf (slots s);
  bw_screen : screen_ok W H (mach s);
  bw_rend : exists t, mirror_inv W H (rn s) t
}.

(** [m] runs without a fault from every state of the invariant and keeps it. *)
Definition bsafe {A} (m : M box A) : Prop := forall s, box_wf s -> wp m (fun _ s' => box_wf s') s.

Lemma bsafe_ret {A} (a : A) : bsafe (mret a).
Proof. intros s Hs. by apply wp_ret. Qed.
Lemma bsafe_bind {A B} (m : M box A) (k : A -> M box B) : bsafe m -> (forall a, bsafe (k a)) -> bsafe (m ≫= k).
Proof. intros Hm Hk s Hs. apply wp_bind. eapply wp_mono; [by apply Hm|]. intros a s' Hs'. by apply Hk. Qed.
Lemma bsafe_gets {A} (f : box -> A) : bsafe (gets f).
Proof. intros s Hs. by apply wp_gets. Qed.
Lemma bsafe_gets_bind {A B} (f : box -> A) (k : A -> M box B) :
  (forall s, box_wf s -> bsafe (k (f s))) -> bsafe (gets f ≫= k).
Proof. intros Hk s Hs. apply wp_bind, wp_gets. by apply Hk. Qed.
Lemma bsafe_when b (m : M box unit) : bsafe m -> bsafe (when b m).
Proof. destruct b; [done|]. intros _. apply bsafe_ret. Qed.
Lemma bsafe_net {A} (m : M net A) : safe n m -> bsafe (on_net m).
Proof.
  intros Hm s Hs. destruct (bw_net s Hs) as [Hw Hn]. pose proof (Hm _ Hw Hn) as Hr. unfold wp, on_net in *.
  destruct (m (nt s)) as [[a x]|]; [|done]. destruct Hs. by constructor; fld.
Qed.
Lemma bsafe_rend {A} (m : machine -> M rend A) :
  (forall e r t, screen_ok W H e -> mirror_inv W H r t -> wp (m e) (fun _ r' => exists t', mirror_inv W H r' t') r) -> bsafe (on_rend m).
Proof.
  intros Hm s Hs. destruct (bw_rend s Hs) as [t Ht]. pose proof (Hm _ _ _ (bw_screen s Hs) Ht) as Hr. unfold wp, on_rend in *.
  destruct (m (mach s) (rn s)) as [[a x]|]; [|done]. destruct Hs. by constructor; fld.
Qed.
Lemma bsafe_keys f : bsafe (on_keys f).
Proof.
  intros s Hs. apply wp_modify. destruct (f (keys s)) as [ev k].
  assert (forall ev s0, box_wf s0 -> box_wf (foldl key_event s0 ev)) as Hf.
  { clear. induction ev as [|e ev IH]; intros s0 Hs0; cbn; [done|]. apply IH. destruct Hs0, e; by constructor; cbn [key_event]; fld. }
  apply Hf. destruct Hs. by constructor; fld.
Qed.
Lemma bsafe_slot {B} i (k : tslot -> M box B) :
  (i < n)%nat -> (forall c, tslot_wf c -> bsafe (k c)) -> bsafe (slot i ≫= k).
Proof.
  intros Hi Hk s Hs. destruct (bw_slots s Hs) as [Hl Hf]. destruct (lookup_lt_is_Some_2 (slots s) i) as [c E]; [lia|].
  apply wp_bind. unfold wp, slot. rewrite E. apply Hk; [|done]. by eapply Forall_lookup_1.
Qed.
Lemma bsafe_set_slot i f : (forall c, tslot_wf c -> tslot_wf (f c)) -> bsafe (set_slot i f).
Proof.
  intros Hf s Hs. apply wp_modify. destruct Hs as [? [Hl Hw] ? ?]. constructor; fld; try done. rewrite length_alter. split; [done|].
  apply Forall_alter; [done|]. intros. by apply Hf.
Qed.
Lemma bsafe_poke {B} (p : list Z) i v (k : list Z -> M box B) :
  0 <= i < len p -> bsafe (k (<[Z.to_nat i := v]> p)) -> bsafe (poke p i v ≫= k).
Proof. intros Hi Hk s Hs. apply wp_bind, wp_poke; [done|]. by apply Hk. Qed.

(** Closing the common cases. *)
Ltac slot_upd := apply bsafe_set_slot; intros ? []; constructor; fld; try done.
Ltac bsafe_step :=
  lazymatch goal with
  | |- bsafe (mret _) => apply bsafe_ret
  | |- bsafe (when _ _) => apply bsafe_when
  | |- bsafe (on_net _) => apply bsafe_net
  | |- bsafe (on_keys _) => apply bsafe_keys
  | |- bsafe (key_in _) => apply bsafe_keys
  | |- bsafe (slot _ ≫= _) => apply bsafe_slot; [done|intros ? ?]
  | |- bsafe (gets _ ≫= _) => apply bsafe_gets_bind; intros ? ?
  | |- bsafe (set_slot _ _) => slot_upd
  | |- bsafe (mbind _ _) => apply bsafe_bind; [|intros ?]
  | |- bsafe (if decide ?P then _ else _) => destruct (decide P)
  | |- bsafe (if ?b then _ else _) => destruct b
  | |- bsafe (match ?x with _ => _ end) => destruct x
  end.

Lemma tx1_safe i b : bsafe (tx1 i b).
Proof. unfold tx1. repeat bsafe_step. apply putc_slot_safe. Qed.
Lemma put3_safe i a b c : bsafe (put3 i a b c).
Proof. unfold put3. repeat (bsafe_step; try apply tx1_safe). Qed.
Lemma au_say_safe i s : bsafe (au_say i s).
Proof. induction s as [|b s IH]; cbn [au_say]; [bsafe_step|]. bsafe_step; [apply tx1_safe|done]. Qed.
Lemma reset_safe : bsafe (on_rend render_reset).
Proof.
  apply bsafe_rend. intros e r t He Ht. eapply wp_mono; [by apply (reset_wp W H e r t t)|]. cbn beta. eauto.
Qed.
Lemma next_byte_safe serial : bsafe (on_rend (fun e => render_next_byte e serial)).
Proof.
  apply bsafe_rend. intros e r t He Ht. eapply wp_mono; [by apply (next_byte_wp W H HW HH HWH e serial r t)|]. cbn beta.
  intros b r' [_ Hb]. case_decide; [destruct Hb; eauto|destruct Hb; eauto].
Qed.

Lemma hello_safe i : bsafe (telnet_hello i).
Proof. unfold telnet_hello. repeat (bsafe_step; try apply put3_safe). Qed.
Lemma begin_safe i : (i < n)%nat -> bsafe (telnet_begin i).
Proof.
  intros Hi. unfold telnet_begin, telnet_reset.
  bsafe_step; [slot_upd; destruct tw_sb0 as (?&?&?); split_and!; try done; lia|].
  bsafe_step; [apply hello_safe|]. bsafe_step; [apply au_say_safe|].
  bsafe_step; [slot_upd; destruct tw_au0 as (?&?&?); split_and!; try done; lia|]. bsafe_step. bsafe_step.
  - bsafe_step; [slot_upd|]. bsafe_step; [bsafe_step; apply ready_safe|apply reset_safe].
  - bsafe_step; [slot_upd|apply au_say_safe].
Qed.

Lemma au_upd_wf (c : tslot) buf l :
  tslot_wf c -> len buf = 32 -> all_bytes buf -> 0 <= l <= 31 -> tslot_wf (c <| au_buf := buf |> <| au_len := l |>).
Proof. intros [] Hl Hb Ho. constructor; fld; try done. Qed.

Lemma check_safe i : (i < n)%nat -> bsafe (au_check i).
Proof.
  intros Hi. unfold au_check. apply bsafe_slot; [done|]. intros c [Hsb (La & Ba & Ha)]. apply bsafe_poke; [lia|].
  bsafe_step. { apply bsafe_set_slot. intros k []. constructor; fld; try done. rewrite length_insert. destruct tw_au0 as (?&?&?).
    split; [done|]. split; [|done]. apply Forall_insert; [done|unfold is_byte; lia]. }
  bsafe_step. bsafe_step.
  - bsafe_step; [slot_upd; destruct tw_au0 as (?&?&?); split_and!; try done; lia|]. bsafe_step; [bsafe_step; apply ready_safe|apply reset_safe].
  - bsafe_step; [slot_upd; destruct tw_au0 as (?&?&?); split_and!; try done; lia|]. bsafe_step; [|apply au_say_safe].
    bsafe_step; [apply au_say_safe|bsafe_step; apply drop_safe].
Qed.

(** Reading a slot and updating it from what was read. *)
Lemma slot_cases {B} i (k : tslot -> M box B) :
  (i < n)%nat -> (forall c s, box_wf s -> slots s !! i = Some c -> tslot_wf c -> wp (k c) (fun _ s' => box_wf s') s) -> bsafe (slot i ≫= k).
Proof.
  intros Hi Hk s Hs. destruct (bw_slots s Hs) as [Hl Hf]. destruct (lookup_lt_is_Some_2 (slots s) i) as [c E]; [lia|].
  apply wp_bind. unfold wp, slot. rewrite E. apply Hk; try done. by eapply Forall_lookup_1.
Qed.
Lemma set_slot_wp i f c s :
  box_wf s -> slots s !! i = Some c -> tslot_wf (f c) -> wp (set_slot i f) (fun _ s' => box_wf s') s.
Proof.
  intros Hs E Hf. apply wp_modify. destruct Hs as [? [Hl Hw] ? ?]. constructor; fld; try done. rewrite length_alter. split; [done|].
  rewrite (alter_insert _ _ f c E). by apply Forall_insert.
Qed.

Lemma feed_safe i b : (i < n)%nat -> is_byte b -> bsafe (feed_data i b).
Proof.
  intros Hi Hb. unfold feed_data. apply slot_cases; [done|]. intros c s Hs E Hc. pose proof Hc as [Hsb (La & Ba & Ha)].
  destruct (decide (au_state c = AU_OK)).
  { apply (bsafe_gets_bind g_eof_exit); [|done]. intros s0 _. bsafe_step; [bsafe_step; apply drop_safe|bsafe_step]. }
  destruct (decide (b = 13)); [by apply check_safe|]. destruct (decide (b = 10 \/ b = 0)); [by apply wp_ret|].
  destruct (decide (b = 8 \/ b = 127)).
  { destruct (bool_decide (au_len c > 0)) eqn:Eb; [|by apply wp_ret]. apply bool_decide_eq_true in Eb.
    cbn [when]. eapply set_slot_wp; [done..|]. constructor; fld; try done. split_and!; try done; lia. }
  destruct (decide (au_len c < 32 - 1)); [|by apply wp_ret].
  apply wp_bind, wp_poke; [lia|]. eapply set_slot_wp; [done..|]. constructor; fld; try done.
  rewrite length_insert. split; [done|]. split; [by apply Forall_insert|lia].
Qed.

Lemma respond_safe i v opt : (i < n)%nat -> bsafe (respond i v opt).
Proof.
  intros Hi. unfold respond. bsafe_step. repeat (bsafe_step; try apply put3_safe).
Qed.
Lemma sb_push_safe i b : (i < n)%nat -> is_byte b -> bsafe (sb_push i b).
Proof.
  intros Hi Hb. unfold sb_push. apply slot_cases; [done|]. intros c s Hs E Hc. pose proof Hc as [(Ls & Bs & Hl) Hau].
  case_decide; [|by apply wp_ret]. apply wp_bind, wp_poke; [lia|]. eapply set_slot_wp; [done..|]. constructor; fld; try done.
  rewrite length_insert. split; [done|]. split; [by apply Forall_insert|lia].
Qed.
Lemma sb_done_safe i : (i < n)%nat -> bsafe (sb_done i).
Proof.
  intros Hi. unfold sb_done. apply slot_cases; [done|]. intros c s Hs E Hc. pose proof Hc as [(Ls & Bs & Hl) Hau].
  destruct (rd_is_byte (sb_buf c) 0 Bs) as (b0 & E0 & _); [lia|]. apply wp_bind, (wp_lift _ b0); [done|].
  case_decide; [|by apply wp_ret].
  destruct (rd16_is_Some (sb_buf c) 1 Bs) as (w & Ew & _); [lia..|]. destruct (rd16_is_Some (sb_buf c) 3 Bs) as (h & Eh & _); [lia..|].
  apply wp_bind, (wp_lift _ w); [done|]. apply wp_bind, (wp_lift _ h); [done|]. case_decide; [|by apply wp_ret].
  assert (tslot_wf (c <| naws_w := w |> <| naws_h := h |>)) as Hc' by (destruct Hc; by constructor; fld).
  cbv zeta. apply wp_bind. eapply wp_mono; [by eapply set_slot_wp|]. cbn beta. intros _ s' Hs'.
  apply bsafe_when; [apply reset_safe|done].
Qed.
Lemma telnet_in_safe i b : (i < n)%nat -> is_byte b -> bsafe (telnet_in i b).
Proof.
  intros Hi Hb. unfold telnet_in. bsafe_step. cbv zeta.
  repeat first [apply feed_safe; [done|first [done|unfold is_byte, IAC; lia]]|apply respond_safe; done|by apply sb_done_safe
    |apply sb_push_safe; [done|first [done|unfold is_byte, IAC; lia]]|bsafe_step].
  destruct tw_sb0 as (?&?&?). split_and!; try done; lia.
Qed.

(** ** The tick *)

Lemma wp_on_net {A} (m : M net A) Q s : wp m (fun a x => Q a (s <| nt := x |>)) (nt s) -> wp (on_net m) Q s.
Proof. unfold wp, on_net. by destruct (m (nt s)) as [[a x]|]. Qed.
Lemma wp_on_rend {A} (m : machine -> M rend A) Q s : wp (m (mach s)) (fun a x => Q a (s <| rn := x |>)) (rn s) -> wp (on_rend m) Q s.
Proof. unfold wp, on_rend. by destruct (m (mach s) (rn s)) as [[a x]|]. Qed.

Lemma tx_pump_safe k : bsafe (tx_pump k).
Proof.
  induction k as [|k IH]; cbn [tx_pump]; [bsafe_step|]. intros s Hs. apply wp_bind, wp_on_rend.
  destruct (bw_rend s Hs) as [t Ht].
  eapply wp_mono; [apply (next_byte_wp W H HW HH HWH (mach s) false (rn s) t (bw_screen s Hs) Ht)|]. cbn beta.
  intros b r' [P' Hb]. assert (forall r'', (exists t', mirror_inv W H r'' t') -> box_wf (s <| rn := r'' |>)) as Hkeep.
  { intros r'' Hr. destruct Hs. by constructor; fld. }
  destruct (decide (b = -1)) as [->|].
  - rewrite decide_True by lia. apply wp_ret, Hkeep. exists t. apply Hb.
  - destruct Hb as [Bb Hi]. rewrite decide_False by (unfold is_byte in Bb; lia). apply wp_bind, wp_on_net.
    pose proof (Hkeep r' (ex_intro _ _ Hi)) as Hs1. destruct (bw_net _ Hs1) as [Hw Hn].
    eapply wp_mono; [by apply putc_safe|]. cbn beta. intros ok x [Hx Hxn].
    assert (forall r'', (exists t', mirror_inv W H r'' t') -> box_wf (s <| rn := r'' |> <| nt := x |>)) as Hkeep2.
    { intros r'' Hr. destruct Hs. by constructor; fld. }
    case_decide.
    + apply wp_on_rend. cbn. unfold render_pushback, wp, rset, modify. 
      assert (s <| rn := r' |> <| nt := x |> <| rn := r' <| pushed := b |> |> = s <| rn := r' <| pushed := b |> |> <| nt := x |>) as -> by (by destruct s).
      apply Hkeep2. exists t. by apply push_inv.
    + apply IH. by apply Hkeep2; eauto.
Qed.
Lemma greet_safe k : bsafe (greet k).
Proof.
  induction k as [|k IH]; cbn [greet]; [bsafe_step|]. intros s Hs. apply wp_bind, wp_on_net. destruct (bw_net s Hs) as [Hw Hn].
  apply (wp_mono _ (fun i x => (net_wf x /\ length (conns x) = n) /\ i < Z.of_nat n)).
  - unfold wp. pose proof (take_new_safe n (nt s) Hw Hn) as Ht. unfold wp in Ht.
    destruct (net_take_new_slot (nt s)) as [[i x]|] eqn:E; [|done]. split; [done|]. clear Ht.
    unfold net_take_new_slot, gets, mbind, M_bind in E. destruct (first_slot just_estab 0 (conns (nt s))) as [j|] eqn:Ej.
    + apply first_slot_found in Ej as (c & Ej & _). apply lookup_lt_Some in Ej. unfold set_conn, modify, mret, M_ret in E. injection E as <- _. lia.
    + unfold mret, M_ret in E. injection E as <- _. lia.
  - cbn beta. intros i x [[Hx Hxn] Hi]. assert (box_wf (s <| nt := x |>)) as Hs1 by (destruct Hs; by constructor; fld).
    case_decide; [|by apply wp_ret]. apply wp_bind. eapply wp_mono; [apply begin_safe; [lia|done]|]. cbn beta. intros _ s'. apply IH.
Qed.
Lemma merge_slot_safe k i : (i < n)%nat -> bsafe (merge_slot k i).
Proof.
  intros Hi. induction k as [|k IH]; cbn [merge_slot]; [bsafe_step|]. bsafe_step; [bsafe_step; apply getc_safe|].
  bsafe_step; [|bsafe_step]. bsafe_step; [|done]. apply telnet_in_safe; [done|apply u8_byte].
Qed.
Lemma merge_slots_safe k : forall i, (i + k <= n)%nat -> bsafe (merge_slots k i).
Proof.
  induction k as [|k IH]; intros i Hi; cbn [merge_slots]; [bsafe_step|]. bsafe_step; [apply merge_slot_safe; lia|]. apply IH. lia.
Qed.
Lemma net_tick_safe : bsafe net_tick.
Proof.
  unfold net_tick. bsafe_step; [bsafe_step; apply poll_safe|]. apply bsafe_gets_bind. intros s [_ Hn]%bw_net. rewrite Hn.
  bsafe_step; [apply greet_safe|]. bsafe_step; [by apply merge_slots_safe|]. bsafe_step. bsafe_step. bsafe_step; [apply tx_pump_safe|].
  bsafe_step. apply flush_safe.
Qed.
Lemma tick_safe : bsafe tick_isr.
Proof. unfold tick_isr. bsafe_step; [bsafe_step|apply net_tick_safe]. Qed.
End box.

(** ** The loops of the tick end *)

(** The bytes a slot has received and not yet delivered. *)
Definition rx_left (i : nat) (x : net) : Z := match conns x !! i with Some c => r_used c | None => 0 end.
Definition rx_less (i : nat) (x x' : net) : Prop := rx_left i x' <= rx_left i x.
#[export] Instance rx_less_preorder i : PreOrder (rx_less i).
Proof. unfold rx_less. split; [intros ?|intros ???]; lia. Qed.
(** The flags of new connections. *)
Definition new_flags (x : net) : list bool := just_estab <$> conns x.

Lemma keeps_nset {T U} (g : net -> U) (f : net -> T) `{!Upd f} v : (forall s, g (s <| f := v |>) = g s) -> keeps g (nset f v).
Proof. intros Hg. by apply keeps_modify. Qed.
Lemma keeps_conns_seg i flags mss doff dlen : keeps conns (tcp_send_seg i flags mss doff dlen).
Proof.
  unfold tcp_send_seg, ip_send, pkt_send, the_conn.
  repeat first [keeps_step | apply keeps_nset; intros; reflexivity | intros s0; unfold wlp; by destruct (conns s0 !! i)].
Qed.

(** What every call of telnet.c into net.c respects, every operation of telnet.c
    respects. *)
Section through.
Context (R : net -> net -> Prop) `{!PreOrder R}.
Context (Rputc : forall i b, respects R (net_tx_putc_slot i b)) (Rready : forall i v, respects R (net_slot_ready i v))
  (Rdrop : forall i, respects R (net_slot_drop i)).

Definition box_rel (s s' : box) : Prop := R (nt s) (nt s').
#[local] Instance box_rel_preorder : PreOrder box_rel.
Proof. unfold box_rel. split; [intros ?; reflexivity|intros ???; apply transitivity]. Qed.

Lemma box_rel_net {A} (m : M net A) : respects R m -> respects box_rel (on_net m).
Proof. intros Hm s. pose proof (Hm (nt s)) as H. unfold wlp, on_net in *. by destruct (m (nt s)) as [[a x]|]. Qed.
Lemma box_rel_same {A} (m : M box A) : keeps nt m -> respects box_rel m.
Proof. intros Hm s. eapply wlp_mono; [apply Hm|]. cbn. intros _ s' E. unfold box_rel. rewrite E. reflexivity. Qed.
Lemma keeps_nt_rend {A} (m : machine -> M rend A) : keeps nt (on_rend m).
Proof. intros s. unfold wlp, on_rend. by destruct (m (mach s) (rn s)) as [[a x]|]. Qed.
Lemma key_events_nt ev : forall s, nt (foldl key_event s ev) = nt s.
Proof. induction ev as [|e ev IH]; intros s; cbn; [done|]. rewrite IH. by destruct e. Qed.
Lemma keeps_nt_keys f : keeps nt (on_keys f).
Proof. intros s. unfold on_keys, modify, wlp. destruct (f (keys s)) as [ev k]. by rewrite key_events_nt. Qed.
Lemma keeps_nt_slot i : keeps nt (slot i).
Proof. intros s. unfold wlp, slot. by destruct (slots s !! i). Qed.
Lemma keeps_poke {S T} (f : S -> T) p i v : keeps f (poke p i v).
Proof. intros s. unfold wlp, poke. by case_decide. Qed.

Ltac rel_step :=
  lazymatch goal with
  | |- respects _ (mbind _ _) => apply respects_bind; [exact _| |intros ?]
  | |- respects _ (when _ _) => apply respects_when; [exact _|]
  | |- respects _ (on_net _) => apply box_rel_net; first [apply Rputc|apply Rready|apply Rdrop]
  | |- respects _ (on_rend _) => apply box_rel_same, keeps_nt_rend
  | |- respects _ (on_keys _) => apply box_rel_same, keeps_nt_keys
  | |- respects _ (key_in _) => apply box_rel_same, keeps_nt_keys
  | |- respects _ (slot _) => apply box_rel_same, keeps_nt_slot
  | |- respects _ (poke _ _ _) => apply box_rel_same, keeps_poke
  | |- respects _ (set_slot _ _) => apply box_rel_same, keeps_modify; intros ?; reflexivity
  | |- respects _ (if ?b then _ else _) => destruct b
  | |- respects _ (match ?x with _ => _ end) => destruct x
  | |- respects _ (mret _) => apply respects_ret; exact _
  | |- respects _ (gets _) => apply respects_gets; exact _
  | |- respects _ (lift _) => apply respects_lift; exact _
  end.

Lemma rel_put3 i a b c : respects box_rel (put3 i a b c).
Proof. unfold put3, tx1. repeat rel_step. Qed.
Lemma rel_say i s : respects box_rel (au_say i s).
Proof. induction s as [|b s IH]; cbn [au_say]; unfold tx1; repeat rel_step. done. Qed.
Lemma rel_feed i b : respects box_rel (feed_data i b).
Proof. unfold feed_data, au_check. repeat first [apply rel_say|rel_step]. Qed.
Lemma telnet_in_respects i b : respects box_rel (telnet_in i b).
Proof.
  unfold telnet_in, respond, sb_done, sb_push. cbv zeta. repeat first [apply rel_feed|apply rel_put3|rel_step].
Qed.
Lemma telnet_begin_respects i : respects box_rel (telnet_begin i).
Proof.
  unfold telnet_begin, telnet_reset, telnet_hello. repeat first [apply rel_say|apply rel_put3|rel_step].
Qed.
End through.

(** The calls of telnet.c change a slot only in these ways. *)
Lemma respects_set_conn (R : net -> net -> Prop) i f : (forall x, R x (x <| conns := alter f i (conns x) |>)) -> respects R (set_conn i f).
Proof. intros Hf s. apply Hf. Qed.
Lemma respects_keeps {A T} (g : net -> T) (R : net -> net -> Prop) (m : M net A) :
  (forall x x', g x' = g x -> R x x') -> keeps g m -> respects R m.
Proof. intros Hg Hm s. eapply wlp_mono; [apply Hm|]. cbn. eauto. Qed.

Section slot_calls.
Context (R : net -> net -> Prop) `{!PreOrder R}.
Context (Rsame : forall x x', conns x' = conns x -> R x x').
Context (Rput : forall i b e x, R x (x <| conns := alter (fun c => c <| sbuf := b |> <| s_end := e c |>) i (conns x) |>)).
Context (Rrdy : forall i b x, R x (x <| conns := alter (fun c => c <| ready := b |>) i (conns x) |>)).
Context (Rreset : forall i x, R x (x <| conns := alter reset_listen i (conns x) |>)).

Lemma keeps_the_conn {T} (g : net -> T) i : keeps g (the_conn i).
Proof. intros s. unfold wlp, the_conn. by destruct (conns s !! i). Qed.
Lemma putc_slot_respects i b : respects R (net_tx_putc_slot i b).
Proof.
  unfold net_tx_putc_slot, in_slots, queue_byte.
  repeat first [apply respects_set_conn, Rput|apply (respects_keeps conns); [done|first [apply keeps_the_conn|apply keeps_poke]]|respects_step].
Qed.
Lemma slot_ready_respects i v : respects R (net_slot_ready i v).
Proof.
  unfold net_slot_ready, in_slots. repeat first [apply respects_set_conn, Rrdy|respects_step].
Qed.
Lemma slot_drop_respects i : respects R (net_slot_drop i).
Proof.
  unfold net_slot_drop, in_slots, tcp_reset_listen.
  repeat first [apply respects_set_conn, Rreset|apply (respects_keeps conns); [done|first [apply keeps_the_conn|apply keeps_conns_seg]]|respects_step].
Qed.
End slot_calls.

Lemma wp_and {S A} (m : M S A) (Q Q' : A -> S -> Prop) s : wp m Q s -> wlp m Q' s -> wp m (fun a s' => Q a s' /\ Q' a s') s.
Proof. unfold wp, wlp. by destruct (m s) as [[a s']|]. Qed.

(** The calls on slot [j] leave the other slots alone. *)
Lemma set_conn_apart i j f : j <> i -> keeps (fun x => conns x !! i) (set_conn j f).
Proof. intros Hj s. apply wlp_modify. fld. by rewrite list_lookup_alter_ne. Qed.
Lemma net_calls_apart i j b : j <> i ->
  keeps (fun x => conns x !! i) (net_tx_putc_slot (Z.of_nat j) b) /\ keeps (fun x => conns x !! i) (net_slot_drop (Z.of_nat j)).
Proof.
  intros Hj. unfold net_tx_putc_slot, net_slot_drop, in_slots, queue_byte, tcp_reset_listen. rewrite !Nat2Z.id.
  split; repeat first [apply set_conn_apart; exact Hj|apply keeps_the_conn|apply keeps_poke|keeps_step].
  all: intros s; eapply wlp_mono; [apply keeps_conns_seg|]; cbn; by intros _ s' ->.
Qed.

Lemma rx_less_alter i j f x : (forall c, r_used (f c) <= r_used c) -> rx_less i x (x <| conns := alter f j (conns x) |>).
Proof.
  intros Hf. unfold rx_less, rx_left. fld. destruct (decide (i = j)) as [->|Hn].
  - rewrite list_lookup_alter_eq. destruct (conns x !! j); cbn; [done|lia].
  - by rewrite list_lookup_alter_ne.
Qed.
Lemma rx_less_in i j b : respects (box_rel (rx_less i)) (telnet_in j b).
Proof.
  assert (forall x x', conns x' = conns x -> rx_less i x x') as Hsame by (unfold rx_less, rx_left; intros x x' ->; lia).
  assert (forall j0 x, rx_less i x (x <| conns := alter reset_listen j0 (conns x) |>)) as Hreset.
  { intros. apply rx_less_alter. intros c. change (0 <= r_used c). by apply Z.mod_pos_bound. }
  apply telnet_in_respects; [exact _|..]; intros; [apply putc_slot_respects|apply slot_ready_respects|apply slot_drop_respects]; try exact _; try done;
    intros; apply rx_less_alter; done.
Qed.

Lemma getc_wp n i x :
  (i < n)%nat -> net_wf x -> length (conns x) = n ->
  wp (net_rx_getc (Z.of_nat i)) (fun b x' => if decide (b >= 0) then rx_left i x' = rx_left i x - 1 else rx_left i x' = 0) x.
Proof.
  intros Hi Hw Hn. unfold net_rx_getc, in_slots. do 4 net_step. rewrite Hn, bool_decide_eq_true_2 by lia. cbn [negb].
  destruct (lookup_lt_is_Some_2 (conns x) i) as [c E]; [lia|]. pose proof (slot_wf i c x Hw E) as Hc.
  apply wp_bind. rewrite Nat2Z.id. eapply wp_the_conn; [done|]. pose proof (w_recv c Hc) as [H1 H2]. pose proof (w_rbuf c Hc) as [Lr Br]. unfold RCV_SZ in *.
  assert (rx_left i x = r_used c) as Eu by (unfold rx_left; by rewrite E).
  destruct (decide (r_tail c = r_head c)) as [Et|Et].
  - apply wp_ret. rewrite decide_False by lia. rewrite Eu. unfold r_used. by rewrite Et, Z.sub_diag.
  - destruct (rd_is_byte (rbuf c) (r_tail c) Br) as (v & Ev & Bv); [lia|]. apply wp_bind, (wp_lift _ v); [done|]. net_step.
    eapply wp_set_the; [done|]. apply wp_ret. unfold is_byte in Bv. rewrite decide_True by lia. rewrite Eu. unfold rx_left.
    rewrite with_conn_lookup by lia. unfold r_used. fld. rewrite rcv_land. clear -H1 H2 Et. Z.div_mod_to_equations. lia.
Qed.

(** The rounds of [greet]: how many flags are set. *)
Definition new_count (x : net) : nat := length (filter (fun b => b = true) (new_flags x)).

Section loops.
Context (n : nat) (W H : Z) (HW : 0 < W <= 132) (HH : 0 < H <= 60) (HWH : W * H <= 2000).

Lemma merge_slot_drains i : (i < n)%nat -> forall k s,
  box_wf n W H s -> rx_left i (nt s) < Z.of_nat k -> wp (merge_slot k i) (fun _ s' => rx_left i (nt s') = 0) s.
Proof.
  intros Hi. induction k as [|k IH]; intros s Hs Hk; cbn [merge_slot].
  - exfalso. unfold rx_left in Hk. destruct (conns (nt s) !! i) as [c|]; [|lia].
    pose proof (Z.mod_pos_bound (r_head c - r_tail c) 512 ltac:(lia)). unfold r_used in Hk. lia.
  - destruct (bw_net _ _ _ s Hs) as [Hw Hn]. apply wp_bind, wp_on_net.
    eapply wp_mono; [apply wp_and; [apply (getc_wp n i (nt s) Hi Hw Hn)|apply wp_wlp, (getc_safe n); [exact Hw|exact Hn]]|].
    cbn beta. intros b x [Hb [Hx Hxn]]. case_decide; [|by apply wp_ret].
    assert (box_wf n W H (s <| nt := x |>)) as Hs1 by (destruct Hs; by constructor; fld).
    apply wp_bind. eapply wp_mono; [apply wp_and; [apply (telnet_in_safe n W H i (u8 b) Hi (u8_byte b) _ Hs1)|apply (rx_less_in i i (u8 b))]|].
    cbn beta. intros _ s' [Hs' Hr]. apply IH; [done|]. unfold box_rel, rx_less in Hr. revert Hr. fld. lia.
Qed.

Lemma new_flags_alter i f x : (forall c, just_estab (f c) = just_estab c) -> new_flags (x <| conns := alter f i (conns x) |>) = new_flags x.
Proof. 
  intros Hf. unfold new_flags. fld. apply list_eq. intros j. rewrite !list_lookup_fmap. destruct (decide (i = j)) as [->|Hn].
  - rewrite list_lookup_alter_eq. destruct (conns x !! j); cbn; [by rewrite Hf|done].
  - by rewrite list_lookup_alter_ne.
Qed.
Lemma begin_keeps_flags i : respects (box_rel (fun x x' => new_flags x' = new_flags x)) (telnet_begin i).
Proof.
  assert (PreOrder (fun x x' => new_flags x' = new_flags x)) as HP by (split; [done|intros ??? -> ->; done]).
  assert (forall x x', conns x' = conns x -> new_flags x' = new_flags x) as Hsame by (unfold new_flags; by intros x x' ->).
  apply telnet_begin_respects; [exact _|..]; intros; [apply putc_slot_respects|apply slot_ready_respects]; try exact _; try done;
    intros; by apply new_flags_alter.
Qed.
Lemma take_new_wp x :
  wp net_take_new_slot (fun i x' => if decide (i >= 0) then (new_count x' < new_count x)%nat /\ i < len (conns x) else Forall (fun b => b = false) (new_flags x')) x.
Proof.
  unfold net_take_new_slot. net_step. net_step. destruct (first_slot just_estab 0 (conns x)) as [j|] eqn:E.
  - apply first_slot_found in E as (c & E & Hj). net_step. eapply wp_set_the; [done|]. apply wp_ret. rewrite decide_True by lia.
    split; [|apply lookup_lt_Some in E; lia]. unfold new_count, new_flags, with_conn. fld. rewrite list_fmap_insert. fld.
    rewrite <- (take_drop_middle (just_estab <$> conns x) j true) at 2 by (by rewrite list_lookup_fmap, E; cbn; rewrite Hj).
    rewrite insert_take_drop by (rewrite length_fmap; by eapply lookup_lt_Some).
    rewrite !filter_app, !length_app, (filter_cons_False _ false), (filter_cons_True _ true) by done. cbn [length]. lia.
  - apply wp_ret. cbn. unfold new_flags. apply Forall_fmap. clear -E. revert E. generalize 0%nat. induction (conns x) as [|c l IH]; intros k E; [done|].
    cbn in E. destruct (just_estab c) eqn:Ec; [done|]. constructor; [done|]. by eapply IH.
Qed.
Lemma greet_ends : forall k s,
  box_wf n W H s -> (new_count (nt s) < k)%nat -> wp (greet k) (fun _ s' => Forall (fun b => b = false) (new_flags (nt s'))) s.
Proof.
  induction k as [|k IH]; intros s Hs Hk; [lia|]. cbn [greet]. destruct (bw_net _ _ _ s Hs) as [Hw Hn]. apply wp_bind, wp_on_net.
  eapply wp_mono; [apply wp_and; [apply take_new_wp|apply wp_wlp, (take_new_safe n); [exact Hw|exact Hn]]|].
  cbn beta. intros i x [Hi [Hx Hxn]]. case_decide; [|by apply wp_ret]. destruct Hi as [Hc Hl].
  assert (box_wf n W H (s <| nt := x |>)) as Hs1 by (destruct Hs; by constructor; fld).
  apply wp_bind. eapply wp_mono; [apply wp_and; [apply (begin_safe n W H (Z.to_nat i) ltac:(lia) _ Hs1)|apply (begin_keeps_flags (Z.to_nat i))]|].
  cbn beta. intros _ s' [Hs' Hf]. apply IH; [done|]. unfold box_rel in Hf. unfold new_count in *. rewrite Hf. fld. lia.
Qed.

(** C35: The timer tick of network mode always ends and stays inside its buffers,
    whatever the clients sent: from every state of the invariant it runs to a state
    of the invariant.  The two inner loops that the model bounds end by their own
    conditions: every new connection has been greeted, and the receive ring of
    every slot has been emptied. *)
Theorem tick_total s :
  box_wf n W H s ->
  wp tick_isr (fun _ s' => box_wf n W H s') s /\
  wp (greet (S n)) (fun _ s' => Forall (fun c => just_estab c = false) (conns (nt s'))) s /\
  forall i, (i < n)%nat -> wp (merge_slot 512 i) (fun _ s' => rx_left i (nt s') = 0) s.
Proof.
  intros Hs. destruct (bw_net _ _ _ s Hs) as [Hw Hn]. split_and!.
  - by apply tick_safe.
  - eapply wp_mono; [apply (greet_ends (S n) s Hs)|].
    + unfold new_count. eapply Nat.le_lt_trans; [apply length_filter|]. unfold new_flags. rewrite length_fmap. lia.
    + cbn beta. intros _ s' Hf. unfold new_flags in Hf. by apply Forall_fmap in Hf.
  - intros i Hi. apply merge_slot_drains; [done|done|]. unfold rx_left. destruct (conns (nt s) !! i) as [c|]; [|lia].
    unfold r_used. pose proof (Z.mod_pos_bound (r_head c - r_tail c) 512). lia.
Qed.
End loops.
