(* ===== verification/Gate.v ===== *)
(** * The password gate (src/dosshd/telnet.c)

    What a client can do before it has typed the password, what a line typed at
    the prompt does, and the slot that stays admitted when its client is evicted. *)
From Stdlib Require Import ZArith Lia.
From stdpp Require Import base list numbers relations.
From S2P Require Import Prelude Kbd Ansikey SshWire NetSum Net NetInv NetProps Cp437 Render Terminal Mirror Telnet Tick TelnetProps.
Local Open Scope Z_scope.

(** ** Held at the prompt *)

(** The line typed so far. *)
Definition au_text (c : tslot) : list Z := take (Z.to_nat (au_len c)) (au_buf c).

(** No slot becomes admitted. *)
Definition no_readier (x x' : net) : Prop := Forall2 (fun c c' => ready c' = true -> ready c = true) (conns x) (conns x').
(** Nothing reaches the machine, and the gate of slot [i] stays as it is. *)
Record quiet (i : nat) (s s' : box) : Prop := {
  q_keys : keys s' = keys s;
  q_kbd : kbd s' = kbd s;
  q_reboot : reboot s' = reboot s;
  q_pw : g_password s' = g_password s;
  q_eof : g_eof_exit s' = g_eof_exit s;
  q_gate : au_state <$> slots s' !! i = au_state <$> slots s !! i;
  q_ready : no_readier (nt s) (nt s')
}.
#[export] Instance no_readier_preorder : PreOrder no_readier.
Proof.
  split.
  - intros x. apply Forall_Forall2_diag, Forall_true. done.
  - intros x y z H1 H2. unfold no_readier in *. revert H2. generalize (conns z). induction H1; intros lz Hl; inversion Hl; subst; constructor; auto.
Qed.
#[export] Instance quiet_preorder i : PreOrder (quiet i).
Proof.
  split.
  - intros s. constructor; done.
  - intros s1 s2 s3 [] []. constructor; try congruence. by etrans.
Qed.

Lemma no_readier_alter i f x : (forall c, ready (f c) = true -> ready c = true) -> no_readier x (x <| conns := alter f i (conns x) |>).
Proof.
  intros Hf. unfold no_readier. fld. revert i. induction (conns x) as [|c l IH]; intros [|i]; cbn; constructor; try done; auto.
  apply Forall_Forall2_diag, Forall_true. done.
Qed.
Lemma no_readier_same x x' : conns x' = conns x -> no_readier x x'.
Proof. intros E. unfold no_readier. rewrite E. apply Forall_Forall2_diag, Forall_true. done. Qed.

Lemma quiet_net {A} i (m : M net A) : respects no_readier m -> respects (quiet i) (on_net m).
Proof.
  intros Hm s. pose proof (Hm (nt s)) as H. unfold wlp, on_net in *. destruct (m (nt s)) as [[a x]|]; [|done]. by constructor; fld.
Qed.
Lemma quiet_set_slot i j f : (forall c, au_state (f c) = au_state c) -> respects (quiet i) (set_slot j f).
Proof.
  intros Hf s. constructor; fld; try done. destruct (decide (j = i)) as [->|Hn].
  - rewrite list_lookup_alter_eq. destruct (slots s !! i); cbn; [by rewrite Hf|done].
  - by rewrite list_lookup_alter_ne.
Qed.
Lemma quiet_replace i c c' s : slots s !! i = Some c -> au_state c' = au_state c -> quiet i s (s <| slots := <[i := c']> (slots s) |>).
Proof.
  intros E Ec. constructor; fld; try done. rewrite list_lookup_insert_eq, E by (by eapply lookup_lt_Some). cbn. by rewrite Ec.
Qed.
Lemma quiet_rend {A} i (m : machine -> M rend A) : respects (quiet i) (on_rend m).
Proof.
  intros s. unfold wlp, on_rend. destruct (m (mach s) (rn s)) as [[a x]|]; [|done]. by constructor; fld.
Qed.
Lemma quiet_read {A} i (m : M box A) : keeps id m -> respects (quiet i) m.
Proof. intros Hm s. eapply wlp_mono; [apply Hm|]. cbn. intros _ s' ->. reflexivity. Qed.
Lemma keeps_slot_id i : keeps id (slot i).
Proof. intros s. unfold wlp, slot. by destruct (slots s !! i). Qed.

Lemma quiet_tx1 i j b : respects (quiet i) (tx1 j b).
Proof.
  unfold tx1. apply respects_bind; [exact _| |intros; apply respects_ret; exact _]. apply quiet_net.
  apply putc_slot_respects; [exact _|apply no_readier_same|]. intros. by apply no_readier_alter.
Qed.
Lemma quiet_drop i j : respects (quiet i) (on_net (net_slot_drop j)).
Proof.
  apply quiet_net, slot_drop_respects; [exact _|apply no_readier_same|]. intros. by apply no_readier_alter.
Qed.
Ltac quiet_step :=
  lazymatch goal with
  | |- respects _ (mbind _ _) => apply respects_bind; [exact _| |intros ?]
  | |- respects _ (when _ _) => apply respects_when; [exact _|]
  | |- respects _ (tx1 _ _) => apply quiet_tx1
  | |- respects _ (on_net (net_slot_drop _)) => apply quiet_drop
  | |- respects _ (on_rend _) => apply quiet_rend
  | |- respects _ (slot _) => apply quiet_read, keeps_slot_id
  | |- respects _ (poke _ _ _) => apply quiet_read, keeps_poke
  | |- respects _ (set_slot _ _) => apply quiet_set_slot; reflexivity
  | |- respects _ (if ?b then _ else _) => destruct b
  | |- respects _ (match ?x with _ => _ end) => destruct x
  | |- respects _ (mret _) => apply respects_ret; exact _
  | |- respects _ (gets _) => apply respects_gets; exact _
  | |- respects _ (lift _) => apply respects_lift; exact _
  end.
Lemma quiet_put3 i j a b c : respects (quiet i) (put3 j a b c).
Proof. unfold put3. repeat quiet_step. Qed.
Lemma quiet_say i j s : respects (quiet i) (au_say j s).
Proof. induction s as [|b s IH]; cbn [au_say]; repeat quiet_step. done. Qed.
Lemma quiet_respond i j v opt : respects (quiet i) (respond j v opt).
Proof. unfold respond. cbv zeta. repeat first [apply quiet_put3|quiet_step]. Qed.
Lemma quiet_sb_push i j b : respects (quiet i) (sb_push j b).
Proof. unfold sb_push. repeat quiet_step. Qed.
Lemma quiet_sb_done i j : respects (quiet i) (sb_done j).
Proof. unfold sb_done. cbv zeta. repeat quiet_step. Qed.

Lemma c_str_cut l k : (k < length l)%nat -> c_str (<[k := 0]> l) = c_str (take k l).
Proof.
  revert k. induction l as [|b l IH]; intros k Hk; [cbn in Hk; lia|]. destruct k as [|k]; cbn; [done|].
  case_decide; [done|]. f_equal. apply IH. cbn in Hk. lia.
Qed.

Lemma wlp_slot i c {B} (k : tslot -> M box B) Q s : slots s !! i = Some c -> wlp (k c) Q s -> wlp (slot i ≫= k) Q s.
Proof. intros E Hk. unfold wlp, mbind, M_bind, slot in *. by rewrite E. Qed.
Lemma wlp_poke {S B} p i v (k : list Z -> M S B) Q s : (0 <= i < len p -> wlp (k (<[Z.to_nat i := v]> p)) Q s) -> wlp (poke p i v ≫= k) Q s.
Proof. intros Hk. unfold wlp, mbind, M_bind, poke in *. case_decide; [by apply Hk|done]. Qed.
(** Nothing but slot [i] changes: not the telnet record or the connection of another
    slot, nor the renderer. *)
Record others_kept (i : nat) (s s' : box) : Prop := {
  ok_slots : forall j, j <> i -> slots s' !! j = slots s !! j;
  ok_conns : forall j, j <> i -> conns (nt s') !! j = conns (nt s) !! j;
  ok_rend : rn s' = rn s;
  ok_mach : mach s' = mach s
}.
#[export] Instance others_kept_preorder i : PreOrder (others_kept i).
Proof.
  split; [intros s; constructor; done|]. intros s1 s2 s3 [A1 B1 C1 D1] [A2 B2 C2 D2]. constructor; [| |congruence..]; intros j Hj.
  - by rewrite A2, A1.
  - by rewrite B2, B1.
Qed.
Lemma others_net {A} i (m : M net A) : (forall j, j <> i -> keeps (fun x => conns x !! j) m) -> respects (others_kept i) (on_net m).
Proof.
  intros Hm s. unfold wlp, on_net. destruct (m (nt s)) as [[a x]|] eqn:E; [|done]. constructor; fld; try done.
  intros j Hj. specialize (Hm j Hj (nt s)). unfold wlp in Hm. by rewrite E in Hm.
Qed.
Lemma others_set_slot i f : respects (others_kept i) (set_slot i f).
Proof. intros s. constructor; fld; try done. intros j Hj. by rewrite list_lookup_alter_ne. Qed.
Lemma others_read {A} i (m : M box A) : keeps id m -> respects (others_kept i) m.
Proof. intros Hm s. eapply wlp_mono; [apply Hm|]. cbn. intros _ s' ->. reflexivity. Qed.

(** A slot held at the prompt: both. *)
Definition confined (i : nat) (s s' : box) : Prop := quiet i s s' /\ others_kept i s s'.
#[export] Instance confined_preorder i : PreOrder (confined i).
Proof. split; [by split|]. intros s1 s2 s3 [] []. split; by etrans. Qed.
Lemma confined_of {A} i (m : M box A) : respects (quiet i) m -> respects (others_kept i) m -> respects (confined i) m.
Proof. intros H1 H2 s. exact (wlp_and _ _ _ _ (H1 s) (H2 s)). Qed.
Lemma confined_tx1 i b : respects (confined i) (tx1 i b).
Proof.
  apply confined_of; [apply quiet_tx1|]. unfold tx1. apply respects_bind; [exact _| |intros; apply respects_ret; exact _].
  apply others_net. intros j Hj. by apply net_calls_apart.
Qed.
Lemma confined_drop i : respects (confined i) (on_net (net_slot_drop (Z.of_nat i))).
Proof. apply confined_of; [apply quiet_drop|]. apply others_net. intros j Hj. by apply (net_calls_apart _ _ 0). Qed.
Lemma confined_set_slot i f : (forall c, au_state (f c) = au_state c) -> respects (confined i) (set_slot i f).
Proof. intros Hf. apply confined_of; [by apply quiet_set_slot|apply others_set_slot]. Qed.
Lemma confined_read {A} i (m : M box A) : keeps id m -> respects (confined i) m.
Proof. intros Hm. apply confined_of; [by apply quiet_read|by apply others_read]. Qed.
Ltac confined_step :=
  lazymatch goal with
  | |- respects _ (mbind _ _) => apply respects_bind; [exact _| |intros ?]
  | |- respects _ (when _ _) => apply respects_when; [exact _|]
  | |- respects _ (tx1 _ _) => apply confined_tx1
  | |- respects _ (on_net (net_slot_drop _)) => apply confined_drop
  | |- respects _ (slot _) => apply confined_read, keeps_slot_id
  | |- respects _ (poke _ _ _) => apply confined_read, keeps_poke
  | |- respects _ (set_slot _ _) => apply confined_set_slot; reflexivity
  | |- respects _ (if ?b then _ else _) => destruct b
  | |- respects _ (match ?x with _ => _ end) => destruct x
  | |- respects _ (mret _) => apply respects_ret; exact _
  | |- respects _ (gets _) => apply respects_gets; exact _
  end.
Lemma confined_say i s : respects (confined i) (au_say i s).
Proof. induction s as [|b s IH]; cbn [au_say]; repeat confined_step. done. Qed.
Lemma confined_respond i v opt : respects (confined i) (respond i v opt).
Proof. unfold respond, put3. cbv zeta. repeat confined_step. Qed.
Lemma confined_sb_push i b : respects (confined i) (sb_push i b).
Proof. unfold sb_push. repeat confined_step. Qed.
(** A window size repaints the screen of an admitted slot only. *)
Lemma confined_sb_done i c s : slots s !! i = Some c -> au_state c <> AU_OK -> wlp (sb_done i) (fun _ s' => confined i s s') s.
Proof.
  intros E Hc. unfold sb_done. eapply wlp_slot; [done|]. cbv zeta. apply wlp_bind, wlp_lift. intros b0 _. case_decide; [|by apply wlp_ret].
  apply wlp_bind, wlp_lift. intros w _. apply wlp_bind, wlp_lift. intros h _. case_decide; [|by apply wlp_ret].
  rewrite (bool_decide_eq_false_2 (au_state c = AU_OK)) by done. rewrite andb_false_r. cbn [when].
  apply wlp_bind. eapply wlp_mono; [by apply (confined_set_slot i)|]. cbn beta. intros _ s' Hs'. by apply wlp_ret.
Qed.

Lemma wlp_of_confined {A} i (m : M box A) (P : Prop) s : respects (confined i) m -> wlp m (fun _ s' => confined i s s' \/ P) s.
Proof. intros Hm. eapply wlp_mono; [apply Hm|]. by left. Qed.
Lemma wlp_after_confined {A} i (m : M box A) (P : Prop) s s1 :
  confined i s s1 -> respects (confined i) m -> wlp m (fun _ s' => confined i s s' \/ P) s1.
Proof. intros Hs Hm. eapply wlp_mono; [apply Hm|]. cbn beta. intros _ s' Hs'. left. by etrans. Qed.
Lemma feed_gate i b c s :
  slots s !! i = Some c -> au_state c <> AU_OK ->
  wlp (feed_data i b) (fun _ s' => confined i s s' \/ b = 13 /\ c_str (au_text c) = g_password s) s.
Proof.
  intros E Hc. unfold feed_data. eapply wlp_slot; [done|]. rewrite decide_False by done.
  destruct (decide (b = 13)) as [->|Hb].
  - unfold au_check. eapply wlp_slot; [done|]. apply wlp_poke. intros Hl. rewrite c_str_cut by lia. fold (au_text c).
    apply wlp_bind. eapply wlp_mono; [apply (confined_set_slot i); reflexivity|]. cbn beta. intros _ s1 Hs1.
    apply wlp_bind, wlp_gets. assert (g_password s1 = g_password s) as Ep by apply Hs1.
    destruct (decide (c_str (au_text c) = g_password s1)) as [Hp|_].
    + apply wlp_true. right. split; [done|]. congruence.
    + eapply wlp_after_confined; [done|]. confined_step; [confined_step|]. confined_step; [|apply confined_say].
      confined_step; [apply confined_say|confined_step].
  - apply wlp_of_confined. repeat confined_step.
Qed.

(** C4: A client held at the password prompt has no effect outside its slot.  For
    every byte the network delivers on its slot, in every state of its telnet
    parser, no key reaches the key machine or the BIOS keyboard ring, no reboot is
    requested, the slot stays at the prompt and no slot is admitted to the screen;
    the telnet record and the connection of every other slot and the renderer are
    as before; except when the byte is the CR that ends a line equal to the
    password. *)
Theorem gate_closed n W H i b c s :
  box_wf n W H s -> (i < n)%nat -> is_byte b -> slots s !! i = Some c -> au_state c <> AU_OK ->
  wp (telnet_in i b) (fun _ s' =>
    box_wf n W H s' /\ (confined i s s' \/ b = 13 /\ iac c = 0 /\ c_str (au_text c) = g_password s)) s.
Proof.
  intros Hs Hi Hb E Hc. apply wp_and; [by apply (telnet_in_safe n)|]. unfold telnet_in. eapply wlp_slot; [done|]. cbv zeta.
  destruct (decide (iac c = 0)) as [Hi0|Hi0].
  { destruct (decide (b = IAC)); [apply wlp_of_confined; confined_step|].
    eapply wlp_mono; [by apply feed_gate|]. cbn beta. intros _ s' [|[??]]; [by left|by right]. }
  destruct (decide (iac c = 1)).
  { destruct (decide (b = IAC)) as [->|].
    - apply wlp_bind. eapply wlp_mono; [by apply (feed_gate i IAC c)|]. cbn beta. intros _ s1 [Hq|[? _]]; [|done].
      eapply wlp_mono; [apply (confined_set_slot i); reflexivity|]. cbn beta. intros _ s' Hq'. left. by etrans.
    - apply wlp_of_confined. repeat confined_step. }
  destruct (decide (iac c = 2)); [apply wlp_of_confined; repeat first [apply confined_respond|confined_step]|].
  destruct (decide (iac c = 3)); [apply wlp_of_confined; repeat first [apply confined_sb_push|confined_step]|].
  destruct (decide (iac c = 4)); [|by apply wlp_ret; left].
  destruct (decide (b = SE)); [|apply wlp_of_confined; repeat first [apply confined_sb_push|confined_step]].
  apply wlp_bind. eapply wlp_mono; [by apply (confined_sb_done i c)|]. cbn beta. intros _ s1 Hs1.
  apply wlp_after_confined; [done|confined_step].
Qed.

(** ** A line typed at the prompt *)

(** The bytes of a client in sequence, as [net_tick] delivers them. *)
Fixpoint type_in (i : nat) (l : list Z) : M box unit :=
  match l with [] => mret tt | b :: l => telnet_in i b ;; type_in i l end.
Lemma type_in_app i l1 l2 s : type_in i (l1 ++ l2) s = (type_in i l1 ;; type_in i l2) s.
Proof.
  revert s. induction l1 as [|b l1 IH]; intros s; [done|]. cbn. unfold mbind, M_bind.
  destruct (telnet_in i b s) as [[? s1]|]; [|done]. apply IH.
Qed.
Lemma type_in_safe n W H i l : (i < n)%nat -> all_bytes l -> bsafe n W H (type_in i l).
Proof.
  intros Hi. induction 1 as [|b l Hb _ IH]; cbn [type_in]; [apply bsafe_ret|]. apply bsafe_bind; [by apply telnet_in_safe|done].
Qed.
(** What a byte does to the line: a backspace removes, LF and NUL are ignored, and
    the line keeps at most 31 characters. *)
Definition line_edit (t : list Z) (b : Z) : list Z :=
  if decide (b = 10 \/ b = 0) then t
  else if decide (b = 8 \/ b = 127) then take (length t - 1) t
  else if decide (len t < 31) then t ++ [b] else t.

Lemma slot_run {B} i c (k : tslot -> M box B) s : slots s !! i = Some c -> (slot i ≫= k) s = k c s.
Proof. intros E. unfold mbind, M_bind, slot. by rewrite E. Qed.
Lemma set_slot_run i f c s : slots s !! i = Some c -> set_slot i f s = Some (tt, s <| slots := <[i := f c]> (slots s) |>).
Proof. intros E. unfold set_slot, modify. by rewrite (alter_insert _ _ f c E). Qed.
Lemma slot_same i c s : slots s !! i = Some c -> s = s <| slots := <[i := c]> (slots s) |>.
Proof. intros E. rewrite list_insert_id by done. by destruct s. Qed.

(** At the prompt, between commands. *)
Record at_prompt (c : tslot) : Prop := { ap_wf : tslot_wf c; ap_iac : iac c = 0; ap_state : au_state c = AU_PW }.

Lemma au_text_len c : tslot_wf c -> len (au_text c) = au_len c.
Proof. intros [_ (L & _ & ?)]. unfold au_text. rewrite length_take. lia. Qed.
Lemma line_byte i b c s :
  slots s !! i = Some c -> at_prompt c -> is_byte b -> b <> 13 -> b <> IAC ->
  exists c', telnet_in i b s = Some (tt, s <| slots := <[i := c']> (slots s) |>) /\ at_prompt c' /\ au_tries c' = au_tries c /\
    au_text c' = line_edit (au_text c) b.
Proof.
  intros E [Hw Hi Hp] Hb H13 HI. pose proof Hw as [Hsb (La & Ba & Ha)]. pose proof (au_text_len c Hw) as Lt.
  unfold telnet_in. rewrite (slot_run i c _ s E). cbv zeta. rewrite decide_True, decide_False by done.
  unfold feed_data, line_edit. rewrite (slot_run i c _ s E), decide_False, decide_False by (done || rewrite Hp; done).
  assert (exists c', mret (M := M box) tt s = Some (tt, s <| slots := <[i := c']> (slots s) |>) /\ at_prompt c' /\ au_tries c' = au_tries c /\
    au_text c' = au_text c) as Hsame.
  { exists c. split; [|by split_and!]. rewrite <- (slot_same i c s E). done. }
  destruct (decide (b = 10 \/ b = 0)); [done|]. destruct (decide (b = 8 \/ b = 127)).
  - destruct (decide (au_len c > 0)) as [H0|H0].
    + rewrite bool_decide_eq_true_2 by done. cbn [when]. rewrite (set_slot_run i _ c s E). eexists. split; [done|].
      split; [|split; [done|]]. { constructor; [|done..]. constructor; fld; try done. split; [done|]. split; [done|lia]. }
      unfold au_text at 1. fld. unfold au_text. rewrite take_take. f_equal. rewrite length_take. lia.
    + rewrite bool_decide_eq_false_2 by done. cbn [when]. replace (take (length (au_text c) - 1) (au_text c)) with (au_text c); [done|].
      destruct (au_text c) as [|? ?]; [done|]. cbn in Lt. lia.
  - rewrite Lt. destruct (decide (au_len c < 32 - 1)) as [H1|H1].
    + unfold mbind at 1, M_bind, poke. rewrite decide_True by lia. unfold mret at 1, M_ret. rewrite (set_slot_run i _ c s E).
      eexists. split; [done|]. split; [|split; [done|]].
      { constructor; [|done..]. constructor; fld; try done. rewrite length_insert. split; [done|]. split; [by apply Forall_insert|lia]. }
      rewrite decide_True by lia. unfold au_text at 1. fld. replace (Z.to_nat (au_len c + 1)) with (S (Z.to_nat (au_len c))) by lia.
      rewrite (take_S_r _ _ b) by (apply list_lookup_insert_eq; lia). by rewrite take_insert_ge by lia.
    + rewrite decide_False by lia. done.
Qed.

Definition typed (b : Z) : Prop := is_byte b /\ b <> 13 /\ b <> IAC.
Lemma line_bytes i l : forall c s,
  Forall typed l -> slots s !! i = Some c -> at_prompt c ->
  exists c', type_in i l s = Some (tt, s <| slots := <[i := c']> (slots s) |>) /\ at_prompt c' /\ au_tries c' = au_tries c /\
    au_text c' = foldl line_edit (au_text c) l.
Proof.
  induction l as [|b l IH]; intros c s Hl E Hc; cbn [type_in foldl].
  - exists c. split; [|by split_and!]. rewrite <- (slot_same i c s E). done.
  - apply Forall_cons_1 in Hl as [(Hb & H13 & HI) Hl]. destruct (line_byte i b c s E Hc Hb H13 HI) as (c1 & E1 & Hc1 & T1 & X1).
    set (s1 := s <| slots := <[i := c1]> (slots s) |>) in *.
    assert (slots s1 !! i = Some c1) as Es1 by (unfold s1; fld; apply list_lookup_insert_eq; by eapply lookup_lt_Some).
    destruct (IH c1 s1 Hl Es1 Hc1) as (c' & E' & Hc' & T' & X'). exists c'. unfold mbind, M_bind. rewrite E1, E'.
    split; [|split; [done|]; split; congruence]. unfold s1. fld. rewrite list_insert_insert_eq. by destruct s.
Qed.

(** NUL is never stored. *)
Lemma line_edit_nonzero l : forall t, 0 ∉ t -> 0 ∉ foldl line_edit t l.
Proof.
  induction l as [|b l IH]; intros t Ht; cbn; [done|]. apply IH. unfold line_edit. repeat case_decide; try done.
  - intros Hin. apply Ht. eapply elem_of_take in Hin as (? & ? & _). by eapply list_elem_of_lookup_2.
  - rewrite not_elem_of_app, list_elem_of_singleton. split; [done|]. intros <-. auto.
Qed.
Lemma c_str_id t : 0 ∉ t -> c_str t = t.
Proof.
  induction t as [|b t IH]; [done|]. rewrite not_elem_of_cons. intros [Hb Ht]. cbn. rewrite decide_False by congruence. by rewrite IH.
Qed.

Lemma wlp_set_slot i f c {B} (k : M box B) Q s :
  slots s !! i = Some c -> (forall s', s' = s <| slots := <[i := f c]> (slots s) |> -> slots s' !! i = Some (f c) -> wlp k Q s') ->
  wlp (set_slot i f ;; k) Q s.
Proof.
  intros E Hk. unfold wlp, mbind, M_bind in *. rewrite (set_slot_run i f c s E). apply Hk; [done|]. fld.
  apply list_lookup_insert_eq. by eapply lookup_lt_Some.
Qed.
Lemma in_slots_yes i x : (i < length (conns x))%nat -> in_slots (Z.of_nat i) x = Some (true, x).
Proof. intros Hi. unfold in_slots, mbind, M_bind, gets, mret, M_ret. by rewrite bool_decide_eq_true_2 by lia. Qed.
Lemma ready_run i x :
  (i < length (conns x))%nat -> net_slot_ready (Z.of_nat i) 1 x = Some (tt, x <| conns := alter (fun c => c <| ready := true |>) i (conns x) |>).
Proof. intros Hi. unfold net_slot_ready, mbind, M_bind. rewrite in_slots_yes by done. cbn [when]. by rewrite Nat2Z.id. Qed.
Lemma drop_closes i x :
  wlp (net_slot_drop (Z.of_nat i)) (fun _ x' => forall k, conns x' !! i = Some k -> tstate k = TS_LISTEN /\ ready k = false) x.
Proof.
  destruct (decide (i < length (conns x))%nat) as [Hi|Hi].
  - unfold net_slot_drop. unfold wlp, mbind at 1, M_bind. rewrite in_slots_yes by done. cbn [negb]. rewrite Nat2Z.id.
    change (wlp (c ← the_conn i; when (bool_decide (tstate c = TS_ESTAB)) (tcp_send_seg i 0x14 false 0 0) ;; tcp_reset_listen i)
      (fun _ x' => forall k, conns x' !! i = Some k -> tstate k = TS_LISTEN /\ ready k = false) x).
    apply wlp_bind. unfold wlp at 1, the_conn. destruct (conns x !! i) as [c|]; [|done]. apply wlp_bind.
    apply wlp_true. intros _ x'. unfold tcp_reset_listen, set_conn. apply wlp_modify. fld. intros k. rewrite list_lookup_alter_eq.
    destruct (conns x' !! i); cbn; [|done]. by intros [= <-].
  - unfold net_slot_drop, in_slots, wlp, mbind, M_bind, gets, mret, M_ret. rewrite bool_decide_eq_false_2 by lia. cbn [negb].
    intros k Hk. apply lookup_lt_Some in Hk. lia.
Qed.

Lemma keeps_slots_net {A} (m : M net A) : keeps slots (on_net m).
Proof. intros s. unfold wlp, on_net. by destruct (m (nt s)) as [[a x]|]. Qed.
Lemma keeps_slots_say i l : keeps slots (au_say i l).
Proof.
  induction l as [|b l IH]; cbn [au_say]; [done|]. apply keeps_bind; [|done]. unfold tx1. apply keeps_bind; [apply keeps_slots_net|done].
Qed.
(** What the renderer does not touch. *)
Definition but_rend (s : box) : net * list tslot * ansikey * mem := (nt s, slots s, keys s, kbd s).
Lemma keeps_but_rend {A} (m : machine -> M rend A) : keeps but_rend (on_rend m).
Proof. intros s. unfold wlp, on_rend. by destruct (m (mach s) (rn s)) as [[a x]|]. Qed.

Lemma wlp_respects {A} (R : box -> box -> Prop) `{!PreOrder R} (m : M box A) (k : A -> M box unit) Q s0 s :
  R s0 s -> respects R m -> (forall a s', R s0 s' -> wlp (k a) Q s') -> wlp (m ≫= k) Q s.
Proof. intros Hs Hm Hk. apply wlp_bind. eapply wlp_mono; [apply Hm|]. cbn beta. intros a s' Hs'. apply Hk. by etrans. Qed.
Lemma wlp_on_net {A} (m : M net A) Q s : wlp m (fun a x => Q a (s <| nt := x |>)) (nt s) -> wlp (on_net m) Q s.
Proof. unfold wlp, on_net. by destruct (m (nt s)) as [[a x]|]. Qed.

Lemma wlp_both {S A} {m : M S A} {Q Q' : A -> S -> Prop} {s} : wlp m Q s -> wlp m Q' s -> wlp m (fun a s' => Q a s' /\ Q' a s') s.
Proof. unfold wlp. by destruct (m s) as [[a s']|]. Qed.
Lemma drop_run i s : wlp (on_net (net_slot_drop (Z.of_nat i))) (fun _ s' => forall k, conns (nt s') !! i = Some k -> tstate k = TS_LISTEN /\ ready k = false) s.
Proof. apply wlp_on_net. eapply wlp_mono; [apply drop_closes|]. cbn beta. intros _ x. by fld. Qed.

(** What the CR after the line [t] does to slot [i], whose state was [c]: the
    password admits the slot, another line is one more strike, and the third strike
    closes the connection. *)
Definition line_done (i : nat) (c : tslot) (t : list Z) (s s' : box) : Prop :=
  keys s' = keys s /\ kbd s' = kbd s /\ exists c', slots s' !! i = Some c' /\ au_len c' = 0 /\
    if decide (t = g_password s) then au_state c' = AU_OK /\ ready <$> conns (nt s') !! i = Some true
    else at_prompt c' /\ au_tries c' = u8 (au_tries c + 1) /\ no_readier (nt s) (nt s') /\
      (au_tries c' >= 3 -> forall k, conns (nt s') !! i = Some k -> tstate k = TS_LISTEN /\ ready k = false).

Lemma cr_right i c c1 s s1 :
  slots s1 !! i = Some c1 -> quiet i s s1 -> nt s1 = nt s -> (i < length (conns (nt s)))%nat ->
  wlp (set_slot i (fun c => c <| au_state := AU_OK |> <| au_len := 0 |>) ;;
       on_net (net_slot_ready (Z.of_nat i) 1) ;;
       on_rend render_reset) (fun _ s' => line_done i c (g_password s) s s') s1.
Proof.
  intros E1 Q1 N1 Hn. apply (wlp_set_slot i _ c1); [done|]. intros s2 Es2 E2. set (c2 := c1 <| au_state := AU_OK |> <| au_len := 0 |>) in *.
  assert (nt s2 = nt s /\ keys s2 = keys s /\ kbd s2 = kbd s) as (N2 & K2 & B2) by (destruct Q1; subst s2; by fld).
  assert (au_len c2 = 0 /\ au_state c2 = AU_OK) as [L2 A2] by done. clearbody c2. clear Es2.
  apply wlp_bind, wlp_on_net. unfold wlp. rewrite ready_run by (by rewrite N2).
  eapply wlp_mono; [apply (keeps_but_rend render_reset)|]. cbn beta. intros _ s3. unfold but_rend. fld. intros [= N3 S3 K3 B3].
  split; [congruence|]. split; [congruence|]. exists c2. rewrite S3, N3, decide_True by done. split_and!; try done.
  fld. rewrite list_lookup_alter_eq, N2. destruct (lookup_lt_is_Some_2 (conns (nt s)) i Hn) as [k ->]. done.
Qed.
Lemma cr_wrong i c c1 t s s1 :
  slots s1 !! i = Some c1 -> at_prompt c1 -> au_tries c1 = au_tries c -> quiet i s s1 -> t <> g_password s ->
  wlp (set_slot i (fun c => c <| au_len := 0 |> <| au_tries := u8 (au_tries c + 1) |>) ;;
       if decide (u8 (au_tries c + 1) >= 3) then au_say i denied ;; on_net (net_slot_drop (Z.of_nat i)) else au_say i wrong)
    (fun _ s' => line_done i c t s s') s1.
Proof.
  intros E1 P1 T1 Q1 Ht. apply (wlp_set_slot i _ c1); [done|]. intros s2 Es2 E2.
  set (c2 := c1 <| au_len := 0 |> <| au_tries := u8 (au_tries c1 + 1) |>) in *.
  assert (at_prompt c2 /\ au_len c2 = 0 /\ au_tries c2 = u8 (au_tries c + 1)) as (P2 & L2 & T2).
  { split; [|split; [done|]; unfold c2; fld; by rewrite T1]. destruct P1 as [[? (?&?&?)] ? ?]. constructor; [|done..].
    constructor; unfold c2; fld; done. }
  assert (quiet i s s2) as Q2.
  { etrans; [exact Q1|]. rewrite Es2. by eapply quiet_replace. }
  clearbody c2. clear Es2. assert (forall s', quiet i s2 s' /\ slots s' = slots s2 ->
    (au_tries c2 >= 3 -> forall k, conns (nt s') !! i = Some k -> tstate k = TS_LISTEN /\ ready k = false) -> line_done i c t s s') as Hend.
  { intros s' [Hq Hs] H3. assert (quiet i s s') as [] by (by etrans). split; [done|]. split; [done|]. exists c2.
    rewrite Hs, decide_False by done. by split_and!. }
  rewrite <- T2 in *. destruct (decide (au_tries c2 >= 3)) as [H3|H3].
  - apply wlp_bind. eapply wlp_mono; [apply (wlp_both (quiet_say i i denied s2) (keeps_slots_say i denied s2))|]. cbn beta.
    intros _ s3 [Q3 S3]. eapply wlp_mono; [apply (wlp_both (wlp_both (quiet_drop i (Z.of_nat i) s3) (keeps_slots_net (net_slot_drop (Z.of_nat i)) s3)) (drop_run i s3))|].
    cbn beta. intros _ s4 [[Q4 S4] D4]. apply Hend; [|done]. split; [by etrans|congruence].
  - eapply wlp_mono; [apply (wlp_both (quiet_say i i wrong s2) (keeps_slots_say i wrong s2))|]. cbn beta. intros _ s3 Hs3. by apply Hend.
Qed.

(** The CR: the password is compared with the line. *)
Lemma cr_wlp i c s :
  slots s !! i = Some c -> at_prompt c -> 0 ∉ au_text c -> (i < length (conns (nt s)))%nat ->
  wlp (telnet_in i 13) (fun _ s' => line_done i c (au_text c) s s') s.
Proof.
  intros E [Hw Hi Hp] H0 Hn. pose proof Hw as [Hsb (La & Ba & Ha)].
  unfold telnet_in. eapply wlp_slot; [done|]. cbv zeta. rewrite decide_True, decide_False by done.
  unfold feed_data. eapply wlp_slot; [done|]. rewrite decide_False, decide_True by (done || rewrite Hp; done).
  unfold au_check. eapply wlp_slot; [done|]. apply wlp_poke. intros Hl. rewrite c_str_cut by lia. fold (au_text c). rewrite c_str_id by done.
  set (c1 := c <| au_buf := <[Z.to_nat (au_len c) := 0]> (au_buf c) |>).
  assert (at_prompt c1 /\ au_tries c1 = au_tries c) as (P1 & T1).
  { split; [|done]. constructor; [|done..]. constructor; unfold c1; fld; try done. rewrite length_insert. split; [done|]. split; [|done].
    apply Forall_insert; [done|unfold is_byte; lia]. }
  apply (wlp_set_slot i _ c); [done|]. intros s1 Es1 E1. fold c1 in Es1, E1.
  assert (quiet i s s1 /\ nt s1 = nt s) as [Q1 N1].
  { split; [|by subst]. rewrite Es1. by eapply quiet_replace. }
  clearbody c1. clear Es1. apply wlp_bind, wlp_gets. rewrite (q_pw _ _ _ Q1).
  destruct (decide (au_text c = g_password s)) as [Hy|Hno]; [rewrite Hy; by eapply cr_right|by eapply cr_wrong].
Qed.

(** C33: A line typed at the password prompt.  The bytes of the line (anything but
    CR and IAC) are edited the way a terminal does: LF and NUL are ignored, a
    backspace removes the last character, and what exceeds 31 characters is
    dropped.  At the CR the slot is admitted if the edited line is exactly the
    password; otherwise nobody is admitted, the line is cleared, the strike is
    counted, and at the third strike the connection is closed.  No keystroke
    reaches the machine either way, and no buffer is overrun. *)
Theorem password_line n W H i l c s :
  box_wf n W H s -> (i < n)%nat -> slots s !! i = Some c -> at_prompt c -> au_len c = 0 -> Forall typed l ->
  wp (type_in i (l ++ [13])) (fun _ s' => box_wf n W H s' /\ line_done i c (foldl line_edit [] l) s s') s.
Proof.
  intros Hs Hi E Hc H0 Hl. apply wp_and.
  { apply (type_in_safe n); [done| |done]. apply Forall_app. split; [|by repeat constructor]. eapply Forall_impl; [done|]. by intros b []. }
  destruct (line_bytes i l c s Hl E Hc) as (c' & E' & Hc' & T' & X'). unfold wlp. rewrite type_in_app. unfold mbind at 1, M_bind. rewrite E'.
  assert (au_text c = []) as Et by (unfold au_text; by rewrite H0). rewrite Et in X'.
  set (s1 := s <| slots := <[i := c']> (slots s) |>).
  assert (slots s1 !! i = Some c') as E1 by (unfold s1; fld; apply list_lookup_insert_eq; by eapply lookup_lt_Some).
  destruct (bw_net _ _ _ s Hs) as [_ Hn].
  assert (line_done i c' (au_text c') s1 = line_done i c (foldl line_edit [] l) s) as Hd.
  { unfold line_done. rewrite X', T'. by unfold s1; fld. }
  change (wlp (type_in i [13]) (fun _ s' => line_done i c (foldl line_edit [] l) s s') s1). rewrite <- Hd. cbn [type_in].
  apply wlp_bind. eapply wlp_mono; [apply (cr_wlp i c' s1)|done]; try done.
  - rewrite X'. apply line_edit_nonzero. apply not_elem_of_nil.
  - unfold s1. fld. lia.
Qed.

(** ** The slot that stays admitted *)

(** What decides whether a slot is sent the screen. *)
Definition adm (x : net) : list (Z * bool) := (fun k => (tstate k, ready k)) <$> conns x.
Lemma adm_alter i f x : (forall k, tstate (f k) = tstate k /\ ready (f k) = ready k) -> adm (x <| conns := alter f i (conns x) |>) = adm x.
Proof.
  intros Hf. unfold adm. fld. apply list_eq. intros j. rewrite !list_lookup_fmap. destruct (decide (i = j)) as [->|Hn].
  - rewrite list_lookup_alter_eq. destruct (conns x !! j); cbn; [|done]. by destruct (Hf c) as [-> ->].
  - by rewrite list_lookup_alter_ne.
Qed.
Lemma adm_lookup i k x x' : adm x' = adm x -> conns x !! i = Some k -> exists k', conns x' !! i = Some k' /\ admitted k' = admitted k /\ ready k' = ready k.
Proof.
  unfold adm. intros Ea E. assert ((fun k => (tstate k, ready k)) <$> conns x' !! i = (fun k => (tstate k, ready k)) <$> conns x !! i) as H.
  { by rewrite <- !list_lookup_fmap, Ea. }
  rewrite E in H. destruct (conns x' !! i) as [k'|]; [|done]. injection H as E1 E2. exists k'. unfold admitted. by rewrite E1, E2.
Qed.

(** The gate and the admissions stay as they are. *)
Definition held (i : nat) (s s' : box) : Prop := quiet i s s' /\ adm (nt s') = adm (nt s).
#[export] Instance held_preorder i : PreOrder (held i).
Proof. split; [done|]. intros s1 s2 s3 [] []. split; [by etrans|congruence]. Qed.
Lemma held_say i j l : respects (held i) (au_say j l).
Proof.
  intros s. apply (wlp_both (quiet_say i j l s)). assert (PreOrder (fun x x' => adm x' = adm x)) as HP by (split; [done|]; intros ??? -> ->; done).
  refine (rel_say (fun x x' => adm x' = adm x) _ j l s). intros j0 b. apply putc_slot_respects; [exact _|by unfold adm; intros x x' ->|].
  intros. by apply adm_alter.
Qed.
Lemma held_put3 i j a b c : respects (held i) (put3 j a b c).
Proof. intros s. pose proof (held_say i j [a; b; c] s) as H. cbn [au_say] in H. unfold put3, wlp, mbind, M_bind in *.
  destruct (tx1 j a s) as [[? s1]|]; [|done]. destruct (tx1 j b s1) as [[? s2]|]; [|done]. by destruct (tx1 j c s2) as [[[] s3]|].
Qed.
Lemma held_set_slot i j f : (forall c, au_state (f c) = au_state c) -> respects (held i) (set_slot j f).
Proof. intros Hf s. apply (wlp_both (quiet_set_slot i j f Hf s)). done. Qed.

(** With a password set, [telnet_begin] closes the gate but does not touch the
    admissions. *)
Lemma begin_held i s :
  g_password s <> [] ->
  wlp (telnet_begin i) (fun _ s' => adm (nt s') = adm (nt s) /\ forall c, slots s' !! i = Some c -> au_state c = AU_PW) s.
Proof.
  intros Hp. unfold telnet_begin, telnet_reset, telnet_hello.
  eapply (wlp_respects (held i) _ _ _ s); [done|by apply held_set_slot|]. intros _ s1 H1.
  eapply (wlp_respects (held i) _ _ _ s); [done| |].
  { repeat (apply respects_bind; [exact _|apply held_put3|intros _]). by apply held_set_slot. }
  intros _ s2 H2. eapply (wlp_respects (held i) _ _ _ s); [done|apply held_say|]. intros _ s3 H3.
  eapply (wlp_respects (held i) _ _ _ s); [done|by apply held_set_slot|]. intros _ s4 [Q4 A4].
  apply wlp_bind, wlp_gets. rewrite (q_pw _ _ _ Q4). destruct (g_password s); [done|].
  apply wlp_bind. apply wlp_modify. eapply wlp_mono; [apply (wlp_both (held_say i i prompt _) (keeps_slots_say i prompt _))|].
  cbn beta. intros _ s5 [[_ A5] S5]. revert A5 S5. fld. intros -> ->. split; [done|]. intros c. rewrite list_lookup_alter_eq.
  destruct (slots s4 !! i); cbn; [|done]. by intros [= <-].
Qed.

Lemma syn_keeps_ready mac ip sport seq i k x :
  alloc_conn ip (conns x) = Some i -> conns x !! i = Some k ->
  wlp (tcp_syn mac ip sport seq) (fun _ x' => exists k', conns x' !! i = Some k' /\ ready k' = ready k /\ tstate k' = TS_SYNRCVD) x.
Proof.
  intros Ea E. unfold tcp_syn. apply wlp_bind, wlp_gets. rewrite Ea. apply wlp_bind, wlp_gets. apply wlp_bind, wlp_modify.
  apply wlp_bind. eapply wlp_mono; [apply keeps_conns_seg|]. cbn beta. intros _ x1 E1. apply wlp_bind, wlp_gets, wlp_modify.
  fld. rewrite E1. fld. rewrite !list_lookup_alter_eq, E. cbn. eexists. split; [done|]. by fld.
Qed.

(** C37: The screen gate is not closed when a slot is recycled.  When every slot is
    taken, a SYN from a host that already holds an admitted slot takes that slot
    over (net.c forgets the old connection without [tcp_reset_listen]), so the flag
    that admits the slot survives.  Once the handshake completes and
    [telnet_begin] asks for the password, the new client is at the prompt and
    admitted at once: [net_tx_putc] mirrors the screen to it before it has typed
    anything. *)
Theorem evicted_slot_stays_admitted n W H i k s mac ip sport seq :
  box_wf n W H s -> conns (nt s) !! i = Some k -> ready k = true -> alloc_conn ip (conns (nt s)) = Some i ->
  len mac = 6 /\ all_bytes mac -> len ip = 4 /\ all_bytes ip -> is_u16 sport -> g_password s <> [] ->
  wp (on_net (tcp_syn mac ip sport seq) ;;
      k ← on_net (the_conn i);
      on_net (set_conn i (establish (snd_nxt k))) ;;
      telnet_begin i)
    (fun _ s' => box_wf n W H s' /\ exists k' c', conns (nt s') !! i = Some k' /\ admitted k' = true /\
                 slots s' !! i = Some c' /\ au_state c' = AU_PW) s.
Proof.
  intros Hs E Hk Ea [Lm Bm] [Li Bi] Hp Hpw. destruct (bw_net _ _ _ s Hs) as [Hw Hn].
  pose proof (lookup_lt_Some _ _ _ E) as Hi. apply wp_bind, wp_on_net.
  eapply wp_mono; [apply wp_and; [exact (syn_safe n mac ip sport seq Lm Bm Li Bi Hp (nt s) Hw Hn)|by apply (syn_keeps_ready _ _ _ _ i k)]|].
  cbn beta. intros _ x [[Hx Hxn] (k1 & E1 & R1 & T1)]. apply wp_bind, wp_on_net. fld. eapply wp_the_conn; [done|].
  apply wp_bind, wp_on_net. fld. eapply wp_set_the; [done|].
  set (x2 := with_conn i _ x). set (s2 := s <| nt := x |> <| nt := x |> <| nt := x2 |>).
  assert (box_wf n W H s2) as Hs2.
  { destruct Hs. constructor; unfold s2; fld; try done. unfold x2. rewrite with_conn_slots. split; [|done].
    apply with_conn_wf; [done|]. apply establish_wf; [by eapply slot_wf|done]. }
  assert (conns (nt s2) !! i = Some (establish (snd_nxt k1) k1)) as E2 by (unfold s2, x2; fld; apply with_conn_lookup; lia).
  assert (g_password s2 = g_password s) as G2 by (unfold s2; by fld).
  assert (admitted (establish (snd_nxt k1) k1) = true) as A2.
  { unfold admitted, establish. fld. by rewrite R1, Hk, bool_decide_eq_true_2. }
  clearbody s2. eapply wp_mono; [apply wp_and; [exact (begin_safe n W H i ltac:(lia) s2 Hs2)|apply begin_held; congruence]|].
  cbn beta. intros _ s' [Hs' [A' S']]. split; [done|]. destruct (adm_lookup i _ _ _ A' E2) as (k' & Ek' & Ak' & _).
  destruct (bw_slots _ _ _ s' Hs') as [Hl _]. destruct (lookup_lt_is_Some_2 (slots s') i) as [c' Ec]; [lia|].
  exists k', c'. rewrite Ak'. auto.
Qed.

(** ** Keystrokes through the command layer *)

(** What a telnet client sends: data, option commands and subnegotiations, and
    their encoding on the wire. *)
Inductive telnet_item := Data (b : Z) | Command (v opt : Z) | Subneg (l : list Z).
Definition escape (l : list Z) : list Z := l ≫= fun b => if decide (b = IAC) then [IAC; IAC] else [b].
Definition encode (it : telnet_item) : list Z :=
  match it with
  | Data b => escape [b]
  | Command v opt => [IAC; v; opt]
  | Subneg l => [IAC; SB] ++ escape l ++ [IAC; SE]
  end.
Definition item_ok (it : telnet_item) : Prop :=
  match it with
  | Data b => is_byte b
  | Command v opt => WILL <= v <= DONT /\ is_byte opt
  | Subneg l => all_bytes l
  end.
Definition item_data (it : telnet_item) : list Z := match it with Data b => [b] | _ => [] end.

(** What the client drives: the key machine, the keyboard ring and the reboot. *)
Definition input_of (s : box) : ansikey * mem * bool := (keys s, kbd s, reboot s).
Definition input_event (x : mem * bool) (e : kev) : mem * bool :=
  match e with Inject sc a => (inject_key sc a x.1, x.2) | Reboot => (x.1, true) end.
Definition press (x : ansikey * mem * bool) (b : Z) : ansikey * mem * bool :=
  let '(k, m, r) := x in
  let '(ev, k) := ansi_key_byte b k in
  let '(m, r) := foldl input_event (m, r) ev in (k, m, r).

Lemma key_events_input ev : forall s k, keys s = k ->
  input_of (foldl key_event s ev) = let '(m, r) := foldl input_event (kbd s, reboot s) ev in (k, m, r).
Proof.
  induction ev as [|e ev IH]; intros s k Hk; cbn [foldl]; [unfold input_of; by rewrite Hk|].
  destruct e as [sc a|]; cbn [key_event input_event]; rewrite (IH _ k) by (fld; done); by fld.
Qed.
Lemma key_events_same ev : forall s, (slots (foldl key_event s ev), g_eof_exit (foldl key_event s ev)) = (slots s, g_eof_exit s).
Proof. induction ev as [|e ev IH]; intros s; cbn [foldl]; [done|]. rewrite IH. by destruct e. Qed.

(** Slot [i] is open and its parser is in state [st]; the other side of the slot is
    as in [s0], with the keys [l] pressed since. *)
Record open_at (i : nat) (st : Z) (s0 : box) (l : list Z) (s : box) : Prop := {
  oa_slot : exists c, slots s !! i = Some c /\ au_state c = AU_OK /\ iac c = st;
  oa_eof : g_eof_exit s = false;
  oa_input : input_of s = foldl press (input_of s0) l
}.
Lemma open_quiet i st st' s0 l s s' :
  open_at i st s0 l s -> quiet i s s' -> iac <$> slots s' !! i = Some st' -> open_at i st' s0 l s'.
Proof.
  intros [(c & E & Hc & _) He Hi] [] Hst. constructor; [|congruence|].
  - destruct (slots s' !! i) as [c'|]; [|done]. rewrite E in q_gate0. injection Hst as Hst. injection q_gate0 as Hg. exists c'. rewrite Hg. auto.
  - unfold input_of in *. congruence.
Qed.
Lemma open_to i st st' f s0 l {B} (k : M box B) Q s :
  (forall c, au_state (f c) = au_state c /\ iac (f c) = st') -> open_at i st s0 l s ->
  (forall s', open_at i st' s0 l s' -> wlp k Q s') -> wlp (set_slot i f ;; k) Q s.
Proof.
  intros Hf Ho Hk. destruct (oa_slot _ _ _ _ _ Ho) as (c & E & Hc & _). eapply wlp_set_slot; [done|]. intros s' Es' E'.
  apply Hk. eapply open_quiet; [done| |].
  - rewrite Es'. eapply quiet_replace; [done|]. apply Hf.
  - rewrite E'. cbn. f_equal. apply Hf.
Qed.
Lemma open_last i st st' f s0 l s :
  (forall c, au_state (f c) = au_state c /\ iac (f c) = st') -> open_at i st s0 l s -> wlp (set_slot i f) (fun _ s' => open_at i st' s0 l s') s.
Proof.
  intros Hf Ho. pose proof (open_to i st st' f s0 l (mret tt) (fun _ s' => open_at i st' s0 l s') s Hf Ho) as H.
  unfold wlp, set_slot, modify, mbind, M_bind in *. by apply H.
Qed.

(** A byte that the parser in state [st] sees. *)
Lemma open_step i st s0 l b Q s :
  open_at i st s0 l s ->
  (forall c, slots s !! i = Some c -> au_state c = AU_OK -> iac c = st -> wlp (telnet_in i b) Q s) -> wlp (telnet_in i b) Q s.
Proof. intros [(c & E & Hc & Hi) _ _] H. by eapply H. Qed.

Lemma open_key i st s0 l b s :
  open_at i st s0 l s -> wlp (feed_data i b) (fun _ s' => open_at i st s0 (l ++ [b]) s') s.
Proof.
  intros [(c & E & Hc & Hi) He Hin]. unfold feed_data. eapply wlp_slot; [done|]. rewrite decide_True by done.
  apply wlp_bind, wlp_gets. rewrite decide_False by (rewrite He; by intros []). unfold key_in, on_keys. apply wlp_modify.
  destruct (ansi_key_byte b (keys s)) as [ev k] eqn:Ek. pose proof (key_events_same ev (s <| keys := k |>)) as Hs. revert Hs. fld. intros [= S G].
  constructor; [exists c; by rewrite S|by rewrite G|]. rewrite (key_events_input ev _ k) by (by fld). fld.
  rewrite foldl_app, <- Hin. cbn [foldl]. unfold input_of at 1, press. by rewrite Ek.
Qed.

Lemma data_item i s0 l b s : open_at i 0 s0 l s -> wlp (type_in i (escape [b])) (fun _ s' => open_at i 0 s0 (l ++ [b]) s') s.
Proof.
  intros Ho. destruct (oa_slot _ _ _ _ _ Ho) as (c & E & Hc & Hi). unfold escape. cbn. rewrite app_nil_r.
  destruct (decide (b = IAC)) as [->|Hb]; cbn [type_in].
  - apply wlp_bind. unfold telnet_in at 1. eapply wlp_slot; [done|]. cbv zeta. rewrite decide_True, decide_True by done.
    eapply wlp_mono; [by apply (open_last i 0 1 _ s0 l)|]. cbn beta. intros _ s1 Ho1. destruct (oa_slot _ _ _ _ _ Ho1) as (c1 & E1 & Hc1 & Hi1).
    apply wlp_bind. unfold telnet_in. eapply wlp_slot; [done|]. cbv zeta. rewrite Hi1, decide_False, decide_True, decide_True by done.
    apply wlp_bind. eapply wlp_mono; [by apply open_key|]. cbn beta. intros _ s2 Ho2. eapply wlp_mono; [by apply (open_last i 1 0)|]. done.
  - apply wlp_bind. unfold telnet_in. eapply wlp_slot; [done|]. cbv zeta. rewrite decide_True, decide_False by done.
    eapply wlp_mono; [by apply open_key|]. done.
Qed.
Lemma command_item i s0 l v opt s :
  WILL <= v <= DONT -> open_at i 0 s0 l s -> wlp (type_in i [IAC; v; opt]) (fun _ s' => open_at i 0 s0 l s') s.
Proof.
  intros Hv Ho. destruct (oa_slot _ _ _ _ _ Ho) as (c & E & Hc & Hi). cbn [type_in].
  apply wlp_bind. unfold telnet_in at 1. eapply wlp_slot; [done|]. cbv zeta. rewrite decide_True, decide_True by done.
  eapply wlp_mono; [by apply (open_last i 0 1 _ s0 l)|]. cbn beta. intros _ s1 Ho1. destruct (oa_slot _ _ _ _ _ Ho1) as (c1 & E1 & Hc1 & Hi1).
  apply wlp_bind. unfold telnet_in at 1. eapply wlp_slot; [done|]. cbv zeta. unfold WILL, DONT in Hv.
  rewrite Hi1, decide_False, decide_True, decide_False, decide_False, decide_True by (done || unfold IAC, SB, WILL, DONT; lia).
  eapply wlp_mono; [by apply (open_last i 1 2 _ s0 l)|]. cbn beta. intros _ s2 Ho2. destruct (oa_slot _ _ _ _ _ Ho2) as (c2 & E2 & Hc2 & Hi2).
  apply wlp_bind. unfold telnet_in. eapply wlp_slot; [done|]. cbv zeta. rewrite Hi2, decide_False, decide_False, decide_True by done.
  apply wlp_bind. eapply wlp_mono; [apply (quiet_respond i i (verb c2) opt)|]. cbn beta. intros _ s3 Q3.
  destruct (slots s3 !! i) as [c3|] eqn:E3; [|exfalso; destruct Q3; rewrite E3, E2 in q_gate0; done].
  eapply wlp_mono; [apply (open_last i (iac c3) 0 _ s0 l); [done|]|done]. eapply open_quiet; [done..|]. by rewrite E3.
Qed.
Lemma push_keeps_iac i j b : keeps (fun s => iac <$> slots s !! i) (sb_push j b).
Proof.
  unfold sb_push. apply keeps_bind; [intros s; eapply wlp_mono; [apply keeps_slot_id|]; by cbn; intros _ s' ->|]. intros c.
  destruct (decide (sb_len c < 8)); [|done]. apply keeps_bind; [apply keeps_poke|]. intros buf. apply keeps_modify. intros s. fld.
  destruct (decide (i = j)) as [->|Hn]; [|by rewrite list_lookup_alter_ne]. rewrite list_lookup_alter_eq. by destruct (slots s !! j).
Qed.
Lemma open_push i b s0 l s : open_at i 3 s0 l s -> wlp (sb_push i b) (fun _ s' => open_at i 3 s0 l s') s.
Proof.
  intros Ho. destruct (oa_slot _ _ _ _ _ Ho) as (c & E & Hc & Hi).
  eapply wlp_mono; [apply (wlp_both (quiet_sb_push i i b s) (push_keeps_iac i i b s))|]. cbn beta. intros _ s' [Q S].
  eapply open_quiet; [done..|]. by rewrite S, E, <- Hi.
Qed.
(** The parser in a state with the slot's record at hand. *)
Ltac parser_at Ho :=
  let c := fresh "c" in let E := fresh "E" in let Hc := fresh "Hc" in let Hi := fresh "Hi" in
  destruct (oa_slot _ _ _ _ _ Ho) as (c & E & Hc & Hi); unfold telnet_in at 1; eapply wlp_slot; [exact E|]; cbv zeta; rewrite Hi.

Lemma subneg_bytes i s0 l r : forall s, open_at i 3 s0 l s ->
  wlp (type_in i (escape r ++ [IAC; SE])) (fun _ s' => open_at i 0 s0 l s') s.
Proof.
  induction r as [|b r IH]; intros s Ho.
  - cbn. apply wlp_bind. parser_at Ho. rewrite decide_False, decide_False, decide_False, decide_True, decide_True by done.
    eapply wlp_mono; [by apply (open_last i 3 4 _ s0 l)|]. cbn beta. intros _ s1 Ho1. apply wlp_bind. parser_at Ho1.
    rewrite decide_False, decide_False, decide_False, decide_False, decide_True, decide_True by done.
    apply wlp_bind. eapply wlp_mono; [apply (quiet_sb_done i i)|]. cbn beta. intros _ s2 Q2.
    destruct (slots s2 !! i) as [c2|] eqn:E2; [|exfalso; destruct Q2; rewrite E2, E0 in q_gate0; done].
    eapply wlp_mono; [apply (open_last i (iac c2) 0 _ s0 l); [done|]|done]. eapply open_quiet; [done..|]. by rewrite E2.
  - assert (escape (b :: r) = (if decide (b = IAC) then [IAC; IAC] else [b]) ++ escape r) as -> by done.
    destruct (decide (b = IAC)) as [->|Hb]; cbn [app type_in].
    + apply wlp_bind. parser_at Ho. rewrite decide_False, decide_False, decide_False, decide_True, decide_True by done.
      eapply wlp_mono; [by apply (open_last i 3 4 _ s0 l)|]. cbn beta. intros _ s1 Ho1. apply wlp_bind. parser_at Ho1.
      rewrite decide_False, decide_False, decide_False, decide_False, decide_True, decide_False, decide_True by done.
      apply wlp_bind. eapply (wlp_mono _ (fun _ s' => exists st, open_at i st s0 l s')).
      { eapply wlp_mono; [apply (wlp_both (quiet_sb_push i i IAC s1) (push_keeps_iac i i IAC s1))|]. cbn beta. intros _ s' [Q S].
        exists 4. eapply open_quiet; [done..|]. by rewrite S, E0, <- Hi0. }
      cbn beta. intros _ s2 [st Ho2]. eapply wlp_mono; [by apply (open_last i st 3 _ s0 l)|]. cbn beta. intros _ s3. apply IH.
    + apply wlp_bind. parser_at Ho. rewrite decide_False, decide_False, decide_False, decide_True, decide_False by done.
      eapply wlp_mono; [by apply (open_push i b s0 l)|]. cbn beta. intros _ s1. apply IH.
Qed.
Lemma subneg_item i s0 l r s : open_at i 0 s0 l s -> wlp (type_in i (encode (Subneg r))) (fun _ s' => open_at i 0 s0 l s') s.
Proof.
  intros Ho. cbn [encode app type_in]. apply wlp_bind. parser_at Ho. rewrite decide_True, decide_True by done.
  eapply wlp_mono; [by apply (open_last i 0 1 _ s0 l)|]. cbn beta. intros _ s1 Ho1. apply wlp_bind. parser_at Ho1.
  rewrite decide_False, decide_True, decide_False, decide_True by done.
  eapply wlp_mono; [by apply (open_last i 1 3 _ s0 l)|]. cbn beta. intros _ s2. apply subneg_bytes.
Qed.

Lemma items_wlp i s0 its : Forall item_ok its -> forall l s, open_at i 0 s0 l s ->
  wlp (type_in i (its ≫= encode)) (fun _ s' => open_at i 0 s0 (l ++ (its ≫= item_data)) s') s.
Proof.
  induction 1 as [|it its Hit _ IH]; intros l s Ho; [cbn; by rewrite app_nil_r|].
  rewrite !bind_cons. unfold wlp. rewrite type_in_app. apply wlp_bind.
  eapply (wlp_mono _ (fun _ s' => open_at i 0 s0 (l ++ item_data it) s')).
  - destruct it as [b|v opt|r]; cbn [item_data encode]; [by apply data_item|rewrite app_nil_r; destruct Hit; by apply command_item|
      rewrite app_nil_r; by apply subneg_item].
  - cbn beta. intros _ s1 Ho1. eapply wlp_mono; [by apply IH|]. cbn beta. intros _ s2. by rewrite app_assoc.
Qed.

Lemma escape_bytes l : all_bytes l -> all_bytes (escape l).
Proof. induction 1; cbn; [done|]. apply Forall_app. split; [|done]. case_decide; [by repeat constructor|by constructor]. Qed.
Lemma encode_bytes it : item_ok it -> all_bytes (encode it).
Proof.
  destruct it as [b|v opt|l]; cbn; intros H.
  - apply (escape_bytes [b]). by constructor.
  - destruct H as [Hv Ho]. unfold WILL, DONT in Hv. repeat (apply Forall_cons; split); try done; unfold is_byte; lia.
  - repeat (apply Forall_cons; split); try done. apply Forall_app. split; [by apply escape_bytes|]. by repeat constructor.
Qed.

(** C34: The command layer is transparent to keystrokes.  Whatever data bytes an
    admitted client sends (255 doubled), with option commands and
    subnegotiations of any content between them, exactly the data bytes reach the
    key machine, in order: the machine's input is that of pressing them one by one,
    no command byte is taken for a key, and the parser is back between commands. *)
Theorem iac_transparent n W H i its s :
  box_wf n W H s -> (i < n)%nat -> Forall item_ok its ->
  (exists c, slots s !! i = Some c /\ au_state c = AU_OK /\ iac c = 0) -> g_eof_exit s = false ->
  wp (type_in i (its ≫= encode)) (fun _ s' =>
    box_wf n W H s' /\ input_of s' = foldl press (input_of s) (its ≫= item_data) /\
    exists c, slots s' !! i = Some c /\ au_state c = AU_OK /\ iac c = 0) s.
Proof.
  intros Hs Hi Hits Hc He. apply (wp_mono _ (fun _ s' => box_wf n W H s' /\ open_at i 0 s (its ≫= item_data) s')).
  - apply wp_and; [|by apply (items_wlp i s its Hits [] s)].
    apply (type_in_safe n); [done| |done]. clear -Hits. induction Hits as [|it its Hit _ IH]; cbn; [done|].
    apply Forall_app. split; [by apply encode_bytes|done].
  - cbn beta. by intros _ s' [? []].
Qed.

(** ** Instances *)

(** One admitted client, and the same client at the prompt. *)
Definition demo_slot (st : Z) : tslot := tslot0 <| au_state := st |>.
Definition demo_box (k : conn) (st : Z) : box :=
  Box (demo_net k) [demo_slot st] (text "secret") false rend0 ansikey0 bda0 false demo_screen.

Lemma demo_slot_wf st : tslot_wf (demo_slot st).
Proof.
  assert (forall k, all_bytes (repeat 0 k)) as Hz by (intros k; apply Forall_forall; intros x Hx%list_elem_of_In%repeat_spec; by subst).
  constructor; (split; [done|]); split; [apply (Hz 8%nat)|done|apply (Hz 32%nat)|done].
Qed.
Lemma demo_box_wf k st : conn_wf k -> box_wf 1 2 2 (demo_box k st).
Proof.
  intros Hk. constructor.
  - split; [by apply demo_net_wf|done].
  - split; [done|]. apply Forall_cons. split; [apply demo_slot_wf|done].
  - apply demo_screen_ok.
  - exists demo_term. apply mirror_inv_start.
Qed.
Lemma demo_at_prompt : at_prompt (demo_slot AU_PW).
Proof. constructor; [apply demo_slot_wf|done..]. Qed.
Lemma forallb_typed l : forallb (fun b => bool_decide (typed b)) l = true -> Forall typed l.
Proof. rewrite forallb_forall. intros H. apply Forall_forall. intros x Hx%list_elem_of_In. by apply H, bool_decide_eq_true in Hx. Qed.

Lemma tick_total_witness : wp tick_isr (fun _ s' => box_wf 1 2 2 s') (demo_box demo_conn AU_OK).
Proof.
  exact (proj1 (tick_total 1 2 2 ltac:(split; reflexivity || discriminate) ltac:(split; reflexivity || discriminate) ltac:(discriminate)
    (demo_box demo_conn AU_OK) (demo_box_wf demo_conn AU_OK demo_conn_wf))).
Defined.

Lemma gate_closed_witness : wp (telnet_in 0 3) (fun _ s' => confined 0 (demo_box demo_conn AU_PW) s') (demo_box demo_conn AU_PW).
Proof.
  eapply wp_mono; [exact (gate_closed 1 2 2 0 3 (demo_slot AU_PW) (demo_box demo_conn AU_PW) (demo_box_wf demo_conn AU_PW demo_conn_wf)
    ltac:(lia) ltac:(unfold is_byte; lia) eq_refl ltac:(discriminate))|].
  cbn beta. intros _ s' [_ [Hq|[He _]]]; [exact Hq|discriminate He].
Defined.

(** The password typed with a slip and a backspace. *)
Lemma password_line_witness :
  wp (type_in 0 (text "secrt" ++ [8] ++ text "et" ++ [13])) (fun _ s' => ready <$> conns (nt s') !! 0%nat = Some true) (demo_box demo_conn AU_PW).
Proof.
  assert (text "secrt" ++ [8] ++ text "et" ++ [13] = (text "secrt" ++ [8] ++ text "et") ++ [13]) as -> by reflexivity.
  eapply wp_mono; [refine (password_line 1 2 2 0 (text "secrt" ++ [8] ++ text "et") (demo_slot AU_PW) (demo_box demo_conn AU_PW)
    (demo_box_wf demo_conn AU_PW demo_conn_wf) _ eq_refl demo_at_prompt eq_refl _); [lia|apply forallb_typed; vm_compute; reflexivity]|].
  cbn beta. intros _ s' (_ & _ & _ & c' & _ & _ & Hr). rewrite decide_True in Hr by (vm_compute; reflexivity). exact (proj2 Hr).
Defined.

Lemma evicted_slot_stays_admitted_witness :
  wp (on_net (tcp_syn demo_mac demo_ip 6000 77) ;;
      k ← on_net (the_conn 0);
      on_net (set_conn 0 (establish (snd_nxt k))) ;;
      telnet_begin 0)
    (fun _ s' => exists k' c', conns (nt s') !! 0%nat = Some k' /\ admitted k' = true /\ slots s' !! 0%nat = Some c' /\ au_state c' = AU_PW)
    (demo_box demo_conn AU_OK).
Proof.
  eapply wp_mono; [refine (evicted_slot_stays_admitted 1 2 2 0 demo_conn (demo_box demo_conn AU_OK) demo_mac demo_ip 6000 77
    (demo_box_wf demo_conn AU_OK demo_conn_wf) eq_refl eq_refl _ _ _ _ _);
    [vm_compute; reflexivity|split; [reflexivity|]|split; [reflexivity|]|unfold is_u16; lia|discriminate]|].
  - unfold demo_mac, is_byte. repeat (apply Forall_cons; split); try lia. constructor.
  - unfold demo_ip, is_byte. repeat (apply Forall_cons; split); try lia. constructor.
  - cbn beta. intros _ s' [_ H]. exact H.
Defined.

(** "a", a negotiation, a window size, then a byte 255. *)
Definition demo_items : list telnet_item := [Data 97; Command DO OPT_ECHO; Subneg [OPT_NAWS; 0; 80; 0; 25]; Data 255].
Lemma iac_transparent_witness :
  wp (type_in 0 (demo_items ≫= encode)) (fun _ s' => input_of s' = press (press (ansikey0, bda0, false) 97) 255) (demo_box demo_conn AU_OK).
Proof.
  eapply wp_mono; [refine (iac_transparent 1 2 2 0 demo_items (demo_box demo_conn AU_OK) (demo_box_wf demo_conn AU_OK demo_conn_wf) _ _ _ eq_refl)|].
  - lia.
  - unfold demo_items, item_ok, is_byte, WILL, DONT, DO, OPT_ECHO, OPT_NAWS.
    repeat (apply Forall_cons; split); try lia; apply Forall_nil_2.
  - exists (demo_slot AU_OK). split; [reflexivity|split; reflexivity].
  - cbn beta. intros _ s' (_ & H & _). exact H.
Defined.
