(* ===== verification/Worker.v ===== *)
(** * The SSH worker (src/dosshd/dosshd.c)

    What a timer tick does in SSH mode: [ssh_pump_output], [ssh_net_broadcast] and
    [ssh_net_worker] over the slots of Net.v, one [ssh_conn] per slot, the statics
    of ssh.c and the generator all slots share, the renderer, the key machine and
    the keyboard ring. *)
From Stdlib Require Import ZArith Lia.
From stdpp Require Import base list numbers.
From S2P Require Import Prelude Kbd Ansikey Sha256 SshWire Crypto SshConn SshKex SshAuth SshChan Ssh Net Render.
Local Open Scope Z_scope.

Definition TX_BUDGET : Z := 512.
Definition SSH_RING_RESERVE : Z := 512.

(** The configuration of the resident program ([w_eof] is [g_eof_exit]). *)
Record wconfig := WConfig {
  w_hostkey_sk : list Z; w_hostkey_pk : list Z;
  w_have_pw : bool; w_pw : list Z;
  w_authkeys : list Z; w_authkey_count : Z;
  w_eof : bool
}.

Record worker {C : Crypto} := Worker {
  w_net : net;
  ssh_slots : list ssh_conn;
  ssh_active : list bool;
  ssh_ready_seen : list bool;
  w_gl : ssh_glob;  (* the statics of ssh.c *)
  w_rg : rng;
  w_rn : rend;
  w_keys : ansikey;
  w_kbd : mem;
  w_reboot : bool;
  w_mach : machine;
  w_cols : Z; w_rows : Z;  (* g_ssh_cols, g_ssh_rows *)
  w_stir : Z;  (* g_ssh_stir *)
  w_cfg : wconfig
}.
Arguments worker C : clear implicits.
#[export] Instance worker_eta C : Eta (worker C) := fun r =>
  Worker C (w_net r) (ssh_slots r) (ssh_active r) (ssh_ready_seen r) (w_gl r) (w_rg r) (w_rn r) (w_keys r) (w_kbd r)
    (w_reboot r) (w_mach r) (w_cols r) (w_rows r) (w_stir r) (w_cfg r).
#[export] Instance upd_w_net C : Upd (@w_net C) := ltac:(derive_upd (@w_net C)).
#[export] Instance upd_ssh_slots C : Upd (@ssh_slots C) := ltac:(derive_upd (@ssh_slots C)).
#[export] Instance upd_ssh_active C : Upd (@ssh_active C) := ltac:(derive_upd (@ssh_active C)).
#[export] Instance upd_ssh_ready_seen C : Upd (@ssh_ready_seen C) := ltac:(derive_upd (@ssh_ready_seen C)).
#[export] Instance upd_w_gl C : Upd (@w_gl C) := ltac:(derive_upd (@w_gl C)).
#[export] Instance upd_w_rg C : Upd (@w_rg C) := ltac:(derive_upd (@w_rg C)).
#[export] Instance upd_w_rn C : Upd (@w_rn C) := ltac:(derive_upd (@w_rn C)).
#[export] Instance upd_w_keys C : Upd (@w_keys C) := ltac:(derive_upd (@w_keys C)).
#[export] Instance upd_w_kbd C : Upd (@w_kbd C) := ltac:(derive_upd (@w_kbd C)).
#[export] Instance upd_w_reboot C : Upd (@w_reboot C) := ltac:(derive_upd (@w_reboot C)).
#[export] Instance upd_w_mach C : Upd (@w_mach C) := ltac:(derive_upd (@w_mach C)).
#[export] Instance upd_w_cols C : Upd (@w_cols C) := ltac:(derive_upd (@w_cols C)).
#[export] Instance upd_w_rows C : Upd (@w_rows C) := ltac:(derive_upd (@w_rows C)).
#[export] Instance upd_w_stir C : Upd (@w_stir C) := ltac:(derive_upd (@w_stir C)).

Section worker.
Context {C : Crypto}.
Implicit Types s : worker C.

(** Calls into net.c, render.c, ansikey.c and rng.c. *)
Definition on_net {A} (m : M net A) : M (worker C) A :=
  fun s => match m (w_net s) with Some (a, n) => Some (a, s <| w_net := n |>) | None => None end.
Definition on_rend {A} (m : machine -> M rend A) : M (worker C) A :=
  fun s => match m (w_mach s) (w_rn s) with Some (a, r) => Some (a, s <| w_rn := r |>) | None => None end.
Definition key_event (s : worker C) (e : kev) : worker C :=
  match e with
  | Inject sc a => s <| w_kbd := inject_key sc a (w_kbd s) |>
  | Reboot => s <| w_reboot := true |>
  end.
Definition key_in (b : Z) : M (worker C) unit :=
  modify (fun s => let '(ev, k) := ansi_key_byte b (w_keys s) in foldl key_event (s <| w_keys := k |>) ev).
Definition stir (x : Z) : M (worker C) unit := modify (fun s => s <| w_rg := rng_stir x (w_rg s) |>).
(** [g_ssh_stir++] *)
Definition next_stir : M (worker C) Z :=
  n ← gets w_stir; modify (fun s => s <| w_stir := u16 (n + 1) |>) ;; mret n.

(** A call into ssh.c with [&ssh_slots[i]]. *)
Definition on_ssh {A} (i : nat) (m : M (st C) A) : M (worker C) A := fun s =>
  match ssh_slots s !! i with
  | None => None
  | Some c =>
      match m (St c (w_gl s) (w_rg s)) with
      | Some (a, t) => Some (a, s <| ssh_slots := <[i := cn t]> (ssh_slots s) |> <| w_gl := gl t |> <| w_rg := rg t |>)
      | None => None
      end
  end.
(** The flags of slot [i]. *)
Definition active (i : nat) : M (worker C) bool := fun s => match ssh_active s !! i with Some b => Some (b, s) | None => None end.
Definition set_active (i : nat) (b : bool) : M (worker C) unit := modify (fun s => s <| ssh_active := <[i := b]> (ssh_active s) |>).
Definition ready_seen (i : nat) : M (worker C) bool := fun s => match ssh_ready_seen s !! i with Some b => Some (b, s) | None => None end.
Definition set_ready_seen (i : nat) (b : bool) : M (worker C) unit :=
  modify (fun s => s <| ssh_ready_seen := <[i := b]> (ssh_ready_seen s) |>).
Definition slot_count : M (worker C) nat := gets (fun s => length (conns (w_net s))).

(** ** Output *)

Fixpoint put_all (i : nat) (bs : list Z) : M (worker C) unit :=
  match bs with [] => mret tt | b :: bs => on_net (net_tx_putc_slot (Z.of_nat i) b) ;; put_all i bs end.

(** The loop of [ssh_pump_output]; every round takes at least one byte of the
    shared queue, so [S (length g_ob)] rounds are enough. *)
Fixpoint pump_loop (fuel i : nat) : M (worker C) unit :=
  match fuel with
  | O => mret tt
  | S fuel =>
      room ← on_net (net_tx_room_slot (Z.of_nat i));
      if decide (room = 0) then mret tt
      else
        out ← on_ssh i (ssh_output (Z.min room 128));
        if decide (out = []) then mret tt else put_all i out ;; pump_loop fuel i
  end.
Definition ssh_pump_output (i : nat) : M (worker C) unit :=
  n ← gets (fun s => length (g_ob (w_gl s)));
  pump_loop (S n) i.

(** The first loop of [ssh_net_broadcast], from slot [i] on, [n] slots to go:
    whether there is a ready slot, and the tightest bound. *)
Fixpoint scan_slots (n i : nat) (any : bool) (cap : Z) : M (worker C) (bool * Z) :=
  match n with
  | O => mret (any, cap)
  | S n =>
      act ← active i; con ← on_net (net_slot_connected (Z.of_nat i));
      if negb act || negb con then scan_slots n (S i) any cap
      else
        rdy ← on_ssh i ssh_channel_ready;
        if negb rdy then scan_slots n (S i) any cap
        else
          a ← on_ssh i ssh_channel_avail;
          room ← on_net (net_tx_room_slot (Z.of_nat i));
          let netcap := if decide (room > SSH_RING_RESERVE + 40) then room - SSH_RING_RESERVE - 40 else 0 in
          let a := if decide (netcap < a) then netcap else a in
          stalled ← (if decide (a = 0) then on_net (net_slot_stalled (Z.of_nat i)) else mret false);
          if (stalled : bool) then
            on_net (net_slot_drop (Z.of_nat i)) ;; set_active i false ;; scan_slots n (S i) true cap
          else scan_slots n (S i) true (if decide (a < cap) then a else cap)
  end.
(** [g_txplain], at most [n] bytes. *)
Fixpoint render_some (n : nat) : M (worker C) (list Z) :=
  match n with
  | O => mret []
  | S n =>
      b ← on_rend (fun e => render_next_byte e false);
      if decide (b < 0) then mret [] else rest ← render_some n; mret (u8 b :: rest)
  end.
(** The second loop: the same bytes for every ready slot. *)
Fixpoint emit_slots (n i : nat) (plain : list Z) : M (worker C) unit :=
  match n with
  | O => mret tt
  | S n =>
      act ← active i; con ← on_net (net_slot_connected (Z.of_nat i));
      if negb act || negb con then emit_slots n (S i) plain
      else
        rdy ← on_ssh i ssh_channel_ready;
        if negb rdy then emit_slots n (S i) plain
        else
          wire ← on_ssh i (ssh_channel_emit plain (SSH_CHAN_CHUNK + 40));
          put_all i wire ;; emit_slots n (S i) plain
  end.
(** The rounds of [ssh_net_broadcast]: each consumes at least one byte of the
    budget, so as many rounds as bytes are enough. *)
Fixpoint broadcast_loop (fuel : nat) (budget : Z) : M (worker C) unit :=
  match fuel with
  | O => mret tt
  | S fuel =>
      n ← slot_count;
      '(any, cap) ← scan_slots n 0 false SSH_CHAN_CHUNK;
      if negb any || bool_decide (cap = 0) then mret tt
      else
        let cap := if decide (cap > budget) then budget else cap in
        if decide (cap = 0) then mret tt
        else
          plain ← render_some (Z.to_nat cap);
          if decide (plain = []) then mret tt
          else
            emit_slots n 0 plain ;;
            let budget := u16 (budget - len plain) in
            if decide (budget = 0) then mret tt else broadcast_loop fuel budget
  end.
Definition ssh_net_broadcast : M (worker C) unit := broadcast_loop (Z.to_nat TX_BUDGET) TX_BUDGET.

(** ** The worker *)

(** [while( (i = net_take_new_slot()) >= 0 )]: every round clears the flag of a
    slot. *)
Definition begin_session (i : nat) : M (worker C) unit :=
  cfg ← gets w_cfg;
  on_ssh i (ssh_reset (w_hostkey_sk cfg) (w_hostkey_pk cfg)) ;;
  when (w_have_pw cfg) (on_ssh i (ssh_set_password (w_pw cfg))) ;;
  when (bool_decide (w_authkey_count cfg <> 0)) (on_ssh i (ssh_set_authorized_keys (w_authkeys cfg) (w_authkey_count cfg))) ;;
  set_active i true ;;
  set_ready_seen i false ;;
  modify (fun s => s <| w_cols := 80 |> <| w_rows := 25 |>) ;;
  ssh_pump_output i.
Fixpoint new_sessions (fuel : nat) : M (worker C) unit :=
  match fuel with
  | O => mret tt
  | S fuel =>
      i ← on_net net_take_new_slot;
      if decide (i >= 0) then begin_session (Z.to_nat i) ;; new_sessions fuel else mret tt
  end.

(** The bytes that arrived for slot [i], at most [n]; each stirs the pool. *)
Fixpoint read_some (n i : nat) : M (worker C) (list Z) :=
  match n with
  | O => mret []
  | S n =>
      b ← on_net (net_rx_getc (Z.of_nat i));
      if decide (b >= 0) then
        x ← next_stir; stir (Z.lxor b x) ;; rest ← read_some n i; mret (u8 b :: rest)
      else mret []
  end.

(** The keystrokes in the shared ring; it holds at most 255. *)
Fixpoint press_keys (fuel i : nat) : M (worker C) unit :=
  match fuel with
  | O => mret tt
  | S fuel =>
      b ← on_ssh i ssh_channel_getc;
      if decide (b >= 0) then
        cfg ← gets w_cfg;
        if w_eof cfg && bool_decide (b = 4) then
          on_ssh i ssh_channel_close ;; ssh_pump_output i ;; on_net net_tx_flush
        else key_in (u8 b) ;; press_keys fuel i
      else mret tt
  end.

Definition repaint : M (worker C) unit := on_rend render_reset.
Definition track_screen (i : nat) : M (worker C) unit :=
  seen ← ready_seen i;
  when (negb seen) (set_ready_seen i true ;; repaint) ;;
  '(cols, rows) ← on_ssh i ssh_winsize;
  c ← gets w_cols; r ← gets w_rows;
  when (bool_decide (cols <> c \/ rows <> r)) (modify (fun s => s <| w_cols := cols |> <| w_rows := rows |>) ;; repaint).

(** The body of the loop over the slots.  [fuel] bounds the packets of one call of
    [ssh_input]; a call that does not return within it has no outcome here. *)
Definition serve_slot (fuel i : nat) : M (worker C) unit :=
  act ← active i;
  if negb act then mret tt
  else
    con ← on_net (net_slot_connected (Z.of_nat i));
    if negb con then set_active i false
    else
      rb ← read_some 512 i;
      when (bool_decide (rb <> [])) (r ← on_ssh i (ssh_input fuel rb); match r with Some _ => mret tt | None => fun _ => None end) ;;
      ssh_pump_output i ;;
      press_keys 256 i ;;
      rdy ← on_ssh i ssh_channel_ready;
      when rdy (track_screen i) ;;
      closed ← on_ssh i ssh_channel_closed; failed ← on_ssh i ssh_failed; cst ← on_ssh i (cget state);
      when (closed || failed || bool_decide (cst = SSH_ST_CLOSED)) (
        ssh_pump_output i ;;
        on_ssh i ssh_discard_output ;;
        on_net (net_slot_drop (Z.of_nat i)) ;;
        set_active i false).
Fixpoint serve_slots (fuel n i : nat) : M (worker C) unit :=
  match n with O => mret tt | S n => serve_slot fuel i ;; serve_slots fuel n (S i) end.

Definition ssh_net_worker (fuel : nat) : M (worker C) unit :=
  on_net net_poll ;;
  n ← slot_count;
  new_sessions (S n) ;;
  serve_slots fuel n 0 ;;
  ssh_net_broadcast ;;
  on_net net_tx_flush ;;
  x ← next_stir;
  stir x.
End worker.
