(* ===== verification/WorkerProps.v ===== *)
(** * Properties of the SSH worker

    Who sees the screen and who presses keys, by relations that every operation of
    the worker of Worker.v respects, and the drain of the keystroke ring when it
    ends. *)
From Stdlib Require Import ZArith Lia.
From stdpp Require Import base list numbers.
From S2P Require Import Prelude Kbd Ansikey Sha256 SshWire Crypto SshConn SshKex SshAuth SshChan Ssh SshSafe.
From S2P Require Import Net NetInv NetProps Render TelnetProps Worker.
Local Open Scope Z_scope.

(** ** Reading and framing *)

Lemma respects_of_keeps {S T A} (f : S -> T) (R : S -> S -> Prop) (m : M S A) :
  (forall s s', f s' = f s -> R s s') -> keeps f m -> respects R m.
Proof. intros H Hm s. eapply wlp_mono; [apply Hm|]. cbn. eauto. Qed.

Section lift.
Context {C : Crypto}.
Implicit Types s : worker C.

(** What a call on the connection of slot [i] leaves. *)
Definition with_ssh (i : nat) (t : st C) s : worker C :=
  s <| ssh_slots := <[i := cn t]> (ssh_slots s) |> <| w_gl := gl t |> <| w_rg := rg t |>.
Definition ssh_view s (c : ssh_conn) : st C := St c (w_gl s) (w_rg s).

Lemma wlp_on_ssh {A} i (m : M (st C) A) Q s :
  (forall c, ssh_slots s !! i = Some c -> wlp m (fun a t => Q a (with_ssh i t s)) (ssh_view s c)) -> wlp (on_ssh i m) Q s.
Proof.
  intros H. unfold wlp, on_ssh. destruct (ssh_slots s !! i) as [c|] eqn:E; [|done]. specialize (H c eq_refl).
  unfold wlp, ssh_view in H. by destruct (m _) as [[a t]|].
Qed.
Lemma worker_on_net {A} (m : M net A) Q s : wlp m (fun a x => Q a (s <| w_net := x |>)) (w_net s) -> wlp (on_net m) Q s.
Proof. unfold wlp, on_net. by destruct (m (w_net s)) as [[a x]|]. Qed.
Lemma with_ssh_id i c s : ssh_slots s !! i = Some c -> with_ssh i (ssh_view s c) s = s.
Proof. intros E. unfold with_ssh, ssh_view. cbn [cn gl rg]. rewrite list_insert_id by done. by destruct s. Qed.
(** A read-only call. *)
Lemma on_ssh_read {A} i (m : M (st C) A) : keeps id m -> keeps id (on_ssh i m).
Proof.
  intros Hm s. apply wlp_on_ssh. intros c E. eapply wlp_mono; [apply Hm|]. cbn. intros a t ->. by rewrite with_ssh_id.
Qed.
Lemma on_net_read {A} (m : M net A) : keeps id m -> keeps id (on_net m).
Proof. intros Hm s. apply worker_on_net. eapply wlp_mono; [apply Hm|]. cbn. intros a x ->. by destruct s. Qed.
Lemma active_read i : keeps id (@active C i).
Proof. intros s. unfold wlp, active. by destruct (ssh_active s !! i). Qed.
Lemma keeps_id_ret {S A} (a : A) : keeps (@id S) (mret a).
Proof. done. Qed.
Lemma ready_read : keeps id (@ssh_channel_ready C).
Proof. unfold ssh_channel_ready, cget. keeps_tac. Qed.
Lemma avail_read : keeps id (@ssh_channel_avail C).
Proof. unfold ssh_channel_avail, ssh_channel_ready, cget. keeps_tac. Qed.
Lemma the_conn_read i : keeps id (the_conn i).
Proof. intros s. unfold wlp, the_conn. by destruct (conns s !! i). Qed.
Lemma net_read_slot i : keeps id (net_slot_connected i) /\ keeps id (net_tx_room_slot i) /\ keeps id (net_slot_stalled i).
Proof.
  unfold net_slot_connected, net_tx_room_slot, net_slot_stalled, in_slots.
  split_and!; repeat first [apply the_conn_read|keeps_step].
Qed.
End lift.

(** ** The screen *)

Section screen.
Context {C : Crypto} (i : nat).
Implicit Types s : worker C.

(** The channel interface is open. *)
Definition channel_up (c : ssh_conn) : bool := chan_open c && shell_ready c && negb (chan_closed c).
Definition blocked s : Prop := match ssh_slots s !! i with Some c => channel_up c = false | None => True end.
(** Slot [i] of the worker. *)
Definition slot_of s : option conn * option ssh_conn * option bool :=
  (conns (w_net s) !! i, ssh_slots s !! i, ssh_active s !! i).

Definition apart s s' : Prop := blocked s -> slot_of s' = slot_of s.
#[local] Instance apart_preorder : PreOrder apart.
Proof.
  split; [by intros s _|]. intros s1 s2 s3 H1 H2 B. specialize (H1 B).
  assert (blocked s2) as B2 by (unfold blocked in *; injection H1 as _ -> _; done). rewrite (H2 B2). done.
Qed.
Lemma apart_read {A} (m : M (worker C) A) : keeps id m -> respects apart m.
Proof. apply respects_of_keeps. intros s s' E _. unfold id in E. by rewrite E. Qed.
Lemma apart_keeps {A} (m : M (worker C) A) : keeps slot_of m -> respects apart m.
Proof. apply respects_of_keeps. by intros s s' E _. Qed.

Lemma on_net_slot {A} (m : M net A) : keeps (fun x => conns x !! i) m -> keeps slot_of (on_net m).
Proof. intros Hm s. apply worker_on_net. eapply wlp_mono; [apply Hm|]. cbn. intros a x E. unfold slot_of. fld. by rewrite E. Qed.
Lemma on_ssh_slot {A} j (m : M (st C) A) : j <> i -> keeps slot_of (on_ssh j m).
Proof.
  intros Hj s. apply wlp_on_ssh. intros c _. apply wlp_true. intros a t. unfold slot_of, with_ssh. fld. by rewrite list_lookup_insert_ne.
Qed.
Lemma on_rend_slot {A} (m : machine -> M rend A) : keeps slot_of (on_rend m).
Proof. intros s. unfold wlp, on_rend. by destruct (m _ _) as [[a r]|]. Qed.
Lemma put_all_slot j bs : j <> i -> keeps slot_of (@put_all C j bs).
Proof.
  intros Hj. induction bs as [|b bs IH]; cbn [put_all]; [done|]. apply keeps_bind; [|intros _; exact IH].
  apply on_net_slot. by apply net_calls_apart.
Qed.

(** The guard of both loops. *)
Lemma wlp_ready {B} j (k : bool -> M (worker C) B) Q s :
  (forall c, ssh_slots s !! j = Some c -> wlp (k (channel_up c)) Q s) -> wlp (on_ssh j ssh_channel_ready ≫= k) Q s.
Proof.
  intros H. unfold wlp, mbind, M_bind, on_ssh. destruct (ssh_slots s !! j) as [c|] eqn:E; [|done]. specialize (H c eq_refl).
  unfold ssh_channel_ready, mbind, M_bind, cget, gets, mret, M_ret. cbn [cn gl rg].
  assert (s <| ssh_slots := <[j := c]> (ssh_slots s) |> <| w_gl := w_gl s |> <| w_rg := w_rg s |> = s) as ->; [|exact H].
  rewrite list_insert_id by done. by destruct s.
Qed.
Lemma guarded {A} j (skip_ run_ : M (worker C) A) :
  respects apart skip_ -> (j <> i -> respects apart run_) ->
  respects apart (rdy ← on_ssh j ssh_channel_ready; if negb rdy then skip_ else run_).
Proof.
  intros Hs Hr s. apply wlp_ready. intros c E. destruct (channel_up c) eqn:Ec; cbn [negb]; [|apply Hs].
  destruct (decide (j = i)) as [->|Hj]; [|by apply Hr]. apply wlp_true. intros _ s' B. unfold blocked in B. rewrite E in B. congruence.
Qed.

Ltac apart_step :=
  lazymatch goal with
  | |- respects _ (mbind _ _) => apply respects_bind; [exact _| |intros ?]
  | |- respects _ (if ?b then _ else _) => destruct b
  | |- respects _ (match ?x with _ => _ end) => destruct x
  | |- respects _ (mret _) => apply respects_ret; exact _
  | |- respects _ (on_net (net_slot_connected _)) => apply apart_read, on_net_read, net_read_slot
  | |- respects _ (on_net (net_tx_room_slot _)) => apply apart_read, on_net_read, net_read_slot
  | |- respects _ (on_net (net_slot_stalled _)) => apply apart_read, on_net_read, net_read_slot
  | |- respects _ (active _) => apply apart_read, active_read
  | |- respects _ (on_ssh _ _) => apply apart_keeps, on_ssh_slot; assumption
  | |- respects _ (on_net (net_slot_drop _)) => apply apart_keeps, on_net_slot; apply (net_calls_apart _ _ 0); assumption
  | |- respects _ (put_all _ _) => apply apart_keeps, put_all_slot; assumption
  | |- respects _ (on_rend _) => apply apart_keeps, on_rend_slot
  | |- respects _ slot_count => apply respects_gets; exact _
  end.
Lemma set_active_slot j b : j <> i -> keeps slot_of (@set_active C j b).
Proof. intros Hj s. apply wlp_modify. unfold slot_of. fld. by rewrite list_lookup_insert_ne. Qed.

Lemma scan_apart n : forall j any cap, respects apart (@scan_slots C n j any cap).
Proof.
  induction n as [|n IH]; intros j any cap; cbn [scan_slots]; [apart_step|]. do 2 (apart_step; [apart_step|]). apart_step; [apply IH|].
  apply guarded; [apply IH|intros Hj]. repeat first [apply IH|apply apart_keeps, set_active_slot; exact Hj|apart_step].
Qed.
Lemma emit_apart plain n : forall j, respects apart (@emit_slots C n j plain).
Proof.
  induction n as [|n IH]; intros j; cbn [emit_slots]; [apart_step|]. do 2 (apart_step; [apart_step|]). apart_step; [apply IH|].
  apply guarded; [apply IH|intros Hj]. repeat first [apply IH|apart_step].
Qed.
Lemma render_apart n : respects apart (@render_some C n).
Proof. induction n as [|n IH]; cbn [render_some]; repeat first [exact IH|apart_step]. Qed.
Lemma broadcast_apart : respects apart (@ssh_net_broadcast C).
Proof.
  unfold ssh_net_broadcast. generalize TX_BUDGET at 2. generalize (Z.to_nat TX_BUDGET). intros fuel.
  induction fuel as [|fuel IH]; intros budget; cbn [broadcast_loop].
  - apart_step.
  - repeat first [apply scan_apart|apply render_apart|apply emit_apart|apply IH|apart_step].
Qed.
End screen.

(** A slot that is not authenticated is left alone. *)
Lemma unauthenticated_apart {C : Crypto} i c (s : worker C) :
  ssh_slots s !! i = Some c -> gate c -> authenticated c = false ->
  wlp ssh_net_broadcast (fun _ s' => conns (w_net s') !! i = conns (w_net s) !! i /\ ssh_slots s' !! i = Some c
                                     /\ ssh_active s' !! i = ssh_active s !! i) s.
Proof.
  intros E G A. eapply wlp_mono; [apply (broadcast_apart i)|]. cbn beta. intros _ s' H.
  assert (blocked i s) as B.
  { unfold blocked. rewrite E. unfold channel_up. destruct (chan_open c) eqn:Eo; [|done].
    rewrite (gt_chan _ G) in A by auto. done. }
  specialize (H B). unfold slot_of in H. injection H as -> -> ->. by rewrite E.
Qed.

(** ** The keyboard *)

(** What holds of the statics of ssh.c, of a live connection and of the
    configuration. *)
Record glob_ok (g : ssh_glob) : Prop := {
  go_ob : len (g_ob g) <= SSH_OB_SZ;
  go_cin : cin_wf g;
  go_count : 0 <= g_authkey_count g < 2048;
  go_keys : 32 * g_authkey_count g <= len (g_authkeys g)
}.
Record live (c : ssh_conn) : Prop := {
  lv_ib : len (ib c) = SSH_IB_SZ;
  lv_bytes : all_bytes (ib c);
  lv_len : 0 <= ib_len c <= SSH_IB_SZ;
  lv_sid : len (session_id c) = 32;
  lv_gate : gate c
}.
Lemma wf_parts {C : Crypto} (t : st C) : ssh_wf t /\ gate (cn t) <-> live (cn t) /\ glob_ok (gl t).
Proof.
  split.
  - intros [[] G]. split; by constructor.
  - intros [[] []]. split; [|done]. by constructor.
Qed.

Section keyboard.
Context {C : Crypto} {OK : CryptoOk C}.
Implicit Types s : worker C.

Record worker_ok s : Prop := {
  wk_glob : glob_ok (w_gl s);
  wk_live : forall j c, ssh_active s !! j = Some true -> ssh_slots s !! j = Some c -> live c;
  wk_cfg : 0 <= w_authkey_count (w_cfg s) < 2048 /\ 32 * w_authkey_count (w_cfg s) <= len (w_authkeys (w_cfg s))
}.
Definition machine_of s : ansikey * mem * bool := (w_keys s, w_kbd s, w_reboot s).
(** A slot with a session in [s0] is authenticated in [s]. *)
Definition serving s0 s : Prop := exists j c, ssh_active s0 !! j = Some true /\ ssh_slots s !! j = Some c /\ authenticated c = true.
Definition ring_empty s : Prop := g_cin_head (w_gl s) = g_cin_tail (w_gl s).
(** No connection loses its authentication. *)
Definition keeps_auth s s' : Prop :=
  forall j c, ssh_slots s !! j = Some c -> exists c', ssh_slots s' !! j = Some c' /\ (authenticated c = true -> authenticated c' = true).
#[export] Instance keeps_auth_preorder : PreOrder keeps_auth.
Proof.
  split; [intros s j c E; eauto|]. intros s1 s2 s3 H1 H2 j c E. destruct (H1 j c E) as (c2 & E2 & A2).
  destruct (H2 j c2 E2) as (c3 & E3 & A3). eauto.
Qed.
Lemma serving_kept s0 s s' : keeps_auth s s' -> serving s0 s -> serving s0 s'.
Proof. intros K (j & c & Ea & E & A). destruct (K j c E) as (c' & E' & A'). exists j, c'. auto. Qed.
(** Nobody becomes authenticated, and no session starts. *)
Definition no_grant s s' : Prop :=
  forall j c, ssh_slots s !! j = Some c -> authenticated c = false -> exists c', ssh_slots s' !! j = Some c' /\ authenticated c' = false.
Definition no_session s s' : Prop := forall j, ssh_active s' !! j = Some true -> ssh_active s !! j = Some true.
#[export] Instance no_grant_preorder : PreOrder no_grant.
Proof.
  split; [intros s j c E A; eauto|]. intros s1 s2 s3 H1 H2 j c E A. destruct (H1 j c E A) as (c2 & E2 & A2). by apply (H2 j c2).
Qed.
#[export] Instance no_session_preorder : PreOrder no_session.
Proof. split; [by intros s j|]. intros s1 s2 s3 H1 H2 j E. auto. Qed.

(** Operations that press no key and take none. *)
Record calm s s' : Prop := {
  cl_ok : worker_ok s -> worker_ok s';
  cl_auth : keeps_auth s s';
  cl_cfg : w_cfg s' = w_cfg s;
  cl_machine : machine_of s' = machine_of s;
  cl_ring : keystrokes (w_gl s') = keystrokes (w_gl s);
  cl_grant : no_grant s s';
  cl_session : no_session s s'
}.
#[export] Instance calm_preorder : PreOrder calm.
Proof.
  split; [intros s; constructor; (done || reflexivity)|]. intros s1 s2 s3 [] [].
  constructor; [auto|by etrans|congruence..|by etrans|by etrans].
Qed.
Lemma calm_ring s s' : calm s s' -> ring_empty s -> ring_empty s'.
Proof. intros K E. pose proof (cl_ring _ _ K) as R. unfold keystrokes in R. unfold ring_empty in *. congruence. Qed.

(** A change of anything but the connections, the statics, the activity, the
    configuration and the machine. *)
Lemma calm_same s s' :
  ssh_slots s' = ssh_slots s -> ssh_active s' = ssh_active s -> w_gl s' = w_gl s -> w_cfg s' = w_cfg s -> machine_of s' = machine_of s -> calm s s'.
Proof.
  intros E1 E2 E3 E4 E5. constructor; [|intros j c E; exists c; by rewrite E1|done|done|by rewrite E3|intros j c E A; exists c; by rewrite E1|intros j; by rewrite E2].
  intros [G L Cf]. constructor; [by rewrite E3|by rewrite E1, E2|by rewrite E4].
Qed.
Lemma calm_net {A} (m : M net A) : respects calm (on_net m).
Proof. intros s. apply worker_on_net, wlp_true. intros _ x. by apply calm_same. Qed.
Lemma calm_rend {A} (m : machine -> M rend A) : respects calm (on_rend m).
Proof. intros s. unfold wlp, on_rend. destruct (m _ _) as [[a r]|]; [|done]. by apply calm_same. Qed.
Lemma calm_read {A} (m : M (worker C) A) : keeps id m -> respects calm m.
Proof. apply respects_of_keeps. intros s s' E. unfold id in E. rewrite E. reflexivity. Qed.
Lemma calm_stop i : respects calm (@set_active C i false).
Proof.
  intros s. apply wlp_modify.
  assert (no_session s (s <| ssh_active := <[i := false]> (ssh_active s) |>)) as N.
  { intros j Ea. fld. destruct (decide (i = j)) as [->|Hn]; [|by rewrite list_lookup_insert_ne in Ea by done].
    destruct (ssh_active s !! j) eqn:Ej; [by rewrite list_lookup_insert_eq in Ea by (by eapply lookup_lt_Some)|].
    rewrite list_insert_ge in Ea by (by apply lookup_ge_None). congruence. }
  constructor; [|intros j c E; exists c; done|done..|intros j c E A; exists c; done|exact N].
  intros [G L Cf]. constructor; [done| |done]. intros j c Ea E. apply (L j); [by apply N|done].
Qed.

(** Operations on a connection that leave its keystrokes and channel alone. *)
Lemma with_ssh_auth i t s c : ssh_slots s !! i = Some c -> (authenticated c = true -> authenticated (cn t) = true) -> keeps_auth s (with_ssh i t s).
Proof.
  intros E Ha j c' E'. unfold with_ssh. fld. destruct (decide (i = j)) as [->|Hn].
  - rewrite list_lookup_insert_eq by (by eapply lookup_lt_Some). exists (cn t). split; [done|]. assert (c' = c) as -> by congruence. exact Ha.
  - rewrite list_lookup_insert_ne by done. eauto.
Qed.
Lemma with_ssh_ok i t s : worker_ok s -> glob_ok (gl t) -> (ssh_active s !! i = Some true -> live (cn t)) -> worker_ok (with_ssh i t s).
Proof.
  intros [G L Cf] Gt Lt. unfold with_ssh. constructor; fld; [done| |done]. intros j c Ea E. destruct (decide (i = j)) as [->|Hn].
  - destruct (ssh_slots s !! j) as [c0|] eqn:Ej.
    + rewrite list_lookup_insert_eq in E by (by eapply lookup_lt_Some). injection E as <-. auto.
    + rewrite list_insert_ge in E by (by apply lookup_ge_None). congruence.
  - rewrite list_lookup_insert_ne in E by done. by eapply L.
Qed.
Lemma sized_glob (t t' : st C) : sized t t' -> glob_ok (gl t) -> glob_ok (gl t').
Proof.
  intros Z [G1 G2 G3 G4]. pose proof (sz_config _ _ Z) as E. unfold config in E. injection E as _ _ _ _ E1 E2.
  constructor; [by apply Z|by apply Z|congruence|congruence].
Qed.
Lemma sized_live (t t' : st C) : sized t t' -> framed t t' -> chan_fields (cn t') = chan_fields (cn t) -> live (cn t) -> live (cn t').
Proof.
  intros Z F U [L1 L2 L3 L4 G]. pose proof (sz_ib _ _ Z) as E1. pose proof (sz_ib_len _ _ Z) as E2.
  constructor; [congruence|by rewrite E1|by rewrite E2|by apply Z|]. apply (framed_gate t); auto.
Qed.
Lemma framed_auth (t t' : st C) : framed t t' -> authenticated (cn t') = authenticated (cn t).
Proof. intros F. pose proof (fr_gate _ _ F) as E. by injection E. Qed.
Lemma quiet_step_ok i (t : st C) s c :
  ssh_slots s !! i = Some c -> sized (ssh_view s c) t -> framed (ssh_view s c) t -> chan_fields (cn t) = chan_fields c ->
  (worker_ok s -> worker_ok (with_ssh i t s)) /\ keeps_auth s (with_ssh i t s).
Proof.
  intros E Z F U. split.
  - intros W. apply with_ssh_ok; [done|apply (sized_glob (ssh_view s c)); [done|exact (wk_glob _ W)]|]. intros Ea.
    apply (sized_live (ssh_view s c)); [done|done|done|]. by apply (wk_live _ W i).
  - apply (with_ssh_auth i t s c E). intros A. by rewrite (framed_auth _ _ F).
Qed.
Lemma framed_grant i (t : st C) s c : ssh_slots s !! i = Some c -> framed (ssh_view s c) t -> no_grant s (with_ssh i t s).
Proof.
  intros E F j c' E' A. unfold with_ssh. fld. destruct (decide (i = j)) as [->|Hn].
  - rewrite list_lookup_insert_eq by (by eapply lookup_lt_Some). exists (cn t). split; [done|]. assert (c' = c) as -> by congruence. by rewrite (framed_auth _ _ F).
  - rewrite list_lookup_insert_ne by done. eauto.
Qed.
Lemma calm_ssh {A} i (m : M (st C) A) :
  respects sized m -> respects framed m -> respects unchanneled m -> respects calm (on_ssh i m).
Proof.
  intros Z F U s. apply wlp_on_ssh. intros c E. specialize (Z (ssh_view s c)). specialize (F (ssh_view s c)). specialize (U (ssh_view s c)).
  unfold wlp in *. destruct (m (ssh_view s c)) as [[a t]|]; [|done]. destruct U as [U1 U2].
  destruct (quiet_step_ok i t s c E Z F U1) as [H1 H2]. pose proof (framed_grant i t s c E F). constructor; try done. by intros j.
Qed.
Lemma calm_read_ssh {A} i (m : M (st C) A) : keeps id m -> respects calm (on_ssh i m).
Proof. intros Hm. by apply calm_read, on_ssh_read. Qed.
Lemma output_calm i n : respects calm (on_ssh i (ssh_output n)).
Proof. apply calm_ssh; [apply output_sized|unfold ssh_output, gget; frame_tac..]. Qed.
Lemma discard_calm i : respects calm (on_ssh i ssh_discard_output).
Proof. apply calm_ssh; [apply discard_sized|unfold ssh_discard_output; frame_tac..]. Qed.
Lemma emit_calm i d n : respects calm (on_ssh i (ssh_channel_emit d n)).
Proof. apply calm_ssh; [apply emit_sized|apply emit_framed|apply emit_unchanneled]. Qed.
Lemma winsize_read : keeps id (@ssh_winsize C).
Proof. unfold ssh_winsize, cget. keeps_tac. Qed.

Ltac calm_step :=
  lazymatch goal with
  | |- respects _ (mbind _ _) => apply respects_bind; [exact _| |intros ?]
  | |- respects _ (when _ _) => apply respects_when; [exact _|]
  | |- respects _ (if ?b then _ else _) => destruct b
  | |- respects _ (match ?x with _ => _ end) => destruct x
  | |- respects _ (mret _) => apply respects_ret; exact _
  | |- respects _ (gets _) => apply respects_gets; exact _
  | |- respects _ slot_count => apply respects_gets; exact _
  | |- respects _ (modify _) => apply respects_modify; intros ?; by apply calm_same
  | |- respects _ (on_net _) => apply calm_net
  | |- respects _ (on_rend _) => apply calm_rend
  | |- respects _ (active _) => apply calm_read, active_read
  | |- respects _ (set_active _ false) => apply calm_stop
  | |- respects _ (set_ready_seen _ _) => apply respects_modify; intros ?; by apply calm_same
  | |- respects _ (on_ssh _ ssh_channel_ready) => apply calm_read_ssh, ready_read
  | |- respects _ (on_ssh _ ssh_channel_avail) => apply calm_read_ssh, avail_read
  | |- respects _ (on_ssh _ ssh_winsize) => apply calm_read_ssh, winsize_read
  | |- respects _ (on_ssh _ (ssh_output _)) => apply output_calm
  | |- respects _ (on_ssh _ ssh_discard_output) => apply discard_calm
  | |- respects _ (on_ssh _ (ssh_channel_emit _ _)) => apply emit_calm
  end.
Lemma put_all_calm i bs : respects calm (@put_all C i bs).
Proof. induction bs as [|b bs IH]; cbn [put_all]; repeat first [exact IH|calm_step]. Qed.
Lemma pump_calm i : respects calm (@ssh_pump_output C i).
Proof.
  unfold ssh_pump_output. calm_step; [calm_step|]. generalize (S a). intros fuel.
  induction fuel as [|fuel IH]; cbn [pump_loop]; repeat first [exact IH|apply put_all_calm|calm_step].
Qed.
Lemma read_calm n i : respects calm (@read_some C n i).
Proof. induction n as [|n IH]; cbn [read_some]; unfold next_stir, stir; repeat first [exact IH|calm_step]. Qed.
Lemma scan_calm n : forall j any cap, respects calm (@scan_slots C n j any cap).
Proof. induction n as [|n IH]; intros j any cap; cbn [scan_slots]; repeat first [apply IH|calm_step]. Qed.
Lemma emit_slots_calm plain n : forall j, respects calm (@emit_slots C n j plain).
Proof. induction n as [|n IH]; intros j; cbn [emit_slots]; repeat first [apply IH|apply put_all_calm|calm_step]. Qed.
Lemma render_calm n : respects calm (@render_some C n).
Proof. induction n as [|n IH]; cbn [render_some]; repeat first [exact IH|calm_step]. Qed.
Lemma broadcast_calm : respects calm (@ssh_net_broadcast C).
Proof.
  unfold ssh_net_broadcast. generalize TX_BUDGET at 2. generalize (Z.to_nat TX_BUDGET). intros fuel.
  induction fuel as [|fuel IH]; intros budget; cbn [broadcast_loop];
    repeat first [apply scan_calm|apply render_calm|apply emit_slots_calm|apply IH|calm_step].
Qed.
Lemma track_calm i : respects calm (@track_screen C i).
Proof.
  unfold track_screen, repaint. repeat calm_step. intros s. unfold wlp, ready_seen. destruct (ssh_ready_seen s !! i); [reflexivity|done].
Qed.

(** Input: the connection stays sound, authentication is kept, and keys arrive
    only on an authenticated connection. *)
Record fed (t t' : st C) : Prop := {
  fd_wf : ssh_wf t'; fd_gate : gate (cn t');
  fd_mono : authenticated (cn t) = true -> authenticated (cn t') = true;
  fd_keys : authenticated (cn t') = false -> keystrokes (gl t') = keystrokes (gl t)
}.
Lemma fed_trans t1 t2 t3 : fed t1 t2 -> fed t2 t3 -> fed t1 t3.
Proof.
  intros [] [W3 G3 M3 K3]. constructor; [done|done|auto|]. intros A3. rewrite (K3 A3).
  destruct (authenticated (cn t2)) eqn:A2; [by rewrite M3 in A3|auto].
Qed.
Lemma loop_fed fuel : forall t, ssh_wf t -> gate (cn t) -> wlp (input_loop fuel) (fun _ t' => fed t t') t.
Proof.
  induction fuel as [|fuel IH]; intros t W G; cbn [input_loop]; [by apply wlp_ret|]. apply wlp_bind. eapply wlp_mono; [by apply input_step_round|].
  cbn beta. intros go t' R.
  assert (fed t t') as F.
  { destruct R. constructor; [done|done|done|]. intros A'. destruct (authenticated (cn t)); [by rewrite ro_mono in A'|auto]. }
  destruct go; [|by apply wlp_ret]. eapply wlp_mono; [apply IH; apply F|]. cbn beta. intros _ t'' F'. by eapply fed_trans.
Qed.
Lemma input_fed fuel d t : all_bytes d -> ssh_wf t -> gate (cn t) -> wlp (ssh_input fuel d) (fun _ t' => fed t t') t.
Proof.
  intros Hd W G. unfold ssh_input. apply wlp_bind, wlp_gets. case_decide; [by apply wlp_ret|]. apply wlp_bind, wlp_gets. case_decide.
  { apply wlp_bind. eapply wlp_mono.
    { pose proof (fail_round (fun _ => True) "input overflow" t W G) as R. exact R. }
    cbn beta. intros _ t' R. apply wlp_ret. destruct R. constructor; [done|done|done|]. intros A'.
    destruct (authenticated (cn t)); [by rewrite ro_mono in A'|auto]. }
  apply wlp_bind, wlp_gets, wlp_bind, wlp_lift. intros b E. apply rd_bytes_Some in E as (_ & _ & E & _).
  apply wlp_bind, wlp_modify, wlp_bind, wlp_modify.
  match goal with |- wlp _ _ ?x => change x with (received d t) end.
  apply wlp_bind. eapply wlp_mono; [apply loop_fed; [by apply received_wf|by apply received_gate]|]. cbn beta. intros ended t' F.
  apply wlp_bind, wlp_gets, wlp_ret. destruct F as [F1 F2 F3 F4]. by constructor.
Qed.

(** The keys that reach the machine, and those left in the ring, when Ctrl-D closes
    the session. *)
Fixpoint till_eof (l : list Z) : list Z := match l with [] => [] | b :: l => if decide (u8 b = 4) then [] else b :: till_eof l end.
Fixpoint past_eof (l : list Z) : list Z := match l with [] => [] | b :: l => if decide (u8 b = 4) then l else past_eof l end.
Definition input_event (x : mem * bool) (e : kev) : mem * bool :=
  match e with Inject sc a => (inject_key sc a x.1, x.2) | Reboot => (x.1, true) end.
Definition press (x : ansikey * mem * bool) (b : Z) : ansikey * mem * bool :=
  let '(k, m, r) := x in let '(ev, k) := ansi_key_byte (u8 b) k in let '(m, r) := foldl input_event (m, r) ev in (k, m, r).

Lemma press_u8 x b : press x (u8 b) = press x b.
Proof. unfold press. by rewrite (u8_id (u8 b)) by apply u8_byte. Qed.
Lemma getc_calm i s c : ssh_slots s !! i = Some c -> cin_wf (w_gl s) ->
  wlp (on_ssh i ssh_channel_getc) (fun b s' =>
    (worker_ok s -> worker_ok s') /\ keeps_auth s s' /\ w_cfg s' = w_cfg s /\ machine_of s' = machine_of s /\ cin_wf (w_gl s')
    /\ ssh_slots s' !! i = Some c /\ ssh_active s' = ssh_active s
    /\ match cin_queue (w_gl s) with [] => b = -1 /\ s' = s | k :: q => b = u8 k /\ cin_queue (w_gl s') = q end) s.
Proof.
  intros E Wc. apply wlp_on_ssh. intros c' E'. assert (c' = c) as -> by congruence.
  pose proof (channel_getc_spec (ssh_view s c) Wc) as H. apply wp_wlp in H.
  pose proof (getc_sized (ssh_view s c)) as Z. pose proof (getc_framed (ssh_view s c)) as F. unfold wlp in *.
  destruct (ssh_channel_getc (ssh_view s c)) as [[b t]|]; [|done]. destruct H as (H1 & H2 & H3). cbn [ssh_view cn gl] in H2, H3.
  destruct (quiet_step_ok i t s c E Z F) as [K1 K2]; [by rewrite H2|]. split_and!; [done|done|done|done|done| |done|].
  - unfold with_ssh. fld. rewrite H2. rewrite list_lookup_insert_eq by (by eapply lookup_lt_Some). done.
  - destruct (cin_queue (w_gl s)) as [|k q]; [|done]. destruct H3 as [-> H3]. split; [done|]. rewrite H3. by apply with_ssh_id.
Qed.
Lemma key_in_machine b s : wlp (key_in (u8 b)) (fun _ s' =>
  ssh_slots s' = ssh_slots s /\ ssh_active s' = ssh_active s /\ w_gl s' = w_gl s /\ w_cfg s' = w_cfg s /\ machine_of s' = press (machine_of s) b) s.
Proof.
  apply wlp_modify. unfold press, machine_of. destruct (ansi_key_byte (u8 b) (w_keys s)) as [ev k].
  set (s1 := s <| w_keys := k |>).
  assert (forall ev s, let s' := foldl key_event s ev in ssh_slots s' = ssh_slots s /\ ssh_active s' = ssh_active s /\ w_gl s' = w_gl s
    /\ w_cfg s' = w_cfg s /\ w_keys s' = w_keys s /\ foldl input_event (w_kbd s, w_reboot s) ev = (w_kbd s', w_reboot s')) as H.
  { clear. induction ev as [|e ev IH]; intros s; cbn [foldl]; [done|]. destruct (IH (key_event s e)) as (H1 & H2 & H3 & H4 & H5 & H6).
    rewrite H1, H2, H3, H4, H5. split_and!; by destruct e. }
  destruct (H ev s1) as (H1 & H2 & H3 & H4 & H5 & H6). change (w_kbd s1) with (w_kbd s) in H6. change (w_reboot s1) with (w_reboot s) in H6.
  rewrite H6. split_and!; [done..|]. by rewrite H5.
Qed.

Lemma close_calm i : respects calm (on_ssh i ssh_channel_close).
Proof. apply calm_ssh; [apply close_sized|apply close_framed|apply close_unchanneled]. Qed.
Lemma queue_of g g' : keystrokes g' = keystrokes g -> cin_queue g' = cin_queue g.
Proof. unfold keystrokes. intros E. injection E as E1 E2 E3. unfold cin_queue, cin_count, cin_at. by rewrite E1, E2, E3. Qed.
Lemma keystrokes_wf g g' : keystrokes g' = keystrokes g -> cin_wf g -> cin_wf g'.
Proof. unfold keystrokes. intros E []. injection E as E1 E2 E3. by constructor; rewrite ?E1, ?E2, ?E3. Qed.
Lemma queue_length g : length (cin_queue g) = cin_count g.
Proof. apply ring_list_length. Qed.

Definition pressed (eof : bool) (q : list Z) : list Z := if eof then till_eof q else q.
Definition left_over (eof : bool) (q : list Z) : list Z := if eof then past_eof q else [].
Record drained s s' : Prop := {
  dr_ok : worker_ok s -> worker_ok s';
  dr_auth : keeps_auth s s';
  dr_cfg : w_cfg s' = w_cfg s;
  dr_session : no_session s s';
  dr_machine : machine_of s' = foldl press (machine_of s) (pressed (w_eof (w_cfg s)) (cin_queue (w_gl s)));
  dr_wf : cin_wf (w_gl s');
  dr_queue : cin_queue (w_gl s') = left_over (w_eof (w_cfg s)) (cin_queue (w_gl s))
}.
Lemma press_spec fuel i : forall s c, ssh_slots s !! i = Some c -> cin_wf (w_gl s) -> (length (cin_queue (w_gl s)) < fuel)%nat ->
  wlp (press_keys fuel i) (fun _ s' => drained s s') s.
Proof.
  induction fuel as [|fuel IH]; intros s c E Wc Hf; [lia|]. cbn [press_keys]. apply wlp_bind.
  eapply wlp_mono; [by apply (getc_calm i s c)|]. cbn beta. intros b s1 (H1 & H2 & H3 & H4 & H5 & H6 & Ha & H7).
  destruct (cin_queue (w_gl s)) as [|k q] eqn:Eq.
  { destruct H7 as [-> ->]. rewrite decide_False by lia. apply wlp_ret. constructor; try done; rewrite ?Eq; by destruct (w_eof _). }
  destruct H7 as [-> H7]. pose proof (u8_byte k) as Bk. unfold is_byte in Bk. rewrite decide_True by lia. apply wlp_bind, wlp_gets.
  destruct (w_eof (w_cfg s1) && bool_decide (u8 k = 4)) eqn:Ee.
  - apply andb_true_iff in Ee as [Ee E4%bool_decide_eq_true_1].
    assert (respects calm (on_ssh i ssh_channel_close ;; ssh_pump_output i ;; on_net net_tx_flush)) as R
      by (repeat first [apply close_calm|apply pump_calm|calm_step]).
    eapply wlp_mono; [apply R|]. cbn beta. intros _ s2 [K1 K2 K3 K4 K5 _ K6].
    constructor; [auto|by etrans|congruence|intros j; rewrite <- Ha; apply K6| |by eapply keystrokes_wf|]; rewrite Eq, <- H3, Ee; cbn [pressed left_over till_eof past_eof];
      rewrite decide_True by done; [by rewrite K4, H4|by rewrite (queue_of _ _ K5)].
  - apply wlp_bind. eapply wlp_mono; [apply key_in_machine|]. cbn beta. intros _ s2 (K1 & K2 & K3 & K4 & K5).
    eapply wlp_mono; [apply (IH s2 c); [by rewrite K1|by rewrite K3|rewrite K3, H7; cbn [length] in Hf; lia]|].
    cbn beta. intros _ s3 [D1 D2 D3 Ds D4 D5 D6].
    constructor; [| |congruence|intros j; rewrite <- Ha, <- K2; apply Ds| |done|].
    + intros W. apply D1. destruct (H1 W) as [G L Cf]. constructor; [by rewrite K3|by rewrite K1, K2|by rewrite K4].
    + etrans; [done|]. etrans; [|exact D2]. intros j c0 E0. exists c0. by rewrite K1.
    + rewrite D4, K5, press_u8, K4, K3, H3, H4, H7, Eq. unfold pressed. rewrite H3 in Ee. destruct (w_eof (w_cfg s)); [|done]. cbn [till_eof].
      cbn [andb] in Ee. apply bool_decide_eq_false in Ee. by rewrite decide_False.
    + rewrite D6, K4, K3, H3, H7, Eq. unfold left_over. rewrite H3 in Ee. destruct (w_eof (w_cfg s)); [|done]. cbn [past_eof].
      cbn [andb] in Ee. apply bool_decide_eq_false in Ee. by rewrite decide_False.
Qed.

Lemma empty_queue g : cin_wf g -> cin_queue g = [] <-> g_cin_head g = g_cin_tail g.
Proof.
  intros [_ H1 H2]. rewrite <- length_zero_iff_nil, queue_length. unfold cin_count, SSH_CIN_SZ.
  split; intros E; [Z.div_mod_to_equations; lia|by rewrite E, Z.sub_diag].
Qed.

Lemma bind_calm {A B} (m : M (worker C) A) (k : A -> M (worker C) B) Q s :
  respects calm m -> (forall a s1, calm s s1 -> wlp (k a) Q s1) -> wlp (m ≫= k) Q s.
Proof. intros Hm Hk. apply wlp_bind. eapply wlp_mono; [apply Hm|]. cbn beta. auto. Qed.

(** While the slots are served, from [s0] on: the machine has changed and keystrokes
    wait in the shared ring only if a session is authenticated. *)
Record armed s0 s : Prop := {
  ar_ok : worker_ok s;
  ar_auth : keeps_auth s0 s;
  ar_session : no_session s0 s;
  ar_cfg : w_cfg s = w_cfg s0;
  ar_machine : machine_of s = machine_of s0 \/ serving s0 s;
  ar_ring : ring_empty s \/ serving s0 s
}.
(** Between two slots; unless Ctrl-D ends a session, the ring is empty there. *)
Record served s0 s : Prop := {
  sv_armed : armed s0 s;
  sv_ring : w_eof (w_cfg s0) = false -> ring_empty s
}.
Lemma served_refl s : worker_ok s -> ring_empty s -> served s s.
Proof. intros W R. constructor; [|done]. by constructor; [|reflexivity|reflexivity|..|left|left]. Qed.
Lemma armed_calm s0 s s' : armed s0 s -> calm s s' -> armed s0 s'.
Proof.
  intros [W K N Cf M R] K2. pose proof (fun S => serving_kept s0 s s' (cl_auth _ _ K2) S) as S.
  constructor; [by apply K2|etrans; [done|apply K2]|etrans; [done|apply K2]|rewrite (cl_cfg _ _ K2); done|rewrite (cl_machine _ _ K2); tauto|].
  destruct R as [R|R]; [left; by eapply calm_ring|right; auto].
Qed.
Lemma served_calm s0 s s' : served s0 s -> calm s s' -> served s0 s'.
Proof. intros [A R] K. constructor; [by eapply armed_calm|]. intros Ee. eapply calm_ring; [done|auto]. Qed.
Lemma read_bytes_ok n i s : wlp (@read_some C n i) (fun rb _ => all_bytes rb) s.
Proof.
  revert s. induction n as [|n IH]; intros s; cbn [read_some]; [by apply wlp_ret, Forall_nil_2|].
  apply wlp_bind, wlp_true. intros b s1. case_decide; [|by apply wlp_ret, Forall_nil_2].
  apply wlp_bind, wlp_true. intros x s2. apply wlp_bind, wlp_true. intros [] s3. apply wlp_bind. eapply wlp_mono; [apply IH|].
  cbn beta. intros rb s4 Hrb. apply wlp_ret, Forall_cons. split; [apply u8_byte|done].
Qed.
Lemma input_armed fuel i d s0 s : armed s0 s -> ssh_active s !! i = Some true -> all_bytes d ->
  wlp (on_ssh i (ssh_input fuel d)) (fun _ s' => armed s0 s') s.
Proof.
  intros [W K N Cf M R] Ea Hd. apply wlp_on_ssh. intros c E.
  destruct (proj2 (wf_parts (ssh_view s c))) as [Wt Gt].
  { split; [by apply (wk_live _ W i)|apply (wk_glob _ W)]. }
  eapply wlp_mono; [by apply input_fed|]. cbn beta. intros _ t [F1 F2 F3 F4].
  destruct (proj1 (wf_parts t) (conj F1 F2)) as [Lt Gl].
  pose proof (with_ssh_auth i t s c E F3) as K'. pose proof (fun S => serving_kept s0 s _ K' S) as S.
  constructor; [by apply with_ssh_ok|by etrans|exact N|exact Cf|change (machine_of (with_ssh i t s)) with (machine_of s); tauto|].
  destruct R as [R|R]; [|by right; apply S]. destruct (authenticated (cn t)) eqn:A.
  - right. exists i, (cn t). split; [by apply N|]. split; [|done]. unfold with_ssh. fld. rewrite list_lookup_insert_eq by (by eapply lookup_lt_Some). done.
  - left. specialize (F4 eq_refl). unfold keystrokes in F4. unfold ring_empty, with_ssh in *. fld. cbn [ssh_view gl] in F4. congruence.
Qed.
Lemma after_drain s0 s s' : armed s0 s -> drained s s' -> served s0 s'.
Proof.
  intros [W K N Cf M R] [D1 D2 D3 Ds D4 D5 D6]. pose proof (fun S => serving_kept s0 s s' D2 S) as S.
  pose proof (empty_queue _ (go_cin _ (wk_glob _ W))) as Eq. pose proof (empty_queue _ D5) as Eq'. constructor.
  - constructor; [auto|by etrans|by etrans|congruence| |].
    + destruct R as [R|R]; [|right; auto]. rewrite D4, (proj2 Eq R). destruct (w_eof _), M as [M|M]; cbn [pressed till_eof foldl]; auto.
    + destruct R as [R|R]; [|right; auto]. left. apply Eq'. rewrite D6, (proj2 Eq R). by destruct (w_eof _).
  - intros Ee. apply Eq'. by rewrite D6, Cf, Ee.
Qed.

Lemma wlp_active {B} i (k : bool -> M (worker C) B) Q s :
  (forall b, ssh_active s !! i = Some b -> wlp (k b) Q s) -> wlp (active i ≫= k) Q s.
Proof. intros H. unfold wlp, mbind, M_bind, active. destruct (ssh_active s !! i); [by apply H|done]. Qed.
Lemma read_active i : respects (fun s s' : worker C => ssh_active s' = ssh_active s) (@read_some C 512 i).
Proof.
  assert (PreOrder (fun s s' : worker C => ssh_active s' = ssh_active s)) as P by (split; [done|intros ??? -> ->; done]).
  generalize 512%nat. intros n. induction n as [|n IH]; cbn [read_some]; [by apply respects_ret|].
  apply respects_bind; [done| |intros b].
  { intros s0. apply worker_on_net, wlp_true. done. }
  destruct (decide _); [|by apply respects_ret]. unfold next_stir, stir.
  repeat first [exact IH|apply respects_bind; [done| |intros ?]|apply respects_ret; done|apply respects_gets; done|apply respects_modify; done].
Qed.
Lemma press_armed i s0 s : armed s0 s -> wlp (press_keys 256 i) (fun _ s' => served s0 s') s.
Proof.
  intros A. destruct (ssh_slots s !! i) as [c|] eqn:E.
  - pose proof (go_cin _ (wk_glob _ (ar_ok _ _ A))) as Wc. eapply wlp_mono; [apply (press_spec 256 i s c E Wc)|].
    + rewrite queue_length. unfold cin_count, SSH_CIN_SZ. Z.div_mod_to_equations. lia.
    + cbn beta. intros _ s'. by apply after_drain.
  - cbn [press_keys]. apply wlp_bind, wlp_on_ssh. intros c E'. congruence.
Qed.
Lemma serve_ok fuel i s0 s : served s0 s -> wlp (serve_slot fuel i) (fun _ s' => served s0 s') s.
Proof.
  intros V. unfold serve_slot. apply wlp_active. intros act Ea. destruct act; cbn [negb]; [|by apply wlp_ret].
  apply wlp_bind, worker_on_net. eapply wlp_mono; [apply net_read_slot|]. cbn beta. intros con x Ex. unfold id in Ex. rewrite Ex.
  assert (s <| w_net := w_net s |> = s) as -> by by destruct s.
  destruct con; cbn [negb]; [|eapply wlp_mono; [apply calm_stop|]; cbn beta; intros _ s'; by apply served_calm].
  apply wlp_bind.
  eapply wlp_mono; [exact (wlp_and _ _ _ _ (read_calm 512 i s) (wlp_and _ _ _ _ (read_bytes_ok 512 i s) (read_active i s)))|].
  cbn beta. intros rb s1 (K1 & Hrb & Ea1). rewrite <- Ea1 in Ea. pose proof (armed_calm _ _ _ (sv_armed _ _ V) K1) as A1.
  apply wlp_bind. apply (wlp_mono _ (fun _ s2 => armed s0 s2)).
  { destruct (bool_decide (rb <> [])); cbn [when]; [|by apply wlp_ret].
    apply wlp_bind. eapply wlp_mono; [by apply (input_armed fuel i rb s0 s1)|]. cbn beta. intros [r|] s2 A2; [by apply wlp_ret|done]. }
  cbn beta. intros _ s2 A2. apply bind_calm; [apply pump_calm|]. intros _ s3 K3.
  apply wlp_bind. eapply wlp_mono; [apply (press_armed i s0 s3); by eapply armed_calm|]. cbn beta. intros _ s4 V4.
  apply (wlp_mono _ (fun _ s5 => calm s4 s5)).
  - assert (forall A (f : ssh_conn -> A), keeps id (cget (C := C) f)) as Rd by (intros A f t; done).
    match goal with |- wlp ?m _ _ => enough (respects calm m) as Hm by apply Hm end.
    repeat first [apply track_calm|apply pump_calm|apply calm_read_ssh; first [apply Rd|intros t; reflexivity]|calm_step].
  - cbn beta. intros _ s5. by apply served_calm.
Qed.
Lemma serve_all fuel n s0 : forall i s, served s0 s -> wlp (serve_slots fuel n i) (fun _ s' => served s0 s') s.
Proof.
  induction n as [|n IH]; intros i s V; cbn [serve_slots]; [by apply wlp_ret|].
  apply wlp_bind. eapply wlp_mono; [by apply serve_ok|]. cbn beta. intros _ s1. apply IH.
Qed.

(** While new sessions begin, from [s0] on: nothing has reached the machine, the
    ring is empty, and the connection of a slot that had no session in [s0] is not
    authenticated. *)
Definition fresh_sessions s0 s : Prop := forall j, ssh_active s !! j = Some true ->
  ssh_active s0 !! j = Some true \/ exists c, ssh_slots s !! j = Some c /\ authenticated c = false.
Record begun s0 s : Prop := {
  bg_ok : worker_ok s;
  bg_ring : ring_empty s;
  bg_cfg : w_cfg s = w_cfg s0;
  bg_machine : machine_of s = machine_of s0;
  bg_fresh : fresh_sessions s0 s
}.
Lemma begun_refl s : worker_ok s -> ring_empty s -> begun s s.
Proof. intros W R. constructor; try done. by left. Qed.
Lemma begun_calm s0 s s' : begun s0 s -> calm s s' -> begun s0 s'.
Proof.
  intros [W R Cf M Fr] K. constructor; [by apply K|by eapply calm_ring|rewrite (cl_cfg _ _ K); done|rewrite (cl_machine _ _ K); done|].
  intros j Ea. destruct (Fr j (cl_session _ _ K j Ea)) as [?|(c & E & A)]; [by left|right]. by apply (cl_grant _ _ K j c).
Qed.
(** A call on the connection of a slot leaves the others alone. *)
Lemma fresh_ssh i t s0 s : fresh_sessions s0 s -> authenticated (cn t) = false -> fresh_sessions s0 (with_ssh i t s).
Proof.
  intros Fr A j Ea. destruct (Fr j Ea) as [?|(c & E & A')]; [by left|right]. unfold with_ssh. fld. destruct (decide (i = j)) as [->|Hn].
  - rewrite list_lookup_insert_eq by (by eapply lookup_lt_Some). eauto.
  - rewrite list_lookup_insert_ne by done. eauto.
Qed.

(** In the course of [begin_session i]: the connection of slot [i] is sound too. *)
Definition opening i s0 s : Prop := begun s0 s /\ exists c, ssh_slots s !! i = Some c /\ live c /\ authenticated c = false.
Lemma with_ssh_slot i t s c : ssh_slots s !! i = Some c -> ssh_slots (with_ssh i t s) !! i = Some (cn t).
Proof. intros E. unfold with_ssh. fld. rewrite list_lookup_insert_eq by (by eapply lookup_lt_Some). done. Qed.
Lemma reset_opening i sk pk s0 s : worker_ok s -> w_cfg s = w_cfg s0 -> machine_of s = machine_of s0 -> fresh_sessions s0 s ->
  wlp (on_ssh i (ssh_reset sk pk)) (fun _ s' => opening i s0 s') s.
Proof.
  intros W Cf M Fr. apply wlp_on_ssh. intros c E. pose proof (wk_glob _ W) as [G1 G2 G3 G4].
  assert (box_ok (ssh_view s c)) as B by (constructor; [apply G2|done|done]).
  eapply wlp_mono; [by apply reset_fresh|]. cbn beta. intros _ t (Wt & Gt & At & H1 & H2).
  destruct (proj1 (wf_parts t) (conj Wt Gt)) as [Lt Gl]. split.
  - constructor; [by apply with_ssh_ok| |done|done|by apply fresh_ssh]. unfold ring_empty, with_ssh. fld. congruence.
  - exists (cn t). split; [by eapply with_ssh_slot|done].
Qed.
Lemma set_glob_opening {A} i (m : M (st C) A) s0 s :
  opening i s0 s ->
  (forall t, wlp m (fun _ t' => cn t' = cn t /\ (glob_ok (gl t) -> glob_ok (gl t')) /\ keystrokes (gl t') = keystrokes (gl t)) t) ->
  wlp (on_ssh i m) (fun _ s' => opening i s0 s') s.
Proof.
  intros [[W R Cf M Fr] (c & E & L & A0)] Hm. apply wlp_on_ssh. intros c' E'. assert (c' = c) as -> by congruence.
  eapply wlp_mono; [apply Hm|]. cbn beta. cbn [ssh_view cn gl]. intros _ t (E1 & G & K). split.
  - constructor; [|unfold keystrokes in K; unfold ring_empty, with_ssh in *; fld; congruence|done|done|apply fresh_ssh; [done|by rewrite E1]].
    apply with_ssh_ok; [done|apply G, W|]. intros _. by rewrite E1.
  - exists (cn t). rewrite E1. split; [|done]. rewrite (with_ssh_slot i t s c E). by rewrite E1.
Qed.
Lemma set_password_glob pw (t : st C) :
  wlp (ssh_set_password pw) (fun _ t' => cn t' = cn t /\ (glob_ok (gl t) -> glob_ok (gl t')) /\ keystrokes (gl t') = keystrokes (gl t)) t.
Proof.
  apply wlp_bind, wlp_modify, wlp_modify. cbn [cn gl]. split; [done|]. split; [|done]. intros [G1 [] G3 G4]. by constructor.
Qed.
Lemma set_keys_glob keys n (t : st C) : 0 <= n < 2048 -> 32 * n <= len keys ->
  wlp (ssh_set_authorized_keys keys n) (fun _ t' => cn t' = cn t /\ (glob_ok (gl t) -> glob_ok (gl t')) /\ keystrokes (gl t') = keystrokes (gl t)) t.
Proof.
  intros Hn Hk. apply wlp_bind, wlp_modify, wlp_modify. cbn [cn gl]. split; [done|]. split; [|done]. intros [G1 [] G3 G4]. by constructor.
Qed.
Lemma begin_ok i s0 s : begun s0 s -> wlp (begin_session i) (fun _ s' => begun s0 s') s.
Proof.
  intros B. unfold begin_session. apply wlp_bind, wlp_gets, wlp_bind. eapply wlp_mono; [apply (reset_opening i _ _ s0); apply B|]. cbn beta. intros _ s1 O1.
  apply wlp_bind. apply (wlp_mono _ (fun _ => opening i s0)).
  { destruct (w_have_pw (w_cfg s)); cbn [when]; [|by apply wlp_ret]. apply (set_glob_opening _ _ _ _ O1). intros t. apply set_password_glob. }
  cbn beta. intros _ s2 O2. apply wlp_bind. apply (wlp_mono _ (fun _ => opening i s0)).
  { destruct (bool_decide _); cbn [when]; [|by apply wlp_ret]. apply (set_glob_opening _ _ _ _ O2). intros t. apply set_keys_glob; apply B. }
  cbn beta. intros _ s3 [B3 (c3 & E3 & L3 & A3)]. apply wlp_bind, wlp_modify.
  match goal with |- wlp _ _ ?x => assert (begun s0 x) as B4; [|generalize dependent x; intros s4 B4] end.
  { destruct B3 as [[G L Cf] R Cg M Fr]. constructor; [|done|done|done|].
    - constructor; fld; [done| |done]. intros j c Ea E.
      destruct (decide (i = j)) as [->|Hn]; [|rewrite list_lookup_insert_ne in Ea by done; by eapply L]. by assert (c = c3) as -> by congruence.
    - intros j Ea. fld. destruct (decide (i = j)) as [->|Hn]; [right; eauto|]. rewrite list_lookup_insert_ne in Ea by done. by apply Fr. }
  match goal with |- wlp ?m _ _ => enough (respects calm m) as Hm end.
  { eapply wlp_mono; [apply Hm|]. cbn beta. intros _ s5. by apply begun_calm. }
  repeat first [apply pump_calm|calm_step].
Qed.
Lemma sessions_ok fuel s0 : forall s, begun s0 s -> wlp (new_sessions fuel) (fun _ s' => begun s0 s') s.
Proof.
  induction fuel as [|fuel IH]; intros s B; cbn [new_sessions]; [by apply wlp_ret|]. apply bind_calm; [apply calm_net|]. intros i s1 K1.
  pose proof (begun_calm _ _ _ B K1) as B1.
  destruct (decide (i >= 0)); [|by apply wlp_ret]. apply wlp_bind. eapply wlp_mono; [by apply begin_ok|]. cbn beta. intros _ s2. apply IH.
Qed.

(** The part of the tick before the slots are served. *)
Definition open_sessions : M (worker C) unit := on_net net_poll ;; n ← slot_count; new_sessions (S n).
Lemma open_ok s : worker_ok s -> ring_empty s -> wlp open_sessions (fun _ s' => begun s s') s.
Proof.
  intros W R. unfold open_sessions. apply bind_calm; [apply calm_net|]. intros _ s1 K1. apply bind_calm; [calm_step|]. intros n s2 K2.
  apply sessions_ok. eapply begun_calm; [|exact K2]. eapply begun_calm; [by apply begun_refl|exact K1].
Qed.
Lemma wlp_open (k : nat -> M (worker C) unit) Q s :
  (forall n s1, open_sessions s = Some (tt, s1) -> wlp (k n) Q s1) -> wlp (on_net net_poll ;; n ← slot_count; new_sessions (S n) ;; k n) Q s.
Proof.
  intros H. unfold open_sessions in H. unfold wlp, mbind, M_bind in *. destruct (on_net net_poll s) as [[? s0]|]; [|done].
  destruct (slot_count s0) as [[n s1]|]; [|done]. destruct (new_sessions (S n) s1) as [[[] s2]|] eqn:E; [|done]. by apply H.
Qed.

(** The client behind a change of the machine: a slot that has a session when the
    slots are served, and whose connection is authenticated after the tick; a
    session that the tick itself began was not authenticated when it began. *)
Definition admitted_client s s' : Prop := exists s1 j c,
  open_sessions s = Some (tt, s1) /\ ssh_active s1 !! j = Some true
  /\ (ssh_active s !! j = Some true \/ exists c1, ssh_slots s1 !! j = Some c1 /\ authenticated c1 = false)
  /\ ssh_slots s' !! j = Some c /\ authenticated c = true.
Lemma worker_keys fuel s : worker_ok s -> ring_empty s ->
  wlp (ssh_net_worker fuel) (fun _ s' => worker_ok s' /\ (w_eof (w_cfg s) = false -> ring_empty s')
    /\ (machine_of s' = machine_of s /\ ring_empty s' \/ admitted_client s s')) s.
Proof.
  intros W R. unfold ssh_net_worker. apply wlp_open. intros n s1 E1.
  pose proof (wlp_Some _ _ _ _ _ (open_ok s W R) E1) as [W1 R1 C1 M1 F1].
  apply wlp_bind. eapply wlp_mono; [by apply serve_all, served_refl|]. cbn beta. intros _ s2 V2.
  match goal with |- wlp ?m _ _ => enough (respects calm m) as Hm end.
  { eapply wlp_mono; [apply Hm|]. cbn beta. intros _ s3 K3. destruct (served_calm _ _ _ V2 K3) as [[W3 _ _ _ M3 R3] R3'].
    split; [done|]. split; [by rewrite <- C1|]. rewrite <- M1.
    assert (serving s1 s3 -> admitted_client s s3) as S.
    { intros (j & c & Ea & E & A). exists s1, j, c. split_and!; try done. by apply F1. }
    destruct M3 as [M3|?]; [|by right; apply S]. destruct R3 as [R3|?]; [by left|by right; apply S]. }
  unfold next_stir, stir. repeat first [apply broadcast_calm|calm_step].
Qed.

(** Runs of ticks: between two ticks only the network, the screen and the clock
    change. *)
Record outside s s' : Prop := {
  out_slots : ssh_slots s' = ssh_slots s;
  out_active : ssh_active s' = ssh_active s;
  out_gl : w_gl s' = w_gl s;
  out_cfg : w_cfg s' = w_cfg s;
  out_machine : machine_of s' = machine_of s
}.
(** A run in which no tick has an admitted client. *)
Inductive unattended (fuel : nat) s : worker C -> Prop :=
  | un_start : unattended fuel s s
  | un_tick s1 s2 s3 : unattended fuel s s1 -> outside s1 s2 -> ssh_net_worker fuel s2 = Some (tt, s3) -> ~ admitted_client s2 s3 -> unattended fuel s s3.
Lemma unattended_silent fuel s s' : worker_ok s -> ring_empty s -> unattended fuel s s' ->
  worker_ok s' /\ ring_empty s' /\ machine_of s' = machine_of s.
Proof.
  intros W R. induction 1 as [|s1 s2 s3 _ (W1 & R1 & M1) [O1 O2 O3 O4 O5] E N]; [done|].
  pose proof (calm_same s1 s2 O1 O2 O3 O4 O5) as K. pose proof (calm_ring _ _ K R1) as R2.
  destruct (wlp_Some _ _ _ _ _ (worker_keys fuel s2 (cl_ok _ _ K W1) R2) E) as (W3 & _ & [[M3 R3]|?]); [|done]. split_and!; [done|done|congruence].
Qed.
End keyboard.

(** C6: No keystroke without authentication.  Over a whole tick of the worker that
    ends, from an empty keystroke ring, with any frames from the network and any
    number of clients and new sessions, with or without /EOF: either the key
    machine, the BIOS keyboard ring and the reboot request are as before and the
    keystroke ring is empty again, or a client with a session in this tick (not a
    record left by an earlier client) is authenticated; if the tick began its
    session, it became so in this tick.  The invariant holds again; the ring is
    empty again whenever Ctrl-D is an ordinary key. *)
Theorem keys_need_authentication {C : Crypto} {OK : CryptoOk C} fuel (s : worker C) :
  worker_ok s -> ring_empty s ->
  wlp (ssh_net_worker fuel) (fun _ s' => worker_ok s' /\ (w_eof (w_cfg s) = false -> ring_empty s')
    /\ (machine_of s' = machine_of s /\ ring_empty s' \/ admitted_client s s')) s.
Proof. apply worker_keys. Qed.
