(* ===== verification/WorkerPump.v ===== *)
(** * The pump of the SSH worker, and instances of the worker's theorems

    [ssh_pump_output] against the send ring it fills, and a worker on the toy
    primitives with a client before and a client after authentication. *)
From Stdlib Require Import ZArith Lia.
From stdpp Require Import base list numbers.
From S2P Require Import Prelude Kbd Ansikey Sha256 SshWire Crypto SshConn SshKex SshAuth SshChan Ssh SshSafe.
From S2P Require Import Net NetInv NetProps Cp437 Render Terminal Mirror TelnetProps Worker WorkerProps.
Local Open Scope Z_scope.

(** ** The pump *)

Section pump.
Context {C : Crypto}.
Implicit Types s : worker C.

Definition on_conn (i : nat) (k : conn) s : worker C := s <| w_net := with_conn i k (w_net s) |>.
Lemma queued_length k : conn_wf k -> length (send_queue k) = Z.to_nat (queued k).
Proof. intros _. apply ring_list_length. Qed.
Lemma s_used_queued k : s_used k = queued k.
Proof. unfold s_used. rewrite snd_land. done. Qed.
Lemma queued_range k : 0 <= queued k < 4096.
Proof. apply Z.mod_pos_bound. lia. Qed.

Lemma putc_run i b k Q s : conns (w_net s) !! i = Some k -> conn_wf k -> queued k < 4095 ->
  Q 1 (on_conn i (s_push b k) s) -> wp (on_net (net_tx_putc_slot (Z.of_nat i) b)) Q s.
Proof.
  intros E Wk Hq HQ.
  assert (wp (net_tx_putc_slot (Z.of_nat i) b) (fun a x => a = 1 /\ x = with_conn i (s_push b k) (w_net s)) (w_net s)) as H.
  { unfold net_tx_putc_slot, in_slots. apply wp_bind, wp_bind, wp_gets, wp_ret.
    rewrite bool_decide_eq_true_2 by (apply lookup_lt_Some in E; lia). cbn [negb]. rewrite Nat2Z.id.
    apply wp_bind. eapply wp_the_conn; [done|].
    assert (s_full k = false) as -> by (unfold s_full; rewrite s_used_queued; apply bool_decide_eq_false; unfold SND_SZ; lia).
    apply wp_bind. eapply queue_byte_run; [done|done|]. by apply wp_ret. }
  unfold wp, on_net in *. destruct (net_tx_putc_slot _ _ _) as [[a x]|]; [|done]. by destruct H as [-> ->].
Qed.
Lemma on_conn_twice i k k' s : on_conn i k' (on_conn i k s) = on_conn i k' s.
Proof. unfold on_conn. fld. rewrite with_conn_twice. by destruct s. Qed.
Lemma on_conn_id i k s : conns (w_net s) !! i = Some k -> on_conn i k s = s.
Proof. intros E. unfold on_conn. rewrite with_conn_id by done. by destruct s. Qed.
(** The send ring after [bs] were queued. *)
Definition push_all (bs : list Z) (k : conn) : conn := foldl (fun k b => s_push b k) k bs.
Lemma push_all_app a b k : push_all (a ++ b) k = push_all b (push_all a k).
Proof. apply foldl_app. Qed.
Lemma push_all_state bs : forall k, tstate (push_all bs k) = tstate k.
Proof. induction bs as [|b bs IH]; intros k; [done|]. change (push_all (b :: bs) k) with (push_all bs (s_push b k)). by rewrite IH. Qed.
Lemma s_push_queued b k : conn_wf k -> queued k < 4095 -> queued (s_push b k) = queued k + 1.
Proof.
  intros [_ _ _ _ _ _ (H1&_&H3) _ _ _ _] H. unfold queued, s_push, SND_SZ in *. fld. Z.div_mod_to_equations. lia.
Qed.
Lemma not_full k : queued k < 4095 -> s_full k = false.
Proof. intros H. unfold s_full. rewrite s_used_queued. apply bool_decide_eq_false. unfold SND_SZ. lia. Qed.
Lemma push_all_spec bs : forall k, conn_wf k -> len bs <= 4095 - queued k ->
  conn_wf (push_all bs k) /\ send_queue (push_all bs k) = send_queue k ++ (u8 <$> bs) /\ queued (push_all bs k) = queued k + len bs.
Proof.
  induction bs as [|b bs IH]; intros k Wk Hl; cbn [push_all foldl length fmap list_fmap] in *.
  - rewrite app_nil_r. split_and!; [done|done|lia].
  - pose proof (not_full k ltac:(lia)) as Hf. pose proof (s_push_queued b k Wk ltac:(lia)) as Eq1.
    destruct (IH (s_push b k) (queue_byte_wf b k Wk Hf)) as (W' & Q' & N'); [lia|].
    split; [done|]. split; [|unfold push_all in *; lia]. unfold push_all in Q'. rewrite Q', (s_push_queue b k Wk Hf), <- app_assoc. done.
Qed.
Lemma put_all_run i bs : forall k Q s, conns (w_net s) !! i = Some k -> conn_wf k -> len bs <= 4095 - queued k ->
  Q tt (on_conn i (push_all bs k) s) -> wp (put_all i bs) Q s.
Proof.
  induction bs as [|b bs IH]; intros k Q s E Wk Hl HQ; cbn [put_all length push_all foldl] in *.
  - apply wp_ret. by rewrite on_conn_id in HQ.
  - apply wp_bind. eapply putc_run; [done|done|lia|]. pose proof (s_push_queued b k Wk ltac:(lia)).
    apply (IH (s_push b k)); [unfold on_conn, with_conn; fld; by rewrite list_lookup_insert_eq by (by eapply lookup_lt_Some)| |lia|].
    + apply queue_byte_wf; [done|apply not_full; lia].
    + by rewrite on_conn_twice.
Qed.

Definition set_ob (ob : list Z) s : worker C := s <| w_gl := ((w_gl s) <| g_ob := ob |>) |>.
Lemma set_ob_id s : set_ob (g_ob (w_gl s)) s = s.
Proof. unfold set_ob. assert ((w_gl s) <| g_ob := g_ob (w_gl s) |> = w_gl s) as -> by by destruct (w_gl s). by destruct s. Qed.
Lemma set_ob_twice a b s : set_ob a (set_ob b s) = set_ob a s.
Proof. unfold set_ob. fld. destruct (w_gl s). by destruct s. Qed.
Lemma set_ob_on_conn i k ob s : on_conn i k (set_ob ob s) = set_ob ob (on_conn i k s).
Proof. unfold set_ob, on_conn. fld. by destruct s. Qed.
Lemma output_run i n c Q s : ssh_slots s !! i = Some c ->
  Q (take (Z.to_nat n) (g_ob (w_gl s))) (set_ob (drop (Z.to_nat n) (g_ob (w_gl s))) s) -> wp (on_ssh i (ssh_output n)) Q s.
Proof.
  intros E HQ. unfold wp, on_ssh. rewrite E. unfold ssh_output, mbind, M_bind, gget, gset, gets, modify, mret, M_ret. cbn [cn gl rg]. fld.
  rewrite list_insert_id by done. unfold set_ob in HQ. revert HQ. by destruct s.
Qed.
Lemma room_run i k Q s : conns (w_net s) !! i = Some k -> Q (4095 - queued k) s -> wp (on_net (net_tx_room_slot (Z.of_nat i))) Q s.
Proof.
  intros E HQ. unfold wp, on_net, net_tx_room_slot, in_slots, mbind, M_bind, gets, mret, M_ret.
  rewrite bool_decide_eq_true_2 by (apply lookup_lt_Some in E; lia). cbn [negb]. unfold the_conn. rewrite Nat2Z.id, E.
  rewrite s_used_queued. unfold SND_SZ. assert (s <| w_net := w_net s |> = s) as -> by by destruct s. exact HQ.
Qed.

Lemma pump_run fuel i c : forall k Q s, ssh_slots s !! i = Some c -> conns (w_net s) !! i = Some k -> conn_wf k ->
  (length (g_ob (w_gl s)) < fuel)%nat ->
  (let n := Z.to_nat (Z.min (4095 - queued k) (len (g_ob (w_gl s)))) in
   Q tt (set_ob (drop n (g_ob (w_gl s))) (on_conn i (push_all (take n (g_ob (w_gl s))) k) s))) ->
  wp (pump_loop fuel i) Q s.
Proof.
  induction fuel as [|fuel IH]; intros k Q s E Ek Wk Hf HQ; [lia|]. cbn [pump_loop]. pose proof (queued_range k) as Hq.
  assert (set_ob (g_ob (w_gl s)) (on_conn i k s) = s) as Eid.
  { rewrite on_conn_id by done. apply set_ob_id. }
  apply wp_bind. eapply room_run; [done|]. destruct (decide (4095 - queued k = 0)) as [H0|H0].
  { apply wp_ret. cbv zeta in HQ. rewrite H0, Z.min_l in HQ by lia. change (Z.to_nat 0) with 0%nat in HQ.
    rewrite take_0, drop_0 in HQ. cbn [push_all foldl] in HQ. by rewrite Eid in HQ. }
  apply wp_bind. eapply output_run; [done|]. set (ob := g_ob (w_gl s)) in *. set (m := Z.min (4095 - queued k) 128).
  destruct (decide (take (Z.to_nat m) ob = [])) as [H1|H1].
  { assert (ob = []) as Hob by (destruct ob; [done|]; assert (Z.to_nat m = S (Z.to_nat (m - 1))) as Em by lia; rewrite Em in H1; done).
    apply wp_ret. cbv zeta in HQ. rewrite Hob in HQ |- *. rewrite take_nil, !drop_nil in *. cbn [push_all foldl] in HQ.
    by rewrite on_conn_id in HQ. }
  assert (length ob <> 0%nat) as H2 by (destruct ob; [by rewrite take_nil in H1|done]).
  assert (len (take (Z.to_nat m) ob) <= 4095 - queued k) as H3 by (rewrite length_take; lia).
  apply wp_bind. apply (put_all_run i _ k); [done|done|exact H3|].
  destruct (push_all_spec (take (Z.to_nat m) ob) k Wk H3) as (W' & _ & En). rewrite length_take in En.
  apply (IH (push_all (take (Z.to_nat m) ob) k)); [done| |done| |].
  - unfold on_conn, with_conn. fld. by rewrite list_lookup_insert_eq by (by eapply lookup_lt_Some).
  - unfold on_conn, set_ob. fld. rewrite length_drop. lia.
  - cbv zeta in HQ |- *. assert (forall k', g_ob (w_gl (on_conn i k' (set_ob (drop (Z.to_nat m) ob) s))) = drop (Z.to_nat m) ob) as Eo by done.
    rewrite !Eo, length_drop, <- push_all_app, drop_drop. clear Eo.
    set (n := Z.to_nat (Z.min (4095 - queued k) (len ob))) in *. set (n2 := Z.to_nat (Z.min (4095 - _) _)).
    assert (n = Z.to_nat m + n2 \/ length ob <= n /\ length ob <= Z.to_nat m + n2)%nat as Hn by (unfold n, n2, m in *; lia).
    rewrite take_take_drop. assert (take (Z.to_nat m + n2) ob = take n ob) as -> by (destruct Hn as [->|[? ?]]; [done|by rewrite !take_ge]).
    assert (drop (Z.to_nat m + n2) ob = drop n ob) as -> by (destruct Hn as [->|[? ?]]; [done|by rewrite !drop_ge]).
    by rewrite on_conn_twice, set_ob_on_conn, set_ob_twice.
Qed.
End pump.

(** The pump is exact.  Of the output queue that all slots share,
    [ssh_pump_output] moves to the slot's send ring as many bytes as fit, in order
    and without loss, and nothing else changes; what does not fit stays at the
    front of the shared queue, for whichever slot is serviced next. *)
Theorem pump_exact {C : Crypto} i c k (s : worker C) :
  ssh_slots s !! i = Some c -> conns (w_net s) !! i = Some k -> conn_wf k -> all_bytes (g_ob (w_gl s)) ->
  let n := Z.to_nat (Z.min (4095 - queued k) (len (g_ob (w_gl s)))) in
  wp (ssh_pump_output i) (fun _ s' => exists k', conn_wf k' /\ tstate k' = tstate k /\
      send_queue k' = send_queue k ++ take n (g_ob (w_gl s)) /\
      s' = set_ob (drop n (g_ob (w_gl s))) (on_conn i k' s)) s.
Proof.
  intros E Ek Wk Bo n. unfold ssh_pump_output. apply wp_bind, wp_gets. eapply (pump_run _ i c k); [done..|lia|].
  exists (push_all (take n (g_ob (w_gl s))) k).
  destruct (push_all_spec (take n (g_ob (w_gl s))) k Wk) as (W' & Q' & _).
  { pose proof (queued_range k). rewrite length_take. lia. }
  rewrite bytes_u8 in Q' by (by apply Forall_take). split_and!; [done|apply push_all_state|done|done].
Qed.

(** ** Instances *)

(** Slot 0 is a client that has just connected, slot 1 one with a shell. *)
Definition demo_guest : ssh_conn := cn demo_st0.
Definition demo_shell : ssh_conn :=
  (cn demo_st1) <| chan_open := true |> <| shell_ready := true |> <| peer_window := 5000 |> <| peer_maxpkt := 1000 |>.
Definition demo_config (eof : bool) : wconfig := WConfig (replicate 64 1) (replicate 32 2) false [] [] 0 eof.
Definition demo_wnet (k0 k1 : conn) : net := with_conn 0 k0 (with_conn 1 k1 (net0 2)).
Definition demo_worker (k0 : conn) (c0 : ssh_conn) (g : ssh_glob) (eof : bool) : worker toy :=
  Worker toy (demo_wnet k0 demo_estab) [c0; demo_shell] [true; true] [true; true] g (0 : @rng toy) rend0 ansikey0 bda0 false demo_screen
    80 25 0 (demo_config eof).
Definition demo_calm : ssh_glob := (gl demo_st0) <| g_ob := [] |>.
(** The identification line of the client has arrived. *)
Definition demo_line : conn :=
  demo_estab <| rbuf := text "SSH-2.0-x" ++ [13; 10] ++ repeat 0 501 |> <| r_head := 11 |>.

Lemma demo_glob_ok : glob_ok (gl demo_st0).
Proof. exact (proj2 (proj1 (wf_parts demo_st0) (conj (ri_wf _ _ demo_fresh) (ri_gate _ _ demo_fresh)))). Qed.
Lemma demo_guest_live : live demo_guest.
Proof. exact (proj1 (proj1 (wf_parts demo_st0) (conj (ri_wf _ _ demo_fresh) (ri_gate _ _ demo_fresh)))). Qed.

(** A run that ends, with a check on its end. *)
Lemma run_ends {S} (m : M S unit) (s : S) (f : S -> bool) :
  match m s with Some (_, s') => f s' | None => false end = true -> exists s', m s = Some (tt, s') /\ f s' = true.
Proof. destruct (m s) as [[[] s']|]; [|done]. eauto. Qed.

Definition demo_arrivals : worker toy := (demo_worker demo_line demo_guest (gl demo_st0) false) <| ssh_active := [true; false] |>.
Lemma demo_arrivals_ok : worker_ok demo_arrivals.
Proof.
  constructor; [exact demo_glob_ok| |].
  - intros j c Ea E. change (ssh_active demo_arrivals) with [true; false] in Ea. change (ssh_slots demo_arrivals) with [demo_guest; demo_shell] in E.
    destruct j as [|[|j]]; [|discriminate|destruct j; discriminate]. assert (c = demo_guest) as -> by (apply (inj Some); exact (eq_sym E)).
    exact demo_guest_live.
  - split; [split; [discriminate|reflexivity]|discriminate].
Qed.
Lemma keys_need_authentication_witness :
  exists s', ssh_net_worker 10 demo_arrivals = Some (tt, s') /\ machine_of s' = machine_of demo_arrivals /\
    (state <$> ssh_slots s') = [SSH_ST_EXPECT_KEXINIT; SSH_ST_VERSION].
Proof.
  destruct (run_ends (ssh_net_worker (C := toy) 10) demo_arrivals
    (fun s' => bool_decide ((state <$> ssh_slots s') = [SSH_ST_EXPECT_KEXINIT; SSH_ST_VERSION]) && forallb (fun c => negb (authenticated c)) (ssh_slots s')))
    as (s' & E & F); [vm_compute; reflexivity|]. apply andb_prop in F as [F1%bool_decide_eq_true_1 F2].
  exists s'. split; [exact E|].
  destruct (wlp_Some _ _ _ _ _ (keys_need_authentication (OK := toy_ok) 10 demo_arrivals demo_arrivals_ok eq_refl) E) as (_ & _ & [[H _]|(s1 & j & c & _ & _ & _ & Ec & A)]);
    [split; [exact H|exact F1]|].
  rewrite forallb_forall in F2. specialize (F2 c (proj1 (list_elem_of_In _ _) (list_elem_of_lookup_2 _ _ _ Ec))). rewrite A in F2. discriminate.
Defined.

(** A send ring with room for five bytes, and eight to send. *)
Definition demo_full : conn := demo_estab <| s_end := 4090 |>.
Lemma demo_full_wf : conn_wf demo_full.
Proof.
  destruct demo_estab_wf. constructor; unfold demo_full; fld; try assumption.
  - split; [vm_compute; split; [discriminate|reflexivity]|]. split; [vm_compute; split; [discriminate|reflexivity]|split; [discriminate|reflexivity]].
  - vm_compute. discriminate.
Qed.
Definition demo_queue : ssh_glob := (gl demo_st0) <| g_ob := [1; 2; 3; 4; 5; 6; 7; 8] |>.
Lemma pump_exact_witness :
  wp (ssh_pump_output 0) (fun _ s' => g_ob (w_gl s') = [6; 7; 8]) (demo_worker demo_full demo_guest demo_queue false).
Proof.
  assert (all_bytes (g_ob demo_queue)) as B by (apply bytes_dec_iff; vm_compute; reflexivity).
  pose proof (pump_exact 0 demo_guest demo_full (demo_worker demo_full demo_guest demo_queue false) eq_refl eq_refl demo_full_wf B) as H.
  cbv zeta in H. eapply wp_mono; [exact H|]. intros _ s' (k' & _ & _ & _ & ->). vm_compute. reflexivity.
Defined.
