(* ===== verification/WorkerCast.v ===== *)
(** * The screen broadcast of the SSH worker

    [ssh_net_broadcast] renders the screen once and seals the same bytes for every
    ready slot.  Here it is shown to run to its end from every state of the
    invariant, to give each ready slot exactly the rendered bytes, sealed with its
    own keys and within its window and its send ring, and to stop only when it
    must. *)
From Stdlib Require Import ZArith Lia.
From stdpp Require Import base list numbers.
From S2P Require Import Prelude Kbd Ansikey Sha256 SshWire Crypto SshConn SshKex SshAuth SshChan Ssh SshSafe.
From S2P Require Import Net NetInv NetProps Render Terminal Mirror TelnetProps Worker WorkerProps WorkerPump.
Local Open Scope Z_scope.

(** The bytes a renderer gives between two states, idle calls included. *)
Inductive rendered (e : machine) : rend -> list Z -> rend -> Prop :=
  | rendered_nil r : rendered e r [] r
  | rendered_byte r b r1 bs r2 : render_next_byte e false r = Some (b, r1) -> is_byte b -> rendered e r1 bs r2 -> rendered e r (b :: bs) r2
  | rendered_idle r b r1 bs r2 : render_next_byte e false r = Some (b, r1) -> b < 0 -> rendered e r1 bs r2 -> rendered e r bs r2.
Lemma rendered_trans e r1 a r2 b r3 : rendered e r1 a r2 -> rendered e r2 b r3 -> rendered e r1 (a ++ b) r3.
Proof. induction 1; [done|intros; cbn; eapply rendered_byte; eauto|intros; eapply rendered_idle; eauto]. Qed.

Section cast.
Context {C : Crypto} {OK : CryptoOk C} (n : nat) (W H : Z) (HW : 0 < W <= 132) (HH : 0 < H <= 60) (HWH : W * H <= 2000).
Implicit Types s : worker C.

Record hub_wf s : Prop := {
  hb_net : net_wf (w_net s) /\ length (conns (w_net s)) = n;
  hb_slots : length (ssh_slots s) = n;
  hb_active : length (ssh_active s) = n;
  hb_screen : screen_ok W H (w_mach s);
  hb_rend : exists t, mirror_inv W H (w_rn s) t;
  hb_live : forall j c, ssh_active s !! j = Some true -> ssh_slots s !! j = Some c ->
    gate c /\ is_u32 (peer_window c) /\ is_u32 (peer_maxpkt c)
}.

(** Slot [j] takes part in the broadcast, with these connections. *)
Definition ready_at s (j : nat) (c : ssh_conn) (k : conn) : Prop :=
  ssh_active s !! j = Some true /\ ssh_slots s !! j = Some c /\ conns (w_net s) !! j = Some k /\ tstate k = TS_ESTAB /\ channel_up c = true.
(** What the code computes as the room of a slot. *)
Definition allowance (c : ssh_conn) (k : conn) : Z :=
  Z.min (Z.max 0 (3543 - queued k)) (Z.min (Z.min SSH_CHAN_CHUNK (peer_window c)) (peer_maxpkt c)).

(** One chunk to one slot: sealed with the keys and the number of this
    connection, charged to its window, and whole in its send ring. *)
Definition sent_chunk (plain : list Z) (x y : ssh_conn * conn) : Prop :=
  let '(c, k) := x in let '(c', k') := y in
  exists pad, len pad = padding 1 (9 + len plain) /\ all_bytes pad /\ len plain <= allowance c k
    /\ c' = c <| peer_window := peer_window c - len plain |> <| send_seq := u32 (send_seq c + 1) |>
    /\ send_queue k' = send_queue k ++ seal (ek_s2c c) (send_seq c) (channel_data (peer_chan c) plain) pad
    /\ conn_wf k' /\ tstate k' = tstate k.
Inductive delivered : list (list Z) -> ssh_conn * conn -> ssh_conn * conn -> Prop :=
  | delivered_nil x : delivered [] x x
  | delivered_cons plain rest x y z : sent_chunk plain x y -> delivered rest y z -> delivered (plain :: rest) x z.

(** ** Single calls *)

Lemma active_run i b Q s : ssh_active s !! i = Some b -> Q b s -> wp (active i) Q s.
Proof. intros E HQ. unfold wp, active. by rewrite E. Qed.
Lemma net_run {A} (m : M net A) Q s : wp m (fun a x => Q a (s <| w_net := x |>)) (w_net s) -> wp (on_net m) Q s.
Proof. unfold wp, on_net. by destruct (m (w_net s)) as [[a x]|]. Qed.
Lemma same_net s : s <| w_net := w_net s |> = s.
Proof. by destruct s. Qed.
Lemma in_slots_run {B} i (k : bool -> M net B) Q (x : net) : (i < length (conns x))%nat -> wp (k true) Q x -> wp (in_slots (Z.of_nat i) ≫= k) Q x.
Proof. intros Hi Hk. unfold in_slots. apply wp_bind, wp_bind, wp_gets, wp_ret. by rewrite bool_decide_eq_true_2 by lia. Qed.
Lemma the_slot_run {B} i c (k : conn -> M net B) Q (x : net) : conns x !! i = Some c -> wp (k c) Q x -> wp (the_conn (Z.to_nat (Z.of_nat i)) ≫= k) Q x.
Proof. intros E Hk. rewrite Nat2Z.id. apply wp_bind. by eapply wp_the_conn. Qed.
Lemma connected_run i k Q s : conns (w_net s) !! i = Some k -> Q (bool_decide (tstate k = TS_ESTAB)) s -> wp (on_net (net_slot_connected (Z.of_nat i))) Q s.
Proof.
  intros E HQ. apply net_run. unfold net_slot_connected. apply in_slots_run; [by eapply lookup_lt_Some|]. cbn [negb].
  eapply the_slot_run; [done|]. apply wp_ret. by rewrite same_net.
Qed.
Lemma stalled_run i k Q s : conns (w_net s) !! i = Some k -> (forall b, Q b s) -> wp (on_net (net_slot_stalled (Z.of_nat i))) Q s.
Proof.
  intros E HQ. apply net_run. unfold net_slot_stalled. apply in_slots_run; [by eapply lookup_lt_Some|]. cbn [negb].
  eapply the_slot_run; [done|]. case_decide; apply wp_ret; rewrite same_net; apply HQ.
Qed.
Lemma ssh_run {A} i c (m : M (st C) A) Q s : ssh_slots s !! i = Some c -> wp m (fun a t => Q a (with_ssh i t s)) (ssh_view s c) -> wp (on_ssh i m) Q s.
Proof. intros E Hm. unfold wp, on_ssh, ssh_view in *. rewrite E. by destruct (m _) as [[a t]|]. Qed.
Lemma chan_ready_run i c Q s : ssh_slots s !! i = Some c -> Q (channel_up c) s -> wp (on_ssh i ssh_channel_ready) Q s.
Proof.
  intros E HQ. eapply ssh_run; [done|]. unfold ssh_channel_ready. apply wp_bind, wp_gets, wp_bind, wp_gets, wp_bind, wp_gets, wp_ret.
  by rewrite with_ssh_id.
Qed.
Lemma avail_run i c Q s : ssh_slots s !! i = Some c -> channel_up c = true ->
  Q (Z.min (Z.min SSH_CHAN_CHUNK (peer_window c)) (peer_maxpkt c)) s -> wp (on_ssh i ssh_channel_avail) Q s.
Proof.
  intros E U HQ. eapply ssh_run; [done|]. unfold ssh_channel_avail, ssh_channel_ready, channel_up in *.
  apply wp_bind, wp_bind, wp_gets, wp_bind, wp_gets, wp_bind, wp_gets, wp_ret. cbn [ssh_view cn]. rewrite U. cbn [negb].
  apply wp_bind, wp_gets, wp_bind, wp_gets, wp_ret. by rewrite with_ssh_id.
Qed.

(** The room of a slot as the code computes it. *)
Lemma net_cap q a : 0 <= q < 4096 -> 0 <= a ->
  (let netcap := if decide (4095 - q > SSH_RING_RESERVE + 40) then 4095 - q - SSH_RING_RESERVE - 40 else 0 in
   if decide (netcap < a) then netcap else a) = Z.min (Z.max 0 (3543 - q)) a.
Proof. unfold SSH_RING_RESERVE. intros. cbv zeta. repeat case_decide; lia. Qed.
Lemma ready_live s j c k : hub_wf s -> ready_at s j c k -> send_encrypted c = true /\ is_u32 (peer_window c) /\ is_u32 (peer_maxpkt c) /\ conn_wf k.
Proof.
  intros B (Ea & Ec & Ek & _ & U). destruct (hb_live _ B j c Ea Ec) as (G & H1 & H2). split_and!; [|done|done|].
  - apply (gt_recv _ G), (gt_auth _ G), (gt_chan _ G). unfold channel_up in U. destruct (chan_open c); [by left|done].
  - eapply slot_wf; [apply (hb_net _ B)|done].
Qed.
Lemma allowance_nonneg s j c k : hub_wf s -> ready_at s j c k -> 0 <= allowance c k.
Proof.
  intros B R. destruct (ready_live s j c k B R) as (_ & H1 & H2 & _). unfold allowance, SSH_CHAN_CHUNK, is_u32 in *. lia.
Qed.

(** ** The scan of the slots *)

Lemma slot_drop_run j Q s : hub_wf s -> (j < n)%nat ->
  (forall x, net_wf x -> length (conns x) = n -> (forall i, i <> j -> conns x !! i = conns (w_net s) !! i) -> Q tt (s <| w_net := x |>)) ->
  wp (on_net (net_slot_drop (Z.of_nat j))) Q s.
Proof.
  intros B Hj HQ. apply net_run. destruct (hb_net _ B) as [Wn Ln]. pose proof (drop_safe n (Z.of_nat j) (w_net s) Wn Ln) as Hs.
  unfold wp in *. destruct (net_slot_drop (Z.of_nat j) (w_net s)) as [[[] x]|] eqn:E; [|done]. apply HQ; [apply Hs|apply Hs|].
  intros i Hi. pose proof (proj2 (net_calls_apart i j 0 (not_eq_sym Hi)) (w_net s)) as Hk. unfold wlp in Hk. by rewrite E in Hk.
Qed.

(** Slots below [i] are as before, the others are as before or no longer active;
    nothing else changed. *)
Record scanned (i : nat) s s' : Prop := {
  sc_same : s' = s <| w_net := w_net s' |> <| ssh_active := ssh_active s' |>;
  sc_below j : (j < i)%nat -> ssh_active s' !! j = ssh_active s !! j /\ conns (w_net s') !! j = conns (w_net s) !! j;
  sc_active j : ssh_active s' !! j = Some true -> ssh_active s !! j = Some true /\ conns (w_net s') !! j = conns (w_net s) !! j
}.
Lemma scanned_refl i s : scanned i s s.
Proof. constructor; [by destruct s|done|done]. Qed.
Lemma scanned_trans i s1 s2 s3 : scanned i s1 s2 -> scanned (S i) s2 s3 -> scanned i s1 s3.
Proof.
  intros [E1 B1 A1] [E2 B2 A2]. constructor.
  - rewrite E2, E1. fld. by destruct s1, s2, s3.
  - intros j Hj. destruct (B2 j ltac:(lia)) as [-> ->]. by apply B1.
  - intros j Hj. destruct (A2 j Hj) as [Hj2 ->]. by apply A1.
Qed.
Lemma scanned_slots i s s' : scanned i s s' -> ssh_slots s' = ssh_slots s.
Proof. intros [E _ _]. rewrite E. done. Qed.
Lemma scanned_ready i s s' j c k : scanned i s s' -> ready_at s' j c k -> ready_at s j c k.
Proof.
  intros Sc (Ea & Ec & Ek & Et & U). destruct (sc_active _ _ _ Sc j Ea) as [Ea' Ek']. rewrite (scanned_slots _ _ _ Sc) in Ec.
  rewrite Ek' in Ek. by split_and!.
Qed.
Lemma ready_scanned i s s' j c k : (j < i)%nat -> scanned i s s' -> ready_at s j c k -> ready_at s' j c k.
Proof.
  intros Hj Sc (Ea & Ec & Ek & Et & U). destruct (sc_below _ _ _ Sc j Hj) as [Ea' Ek']. unfold ready_at.
  rewrite Ea', Ek', (scanned_slots _ _ _ Sc). by split_and!.
Qed.

Definition scan_post (i m : nat) (any : bool) (cap : Z) s (r : bool * Z) s' : Prop :=
  hub_wf s' /\ scanned i s s' /\ 0 <= r.2 <= cap /\ (any = true -> r.1 = true)
  /\ (forall j c k, (i <= j < i + m)%nat -> ready_at s' j c k -> r.1 = true /\ r.2 <= allowance c k)
  /\ (r.2 = cap \/ exists j c k, ready_at s' j c k /\ r.2 = allowance c k).
(** The step of the scan over slot [i], when the rest starts from [s1]. *)
Lemma scan_cons i m any cap any1 cap1 s s1 r s' :
  (any = true -> any1 = true) -> cap1 <= cap -> scanned i s s1 -> 
  (forall c k, ready_at s1 i c k -> any1 = true /\ cap1 <= allowance c k) ->
  (cap1 = cap \/ exists c k, ready_at s1 i c k /\ cap1 = allowance c k) ->
  scan_post (S i) m any1 cap1 s1 r s' -> scan_post i (S m) any cap s r s'.
Proof.
  intros Ha Hc Sc Hi He (B & Sc' & R1 & R2 & R3 & R4). split; [done|]. split; [by eapply scanned_trans|]. split; [lia|]. split; [auto|]. split.
  - intros j c k Hj Hr. destruct (decide (j = i)) as [->|Hn]; [|apply (R3 j c k); [lia|done]].
    destruct (Hi c k) as [H1 H2]; [by eapply scanned_ready|]. split; [auto|lia].
  - destruct R4 as [R4|R4]; [|by right]. destruct He as [He|(c & k & Hr & He)]; [left; lia|right].
    exists i, c, k. split; [|lia]. eapply ready_scanned; [|done|done]. lia.
Qed.

Lemma slot_parts s i : hub_wf s -> (i < n)%nat ->
  exists b c k, ssh_active s !! i = Some b /\ ssh_slots s !! i = Some c /\ conns (w_net s) !! i = Some k.
Proof.
  intros B Hi. destruct (lookup_lt_is_Some_2 (ssh_active s) i) as [b Eb]; [by rewrite (hb_active _ B)|].
  destruct (lookup_lt_is_Some_2 (ssh_slots s) i) as [c Ec]; [by rewrite (hb_slots _ B)|].
  destruct (lookup_lt_is_Some_2 (conns (w_net s)) i) as [k Ek]; [by rewrite (proj2 (hb_net _ B))|]. by exists b, c, k.
Qed.
Lemma not_ready_here s i b c k : ssh_active s !! i = Some b -> ssh_slots s !! i = Some c -> conns (w_net s) !! i = Some k ->
  b && bool_decide (tstate k = TS_ESTAB) && channel_up c = false -> forall c' k', ~ ready_at s i c' k'.
Proof.
  intros Ea Ec Ek Hb c' k' (Ea' & Ec' & Ek' & Et & U). assert (b = true) as -> by congruence. assert (c' = c) as -> by congruence.
  assert (k' = k) as -> by congruence. by rewrite Et, U, bool_decide_eq_true_2 in Hb by done.
Qed.
(** A slot that is dropped. *)
Lemma dropped_wf s i x : hub_wf s -> net_wf x -> length (conns x) = n -> (forall j, j <> i -> conns x !! j = conns (w_net s) !! j) ->
  let s' := s <| w_net := x |> <| ssh_active := <[i := false]> (ssh_active s) |> in hub_wf s' /\ scanned i s s'.
Proof.
  intros [Bn Bs Ba Bm Br Bl] Wx Lx Hx s'. unfold s'. assert (forall j, <[i := false]> (ssh_active s) !! j = Some true -> j <> i /\ ssh_active s !! j = Some true) as Ha.
  { intros j Ej. destruct (decide (i = j)) as [->|Hn].
    - destruct (decide (j < length (ssh_active s))%nat); [by rewrite list_lookup_insert_eq in Ej|].
      rewrite list_insert_ge in Ej by lia. apply lookup_lt_Some in Ej. lia.
    - rewrite list_lookup_insert_ne in Ej by done. done. }
  split.
  - constructor; fld; [done|done|by rewrite length_insert|done|done|]. intros j c Ej. apply (Bl j c). by apply Ha.
  - constructor; fld; [by destruct s| |].
    + intros j Hj. rewrite list_lookup_insert_ne by lia. split; [done|apply Hx; lia].
    + intros j Ej. destruct (Ha j Ej). by split; [|apply Hx].
Qed.
Lemma scan_spec m : forall i any cap s, hub_wf s -> (i + m <= n)%nat -> 0 <= cap ->
  wp (scan_slots m i any cap) (fun r s' => scan_post i m any cap s r s') s.
Proof.
  induction m as [|m IH]; intros i any cap s B Hi Hcap; cbn [scan_slots].
  { apply wp_ret. split_and!; [done|apply scanned_refl|cbn; lia|cbn; lia|done|intros; lia|by left]. }
  destruct (slot_parts s i B ltac:(lia)) as (b & c & k & Ea & Ec & Ek).
  assert (b && bool_decide (tstate k = TS_ESTAB) && channel_up c = false ->
    wp (scan_slots m (S i) any cap) (fun r s' => scan_post i (S m) any cap s r s') s) as Skip.
  { intros Hb. eapply wp_mono; [apply IH; [done|lia|done]|]. cbn beta. intros r s'.
    apply scan_cons; [done|lia|apply scanned_refl| |by left]. intros c' k' Hr. by destruct (not_ready_here s i b c k Ea Ec Ek Hb c' k'). }
  apply wp_bind. eapply active_run; [done|]. apply wp_bind. eapply connected_run; [done|].
  destruct b; cbn [negb orb andb] in *; [|by apply Skip].
  destruct (bool_decide (tstate k = TS_ESTAB)) eqn:Et; cbn [negb orb andb] in *; [|by apply Skip]. apply bool_decide_eq_true_1 in Et.
  apply wp_bind. eapply chan_ready_run; [done|]. destruct (channel_up c) eqn:U; cbn [negb]; [|by apply Skip].
  assert (ready_at s i c k) as Hr by (by split_and!). destruct (ready_live s i c k B Hr) as (_ & Tw & Tm & _).
  apply wp_bind. eapply avail_run; [done|done|]. apply wp_bind. eapply room_run; [done|]. cbv zeta.
  assert (0 <= Z.min (Z.min SSH_CHAN_CHUNK (peer_window c)) (peer_maxpkt c)) as Ha by (unfold is_u32, SSH_CHAN_CHUNK in *; lia).
  pose proof (net_cap (queued k) _ (queued_range k) Ha) as Ecap. cbv zeta in Ecap. rewrite Ecap. clear Ecap.
  match goal with |- context [decide (?x = 0)] => assert (x = allowance c k) as -> by reflexivity end.
  assert (wp (scan_slots m (S i) true (if decide (allowance c k < cap) then allowance c k else cap))
    (fun r s' => scan_post i (S m) any cap s r s') s) as Go.
  { pose proof (allowance_nonneg s i c k B Hr).
    eapply wp_mono; [apply IH; [done|lia|case_decide; lia]|]. cbn beta. intros r s'. apply scan_cons; [done|case_decide; lia|apply scanned_refl| |].
    - intros c' k' (Ea' & Ec' & Ek' & _). assert (c' = c) as -> by congruence. assert (k' = k) as -> by congruence. split; [done|]. case_decide; lia.
    - case_decide; [right; by exists c, k|by left]. }
  apply wp_bind. destruct (decide (allowance c k = 0)) as [E0|E0]; [|by apply wp_ret].
  eapply stalled_run; [done|]. intros [|]; [|done].
  apply wp_bind. apply slot_drop_run; [done|lia|]. intros x Wx Lx Hx. apply wp_bind, wp_modify.
  destruct (dropped_wf s i x B Wx Lx Hx) as [B' Sc]. eapply wp_mono; [apply IH; [exact B'|lia|done]|]. cbn beta. intros r s'.
  apply scan_cons; [done|lia|exact Sc| |by left]. intros c' k' (Ea' & _). fld.
  rewrite list_lookup_insert_eq in Ea' by (by eapply lookup_lt_Some). done.
Qed.

(** ** One round *)

Definition idle_end (e : machine) (r' : rend) : Prop := exists r b, render_next_byte e false r = Some (b, r') /\ b < 0.
Lemma set_rn s r : hub_wf s -> (exists t, mirror_inv W H r t) -> hub_wf (s <| w_rn := r |>).
Proof. intros [? ? ? ? ? ?] Hr. by constructor; fld. Qed.
Lemma render_spec m : forall s, hub_wf s ->
  wp (render_some m) (fun bs s' => exists r', s' = s <| w_rn := r' |> /\ hub_wf s' /\ (length bs <= m)%nat /\ all_bytes bs
    /\ rendered (w_mach s) (w_rn s) bs r' /\ (bs = [] -> m <> 0%nat -> idle_end (w_mach s) r')) s.
Proof.
  induction m as [|m IH]; intros s B; cbn [render_some].
  { apply wp_ret. exists (w_rn s). assert (s <| w_rn := w_rn s |> = s) as -> by by destruct s.
    split_and!; [done|done|done|by apply Forall_nil_2|apply rendered_nil|done]. }
  apply wp_bind. destruct (hb_rend _ B) as [t Ht]. pose proof (next_byte_wp W H HW HH HWH (w_mach s) false (w_rn s) t (hb_screen _ B) Ht) as Hn.
  unfold wp at 1, on_rend. unfold wp in Hn. destruct (render_next_byte (w_mach s) false (w_rn s)) as [[b r1]|] eqn:E; [|done].
  destruct Hn as [_ Hn]. destruct (decide (b = -1)) as [->|Hb].
  - rewrite decide_True by lia. apply wp_ret. exists r1. split_and!; [done| |cbn; lia|by apply Forall_nil_2| |].
    + apply set_rn; [done|]. exists t. by apply Hn.
    + eapply rendered_idle; [exact E|lia|apply rendered_nil].
    + intros _ _. exists (w_rn s), (-1). split; [done|lia].
  - destruct Hn as [Bb Hi]. rewrite decide_False by (unfold is_byte in Bb; lia). apply wp_bind.
    eapply wp_mono; [apply IH, set_rn; [done|by eexists]|]. cbn beta. intros bs s' (r' & -> & B' & L & Bs & R & _). apply wp_ret.
    exists r'. rewrite (u8_id b Bb). fld. split_and!; [by destruct s|exact B'|cbn; lia|by apply Forall_cons| |done].
    by eapply rendered_byte.
Qed.

(** The chunk goes out to slot [i]. *)
Lemma emit_run i c k plain Q s : hub_wf s -> ready_at s i c k -> 1 <= len plain <= allowance c k ->
  (forall pad r, len pad = padding 1 (9 + len plain) -> all_bytes pad ->
     Q (seal (ek_s2c c) (send_seq c) (channel_data (peer_chan c) plain) pad)
       (with_ssh i (St (c <| peer_window := peer_window c - len plain |> <| send_seq := u32 (send_seq c + 1) |>) (w_gl s) r) s)) ->
  wp (on_ssh i (ssh_channel_emit plain (SSH_CHAN_CHUNK + 40))) Q s.
Proof.
  intros B Hr Hl HQ. destruct (ready_live s i c k B Hr) as (Es & Tw & Tm & _). destruct Hr as (Ea & Ec & Ek & Et & U).
  unfold allowance, SSH_CHAN_CHUNK in *. eapply ssh_run; [done|].
  eapply wp_mono; [apply (channel_emit_wp (ssh_view s c) plain)|].
  - cbn [ssh_view cn]. unfold is_u32 in Tw. change (2 ^ 32) with 4294967296. lia.
  - destruct (decide (len plain = 200)) as [->|]; [by left|right; lia].
  - cbn beta. intros w t. rewrite decide_True; [intros (pad & r & Lp & Bp & -> & _ & ->); by apply HQ|].
    unfold may_emit, SSH_CHAN_CHUNK, channel_up in *. cbn [ssh_view cn].
    destruct (chan_open c), (shell_ready c), (chan_closed c); try done. split_and!; try done; lia.
Qed.
Lemma sent_chunk_run k c plain pad : conn_wf k -> 1 <= len plain <= allowance c k -> len pad = padding 1 (9 + len plain) -> all_bytes pad ->
  let w := seal (ek_s2c c) (send_seq c) (channel_data (peer_chan c) plain) pad in
  len w <= 4095 - queued k /\
  sent_chunk plain (c, k) (c <| peer_window := peer_window c - len plain |> <| send_seq := u32 (send_seq c + 1) |>, push_all w k).
Proof.
  intros Wk Hl Lp Bp w. unfold allowance, SSH_CHAN_CHUNK in Hl. pose proof (queued_range k) as Hq.
  assert (len w <= 4095 - queued k) as Lw.
  { unfold w. pose proof (channel_data_len (peer_chan c) plain) as Hcl. pose proof (padding_range 1 (9 + len plain)) as Hpr. rewrite seal_length; lia. }
  split; [done|]. destruct (push_all_spec w k Wk Lw) as (W' & Q' & _). rewrite bytes_u8 in Q' by apply seal_bytes.
  exists pad. split_and!; [done|done|unfold allowance, SSH_CHAN_CHUNK; lia|done|exact Q'|exact W'|apply push_all_state].
Qed.

(** Slots [i .. i + m - 1] that are ready got the chunk; the others are untouched. *)
Record cast (i m : nat) (plain : list Z) s s' : Prop := {
  ca_same : s' = s <| w_net := w_net s' |> <| ssh_slots := ssh_slots s' |> <| w_rg := w_rg s' |>;
  ca_out j : (j < i \/ i + m <= j)%nat -> ssh_slots s' !! j = ssh_slots s !! j /\ conns (w_net s') !! j = conns (w_net s) !! j;
  ca_in j c' k' : (i <= j < i + m)%nat -> ready_at s' j c' k' -> exists c k, ready_at s j c k /\ sent_chunk plain (c, k) (c', k')
}.
Lemma cast_refl i plain s : cast i 0 plain s s.
Proof. constructor; [by destruct s|done|lia]. Qed.
Lemma cast_active i m plain s s' : cast i m plain s s' -> ssh_active s' = ssh_active s.
Proof. intros [E _ _]. by rewrite E. Qed.
Lemma ready_same s s' j c k : ssh_active s' = ssh_active s ->
  ssh_slots s' !! j = ssh_slots s !! j /\ conns (w_net s') !! j = conns (w_net s) !! j -> ready_at s j c k <-> ready_at s' j c k.
Proof. unfold ready_at. by intros -> [-> ->]. Qed.
Lemma cast_cons i m plain s s1 s' : cast i 1 plain s s1 -> cast (S i) m plain s1 s' -> cast i (S m) plain s s'.
Proof.
  intros C1 C2. pose proof (cast_active _ _ _ _ _ C1) as A1. pose proof (cast_active _ _ _ _ _ C2) as A2.
  destruct C1 as [E1 O1 I1], C2 as [E2 O2 I2]. constructor.
  - rewrite E2, E1. fld. by destruct s, s1, s'.
  - intros j Hj. destruct (O2 j ltac:(lia)) as [-> ->]. apply O1. lia.
  - intros j c' k' Hj Hr. destruct (decide (j = i)) as [->|Hn].
    + apply I1; [lia|]. eapply ready_same; [exact A2|apply O2; lia|done].
    + destruct (I2 j c' k' ltac:(lia) Hr) as (c & k & Hr1 & Hs). exists c, k. split; [|done].
      eapply ready_same; [exact A1|apply O1; lia|done].
Qed.
Lemma cast_skip i plain s : (forall c k, ~ ready_at s i c k) -> cast i 1 plain s s.
Proof. intros Hn. constructor; [by destruct s|done|]. intros j c k Hj Hr. assert (j = i) as -> by lia. by destruct (Hn c k). Qed.
Lemma gate_sent c w q : gate c -> gate (c <| peer_window := w |> <| send_seq := q |>).
Proof. intros [G1 G2 G3 G4 G5 G6]. by constructor. Qed.

Lemma cast_one s i c k plain r k' : hub_wf s -> ready_at s i c k -> len plain <= allowance c k ->
  let c' := c <| peer_window := peer_window c - len plain |> <| send_seq := u32 (send_seq c + 1) |> in
  sent_chunk plain (c, k) (c', k') ->
  let s' := on_conn i k' (with_ssh i (St c' (w_gl s) r) s) in hub_wf s' /\ cast i 1 plain s s'.
Proof.
  intros B Hr Hl c' Hs s'. destruct (ready_live s i c k B Hr) as (_ & Tw & Tm & Wk). pose proof Hr as (Ea & Ec & Ek & Et & U).
  assert (conn_wf k') as Wk' by (destruct Hs as (? & _ & _ & _ & _ & _ & H1 & _); exact H1).
  destruct B as [[Wn Ln] Bs Ba Bm Br Bl]. split.
  - constructor; unfold s', on_conn, with_ssh; fld; [|by rewrite length_insert|done|done|done|].
    + split; [by apply with_conn_wf|by rewrite with_conn_slots].
    + intros j cj Ej Ecj. destruct (decide (i = j)) as [<-|Hn].
      * rewrite list_lookup_insert_eq in Ecj by (by eapply lookup_lt_Some). injection Ecj as <-. destruct (Bl i c Ea Ec) as (G & _ & _).
        split; [by apply gate_sent|]. unfold c', is_u32, allowance in *. fld. lia.
      * rewrite list_lookup_insert_ne in Ecj by done. by apply (Bl j).
  - constructor; unfold s', on_conn, with_ssh, with_conn; fld.
    + by destruct s.
    + intros j Hj. by rewrite !list_lookup_insert_ne by lia.
    + intros j c2 k2 Hj (_ & Ec2 & Ek2 & _). fld. assert (j = i) as -> by lia.
      rewrite list_lookup_insert_eq in Ec2 by (by eapply lookup_lt_Some). rewrite list_lookup_insert_eq in Ek2 by (by eapply lookup_lt_Some).
      injection Ec2 as <-. injection Ek2 as <-. by exists c, k.
Qed.
Lemma emit_spec m : forall i plain s, hub_wf s -> (i + m <= n)%nat -> 1 <= len plain ->
  (forall j c k, (i <= j < i + m)%nat -> ready_at s j c k -> len plain <= allowance c k) ->
  wp (emit_slots m i plain) (fun _ s' => hub_wf s' /\ cast i m plain s s') s.
Proof.
  induction m as [|m IH]; intros i plain s B Hi H1 Hl; cbn [emit_slots].
  { apply wp_ret. split; [done|apply cast_refl]. }
  assert (forall s1, hub_wf s1 -> cast i 1 plain s s1 -> wp (emit_slots m (S i) plain) (fun _ s' => hub_wf s' /\ cast i (S m) plain s s') s1) as Go.
  { intros s1 B1 C1. eapply wp_mono; [apply IH; [done|lia|done|]|].
    - intros j c k Hj Hr. apply (Hl j); [lia|]. eapply ready_same; [by eapply cast_active|apply (ca_out _ _ _ _ _ C1); lia|done].
    - cbn beta. intros _ s' [B' C']. split; [done|]. by eapply cast_cons. }
  destruct (slot_parts s i B ltac:(lia)) as (b & c & k & Ea & Ec & Ek).
  assert (b && bool_decide (tstate k = TS_ESTAB) && channel_up c = false ->
    wp (emit_slots m (S i) plain) (fun _ s' => hub_wf s' /\ cast i (S m) plain s s') s) as Skip.
  { intros Hb. apply Go; [done|]. apply cast_skip. by apply (not_ready_here s i b c k). }
  apply wp_bind. eapply active_run; [done|]. apply wp_bind. eapply connected_run; [done|].
  destruct b; cbn [negb orb andb] in *; [|by apply Skip].
  destruct (bool_decide (tstate k = TS_ESTAB)) eqn:Et; cbn [negb orb andb] in *; [|by apply Skip]. apply bool_decide_eq_true_1 in Et.
  apply wp_bind. eapply chan_ready_run; [done|]. destruct (channel_up c) eqn:U; cbn [negb]; [|by apply Skip].
  assert (ready_at s i c k) as Hr by (by split_and!). pose proof (Hl i c k ltac:(lia) Hr) as Hlk.
  destruct (ready_live s i c k B Hr) as (_ & _ & _ & Wk).
  apply wp_bind. eapply emit_run; [done|done|lia|]. intros pad r Lp Bp.
  destruct (sent_chunk_run k c plain pad Wk ltac:(lia) Lp Bp) as [Lw Hs].
  apply wp_bind. eapply put_all_run; [exact Ek|exact Wk|exact Lw|].
  destruct (cast_one s i c k plain r _ B Hr Hlk Hs) as [B1 C1]. by apply Go.
Qed.

(** ** The rounds *)

(** Why the broadcast may end: the budget is used up, no slot is ready, a ready
    slot has no room, or the screen has nothing new. *)
Definition must_stop (budget total : Z) s : Prop :=
  total = budget \/ (forall j c k, ~ ready_at s j c k) \/ (exists j c k, ready_at s j c k /\ allowance c k = 0) \/ idle_end (w_mach s) (w_rn s).
Definition cast_post (budget : Z) s s' : Prop :=
  hub_wf s' /\ w_gl s' = w_gl s /\ w_mach s' = w_mach s /\ exists chunks,
    rendered (w_mach s) (w_rn s) (concat chunks) (w_rn s')
    /\ (forall j c k, ready_at s' j c k -> exists c0 k0, ready_at s j c0 k0 /\ delivered chunks (c0, k0) (c, k))
    /\ must_stop budget (len (concat chunks)) s'.
Lemma scanned_rest i s s' : scanned i s s' -> w_gl s' = w_gl s /\ w_mach s' = w_mach s /\ w_rn s' = w_rn s.
Proof. intros [E _ _]. rewrite E. done. Qed.
Lemma cast_rest i m plain s s' : cast i m plain s s' -> w_gl s' = w_gl s /\ w_mach s' = w_mach s /\ w_rn s' = w_rn s.
Proof. intros [E _ _]. rewrite E. done. Qed.

Lemma stop_here budget s s1 r : hub_wf s1 -> scanned 0 s s1 -> (exists r0, r = r0 /\ rendered (w_mach s) (w_rn s) [] r0) ->
  hub_wf (s1 <| w_rn := r |>) -> must_stop budget 0 (s1 <| w_rn := r |>) -> cast_post budget s (s1 <| w_rn := r |>).
Proof.
  intros B1 Sc (r0 & -> & R) B St. destruct (scanned_rest _ _ _ Sc) as (E1 & E2 & _). split; [done|]. split; [done|]. split; [done|].
  exists []. split; [exact R|]. split; [|exact St]. intros j c k Hr. exists c, k. split; [|apply delivered_nil]. by eapply scanned_ready.
Qed.
Lemma cast_round budget plain s s1 r' s3 s4 :
  scanned 0 s s1 -> rendered (w_mach s1) (w_rn s1) plain r' -> cast 0 n plain (s1 <| w_rn := r' |>) s3 ->
  len plain <= budget -> cast_post (budget - len plain) s3 s4 -> cast_post budget s s4.
Proof.
  intros Sc R Ca Hb (B & G & M & chunks & R2 & D & St). destruct (scanned_rest _ _ _ Sc) as (E1 & E2 & E3).
  destruct (cast_rest _ _ _ _ _ Ca) as (F1 & F2 & F3). fld.
  split; [done|]. split; [congruence|]. split; [congruence|]. exists (plain :: chunks). cbn [concat]. split; [|split].
  - rewrite E2, E3 in R. rewrite F2, F3, E2 in R2. by eapply rendered_trans.
  - intros j c k Hr. destruct (D j c k Hr) as (c1 & k1 & Hr1 & Hd).
    assert (j < n)%nat as Hj.
    { destruct Hr as (Ea & _). apply lookup_lt_Some in Ea. by rewrite (hb_active _ B) in Ea. }
    destruct (ca_in _ _ _ _ _ Ca j c1 k1 ltac:(lia) Hr1) as (c0 & k0 & Hr0 & Hs). exists c0, k0. split; [|by eapply delivered_cons].
    eapply scanned_ready; [exact Sc|exact Hr0].
  - rewrite length_app. destruct St as [St|St]; [left; lia|by right].
Qed.

Lemma broadcast_rounds fuel : forall budget s, hub_wf s -> 1 <= budget <= Z.of_nat fuel -> budget <= 512 ->
  wp (broadcast_loop fuel budget) (fun _ s' => cast_post budget s s') s.
Proof.
  induction fuel as [|fuel IH]; intros budget s B Hb H512; [lia|]. cbn [broadcast_loop].
  apply wp_bind, wp_gets. rewrite (proj2 (hb_net _ B)).
  apply wp_bind. eapply wp_mono; [apply (scan_spec n 0 false SSH_CHAN_CHUNK s B); [lia|unfold SSH_CHAN_CHUNK; lia]|]. cbn beta.
  intros [any cap] s1 (B1 & Sc & Hc & _ & Hin & Hex). cbn [fst snd] in *. unfold SSH_CHAN_CHUNK in Hc, Hex.
  assert (s1 <| w_rn := w_rn s1 |> = s1) as Es1 by by destruct s1.
  assert (forall j c k, ready_at s1 j c k -> any = true /\ cap <= allowance c k) as Hall.
  { intros j c k Hr. apply (Hin j c k); [|done]. destruct Hr as (Ea & _). apply lookup_lt_Some in Ea. rewrite (hb_active _ B1) in Ea. lia. }
  assert (forall P : Prop, (P -> must_stop budget 0 s1) -> P -> wp (mret tt) (fun _ s' => cast_post budget s s') s1) as Stop.
  { intros P HP Hp. apply wp_ret. rewrite <- Es1. apply stop_here; [done|done| |by rewrite Es1|rewrite Es1; auto].
    exists (w_rn s1). split; [done|]. rewrite (proj2 (proj2 (scanned_rest _ _ _ Sc))). apply rendered_nil. }
  destruct any; cbn [negb orb]; [|apply (Stop (false = false)); [|done]; intros _; right; left; intros j c k Hr; by destruct (Hall j c k Hr)].
  destruct (bool_decide (cap = 0)) eqn:E0.
  { apply bool_decide_eq_true_1 in E0. apply (Stop (cap = 0)); [|done]. intros _. destruct Hex as [Hex|(j & c & k & Hr & Hex)]; [lia|].
    right. right. left. exists j, c, k. split; [done|lia]. }
  apply bool_decide_eq_false_1 in E0. set (m := if decide (cap > budget) then budget else cap).
  assert (1 <= m <= cap /\ m <= budget) as Hm by (unfold m; case_decide; lia). rewrite decide_False by lia.
  apply wp_bind. eapply wp_mono; [apply (render_spec (Z.to_nat m) s1 B1)|]. cbn beta. intros plain s2 (r' & -> & B2 & Lp & Bp & R & Ri).
  destruct (decide (plain = [])) as [->|Hne].
  { apply wp_ret. apply stop_here; [done|done| |done|].
    - exists r'. split; [done|]. destruct (scanned_rest _ _ _ Sc) as (_ & <- & <-). exact R.
    - right. right. right. apply Ri; [done|lia]. }
  assert (1 <= len plain) as H1 by (destruct plain; [done|cbn [length]; lia]).
  apply wp_bind. eapply wp_mono; [apply (emit_spec n 0 plain _ B2); [lia|done|]|].
  { intros j c k _ Hr. destruct (Hall j c k Hr) as [_ Hk]. lia. }
  cbn beta. intros _ s3 [B3 Ca]. rewrite u16_id by (unfold is_u16; lia). case_decide as Hz.
  - apply wp_ret. eapply (cast_round budget plain s s1 r' s3 s3 Sc R Ca); [lia|]. split; [done|]. split; [done|]. split; [done|].
    exists []. split; [apply rendered_nil|]. split; [intros j c k Hr; exists c, k; by split; [|apply delivered_nil]|left; cbn; lia].
  - eapply wp_mono; [apply IH; [done|lia|lia]|]. cbn beta. intros _ s4. apply (cast_round budget plain s s1 r' s3 s4 Sc R Ca). lia.
Qed.
End cast.

(** C9: The screen broadcast is exact.  From every state of the invariant the
    broadcast runs to its end without a fault and keeps the invariant; it takes the
    bytes of a sequence of chunks from the renderer, none lost and none twice; and
    every slot that is ready at the end was ready at the start and got exactly
    these chunks in order, each sealed with the slot's own key and sequence number,
    within its window and packet size, charged to the window, and whole in its
    send ring.  It ends only with the budget of 512 bytes used up, without a ready
    slot, with a ready slot that has no room, or with nothing new on the screen. *)
Theorem broadcast_exact {C : Crypto} {OK : CryptoOk C} n W H (s : worker C) :
  0 < W <= 132 -> 0 < H <= 60 -> W * H <= 2000 -> hub_wf n W H s ->
  wp ssh_net_broadcast (fun _ s' => hub_wf n W H s' /\ w_gl s' = w_gl s /\ exists chunks,
    rendered (w_mach s) (w_rn s) (concat chunks) (w_rn s')
    /\ (forall j c k, ready_at s' j c k -> exists c0 k0, ready_at s j c0 k0 /\ delivered chunks (c0, k0) (c, k))
    /\ must_stop TX_BUDGET (len (concat chunks)) s') s.
Proof.
  intros HW HH HWH B. eapply wp_mono; [apply (broadcast_rounds n W H HW HH HWH _ TX_BUDGET s B); unfold TX_BUDGET; lia|].
  cbn beta. intros _ s' (B' & G & _ & chunks & P). split; [done|]. split; [done|]. by exists chunks.
Qed.

(** C8: The screen goes to authenticated clients only.  From every state of the
    invariant the broadcast ends, and a slot whose connection satisfies the
    protocol invariant and is not authenticated is left alone, whatever the other
    slots do: its send ring, its TCP state, its SSH connection with its sequence
    numbers and windows, and its activity are the same after it. *)
Theorem screen_only_to_authenticated {C : Crypto} {OK : CryptoOk C} n W H i c (s : worker C) :
  0 < W <= 132 -> 0 < H <= 60 -> W * H <= 2000 -> hub_wf n W H s ->
  ssh_slots s !! i = Some c -> gate c -> authenticated c = false ->
  wp ssh_net_broadcast (fun _ s' => conns (w_net s') !! i = conns (w_net s) !! i /\ ssh_slots s' !! i = Some c
                                    /\ ssh_active s' !! i = ssh_active s !! i) s.
Proof.
  intros HW HH HWH B E G A. eapply wp_mono; [apply wp_both; [|by apply (unauthenticated_apart i c)]|by intros _ s' [_ H']].
  apply (broadcast_rounds n W H HW HH HWH _ TX_BUDGET s B); unfold TX_BUDGET; lia.
Qed.

(** ** An instance *)

Definition demo_cast : worker toy := demo_worker demo_estab demo_guest (gl demo_st0) false.
Lemma session_gate c : state c = SSH_ST_SESSION -> authenticated c = true -> recv_encrypted c = true -> send_encrypted c = true ->
  keys_ready c = true -> auth_fails c = 0 -> gate c.
Proof. intros E1 E2 E3 E4 E5 E6. constructor; auto; [rewrite E6; unfold SSH_MAX_AUTH_TRIES; lia|]. unfold gate_phase. by rewrite E1. Qed.
Lemma demo_shell_gate : gate demo_shell.
Proof. apply session_gate; vm_compute; reflexivity. Qed.
Lemma demo_cast_wf : hub_wf 2 2 2 demo_cast.
Proof.
  constructor.
  - split; [|reflexivity]. change (w_net demo_cast) with (demo_wnet demo_estab demo_estab). unfold demo_wnet.
    apply with_conn_wf; [|exact demo_estab_wf]. apply with_conn_wf; [apply net0_wf|exact demo_estab_wf].
  - reflexivity.
  - reflexivity.
  - exact demo_screen_ok.
  - exists demo_term. apply mirror_inv_start.
  - intros j c _ E. change (ssh_slots demo_cast) with [demo_guest; demo_shell] in E.
    assert (c = demo_guest \/ c = demo_shell) as [->| ->].
    { destruct j as [|[|j]]; [left|right|destruct j; discriminate]; apply (inj Some); exact (eq_sym E). }
    + split; [exact (ri_gate _ _ demo_fresh)|]. vm_compute. done.
    + split; [exact demo_shell_gate|]. vm_compute. done.
Qed.
Lemma broadcast_exact_witness :
  wp ssh_net_broadcast (fun _ s' => exists chunks, rendered demo_screen rend0 (concat chunks) (w_rn s')
    /\ forall c k, ready_at s' 1 c k -> exists c0 k0, ready_at demo_cast 1 c0 k0 /\ delivered (C := toy) chunks (c0, k0) (c, k)) demo_cast.
Proof.
  eapply wp_mono; [refine (broadcast_exact (OK := toy_ok) 2 2 2 demo_cast _ _ _ demo_cast_wf); lia|].
  cbn beta. intros _ s' (_ & _ & chunks & R & D & _). exists chunks. split; [exact R|]. intros c k. apply D.
Defined.

Lemma screen_only_to_authenticated_witness :
  wp ssh_net_broadcast (fun _ s' => conns (w_net s') !! 0%nat = Some demo_estab /\ ssh_slots s' !! 0%nat = Some demo_guest) demo_cast.
Proof.
  assert (authenticated demo_guest = false) as A by (vm_compute; reflexivity).
  eapply wp_mono; [refine (screen_only_to_authenticated (OK := toy_ok) 2 2 2 0 demo_guest demo_cast _ _ _ demo_cast_wf eq_refl (ri_gate _ _ demo_fresh) A); lia|].
  cbn beta. intros _ s' (E1 & E2 & _). split; [rewrite E1; reflexivity|exact E2].
Defined.
