(* ===== verification/WorkerTotal.v ===== *)
(** * The drain of the keystroke ring runs to its end

    [press_keys] with the session close that /EOF adds to it, from every state of
    the invariant of WorkerCast. *)
From Stdlib Require Import ZArith Lia.
From stdpp Require Import base list numbers.
From S2P Require Import Prelude Kbd Ansikey Sha256 SshWire Crypto SshConn SshKex SshAuth SshChan Ssh SshSafe.
From S2P Require Import Net NetInv NetProps Render Terminal Mirror TelnetProps Worker WorkerProps WorkerPump WorkerCast.
Local Open Scope Z_scope.

(** ** Closing a channel *)

Section close.
Context {C : Crypto} {OK : CryptoOk C}.
Implicit Types t : st C.

(** The output queue and the flow-control fields have their types. *)
Definition typed t : Prop := ob_ok t /\ is_u32 (peer_window (cn t)) /\ is_u32 (peer_maxpkt (cn t)).
Definition tsafe {A} (m : M (st C) A) : Prop := forall t, typed t -> wp m (fun _ t' => typed t') t.

Lemma tsafe_bind {A B} (m : M (st C) A) (k : A -> M (st C) B) : tsafe m -> (forall a, tsafe (k a)) -> tsafe (m ≫= k).
Proof. intros Hm Hk t Ht. apply wp_bind. eapply wp_mono; [by apply Hm|]. intros a t' Ht'. by apply Hk. Qed.
Lemma tsafe_ret {A} (a : A) : tsafe (mret a).
Proof. intros t Ht. by apply wp_ret. Qed.
Lemma tsafe_get {A B} (f : ssh_conn -> A) (k : A -> M (st C) B) : (forall a, tsafe (k a)) -> tsafe (cget f ≫= k).
Proof. intros Hk t Ht. apply wp_bind, wp_cget. by apply Hk. Qed.
Lemma tsafe_cset {T} (f : ssh_conn -> T) `{!Upd f} v :
  (forall c, peer_window (c <| f := v |>) = peer_window c /\ peer_maxpkt (c <| f := v |>) = peer_maxpkt c) -> tsafe (cset f v).
Proof. intros H t (O & W & M). apply wp_cset. destruct (H (cn t)) as [E1 E2]. unfold typed. cbn [cn gl]. by rewrite E1, E2. Qed.
Lemma tsafe_when b (m : M (st C) unit) : tsafe m -> tsafe (when b m).
Proof. destruct b; [done|]. intros _. apply tsafe_ret. Qed.
Lemma tsafe_fits {B} cap p (k : list Z -> M (st C) B) : len p <= cap -> tsafe (k p) -> tsafe (fits cap p ≫= k).
Proof. intros L Hk t Ht. apply wp_bind, wp_fits; [done|]. by apply Hk. Qed.
Lemma quiet_typed t t' : quiet t t' -> ob_ok t' -> typed t -> typed t'.
Proof.
  intros (E & _ & _) O (_ & W & M). split; [done|].
  pose proof (f_equal peer_window E) as E1. pose proof (f_equal peer_maxpkt E) as E2. unfold core in E1, E2. fld. by rewrite E1, E2.
Qed.
Lemma tsafe_send p : len p <= 60000 -> tsafe (send_packet p).
Proof.
  intros L t Ht. eapply wp_mono; [apply send_packet_wp; [apply Ht|done]|]. cbn beta. intros _ t' [Q O]. by eapply quiet_typed.
Qed.

Lemma flush_loop_safe fuel : forall sent, 0 <= sent -> tsafe (flush_loop fuel sent).
Proof.
  induction fuel as [|fuel IH]; intros sent Hs t Ht; cbn [flush_loop]; [by apply wp_ret|].
  apply wp_bind, wp_gget. case_decide; [|by apply wp_ret]. apply wp_bind, wp_cget, wp_bind, wp_cget, wp_bind, wp_gget. cbv zeta.
  set (n := Z.min _ _). case_decide; [by apply wp_ret|]. case_decide; [by apply wp_ret|].
  assert (0 <= n <= 200 /\ sent + n <= len (g_cout (gl t))) as Hn.
  { destruct Ht as (_ & W & M). unfold n, SSH_CHAN_CHUNK, is_u32 in *. lia. }
  apply wp_bind, wp_cget. destruct (rd_bytes_is_Some (g_cout (gl t)) sent n) as [d Ed]; [lia..|]. apply wp_bind, (wp_lift _ d); [done|].
  apply rd_bytes_Some in Ed as (_ & _ & _ & Ld & _). pose proof (channel_data_len (peer_chan (cn t)) d) as Lc.
  apply wp_bind, wp_fits; [lia|]. apply wp_bind. eapply wp_mono; [apply tsafe_send; [lia|done]|]. cbn beta. intros _ t1 Ht1.
  apply wp_bind, wp_cget. case_decide; [by apply wp_ret|]. apply wp_bind, wp_cget, wp_bind, wp_cset. apply IH; [lia|].
  destruct Ht1 as (O & W & M). unfold typed. cbn [cn gl]. fld. split_and!; [done|apply u32_range|done].
Qed.
Lemma flush_safe' : tsafe ssh_channel_flush.
Proof.
  unfold ssh_channel_flush. apply tsafe_get. intros op. apply tsafe_get. intros cl. intros t Ht. destruct (negb op || cl); [by apply wp_gset|].
  apply wp_bind, wp_gget, wp_bind. eapply wp_mono; [by apply flush_loop_safe|]. cbn beta. intros sent t1 Ht1.
  destruct (bool_decide (sent <> 0)); cbn [when]; [|by apply wp_ret]. apply wp_bind, wp_gget. by apply wp_gset.
Qed.
Lemma close_safe : tsafe ssh_channel_close.
Proof.
  unfold ssh_channel_close. apply tsafe_get. intros op. apply tsafe_get. intros sc. destruct (negb op || sc); [apply tsafe_ret|].
  apply tsafe_bind; [apply flush_safe'|intros _]. apply tsafe_get. intros pc. apply tsafe_get. intros sh.
  apply tsafe_bind; [apply tsafe_when, tsafe_fits; [vm_compute; discriminate|apply tsafe_send; vm_compute; discriminate]|intros _].
  apply tsafe_get. intros se. apply tsafe_bind; [apply tsafe_when, tsafe_bind; [apply tsafe_send; vm_compute; discriminate|]|]; intros _.
  { by apply tsafe_cset. }
  apply tsafe_bind; [apply tsafe_send; vm_compute; discriminate|intros _].
  apply tsafe_bind; [by apply tsafe_cset|intros _]. by apply tsafe_cset.
Qed.
End close.

(** ** The drain *)

Section drain.
Context {C : Crypto} {OK : CryptoOk C} (n : nat) (W H : Z).
Implicit Types s : worker C.
Abbreviation hub_wf := (hub_wf n W H).

Lemma hub_same s s' : w_net s' = w_net s -> ssh_slots s' = ssh_slots s -> ssh_active s' = ssh_active s -> w_mach s' = w_mach s ->
  w_rn s' = w_rn s -> hub_wf s -> hub_wf s'.
Proof. intros E1 E2 E3 E4 E5 []. constructor; by rewrite ?E1, ?E2, ?E3, ?E4, ?E5. Qed.
Lemma key_in_safe b s : hub_wf s -> wp (key_in b) (fun _ s' => hub_wf s' /\ w_gl s' = w_gl s /\ ssh_active s' = ssh_active s /\ w_cfg s' = w_cfg s) s.
Proof.
  intros B. apply wp_modify. destruct (ansi_key_byte b (w_keys s)) as [ev k].
  assert (forall ev s1, hub_wf s1 -> let s' := foldl key_event s1 ev in
    hub_wf s' /\ w_gl s' = w_gl s1 /\ ssh_active s' = ssh_active s1 /\ w_cfg s' = w_cfg s1) as Hev; [|refine (Hev ev (s <| w_keys := k |>) _); by apply (hub_same s)].
  clear. induction ev as [|e ev IH]; intros s1 B; cbn [foldl]; [done|].
  assert (hub_wf (key_event s1 e)) as B1 by (destruct e; by apply (hub_same s1)).
  destruct (IH _ B1) as (H1 & H2 & H3 & H4). split; [done|]. rewrite H2, H3, H4. by destruct e.
Qed.
Lemma getc_runs i c s : hub_wf s -> glob_ok (w_gl s) -> ssh_slots s !! i = Some c ->
  wp (on_ssh i ssh_channel_getc) (fun _ s' => hub_wf s' /\ glob_ok (w_gl s') /\ ssh_slots s' !! i = Some c /\ ssh_active s' = ssh_active s) s.
Proof.
  intros B G E. eapply ssh_run; [done|].
  pose proof (wp_both _ _ _ _ (channel_getc_spec (ssh_view s c) (go_cin _ G)) (getc_sized (ssh_view s c))) as Hg.
  eapply wp_mono; [exact Hg|]. cbn beta. intros b t [(_ & Ec & _) Z]. cbn [ssh_view cn] in Ec.
  assert (ssh_slots (with_ssh i t s) = ssh_slots s) as Es by (unfold with_ssh; fld; rewrite Ec; by apply list_insert_id).
  split; [by apply (hub_same s)|]. split; [by apply (sized_glob (ssh_view s c))|]. by rewrite Es.
Qed.
Lemma close_runs i c s : hub_wf s -> glob_ok (w_gl s) -> ssh_active s !! i = Some true -> ssh_slots s !! i = Some c ->
  wp (on_ssh i ssh_channel_close ;; ssh_pump_output i ;; on_net net_tx_flush) (fun _ _ => True) s.
Proof.
  intros B G Ea E. destruct (hb_live _ _ _ _ B i c Ea E) as (_ & T1 & T2). destruct (hb_net _ _ _ _ B) as [Wn Ln].
  apply wp_bind. eapply ssh_run; [done|]. eapply wp_mono; [apply close_safe; split_and!; [apply G|done|done]|]. cbn beta. intros _ t _.
  set (s1 := with_ssh i t s). assert (ssh_slots s1 !! i = Some (cn t)) as E1.
  { unfold s1, with_ssh. fld. by rewrite list_lookup_insert_eq by (by eapply lookup_lt_Some). }
  destruct (lookup_lt_is_Some_2 (conns (w_net s)) i) as [k Ek].
  { apply lookup_lt_Some in E. by rewrite Ln, <- (hb_slots _ _ _ _ B). }
  pose proof (slot_wf _ _ _ Wn Ek) as Wk. apply wp_bind. unfold ssh_pump_output. apply wp_bind, wp_gets.
  apply (pump_run _ i (cn t) k); [done|exact Ek|done|lia|]. cbv zeta.
  set (ob := take _ _). apply net_run. unfold set_ob, on_conn. fld. change (w_net s1) with (w_net s).
  eapply wp_mono; [apply (flush_safe n)|done].
  - apply with_conn_wf; [done|]. apply push_all_spec; [done|]. unfold ob. pose proof (queued_range k). rewrite length_take. lia.
  - by rewrite with_conn_slots.
Qed.
Lemma press_runs fuel i : forall c s, hub_wf s -> glob_ok (w_gl s) -> ssh_active s !! i = Some true -> ssh_slots s !! i = Some c ->
  wp (press_keys fuel i) (fun _ _ => True) s.
Proof.
  induction fuel as [|fuel IH]; intros c s B G Ea E; cbn [press_keys]; [by apply wp_ret|].
  apply wp_bind. eapply wp_mono; [by apply (getc_runs i c)|]. cbn beta. intros b s1 (B1 & G1 & E1 & Ea1). case_decide; [|by apply wp_ret].
  apply wp_bind, wp_gets. destruct (w_eof (w_cfg s1) && bool_decide (b = 4)); [apply (close_runs i c); [done..|congruence|done]|].
  destruct (hb_live _ _ _ _ B1 i c ltac:(congruence) E1) as (Gc & Tc).
  apply wp_bind. eapply wp_mono; [apply wp_both; [by apply (key_in_safe (u8 b))|apply (key_in_machine b)]|]. cbn beta.
  intros _ s2 [(B2 & G2 & Ea2 & _) (Es2 & _)]. apply (IH c); [done|by rewrite G2|congruence|by rewrite Es2].
Qed.
End drain.

(** The drain of the keystroke ring is exact and ends.  From every state of the
    invariant, all keystrokes in the ring are pressed in order and the ring is left
    empty; with /EOF only those before the first Ctrl-D are pressed, and those
    after it stay in the ring that all clients share, where the next slot's drain
    finds them. *)
Theorem drain_exact {C : Crypto} {OK : CryptoOk C} n W H i c (s : worker C) :
  hub_wf n W H s -> glob_ok (w_gl s) -> ssh_active s !! i = Some true -> ssh_slots s !! i = Some c ->
  wp (press_keys 256 i) (fun _ s' =>
    machine_of s' = foldl press (machine_of s) (pressed (w_eof (w_cfg s)) (cin_queue (w_gl s)))
    /\ cin_queue (w_gl s') = left_over (w_eof (w_cfg s)) (cin_queue (w_gl s))) s.
Proof.
  intros B G Ea E. eapply wp_mono; [apply wp_both; [by apply (press_runs n W H 256 i c)|apply (press_spec 256 i s c E (go_cin _ G))]|].
  - rewrite queue_length. unfold cin_count, SSH_CIN_SZ. Z.div_mod_to_equations. lia.
  - by intros _ s' [_ []].
Qed.

(** ** An instance *)

(** "a", Ctrl-D, "b" in the shared ring. *)
Definition demo_ring : ssh_glob := (gl demo_st0) <| g_cin := [97; 4; 98] ++ replicate 253 0 |> <| g_cin_tail := 3 |> <| g_ob := [] |>.
Definition demo_drain : worker toy := demo_worker demo_estab demo_guest demo_ring true.
Lemma demo_drain_wf : hub_wf 2 2 2 demo_drain.
Proof. destruct demo_cast_wf as [B1 B2 B3 B4 B5 B6]. constructor; [exact B1|exact B2|exact B3|exact B4|exact B5|exact B6]. Qed.
Lemma demo_ring_ok : glob_ok demo_ring.
Proof.
  destruct demo_glob_ok as [_ _ G3 G4].
  constructor; [discriminate|constructor; [reflexivity|split; [discriminate|reflexivity]|split; [discriminate|reflexivity]]|exact G3|exact G4].
Qed.
Lemma drain_exact_witness :
  wp (press_keys 256 0) (fun _ s' => machine_of s' = press (machine_of demo_drain) 97 /\ cin_queue (w_gl s') = [98]) demo_drain.
Proof.
  pose proof (drain_exact (OK := toy_ok) 2 2 2 0 demo_guest demo_drain demo_drain_wf demo_ring_ok eq_refl eq_refl) as H.
  assert (cin_queue demo_ring = [97; 4; 98]) as Q by (vm_compute; reflexivity).
  change (w_gl demo_drain) with demo_ring in H. rewrite Q in H. exact H.
Defined.
