(* ===== verification/Serial.v ===== *)
(** * The serial transports (src/dosshd/dosshd.c)

    The plain serial console ([pump_rx], [tx_pump] on COM1) and SSH over COM1
    ([ssh_serial_pump_output], [ssh_tx_pump], [ssh_serial_worker]).  What the ports
    answer is a sequence of readings the theorems quantify over; what is written to
    the transmit register is a list. *)
From Stdlib Require Import ZArith Lia.
From stdpp Require Import base list numbers.
From S2P Require Import Prelude Kbd Ansikey Sha256 SshWire Crypto SshConn SshKex SshAuth SshChan Ssh Net Render Worker.
Local Open Scope Z_scope.

Record serial {C : Crypto} := Serial {
  sr_work : worker C;  (* everything but COM1 *)
  sr_started : bool;  (* g_ssh_ser_started *)
  sr_reads : nat;  (* port readings so far *)
  sr_thr : list Z  (* bytes written to U_THR *)
}.
Arguments serial C : clear implicits.
#[export] Instance serial_eta C : Eta (serial C) := fun r => Serial C (sr_work r) (sr_started r) (sr_reads r) (sr_thr r).
#[export] Instance upd_sr_work C : Upd (@sr_work C) := ltac:(derive_upd (@sr_work C)).
#[export] Instance upd_sr_started C : Upd (@sr_started C) := ltac:(derive_upd (@sr_started C)).
#[export] Instance upd_sr_reads C : Upd (@sr_reads C) := ltac:(derive_upd (@sr_reads C)).
#[export] Instance upd_sr_thr C : Upd (@sr_thr C) := ltac:(derive_upd (@sr_thr C)).

Section serial.
Context {C : Crypto} (reading : nat -> Z).
Implicit Types s : serial C.

Definition on_work {A} (m : M (worker C) A) : M (serial C) A :=
  fun s => match m (sr_work s) with Some (a, w) => Some (a, s <| sr_work := w |>) | None => None end.
(** [inp( U_LSR )], [inp( U_RBR )] *)
Definition inp : M (serial C) Z := n ← gets sr_reads; modify (fun s => s <| sr_reads := S n |>) ;; mret (u8 (reading n)).
(** [outp( U_THR, b )] *)
Definition outp_thr (b : Z) : M (serial C) unit := modify (fun s => s <| sr_thr := sr_thr s ++ [u8 b] |>).

(** ** The plain console *)

(** A call that has not returned after [fuel] bytes has no outcome here. *)
Fixpoint pump_rx (fuel : nat) : M (serial C) unit :=
  match fuel with
  | O => fun _ => None
  | S fuel =>
      l ← inp;
      if decide (Z.land l 0x01 = 0) then mret tt
      else b ← inp; on_work (key_in b) ;; pump_rx fuel
  end.
(** [while( (inp( U_LSR ) & 0x20) == 0 ) pump_rx();] *)
Fixpoint wait_thr_rx (fuel : nat) : M (serial C) unit :=
  match fuel with
  | O => fun _ => None
  | S fuel' => l ← inp; if decide (Z.land l 0x20 = 0) then pump_rx fuel ;; wait_thr_rx fuel' else mret tt
  end.
Fixpoint serial_tx_pump (fuel : nat) (budget : nat) : M (serial C) unit :=
  match budget with
  | O => mret tt
  | S budget =>
      b ← on_work (on_rend (fun e => render_next_byte e true));
      if decide (b < 0) then mret tt
      else wait_thr_rx fuel ;; outp_thr b ;; serial_tx_pump fuel budget
  end.
(** The body of [tick_isr] without a network. *)
Definition serial_tick (fuel : nat) : M (serial C) unit :=
  on_work (modify (fun w : worker C => let '(ev, k) := ansi_key_tick (w_keys w) in foldl key_event (w <| w_keys := k |>) ev)) ;;
  pump_rx fuel ;;
  serial_tx_pump fuel 512.

(** ** SSH over COM1 *)

(** The wait for the transmit register: the 60001st empty answer ends it. *)
Fixpoint wait_thr (n : nat) : M (serial C) unit :=
  match n with
  | O => mret tt
  | S n => l ← inp; if decide (Z.land l 0x20 = 0) then wait_thr n else mret tt
  end.
Definition GUARD : nat := Z.to_nat 60001.
Fixpoint send_all (bs : list Z) : M (serial C) unit :=
  match bs with [] => mret tt | b :: bs => wait_thr GUARD ;; outp_thr b ;; send_all bs end.
(** The loop of [ssh_serial_pump_output]; every round takes at least one byte of
    the budget. *)
Fixpoint serial_pump_loop (fuel : nat) (budget : Z) : M (serial C) unit :=
  match fuel with
  | O => mret tt
  | S fuel =>
      if decide (budget = 0) then mret tt
      else
        out ← on_work (on_ssh 0 (ssh_output (if decide (budget < 128) then budget else 128)));
        if decide (out = []) then mret tt
        else send_all out ;; serial_pump_loop fuel (u16 (budget - len out))
  end.
Definition ssh_serial_pump_output : M (serial C) unit := serial_pump_loop 1025 1024.

Fixpoint tx_loop (budget : nat) : M (worker C) unit :=
  match budget with
  | O => mret tt
  | S budget =>
      b ← on_rend (fun e => render_next_byte e false);
      if decide (b < 0) then mret tt
      else
        ok ← on_ssh 0 (ssh_channel_putc b);
        if negb ok then on_rend (fun _ => render_pushback b) else tx_loop budget
  end.
Definition ssh_tx_pump : M (worker C) unit := tx_loop 512.

(** The bytes that have arrived, at most [n]; each stirs the pool. *)
Fixpoint serial_read (n : nat) : M (serial C) (list Z) :=
  match n with
  | O => mret []
  | S n =>
      l ← inp;
      if decide (Z.land l 0x01 = 0) then mret []
      else
        b ← inp;
        on_work (x ← next_stir; stir (Z.lxor b x)) ;;
        rest ← serial_read n;
        mret (b :: rest)
  end.
(** Start, or restart, the session with the first bytes. *)
Definition serial_begin : M (serial C) unit :=
  on_work (
    cfg ← gets w_cfg;
    on_ssh 0 (ssh_reset (w_hostkey_sk cfg) (w_hostkey_pk cfg)) ;;
    when (w_have_pw cfg) (on_ssh 0 (ssh_set_password (w_pw cfg))) ;;
    when (bool_decide (w_authkey_count cfg <> 0)) (on_ssh 0 (ssh_set_authorized_keys (w_authkeys cfg) (w_authkey_count cfg))) ;;
    modify (fun w : worker C => w <| w_cols := 80 |> <| w_rows := 25 |>)) ;;
  modify (fun s => s <| sr_started := true |>) ;;
  on_work repaint.
Fixpoint serial_press (fuel : nat) : M (serial C) unit :=
  match fuel with
  | O => mret tt
  | S fuel =>
      b ← on_work (on_ssh 0 ssh_channel_getc);
      if decide (b >= 0) then
        cfg ← on_work (gets w_cfg);
        if w_eof cfg && bool_decide (b = 4) then on_work (on_ssh 0 ssh_channel_close) ;; ssh_serial_pump_output
        else on_work (key_in (u8 b)) ;; serial_press fuel
      else mret tt
  end.
Definition serial_screen : M (worker C) unit :=
  '(cols, rows) ← on_ssh 0 ssh_winsize;
  c ← gets w_cols; r ← gets w_rows;
  when (bool_decide (cols <> c \/ rows <> r)) (modify (fun w => w <| w_cols := cols |> <| w_rows := rows |>) ;; repaint).

(** A call of [ssh_input] that did not return. *)
Definition ended (r : option Z) : M (serial C) unit := match r with Some _ => mret tt | None => fun _ => None end.
(** [fuel] bounds the packets of the call of [ssh_input], as in [serve_slot]. *)
Definition ssh_serial_worker (fuel : nat) : M (serial C) unit :=
  rb ← serial_read 256;
  when (bool_decide (rb <> [])) (
    started ← gets sr_started;
    cst ← on_work (on_ssh 0 (cget state));
    when (negb started || bool_decide (cst = SSH_ST_ERROR) || bool_decide (cst = SSH_ST_CLOSED)) serial_begin ;;
    r ← on_work (on_ssh 0 (ssh_input fuel rb));
    ended r) ;;
  started ← gets sr_started;
  when started (
    ssh_serial_pump_output ;;
    rdy ← on_work (on_ssh 0 ssh_channel_ready);
    when rdy (
      on_work serial_screen ;;
      serial_press 256 ;;
      on_work ssh_tx_pump ;;
      on_work (on_ssh 0 ssh_channel_flush) ;;
      ssh_serial_pump_output) ;;
    on_work (x ← next_stir; stir x)).
End serial.
