(* ===== verification/SerialProps.v ===== *)
(** * Properties of the serial transports

    What the pumps of COM1 write and press, and that SSH over COM1 presses no key
    without authentication. *)
From Stdlib Require Import ZArith Lia.
From stdpp Require Import base list numbers.
From S2P Require Import Prelude Kbd Ansikey Sha256 SshWire Crypto SshConn SshKex SshAuth SshChan Ssh SshSafe.
From S2P Require Import Net NetInv NetProps Render Terminal Mirror TelnetProps Worker WorkerProps WorkerPump WorkerCast Serial.
Local Open Scope Z_scope.

Section serial.
Context {C : Crypto} (reading : nat -> Z).
Implicit Types s : serial C.

Lemma wp_on_work {A} (m : M (worker C) A) Q s : wp m (fun a w => Q a (s <| sr_work := w |>)) (sr_work s) -> wp (on_work m) Q s.
Proof. unfold wp, on_work. by destruct (m (sr_work s)) as [[a w]|]. Qed.
Lemma wlp_on_work {A} (m : M (worker C) A) Q s : wlp m (fun a w => Q a (s <| sr_work := w |>)) (sr_work s) -> wlp (on_work m) Q s.
Proof. unfold wlp, on_work. by destruct (m (sr_work s)) as [[a w]|]. Qed.

(** ** The plain console *)

(** The data register between [k] positive answers of the status register. *)
Definition arrived (n k : nat) : list Z := (fun j => u8 (reading (n + 2 * j + 1))) <$> seq 0 k.
Definition data_at (n : nat) : Prop := Z.land (u8 (reading n)) 0x01 <> 0.
Lemma arrived_S n k : arrived n (S k) = u8 (reading (n + 1)) :: arrived (n + 2) k.
Proof.
  unfold arrived. cbn [seq fmap list_fmap]. f_equal; [do 2 f_equal; lia|]. rewrite <- fmap_S_seq, <- list_fmap_compose.
  apply list_fmap_ext. intros i x _. cbn. do 2 f_equal. lia.
Qed.
Lemma pump_rx_S fuel s : pump_rx reading (S fuel) s =
  let s1 := s <| sr_reads := S (sr_reads s) |> in
  if decide (Z.land (u8 (reading (sr_reads s))) 0x01 = 0) then Some (tt, s1)
  else (on_work (key_in (u8 (reading (S (sr_reads s))))) ;; pump_rx reading fuel) (s1 <| sr_reads := S (S (sr_reads s)) |>).
Proof.
  cbn [pump_rx]. unfold inp, mbind at 1, M_bind at 1, mbind at 1, M_bind at 1, gets at 1, mbind at 1, M_bind at 1, modify at 1.
  unfold mret at 1, M_ret at 1. case_decide; [done|].
  unfold mbind at 1, M_bind at 1, mbind at 1, M_bind at 1, gets at 1, mbind at 1, M_bind at 1, modify at 1. done.
Qed.
Lemma pump_rx_run fuel : forall k s, (k < fuel)%nat -> (forall j, (j < k)%nat -> data_at (sr_reads s + 2 * j)) -> ~ data_at (sr_reads s + 2 * k) ->
  wp (pump_rx reading fuel) (fun _ s' => machine_of (sr_work s') = foldl press (machine_of (sr_work s)) (arrived (sr_reads s) k)
    /\ sr_thr s' = sr_thr s /\ sr_reads s' = (sr_reads s + 2 * k + 1)%nat) s.
Proof.
  induction fuel as [|fuel IH]; intros k s Hk Hd He; [lia|]. unfold wp. rewrite pump_rx_S. cbv zeta. unfold data_at in *. case_decide as H0.
  - destruct k as [|k]; [|destruct (Hd 0%nat ltac:(lia)); by rewrite Nat.add_0_r]. fld. split_and!; [done|done|lia].
  - destruct k as [|k]; [destruct He; by rewrite Nat.add_0_r|]. set (s1 := s <| sr_reads := _ |> <| sr_reads := _ |>).
    match goal with |- match ?m ?x with _ => _ end => change (wp m (fun _ s' => machine_of (sr_work s') = foldl press (machine_of (sr_work s)) (arrived (sr_reads s) (S k))
      /\ sr_thr s' = sr_thr s /\ sr_reads s' = (sr_reads s + 2 * S k + 1)%nat) x) end.
    apply wp_bind, wp_on_work. pose proof (key_in_machine (reading (S (sr_reads s))) (sr_work s1)) as Hkey.
    unfold key_in, wlp, modify in Hkey. unfold key_in. apply wp_modify.
    destruct Hkey as (_ & _ & _ & _ & Hm). cbn beta.
    set (w := let '(ev, k0) := _ in _) in *. assert (sr_reads (s1 <| sr_work := w |>) = S (S (sr_reads s))) as Er by done.
    assert (machine_of (sr_work s1) = machine_of (sr_work s)) as Em by done.
    eapply wp_mono; [apply (IH k); [lia| |]|]; rewrite ?Er.
    + intros j Hj. specialize (Hd (S j) ltac:(lia)). replace (sr_reads s + 2 * S j)%nat with (S (S (sr_reads s)) + 2 * j)%nat in Hd by lia. exact Hd.
    + replace (S (S (sr_reads s)) + 2 * k)%nat with (sr_reads s + 2 * S k)%nat by lia. exact He.
    + cbn beta. intros _ s' (E1 & E2 & E3). change (sr_work (s1 <| sr_work := w |>)) with w in E1.
      rewrite E1, E2, E3, Hm, Em, arrived_S. cbn [foldl]. rewrite press_u8. replace (sr_reads s + 1)%nat with (S (sr_reads s)) by lia. replace (sr_reads s + 2)%nat with (S (S (sr_reads s))) by lia.
      split_and!; [done|done|lia].
Qed.
Lemma pump_rx_hangs fuel : forall s, (forall j, data_at (sr_reads s + 2 * j)) -> pump_rx reading fuel s = None.
Proof.
  induction fuel as [|fuel IH]; intros s Hd; [done|]. rewrite pump_rx_S. cbv zeta. rewrite decide_False by (specialize (Hd 0%nat); by rewrite Nat.add_0_r in Hd).
  unfold mbind, M_bind, on_work, key_in, modify. destruct (let '(ev, k) := _ in _); apply IH; fld; intros j; specialize (Hd (S j));
    by replace (sr_reads s + 2 * S j)%nat with (S (S (sr_reads s)) + 2 * j)%nat in Hd by lia.
Qed.

(** ** Output over SSH *)

Lemma inp_run Q s : (forall l, Q l (s <| sr_reads := S (sr_reads s) |>)) -> wp (inp reading) Q s.
Proof. intros HQ. unfold inp. apply wp_bind, wp_gets, wp_bind, wp_modify, wp_ret, HQ. Qed.
Lemma set_reads_twice s a b : s <| sr_reads := a |> <| sr_reads := b |> = s <| sr_reads := b |>.
Proof. by destruct s. Qed.
Lemma wait_run n : forall Q s, (forall k, Q tt (s <| sr_reads := k |>)) -> wp (wait_thr reading n) Q s.
Proof.
  induction n as [|n IH]; intros Q s HQ; cbn [wait_thr].
  - apply wp_ret. specialize (HQ (sr_reads s)). by destruct s.
  - apply wp_bind, inp_run. intros l. case_decide; [|by apply wp_ret]. apply IH. intros k. by rewrite set_reads_twice.
Qed.
#[local] Opaque GUARD.
Lemma send_all_run bs : forall Q s, (forall k, Q tt (s <| sr_reads := k |> <| sr_thr := sr_thr s ++ (u8 <$> bs) |>)) -> wp (send_all reading bs) Q s.
Proof.
  induction bs as [|b bs IH]; intros Q s HQ; cbn [send_all fmap list_fmap] in *.
  - apply wp_ret. specialize (HQ (sr_reads s)). rewrite app_nil_r in HQ. by destruct s.
  - apply wp_bind, wait_run. intros k. apply wp_bind, wp_modify. apply IH. intros k'. fld. specialize (HQ k').
    rewrite <- app_assoc. by destruct s.
Qed.
Lemma serial_pump_run fuel : forall budget c Q s, ssh_slots (sr_work s) !! 0%nat = Some c -> all_bytes (g_ob (w_gl (sr_work s))) ->
  0 <= budget < Z.of_nat fuel -> budget <= 1024 ->
  (forall k, let ob := g_ob (w_gl (sr_work s)) in
     Q tt (s <| sr_work := set_ob (drop (Z.to_nat budget) ob) (sr_work s) |> <| sr_reads := k |> <| sr_thr := sr_thr s ++ take (Z.to_nat budget) ob |>)) ->
  wp (serial_pump_loop reading fuel budget) Q s.
Proof.
  induction fuel as [|fuel IH]; intros budget c Q s E Bo Hf Hb HQ; [lia|]. cbn [serial_pump_loop]. cbv zeta in HQ. case_decide as H0.
  { apply wp_ret. specialize (HQ (sr_reads s)). rewrite H0 in HQ. change (Z.to_nat 0) with 0%nat in HQ.
    rewrite take_0, drop_0, set_ob_id, app_nil_r in HQ. by destruct s. }
  set (m := if decide (budget < 128) then budget else 128). assert (1 <= m <= 128 /\ m <= budget) as Hm by (unfold m; case_decide; lia).
  apply wp_bind, wp_on_work. eapply output_run; [done|]. set (ob := g_ob (w_gl (sr_work s))) in *.
  destruct (decide (take (Z.to_nat m) ob = [])) as [H1|H1].
  { assert (ob = []) as Eob by (destruct ob; [done|]; assert (Z.to_nat m = S (Z.to_nat (m - 1))) as Em by lia; rewrite Em in H1; done).
    apply wp_ret. specialize (HQ (sr_reads s)). rewrite Eob, ?take_nil, ?drop_nil, ?app_nil_r in *. by destruct s. }
  assert (length ob <> 0%nat) as H2 by (destruct ob; [by rewrite take_nil in H1|done]).
  apply wp_bind, send_all_run. intros k. rewrite bytes_u8 by (by apply Forall_take).
  rewrite length_take, u16_id by (unfold is_u16; lia). eapply (IH _ c); [done|by apply Forall_drop|lia|lia|].
  intros k'. cbv zeta. fld. specialize (HQ k').
  set (n := Z.to_nat (budget - _)). assert (Z.to_nat budget = Z.to_nat m + n \/ length ob <= Z.to_nat budget /\ length ob <= Z.to_nat m + n)%nat as Hn by (unfold n; lia).
  change (g_ob (w_gl (set_ob (drop (Z.to_nat m) ob) (sr_work s)))) with (drop (Z.to_nat m) ob).
  rewrite drop_drop, set_ob_twice, <- app_assoc, take_take_drop.
  assert (take (Z.to_nat m + n) ob = take (Z.to_nat budget) ob) as -> by (destruct Hn as [->|[? ?]]; [done|by rewrite !take_ge]).
  assert (drop (Z.to_nat m + n) ob = drop (Z.to_nat budget) ob) as -> by (destruct Hn as [->|[? ?]]; [done|by rewrite !drop_ge]).
  by destruct s.
Qed.

(** ** The screen over SSH *)

Section screen.
Context (W H : Z) (HW : 0 < W <= 132) (HH : 0 < H <= 60) (HWH : W * H <= 2000).
Implicit Types w : worker C.

(** Why [ssh_tx_pump] may stop. *)
Definition tx_stop (w' : worker C) (c : ssh_conn) (n budget : nat) : Prop :=
  n = budget \/ idle_end (w_mach w') (w_rn w') \/ len (g_cout (w_gl w')) = SSH_COUT_SZ \/ shell_ready c = false \/ chan_closed c = true.
Definition tx_post w c (budget : nat) w' : Prop := exists bs, g_cout (w_gl w') = g_cout (w_gl w) ++ bs
  /\ (forall t, mirror_inv W H (w_rn w) t -> mirror_inv W H (w_rn w') (run W H t bs)) /\ tx_stop w' c (length bs) budget
  /\ len (g_cout (w_gl w')) <= SSH_COUT_SZ /\ ssh_slots w' = ssh_slots w /\ w_mach w' = w_mach w.
Lemma putc_cases b c w Q : ssh_slots w !! 0%nat = Some c ->
  (shell_ready c = false \/ chan_closed c = true \/ len (g_cout (w_gl w)) >= SSH_COUT_SZ -> Q false w) ->
  (shell_ready c = true -> chan_closed c = false -> len (g_cout (w_gl w)) < SSH_COUT_SZ ->
     Q true (w <| w_gl := ((w_gl w) <| g_cout := g_cout (w_gl w) ++ [u8 b] |>) |>)) ->
  wp (on_ssh 0 (ssh_channel_putc b)) Q w.
Proof.
  intros E Hf Ht. eapply ssh_run; [done|]. unfold ssh_channel_putc. apply wp_bind, wp_cget, wp_bind, wp_cget. cbn [ssh_view cn].
  destruct (shell_ready c) eqn:Es; cbn [negb orb]; [|apply wp_ret; rewrite with_ssh_id by done; auto].
  destruct (chan_closed c) eqn:Ec; [apply wp_ret; rewrite with_ssh_id by done; auto|].
  apply wp_bind, wp_gget. cbn [ssh_view gl]. case_decide as Hl; [apply wp_ret; rewrite with_ssh_id by done; auto|].
  apply wp_bind, wp_gset, wp_ret. unfold with_ssh. cbn [cn gl rg ssh_view]. rewrite list_insert_id by done.
  specialize (Ht eq_refl eq_refl ltac:(lia)). by destruct w.
Qed.
Lemma tx_loop_run budget : forall c w, ssh_slots w !! 0%nat = Some c -> screen_ok W H (w_mach w) -> (exists t, mirror_inv W H (w_rn w) t) ->
  len (g_cout (w_gl w)) <= SSH_COUT_SZ -> wp (tx_loop budget) (fun _ w' => tx_post w c budget w') w.
Proof.
  induction budget as [|budget IH]; intros c w E Sc [t0 Ht0] Lc; cbn [tx_loop].
  { apply wp_ret. exists []. rewrite app_nil_r. split_and!; [done|done|by left|done|done|done]. }
  apply wp_bind. unfold wp at 1, on_rend. pose proof (fun t => next_byte_wp W H HW HH HWH (w_mach w) false (w_rn w) t Sc) as Hn. unfold wp in Hn.
  pose proof (Hn t0 Ht0) as Hn0.
  destruct (render_next_byte (w_mach w) false (w_rn w)) as [[b r1]|] eqn:Er; [|done]. destruct Hn0 as [Hp Hn0].
  destruct (decide (b = -1)) as [->|Hb].
  { rewrite decide_True by lia. apply wp_ret. exists []. fld. rewrite app_nil_r. split_and!; [done| | |done|done|done].
    - intros t Ht. cbn. by apply (Hn t Ht).
    - right. left. exists (w_rn w), (-1). split; [exact Er|lia]. }
  destruct Hn0 as [Bb _]. rewrite decide_False by (unfold is_byte in Bb; lia).
  assert (forall t, mirror_inv W H (w_rn w) t -> mirror_inv W H r1 (term_byte W H t b)) as Hs by (intros t Ht; by apply (Hn t Ht)).
  apply wp_bind. eapply putc_cases; [exact E| |].
  - intros Hst. cbn [negb]. unfold wp, on_rend, render_pushback, rset, modify. exists []. fld. rewrite app_nil_r.
    split_and!; [done| | |done|done|done].
    + intros t Ht. cbn. apply push_inv; [done|done|by apply Hs].
    + right. right. destruct Hst as [?|[?|?]]; [by right; left|by right; right|left; fld; lia].
  - intros Es Ec Hl. cbn [negb]. rewrite u8_id by done. fld. set (w1 := w <| w_rn := r1 |> <| w_gl := _ |>).
    eapply wp_mono; [apply (IH c w1); [exact E|exact Sc|eexists; by apply Hs|]|].
    + unfold w1. fld. rewrite length_app. cbn [length]. unfold SSH_COUT_SZ in *. lia.
    + cbn beta. intros _ w' (bs & E1 & E2 & E3 & E4 & E5 & E6). exists (b :: bs). unfold w1 in *. fld. split_and!; [|auto| |done|done|done].
      * rewrite E1, <- app_assoc. done.
      * intros t Ht. cbn [run foldl]. apply E2. by apply Hs.
      * destruct E3 as [E3|E3]; [left; cbn; lia|by right].
Qed.
End screen.
End serial.

(** ** Keys over SSH *)

Section keys.
Context {C : Crypto} {OK : CryptoOk C} (reading : nat -> Z).
Implicit Types s : serial C.
Implicit Types w : worker C.

Definition live0 w : Prop := exists c, ssh_slots w !! 0%nat = Some c /\ live c.
(** An operation that presses no key, takes none, and keeps the connection sound. *)
Definition still w w' : Prop := calm w w' /\ (live0 w -> live0 w').
#[local] Instance still_preorder : PreOrder still.
Proof. split; [intros w; split; [reflexivity|done]|]. intros w1 w2 w3 [K1 L1] [K2 L2]. split; [by etrans|auto]. Qed.
(** The same without the claims about keys. *)
Record kept w w' : Prop := {
  kp_ok : worker_ok w -> worker_ok w';
  kp_auth : keeps_auth w w';
  kp_cfg : w_cfg w' = w_cfg w;
  kp_live : live0 w -> live0 w'
}.
#[local] Instance kept_preorder : PreOrder kept.
Proof. split; [intros w; constructor; [done|reflexivity|done..]|]. intros w1 w2 w3 [] []. constructor; [auto|by etrans|congruence|auto]. Qed.
Lemma still_kept w w' : still w w' -> kept w w'.
Proof. intros [[] L]. by constructor. Qed.

Lemma live0_ssh t w c : ssh_slots w !! 0%nat = Some c -> sized (ssh_view w c) t -> framed (ssh_view w c) t -> chan_fields (cn t) = chan_fields c ->
  live0 w -> live0 (with_ssh 0 t w).
Proof.
  intros E Z F U (c0 & E0 & L). assert (c0 = c) as -> by congruence. exists (cn t). split.
  - unfold with_ssh. fld. by rewrite list_lookup_insert_eq by (by eapply lookup_lt_Some).
  - by apply (sized_live (ssh_view w c)).
Qed.
Lemma still_ssh {A} (m : M (st C) A) : respects sized m -> respects framed m -> respects unchanneled m -> respects still (on_ssh 0 m).
Proof.
  intros Z F U w. pose proof (calm_ssh 0 m Z F U w) as K. eapply wlp_mono; [apply (wlp_and _ (fun _ w' => calm w w') (fun _ w' => live0 w -> live0 w')); [exact K|]|cbn beta; intros a w' [K' L']; exact (conj K' L')].
  apply wlp_on_ssh. intros c E. specialize (Z (ssh_view w c)). specialize (F (ssh_view w c)). specialize (U (ssh_view w c)).
  unfold wlp in *. destruct (m (ssh_view w c)) as [[a t]|]; [|done]. destruct U. by apply (live0_ssh t w c).
Qed.
Lemma kept_ssh {A} (m : M (st C) A) : respects sized m -> respects framed m -> keeps (fun t => chan_fields (cn t)) m -> respects kept (on_ssh 0 m).
Proof.
  intros Z F U w. apply wlp_on_ssh. intros c E. specialize (Z (ssh_view w c)). specialize (F (ssh_view w c)). specialize (U (ssh_view w c)).
  unfold wlp in *. destruct (m (ssh_view w c)) as [[a t]|]; [|done]. cbn [ssh_view cn] in U.
  destruct (quiet_step_ok 0 t w c E Z F U). constructor; [done|done|done|]. by apply (live0_ssh t w c).
Qed.
Lemma still_of_calm {A} (m : M (worker C) A) : respects calm m -> keeps ssh_slots m -> respects still m.
Proof.
  intros K E w. eapply wlp_mono; [apply wlp_and; [apply K|apply E]|]. cbn beta. intros _ w' [K' E']. split; [done|].
  intros (c & Ec & L). exists c. by rewrite E'.
Qed.
Lemma still_read {A} (m : M (st C) A) : keeps id m -> respects still (on_ssh 0 m).
Proof. intros Hm w. eapply wlp_mono; [by apply on_ssh_read|]. cbn beta. unfold id. intros _ w' ->. reflexivity. Qed.
Lemma still_rend {A} (m : machine -> M rend A) : respects still (on_rend m).
Proof. apply still_of_calm; [apply calm_rend|]. intros w. unfold wlp, on_rend. by destruct (m _ _) as [[a r]|]. Qed.
Lemma still_modify f : (forall w, still w (f w)) -> respects still (modify f).
Proof. intros Hf w. by apply wlp_modify. Qed.
Lemma still_fields w w' : ssh_slots w' = ssh_slots w -> ssh_active w' = ssh_active w -> w_gl w' = w_gl w -> w_cfg w' = w_cfg w ->
  machine_of w' = machine_of w -> still w w'.
Proof. intros E1 E2 E3 E4 E5. split; [by apply calm_same|]. intros (c & E & L). exists c. by rewrite E1. Qed.

(** The same on the serial state. *)
Definition stillS s s' : Prop := still (sr_work s) (sr_work s') /\ sr_started s' = sr_started s.
Definition keptS s s' : Prop := kept (sr_work s) (sr_work s') /\ sr_started s' = sr_started s.
#[local] Instance stillS_preorder : PreOrder stillS.
Proof. split; [intros s; split; [reflexivity|done]|]. intros s1 s2 s3 [K1 E1] [K2 E2]. split; [by etrans|congruence]. Qed.
#[local] Instance keptS_preorder : PreOrder keptS.
Proof. split; [intros s; split; [reflexivity|done]|]. intros s1 s2 s3 [K1 E1] [K2 E2]. split; [by etrans|congruence]. Qed.
Lemma stillS_work {A} (m : M (worker C) A) : respects still m -> respects stillS (on_work m).
Proof. intros Hm s. apply wlp_on_work. eapply wlp_mono; [apply Hm|]. cbn beta. intros a w K. by split. Qed.
Lemma keptS_work {A} (m : M (worker C) A) : respects kept m -> respects keptS (on_work m).
Proof. intros Hm s. apply wlp_on_work. eapply wlp_mono; [apply Hm|]. cbn beta. intros a w K. by split. Qed.
Lemma stillS_kept {A} (m : M (serial C) A) : respects stillS m -> respects keptS m.
Proof. intros Hm s. eapply wlp_mono; [apply Hm|]. cbn beta. intros a s' [K E]. split; [by apply still_kept|done]. Qed.

Ltac still_step :=
  lazymatch goal with
  | |- respects _ (mbind _ _) => apply respects_bind; [exact _| |intros ?]
  | |- respects _ (when _ _) => apply respects_when; [exact _|]
  | |- respects _ (if ?b then _ else _) => destruct b
  | |- respects _ (match ?x with _ => _ end) => destruct x
  | |- respects _ (mret _) => apply respects_ret; exact _
  | |- respects _ (gets _) => apply respects_gets; exact _
  | |- respects stillS (modify _) => apply respects_modify; intros ?; split; [reflexivity|done]
  | |- respects still (modify _) => apply respects_modify; intros ?; by apply still_fields
  | |- respects stillS (on_work _) => apply stillS_work
  | |- respects still (on_rend _) => apply still_rend
  end.
Lemma output_still n : respects still (on_ssh 0 (ssh_output n)).
Proof. apply still_ssh; [apply output_sized|unfold ssh_output, gget; frame_tac..]. Qed.
Lemma pump_still : respects stillS (ssh_serial_pump_output reading).
Proof.
  unfold ssh_serial_pump_output. generalize 1025%nat, 1024. intros fuel.
  assert (forall n, respects stillS (wait_thr reading n)) as Hw by (induction n as [|n IH]; cbn [wait_thr]; unfold inp; repeat first [exact IH|still_step]).
  assert (forall bs, respects stillS (send_all reading bs)) as Hs
    by (induction bs as [|b bs IH]; cbn [send_all]; unfold outp_thr; repeat first [exact IH|apply Hw|still_step]).
  induction fuel as [|fuel IH]; intros budget; cbn [serial_pump_loop]; repeat first [apply IH|apply Hs|apply output_still|still_step].
Qed.
Lemma read_still n : respects stillS (serial_read reading n).
Proof. induction n as [|n IH]; cbn [serial_read]; unfold inp, next_stir, stir; repeat first [exact IH|still_step]. Qed.
Lemma serial_bytes n s : wlp (serial_read reading n) (fun rb _ => all_bytes rb) s.
Proof.
  revert s. induction n as [|n IH]; intros s; cbn [serial_read]; [by apply wlp_ret, Forall_nil_2|].
  apply wlp_bind, wlp_true. intros l s1. case_decide; [by apply wlp_ret, Forall_nil_2|].
  apply wlp_bind. unfold inp. apply wlp_bind, wlp_gets, wlp_bind, wlp_modify, wlp_ret.
  apply wlp_bind, wlp_true. intros [] s2. apply wlp_bind. eapply wlp_mono; [apply IH|]. cbn beta. intros rb s3 Hrb.
  apply wlp_ret, Forall_cons. split; [apply u8_byte|done].
Qed.
Lemma screen_still : respects still serial_screen.
Proof.
  unfold serial_screen, repaint. repeat first [apply still_read, winsize_read|still_step].
Qed.
Lemma tx_still : respects still ssh_tx_pump.
Proof.
  unfold ssh_tx_pump. generalize 512%nat. intros n. induction n as [|n IH]; cbn [tx_loop];
    repeat first [exact IH|apply still_ssh; [apply putc_sized|apply putc_framed|apply putc_unchanneled]|still_step].
Qed.
Lemma flush_still : respects still (on_ssh 0 ssh_channel_flush).
Proof. apply still_ssh; [apply flush_sized|apply flush_framed|apply flush_unchanneled]. Qed.

Lemma getc_kept : respects kept (on_ssh 0 ssh_channel_getc).
Proof. apply kept_ssh; [apply getc_sized|apply getc_framed|]. unfold ssh_channel_getc, gget, gset. keeps_tac. Qed.
Lemma key_in_kept b : respects kept (key_in (u8 b)).
Proof.
  intros w. eapply wlp_mono; [apply key_in_machine|]. cbn beta. intros _ w' (E1 & E2 & E3 & E4 & _). constructor.
  - intros [G L Cf]. constructor; by rewrite ?E1, ?E2, ?E3, ?E4.
  - intros j c E. exists c. by rewrite E1.
  - done.
  - intros (c & E & L). exists c. by rewrite E1.
Qed.
Lemma press_kept fuel : respects keptS (serial_press reading fuel).
Proof.
  induction fuel as [|fuel IH]; cbn [serial_press]; [apply respects_ret; exact _|].
  apply respects_bind; [exact _|apply keptS_work, getc_kept|intros b]. destruct (decide (b >= 0)); [|apply respects_ret; exact _].
  apply respects_bind; [exact _|apply stillS_kept, stillS_work; still_step|intros cfg]. destruct (w_eof cfg && bool_decide (b = 4)).
  - apply stillS_kept. apply respects_bind; [exact _| |intros ?; apply pump_still].
    apply stillS_work, still_ssh; [apply close_sized|apply close_framed|apply close_unchanneled].
  - apply respects_bind; [exact _|apply keptS_work, key_in_kept|intros ?; exact IH].
Qed.
(** An empty ring presses nothing. *)
Lemma press_empty fuel s : worker_ok (sr_work s) -> ring_empty (sr_work s) -> wlp (serial_press reading fuel) (fun _ s' => s' = s) s.
Proof.
  intros W R. destruct fuel as [|fuel]; cbn [serial_press]; [by apply wlp_ret|]. apply wlp_bind, wlp_on_work, wlp_on_ssh. intros c E.
  eapply wlp_mono; [apply wp_wlp, (channel_getc_spec (ssh_view (sr_work s) c)), (go_cin _ (wk_glob _ W))|]. cbn beta.
  intros b t (_ & _ & Hq). cbn [ssh_view gl] in Hq. rewrite (proj2 (empty_queue _ (go_cin _ (wk_glob _ W))) R) in Hq. destruct Hq as [-> ->].
  fold (ssh_view (sr_work s) c). rewrite with_ssh_id by done. rewrite decide_False by lia. apply wlp_ret. by destruct s.
Qed.

Definition authed0 w : Prop := exists c, ssh_slots w !! 0%nat = Some c /\ authenticated c = true.
Record serial_ok s : Prop := {
  se_work : worker_ok (sr_work s);
  se_live : sr_started s = true -> live0 (sr_work s);
  se_ring : ring_empty (sr_work s) \/ authed0 (sr_work s)
}.
(** The outcome of a part of the tick. *)
Definition guarded_keys s s' : Prop := serial_ok s' /\ (machine_of (sr_work s') = machine_of (sr_work s) \/ authed0 (sr_work s')).
Lemma authed_kept w w' : keeps_auth w w' -> authed0 w -> authed0 w'.
Proof. intros K (c & E & A). destruct (K 0%nat c E) as (c' & E' & A'). exists c'. auto. Qed.
Lemma still_ok s s' : stillS s s' -> serial_ok s -> serial_ok s' /\ machine_of (sr_work s') = machine_of (sr_work s).
Proof.
  intros [[K L] E] [W V R]. split; [|apply K]. constructor; [by apply K|rewrite E; auto|].
  destruct R as [R|R]; [left; by eapply calm_ring|right; eapply authed_kept; [apply K|done]].
Qed.
Lemma guarded_still s s1 s2 : guarded_keys s s1 -> stillS s1 s2 -> guarded_keys s s2.
Proof.
  intros [O M] K. destruct (still_ok _ _ K O) as [O2 M2]. split; [done|].
  destruct M as [M|M]; [left; congruence|right; eapply authed_kept; [apply K|done]].
Qed.
Lemma bind_still {A B} (m : M (serial C) A) (k : A -> M (serial C) B) Q s :
  respects stillS m -> (forall a s1, stillS s s1 -> wlp (k a) Q s1) -> wlp (m ≫= k) Q s.
Proof. intros Hm Hk. apply wlp_bind. eapply wlp_mono; [apply Hm|]. cbn beta. auto. Qed.

(** Before the input: the connection is sound and the ring is empty or its own. *)
Definition ready_to_feed s s' : Prop :=
  worker_ok (sr_work s') /\ live0 (sr_work s') /\ sr_started s' = true /\ machine_of (sr_work s') = machine_of (sr_work s)
  /\ (ring_empty (sr_work s') \/ authed0 (sr_work s')).
Lemma begin_serial c s : worker_ok (sr_work s) -> ssh_slots (sr_work s) !! 0%nat = Some c -> wlp serial_begin (fun _ s' => ready_to_feed s s') s.
Proof.
  intros W E. set (w := sr_work s). unfold serial_begin. apply wlp_bind, wlp_on_work. fold w. apply wlp_bind, wlp_gets.
  apply wlp_bind. eapply wlp_mono; [apply (reset_opening 0 _ _ w); [done..|by left]|]. cbn beta. intros _ w1 O1.
  apply wlp_bind. apply (wlp_mono _ (fun _ => opening 0 w)).
  { destruct (w_have_pw (w_cfg w)); cbn [when]; [|by apply wlp_ret]. apply (set_glob_opening _ _ _ _ O1). intros t. apply set_password_glob. }
  cbn beta. intros _ w2 O2. apply wlp_bind. apply (wlp_mono _ (fun _ => opening 0 w)).
  { destruct (bool_decide _); cbn [when]; [|by apply wlp_ret]. apply (set_glob_opening _ _ _ _ O2). intros t. apply set_keys_glob; apply W. }
  cbn beta. intros _ w3 [[W3 R3 C3 M3 _] (c3 & E3 & L3 & _)]. apply wlp_modify, wlp_bind, wlp_modify.
  set (s4 := _ <| sr_started := true |>). assert (ready_to_feed s s4) as F4.
  { unfold ready_to_feed, s4. fld. split; [destruct W3; by constructor|]. split; [by exists c3|].
    split; [done|]. split; [exact M3|by left]. }
  eapply wlp_mono; [apply (stillS_work repaint), still_rend|]. cbn beta. intros _ s5 [[K L] Es].
  destruct F4 as (W4 & V4 & S4 & M4 & R4). split; [by apply K|]. split; [auto|]. split; [congruence|]. split; [rewrite (cl_machine _ _ K); done|].
  destruct R4 as [R4|R4]; [left; by eapply calm_ring|right; eapply authed_kept; [apply K|done]].
Qed.
Lemma feed_serial fuel rb s s1 : all_bytes rb -> ready_to_feed s s1 ->
  wlp (on_work (on_ssh 0 (ssh_input fuel rb))) (fun _ s' => serial_ok s' /\ machine_of (sr_work s') = machine_of (sr_work s)) s1.
Proof.
  intros Hb (W & (c & E & L) & St & M & R). apply wlp_on_work, wlp_on_ssh. intros c' E'. assert (c' = c) as -> by congruence.
  destruct (proj2 (wf_parts (ssh_view (sr_work s1) c)) (conj L (wk_glob _ W))) as [Wt Gt].
  eapply wlp_mono; [by apply input_fed|]. cbn beta. intros _ t [F1 F2 F3 F4]. destruct (proj1 (wf_parts t) (conj F1 F2)) as [Lt Gl].
  assert (ssh_slots (with_ssh 0 t (sr_work s1)) !! 0%nat = Some (cn t)) as Et.
  { unfold with_ssh. fld. by rewrite list_lookup_insert_eq by (by eapply lookup_lt_Some). }
  split; [|exact M]. constructor; fld; [by apply with_ssh_ok|intros _; by exists (cn t)|].
  destruct (authenticated (cn t)) eqn:A; [right; by exists (cn t)|left].
  destruct R as [R|(c2 & E2 & A2)]; [|assert (c2 = c) as Ec by congruence; rewrite Ec in A2; cbn [ssh_view cn] in F3; specialize (F3 A2); congruence].
  specialize (F4 eq_refl). unfold keystrokes in F4. unfold ring_empty, with_ssh in *. fld. cbn [ssh_view gl] in F4. congruence.
Qed.
Lemma press_guarded fuel s s1 : serial_ok s1 -> machine_of (sr_work s1) = machine_of (sr_work s) ->
  wlp (serial_press reading fuel) (fun _ s' => guarded_keys s s') s1.
Proof.
  intros [W V [R|R]] M.
  - eapply wlp_mono; [by apply press_empty|]. cbn beta. intros _ s' ->. split; [constructor; auto|by left].
  - eapply wlp_mono; [apply press_kept|]. cbn beta. intros _ s' [[K1 K2 K3 K4] E].
    assert (authed0 (sr_work s')) as R' by (by eapply authed_kept). split; [|by right]. constructor; [auto|rewrite E; auto|by right].
Qed.

Lemma serial_worker_keys fuel s : serial_ok s -> wlp (ssh_serial_worker reading fuel) (fun _ s' => guarded_keys s s') s.
Proof.
  intros O. unfold ssh_serial_worker. apply wlp_bind. eapply wlp_mono; [apply wlp_and; [apply (read_still 256)|apply (serial_bytes 256)]|].
  cbn beta. intros rb s1 [K1 Hb]. destruct (still_ok _ _ K1 O) as [O1 M1].
  apply wlp_bind. apply (wlp_mono _ (fun _ s2 => serial_ok s2 /\ machine_of (sr_work s2) = machine_of (sr_work s))).
  { destruct (bool_decide (rb <> [])); cbn [when]; [|by apply wlp_ret]. apply wlp_bind, wlp_gets, wlp_bind, wlp_on_work, wlp_on_ssh. intros c E.
    apply wlp_cget. fold (ssh_view (sr_work s1) c). rewrite with_ssh_id by done. assert (s1 <| sr_work := sr_work s1 |> = s1) as -> by by destruct s1.
    apply wlp_bind. apply (wlp_mono _ (fun _ s2 => ready_to_feed s s2)).
    - destruct (negb (sr_started s1) || _ || _) eqn:Ec; cbn [when].
      + eapply wlp_mono; [apply (begin_serial c); [apply O1|done]|]. cbn beta. intros _ s2 (F1 & F2 & F3 & F4 & F5). by rewrite M1 in F4.
      + apply wlp_ret. destruct (sr_started s1) eqn:Es; [|done]. destruct O1 as [W1 V1 R1]. split_and!; auto.
    - cbn beta. intros _ s2 F. apply wlp_bind. eapply wlp_mono; [by apply (feed_serial fuel rb s)|]. cbn beta. intros [r|] s3 H3; [by apply wlp_ret|done]. }
  cbn beta. intros _ s2 [O2 M2]. apply wlp_bind, wlp_gets. destruct (sr_started s2); cbn [when]; [|apply wlp_ret; split; [done|by left]].
  apply bind_still; [apply pump_still|]. intros _ s3 K3. destruct (still_ok _ _ K3 O2) as [O3 M3].
  apply bind_still; [apply stillS_work, still_read, ready_read|]. intros rdy s4 K4. destruct (still_ok _ _ K4 O3) as [O4 M4].
  apply wlp_bind. apply (wlp_mono _ (fun _ s5 => guarded_keys s s5)).
  - destruct rdy; cbn [when]; [|apply wlp_ret; split; [done|left; congruence]].
    apply bind_still; [apply stillS_work, screen_still|]. intros _ s5 K5. destruct (still_ok _ _ K5 O4) as [O5 M5].
    apply wlp_bind. eapply wlp_mono; [apply (press_guarded 256 s); [done|congruence]|]. cbn beta. intros _ s6 G6.
    match goal with |- wlp ?m _ _ => enough (respects stillS m) as Hm end.
    { eapply wlp_mono; [apply Hm|]. cbn beta. intros _ s7. by apply guarded_still. }
    repeat first [still_step|apply tx_still|apply flush_still|apply pump_still].
  - cbn beta. intros _ s5 G5. match goal with |- wlp ?m _ _ => enough (respects stillS m) as Hm end.
    { eapply wlp_mono; [apply Hm|]. cbn beta. intros _ s6. by apply guarded_still. }
    unfold next_stir, stir. repeat still_step. 
Qed.
End keys.

(** C7: Serial SSH presses no key without authentication.  Over a whole tick of the
    worker of SSH over COM1, whatever the ports answer, whether a session starts,
    restarts or goes on, and with or without /EOF: the key machine, the BIOS
    keyboard ring and the reboot request are as before unless the connection is
    authenticated after it; and the invariant holds again, by which keystrokes wait
    in the ring only for an authenticated connection. *)
Theorem serial_keys_need_authentication {C : Crypto} {OK : CryptoOk C} reading fuel (s : serial C) :
  serial_ok s ->
  wlp (ssh_serial_worker reading fuel) (fun _ s' =>
    serial_ok s' /\ (machine_of (sr_work s') = machine_of (sr_work s) \/ authed0 (sr_work s'))) s.
Proof. apply serial_worker_keys. Qed.

(** Serial SSH stages the screen exactly.  [ssh_tx_pump] ends, and the bytes it
    adds to the staging buffer are the next bytes of the renderer: a terminal that
    showed what was staged before it still mirrors the renderer after it, also when
    the last byte did not fit and was pushed back.  It stops only after 512 bytes,
    with nothing new on the screen, with the buffer full, or without a shell. *)
Theorem tx_pump_exact {C : Crypto} W H c (w : worker C) :
  0 < W <= 132 -> 0 < H <= 60 -> W * H <= 2000 -> ssh_slots w !! 0%nat = Some c -> screen_ok W H (w_mach w) ->
  (exists t, mirror_inv W H (w_rn w) t) -> len (g_cout (w_gl w)) <= SSH_COUT_SZ ->
  wp ssh_tx_pump (fun _ w' => exists bs, g_cout (w_gl w') = g_cout (w_gl w) ++ bs /\ len (g_cout (w_gl w')) <= SSH_COUT_SZ
    /\ (forall t, mirror_inv W H (w_rn w) t -> mirror_inv W H (w_rn w') (run W H t bs)) /\ tx_stop w' c (length bs) 512) w.
Proof.
  intros HW HH HWH E Sc Hm Lc. eapply wp_mono; [by apply (tx_loop_run W H HW HH HWH 512 c)|]. cbn beta.
  intros _ w' (bs & E1 & E2 & E3 & E4 & _). by exists bs.
Qed.

(** The console input ends exactly when the UART does.  If the status register
    announces [k] bytes and then none, [pump_rx] presses these bytes in order and
    returns; if it announces one at every answer, as the open bus of a machine
    without COM1 does, [pump_rx] does not return. *)
Theorem console_input_exact {C : Crypto} reading (s : serial C) :
  (forall k fuel, (k < fuel)%nat -> (forall j, (j < k)%nat -> data_at reading (sr_reads s + 2 * j)) -> ~ data_at reading (sr_reads s + 2 * k) ->
     wp (pump_rx reading fuel) (fun _ s' => machine_of (sr_work s') = foldl press (machine_of (sr_work s)) (arrived reading (sr_reads s) k)
       /\ sr_thr s' = sr_thr s /\ sr_reads s' = (sr_reads s + 2 * k + 1)%nat) s)
  /\ ((forall j, data_at reading (sr_reads s + 2 * j)) -> forall fuel, pump_rx reading fuel s = None).
Proof. split; [intros k fuel; apply pump_rx_run|intros Hd fuel; by apply pump_rx_hangs]. Qed.

(** ** Instances *)

(** The identification line of a client arrives on COM1; the transmitter is idle. *)
Definition demo_reading (n : nat) : Z :=
  if Nat.even n then (if (n <? 22)%nat then 0x21 else 0x20) else nth (Nat.div2 n) (text "SSH-2.0-x" ++ [13; 10]) 0.
Definition demo_serial : serial toy := Serial toy (demo_cast <| ssh_active := [false; false] |>) true 0 [].
Lemma demo_serial_ok : serial_ok demo_serial.
Proof.
  constructor.
  - constructor; [exact demo_glob_ok| |].
    + intros j c Ea _. change (ssh_active (sr_work demo_serial)) with [false; false] in Ea. destruct j as [|[|j]]; discriminate.
    + split; [split; [discriminate|reflexivity]|discriminate].
  - intros _. exists demo_guest. split; [reflexivity|exact demo_guest_live].
  - left. reflexivity.
Qed.
Lemma serial_keys_need_authentication_witness :
  exists s', ssh_serial_worker demo_reading 10 demo_serial = Some (tt, s') /\ machine_of (sr_work s') = machine_of (sr_work demo_serial)
    /\ (state <$> ssh_slots (sr_work s') !! 0%nat) = Some SSH_ST_EXPECT_KEXINIT.
Proof.
  destruct (run_ends (ssh_serial_worker (C := toy) demo_reading 10) demo_serial
    (fun s' => bool_decide ((state <$> ssh_slots (sr_work s') !! 0%nat) = Some SSH_ST_EXPECT_KEXINIT)
               && bool_decide ((authenticated <$> ssh_slots (sr_work s') !! 0%nat) = Some false))) as (s' & E & F); [vm_compute; reflexivity|].
  apply andb_prop in F as [F1%bool_decide_eq_true_1 F2%bool_decide_eq_true_1]. exists s'. split; [exact E|].
  destruct (wlp_Some _ _ _ _ _ (serial_keys_need_authentication (OK := toy_ok) demo_reading 10 demo_serial demo_serial_ok) E) as (_ & [H|(c & Ec & A)]);
    [split; [exact H|exact F1]|].
  rewrite Ec in F2. cbn in F2. congruence.
Defined.

Lemma tx_pump_exact_witness :
  wp ssh_tx_pump (fun _ w' => exists bs, g_cout (w_gl w') = g_cout (w_gl demo_cast) ++ bs
    /\ mirror_inv 2 2 (w_rn w') (run 2 2 demo_term bs)) demo_cast.
Proof.
  assert (len (g_cout (w_gl demo_cast)) <= SSH_COUT_SZ) as L by (vm_compute; discriminate).
  eapply wp_mono; [refine (tx_pump_exact (C := toy) 2 2 demo_guest demo_cast _ _ _ eq_refl demo_screen_ok (hb_rend _ _ _ _ demo_cast_wf) L); lia|].
  cbn beta. intros _ w' (bs & E & _ & M & _). exists bs. split; [exact E|]. apply M, mirror_inv_start.
Defined.

Lemma console_input_exact_witness :
  wp (pump_rx demo_reading 12) (fun _ s' => sr_reads s' = 23%nat
    /\ machine_of (sr_work s') = foldl press (machine_of (sr_work demo_serial)) (arrived demo_reading 0 11)) demo_serial
  /\ pump_rx (fun _ => 255) 100 demo_serial = None.
Proof.
  split.
  - eapply wp_mono; [refine (proj1 (console_input_exact demo_reading demo_serial) 11%nat 12%nat _ _ _)|].
    + lia.
    + intros j Hj. do 11 (destruct j as [|j]; [vm_compute; discriminate|]). lia.
    + intros H. apply H. vm_compute. reflexivity.
    + cbn beta. intros _ s' (E1 & _ & E2). split; [exact E2|exact E1].
  - apply (proj2 (console_input_exact (fun _ => 255) demo_serial)). intros j. discriminate.
Defined.
