(* ===== verification/Cmdline.v ===== *)
(** * The command line (src/dosshd/dosshd.c)

    [main] up to the installation: the two option loops as the code writes them,
    and their meaning, which does not depend on the order of the options. *)
From Stdlib Require Import ZArith Lia.
From stdpp Require Import base list numbers.
From S2P Require Import Prelude SshWire Telnet Tick.
Local Open Scope Z_scope.

(** The statics that the command line sets; the passwords as C strings, [telnet_pw]
    the one of telnet.c. *)
Record config := Config {
  g_net : bool; net_ip : list Z; net_port : Z; cl_eof : bool; telnet_pw : list Z;
  g_ssh_mode : bool; g_ssh_serial : bool; g_ssh_pw : list Z; g_ssh_have_pw : bool }.
#[export] Instance config_eta : Eta config := fun r => Config (g_net r) (net_ip r) (net_port r) (cl_eof r) (telnet_pw r)
  (g_ssh_mode r) (g_ssh_serial r) (g_ssh_pw r) (g_ssh_have_pw r).
#[export] Instance upd_g_net : Upd g_net := ltac:(derive_upd g_net).
#[export] Instance upd_net_ip : Upd net_ip := ltac:(derive_upd net_ip).
#[export] Instance upd_net_port : Upd net_port := ltac:(derive_upd net_port).
#[export] Instance upd_cl_eof : Upd cl_eof := ltac:(derive_upd cl_eof).
#[export] Instance upd_telnet_pw : Upd telnet_pw := ltac:(derive_upd telnet_pw).
#[export] Instance upd_g_ssh_mode : Upd g_ssh_mode := ltac:(derive_upd g_ssh_mode).
#[export] Instance upd_g_ssh_serial : Upd g_ssh_serial := ltac:(derive_upd g_ssh_serial).
#[export] Instance upd_g_ssh_pw : Upd g_ssh_pw := ltac:(derive_upd g_ssh_pw).
#[export] Instance upd_g_ssh_have_pw : Upd g_ssh_have_pw := ltac:(derive_upd g_ssh_have_pw).

Definition config0 : config := Config false [10; 0; 2; 15] 23 false [] false false [] false.

Inductive command := Uninstall | Status | Usage | BadIp (a : list Z) | Install (c : config).

(** [(unsigned)atoi( s )] with a 16-bit [int]: blanks, a sign, digits. *)
Definition is_space (c : Z) : bool := bool_decide (c = 32 \/ 9 <= c <= 13).
Fixpoint skip_space (s : list Z) : list Z := match s with c :: s' => if is_space c then skip_space s' else s | [] => [] end.
Fixpoint atoi_digits (s : list Z) (v : Z) : Z :=
  match s with c :: s => if is_dig c then atoi_digits s (u16 (10 * v + (c - 48))) else v | [] => v end.
Definition atoi (s : list Z) : Z :=
  match skip_space s with
  | 45 :: s => u16 (- atoi_digits s 0)
  | 43 :: s => atoi_digits s 0
  | s => atoi_digits s 0
  end.

(** [a[0] == '/' or '-', a[1] == 'P' or 'p', a[2] == ':']: the rest of the argument. *)
Definition pw_arg (a : list Z) : option (list Z) :=
  match a with
  | c0 :: c1 :: c2 :: pw => if decide ((c0 = 47 \/ c0 = 45) /\ (c1 = 80 \/ c1 = 112) /\ c2 = 58) then Some pw else None
  | _ => None
  end.
Definition com_arg (a : list Z) : bool := opt_is a (text "COM") || opt_is a (text "COM1") || stricmp0 a (text "COM1").
Definition eof_arg (a : list Z) : bool := opt_is a (text "EOF").

(** The branches for a positional argument, [pos] of them seen before; [inr] is the
    early return. *)
Definition positional (c : config) (pos : Z) (a : list Z) : (config * Z) + command :=
  if decide (pos = 0) then
    match parse_ip a with Some ip => inl (c <| net_ip := ip |>, 1) | None => inr (BadIp a) end
  else if decide (pos = 1) then inl (c <| net_port := atoi a |>, 2)
  else inl (c, pos).
(** The branches for options; [None] for an argument that is none. *)
Definition ssh_opt (c : config) (a : list Z) : option config :=
  match pw_arg a with
  | Some pw => Some ((c <| g_ssh_pw := take 63 pw |>) <| g_ssh_have_pw := bool_decide (pw <> []) |>)
  | None =>
      if com_arg a then Some ((c <| g_ssh_serial := true |>) <| g_net := false |>)
      else if eof_arg a then Some (c <| cl_eof := true |>)
      else None
  end.
Definition net_opt (c : config) (a : list Z) : option config :=
  match pw_arg a with
  | Some pw => Some (c <| telnet_pw := take 31 pw |>)
  | None => if eof_arg a then Some (c <| cl_eof := true |>) else None
  end.
(** [for( ai = 2; ai < argc; ai++ )] *)
Fixpoint arg_loop (opt : config -> list Z -> option config) (c : config) (pos : Z) (args : list (list Z)) : command :=
  match args with
  | [] => Install c
  | a :: args =>
      match opt c a with
      | Some c => arg_loop opt c pos args
      | None => match positional c pos a with inl (c, pos) => arg_loop opt c pos args | inr r => r end
      end
  end.

(** [main] before [find_resident]; [ssh] for a build with DOSSH_SSH, [args] is
    [argv[1..argc)]. *)
Definition main_args (ssh : bool) (args : list (list Z)) : command :=
  match args with
  | [] => Install config0
  | a :: args =>
      if opt_is a (text "U") then Uninstall
      else if opt_is a (text "S") then Status
      else if ssh && opt_is a (text "SSH") then
        arg_loop ssh_opt (((config0 <| g_ssh_mode := true |>) <| g_net := true |>) <| net_port := 22 |>) 0 args
      else if opt_is a (text "NET") then arg_loop net_opt (config0 <| g_net := true |>) 0 args
      else Usage
  end.

(** ** What the arguments mean *)

(** The last password of the line, the flags, the positional arguments. *)
Definition last_pw (args : list (list Z)) : option (list Z) := last (omap pw_arg args).
Definition positionals (com : bool) (args : list (list Z)) : list (list Z) :=
  filter (fun a => pw_arg a = None /\ com && com_arg a = false /\ eof_arg a = false) args.
Definition wants_eof (args : list (list Z)) : bool := existsb eof_arg args.
Definition wants_com (args : list (list Z)) : bool := existsb com_arg args.
(** The address and the port given by the positional arguments, [pos] of them seen. *)
Definition place (pos : Z) (c : config) (ps : list (list Z)) : command :=
  match ps with
  | [] => Install c
  | a :: ps' =>
      if decide (pos = 0) then
        match parse_ip a with
        | None => BadIp a
        | Some ip => Install (match ps' with [] => c <| net_ip := ip |> | p :: _ => (c <| net_ip := ip |>) <| net_port := atoi p |> end)
        end
      else if decide (pos = 1) then Install (c <| net_port := atoi a |>) else Install c
  end.
Definition ssh_config (args : list (list Z)) : config :=
  let pw := default [] (last_pw args) in
  Config (negb (wants_com args)) [10; 0; 2; 15] 22 (wants_eof args) [] true (wants_com args) (take 63 pw) (bool_decide (pw <> [])).
Definition net_config (args : list (list Z)) : config :=
  Config true [10; 0; 2; 15] 23 (wants_eof args) (take 31 (default [] (last_pw args))) false false [] false.

Lemma last_pw_cons a args : last_pw (a :: args) = match last_pw args with Some p => Some p | None => pw_arg a end.
Proof.
  unfold last_pw. cbn [omap list_omap]. destruct (pw_arg a) as [p|]; [|by destruct (last _)].
  rewrite last_cons. by destruct (last _).
Qed.
Lemma opt_first a name : opt_is a name = true -> exists c0 r, a = c0 :: r /\ (c0 = 47 \/ c0 = 45) /\ lower <$> r = lower <$> name.
Proof.
  destruct a as [|c0 r]; [done|]. cbn [opt_is]. unfold stricmp0. rewrite andb_true_iff, orb_true_iff, !bool_decide_eq_true. intros [H1 H2].
  by exists c0, r.
Qed.
Lemma pw_first a p : pw_arg a = Some p -> exists c0 c1 c2, a = c0 :: c1 :: c2 :: p /\ (c0 = 47 \/ c0 = 45) /\ (c1 = 80 \/ c1 = 112) /\ c2 = 58.
Proof. unfold pw_arg. destruct a as [|c0 [|c1 [|c2 r]]]; try done. case_decide as D; [|done]. intros [= <-]. by exists c0, c1, c2. Qed.
(** The three kinds of options exclude each other. *)
Lemma eof_no_pw a : eof_arg a = true -> pw_arg a = None.
Proof.
  intros (c0 & r & -> & _ & E)%opt_first. destruct (pw_arg (c0 :: r)) as [p|] eqn:P; [|done].
  apply pw_first in P as (? & c1 & c2 & [= -> ->] & _ & H1 & _). cbn in E. injection E as E _. unfold lower in E. revert E. repeat case_decide; lia.
Qed.
Lemma com_no_pw a : com_arg a = true -> pw_arg a = None.
Proof.
  intros H. destruct (pw_arg a) as [p|] eqn:P; [|done]. apply pw_first in P as (c0 & c1 & c2 & -> & H0 & H1 & _).
  unfold com_arg in H. rewrite !orb_true_iff in H. destruct H as [[H|H]|H].
  1,2: apply opt_first in H as (? & r & [= <- <-] & _ & E); cbn in E; injection E as E _; unfold lower in E; revert E; repeat case_decide; lia.
  unfold stricmp0 in H. rewrite bool_decide_eq_true in H. cbn in H. injection H as E _. unfold lower in E. revert E. repeat case_decide; lia.
Qed.
Lemma eof_no_com a : eof_arg a = true -> com_arg a = false.
Proof.
  intros (c0 & r & -> & H0 & E)%opt_first. apply not_true_iff_false. intros H. unfold com_arg in H. rewrite !orb_true_iff in H. destruct H as [[H|H]|H].
  1,2: apply opt_first in H as (? & r' & [= <- <-] & _ & E'); rewrite E in E'; discriminate E'.
  unfold stricmp0 in H. rewrite bool_decide_eq_true in H. cbn in H. injection H as E' _. unfold lower in E'. revert E'. repeat case_decide; lia.
Qed.

Section loop.
Context (opt : config -> list Z -> option config) (is_opt : list Z -> bool)
  (Hno : forall c a, opt c a = None <-> is_opt a = false)
  (Hip : forall c a ip c', opt c a = Some c' -> opt (c <| net_ip := ip |>) a = Some (c' <| net_ip := ip |>))
  (Hport : forall c a p c', opt c a = Some c' -> opt (c <| net_port := p |>) a = Some (c' <| net_port := p |>)).

Definition options (args : list (list Z)) (c : config) : config := fold_left (fun c a => default c (opt c a)) args c.
Lemma options_ip args c ip : options args (c <| net_ip := ip |>) = (options args c) <| net_ip := ip |>.
Proof.
  revert c. induction args as [|a args IH]; intros c; [done|]. cbn [options fold_left]. fold (options args). destruct (opt c a) as [c'|] eqn:E.
  - rewrite (Hip _ _ _ _ E). apply IH.
  - apply Hno in E. rewrite (proj2 (Hno (c <| net_ip := ip |>) a) E). apply IH.
Qed.
Lemma options_port args c p : options args (c <| net_port := p |>) = (options args c) <| net_port := p |>.
Proof.
  revert c. induction args as [|a args IH]; intros c; [done|]. cbn [options fold_left]. fold (options args). destruct (opt c a) as [c'|] eqn:E.
  - rewrite (Hport _ _ _ _ E). apply IH.
  - apply Hno in E. rewrite (proj2 (Hno (c <| net_port := p |>) a) E). apply IH.
Qed.
Lemma arg_loop_place args : forall c pos, 0 <= pos <= 2 ->
  arg_loop opt c pos args = place pos (options args c) (filter (fun a => is_opt a = false) args).
Proof.
  induction args as [|a args IH]; intros c pos Hp; [done|]. cbn [arg_loop options fold_left]. fold (options args). destruct (opt c a) as [c'|] eqn:E.
  - rewrite filter_cons_False by (intros H; apply (Hno c a) in H; congruence). by apply IH.
  - rewrite filter_cons_True by (by apply (Hno c a)). cbn [default]. unfold positional, place. 
    destruct (decide (pos = 0)) as [->|N0].
    + destruct (parse_ip a) as [ip|]; [|done]. rewrite IH by lia. rewrite options_ip. unfold place. by destruct (filter _ args).
    + destruct (decide (pos = 1)) as [->|N1]; rewrite IH by lia; rewrite ?options_port; unfold place; destruct (filter _ args); try done.
      all: repeat case_decide; done || lia.
Qed.
End loop.

Definition ssh_is_opt (a : list Z) : bool := bool_decide (is_Some (pw_arg a)) || com_arg a || eof_arg a.
Definition net_is_opt (a : list Z) : bool := bool_decide (is_Some (pw_arg a)) || eof_arg a.
Lemma ssh_opt_none c a : ssh_opt c a = None <-> ssh_is_opt a = false.
Proof. unfold ssh_opt, ssh_is_opt. destruct (pw_arg a); [done|]. by destruct (com_arg a), (eof_arg a). Qed.
Lemma net_opt_none c a : net_opt c a = None <-> net_is_opt a = false.
Proof. unfold net_opt, net_is_opt. destruct (pw_arg a); [done|]. by destruct (eof_arg a). Qed.
Lemma positionals_ssh args : filter (fun a => ssh_is_opt a = false) args = positionals true args.
Proof.
  apply list_filter_iff. intros a. unfold ssh_is_opt. destruct (pw_arg a); [split; [done|by intros []]|]. cbn [andb orb bool_decide].
  destruct (com_arg a), (eof_arg a); cbn; intuition discriminate.
Qed.
Lemma positionals_net args : filter (fun a => net_is_opt a = false) args = positionals false args.
Proof.
  apply list_filter_iff. intros a. unfold net_is_opt. destruct (pw_arg a); [split; [done|by intros []]|]. destruct (eof_arg a); cbn; intuition discriminate.
Qed.
Lemma ssh_options args : forall c, options ssh_opt args c = Config (g_net c && negb (wants_com args)) (net_ip c) (net_port c) (cl_eof c || wants_eof args)
  (telnet_pw c) (g_ssh_mode c) (g_ssh_serial c || wants_com args) (match last_pw args with Some p => take 63 p | None => g_ssh_pw c end)
  (match last_pw args with Some p => bool_decide (p <> []) | None => g_ssh_have_pw c end).
Proof.
  induction args as [|a args IH]; intros c.
  { cbn. destruct c. cbn. by rewrite !orb_false_r, andb_true_r. }
  unfold options in *. cbn [fold_left]. rewrite IH, last_pw_cons. unfold wants_com, wants_eof. cbn [existsb].
  unfold ssh_opt. destruct (pw_arg a) as [p|] eqn:P.
  - rewrite (not_true_is_false (com_arg a)) by (intros H; by rewrite (com_no_pw a H) in P). rewrite (not_true_is_false (eof_arg a)) by (intros H; by rewrite (eof_no_pw a H) in P).
    cbn [default]. fld. by destruct (last_pw args).
  - destruct (com_arg a) eqn:C.
    + rewrite (not_true_is_false (eof_arg a)) by (intros H; apply eof_no_com in H; congruence). cbn [default]. fld. cbn [orb negb]. rewrite andb_false_r, orb_true_r.
      by destruct (last_pw args).
    + destruct (eof_arg a); cbn [default]; fld; cbn [orb]; rewrite ?orb_true_r; by destruct (last_pw args).
Qed.
Lemma net_options args : forall c, options net_opt args c = Config (g_net c) (net_ip c) (net_port c) (cl_eof c || wants_eof args)
  (match last_pw args with Some p => take 31 p | None => telnet_pw c end) (g_ssh_mode c) (g_ssh_serial c) (g_ssh_pw c) (g_ssh_have_pw c).
Proof.
  induction args as [|a args IH]; intros c.
  { cbn. destruct c. cbn. by rewrite !orb_false_r. }
  unfold options in *. cbn [fold_left]. rewrite IH, last_pw_cons. unfold wants_eof. cbn [existsb].
  unfold net_opt. destruct (pw_arg a) as [p|] eqn:P.
  - rewrite (not_true_is_false (eof_arg a)) by (intros H; by rewrite (eof_no_pw a H) in P). cbn [default]. fld. by destruct (last_pw args).
  - destruct (eof_arg a); cbn [default]; fld; cbn [orb]; rewrite ?orb_true_r; by destruct (last_pw args).
Qed.

(** C22: The option loops of [main] mean the same for every order of the options: the
    flags that occur, the last password, the first two other arguments. *)
Theorem command_line_meaning (ssh : bool) a args : 
  (opt_is a (text "SSH") = true -> ssh = true -> main_args ssh (a :: args) = place 0 (ssh_config args) (positionals true args))
  /\ (opt_is a (text "NET") = true -> main_args ssh (a :: args) = place 0 (net_config args) (positionals false args)).
Proof.
  assert (forall n n', opt_is a n = true -> lower <$> n <> lower <$> n' -> opt_is a n' = false) as Only.
  { intros n n' H N. apply not_true_is_false. intros H'. apply opt_first in H as (c0 & r & -> & _ & E). apply opt_first in H' as (? & ? & [= <- <-] & _ & E'). congruence. }
  split.
  - intros H ->. cbn [main_args]. rewrite (Only _ (text "U") H), (Only _ (text "S") H), H by done. cbn [andb].
    rewrite (arg_loop_place ssh_opt ssh_is_opt ssh_opt_none) by (lia || (intros ????; unfold ssh_opt; repeat case_match; congruence || (intros [= <-]; reflexivity))).
    rewrite ssh_options, positionals_ssh. f_equal. unfold ssh_config, default. by destruct (last_pw args).
  - intros H. cbn [main_args]. rewrite (Only _ (text "U") H), (Only _ (text "S") H), (Only _ (text "SSH") H), H, andb_false_r by done.
    rewrite (arg_loop_place net_opt net_is_opt net_opt_none) by (lia || (intros ????; unfold net_opt; repeat case_match; congruence || (intros [= <-]; reflexivity))).
    rewrite net_options, positionals_net. f_equal. unfold net_config, default. by destruct (last_pw args).
Qed.
Lemma command_line_meaning_witness :
  (opt_is (text "/net") (text "SSH") = true -> true = true ->
   main_args true [text "/net"; text "/eof"; text "10.1.2.3"] = place 0 (ssh_config [text "/eof"; text "10.1.2.3"]) (positionals true [text "/eof"; text "10.1.2.3"]))
  /\ (opt_is (text "/net") (text "NET") = true ->
   main_args true [text "/net"; text "/eof"; text "10.1.2.3"] = place 0 (net_config [text "/eof"; text "10.1.2.3"]) (positionals false [text "/eof"; text "10.1.2.3"])).
Proof. apply (command_line_meaning true (text "/net") [text "/eof"; text "10.1.2.3"]). Defined.
Example cmd1 : main_args true [text "/ssh"; text "/EOF"; text "10.1.2.3"; text "/P:secret"; text "2222"]
  = Install (Config true [10; 1; 2; 3] 2222 true [] true false (text "secret") true).
Proof. by vm_compute. Qed.
Example cmd2 : main_args true [text "-ssh"; text "com1"; text "/p:x"; text "/p:"] = Install (Config false [10; 0; 2; 15] 22 false [] true true [] false).
Proof. by vm_compute. Qed.
Example cmd3 : main_args false [text "/SSH"] = Usage /\ main_args true [text "/NET"; text "/COM"] = BadIp (text "/COM").
Proof. by vm_compute. Qed.
