(* ===== verification/HostKey.v ===== *)
(** * Keys on disk (src/dosshd/dosshd.c)

    [ssh_install_setup]: the host key file DOSSHD.KEY and the authorized keys of
    AUTHKEYS.  The disk holds the contents of the two files; a file that cannot be
    created has no room for it. *)
From Stdlib Require Import ZArith Lia.
From stdpp Require Import base list numbers.
From S2P Require Import Prelude SshWire Crypto.
Local Open Scope Z_scope.

(** [d_room] is the space for new data, [None] when nothing can be written. *)
Record disk := Disk { key_file : option (list Z); auth_file : option (list Z); d_room : option Z }.
#[export] Instance disk_eta : Eta disk := fun r => Disk (key_file r) (auth_file r) (d_room r).
#[export] Instance upd_key_file : Upd key_file := ltac:(derive_upd key_file).

Inductive notice := KeyGenerated | KeyEphemeral | KeysLoaded (n : Z).

Definition SSH_MAX_AUTHKEYS : Z := 8.

(** The statics the setup writes, with the generator and what was printed. *)
Record keyring {C : Crypto} := Keyring {
  g_hostkey_sk : list Z; g_hostkey_pk : list Z; g_authkeys : list (list Z); g_authkey_count : Z;
  k_rng : rng; k_disk : disk; k_said : list notice }.
Arguments keyring C : clear implicits.
#[export] Instance keyring_eta C : Eta (keyring C) := fun r =>
  Keyring C (g_hostkey_sk r) (g_hostkey_pk r) (g_authkeys r) (g_authkey_count r) (k_rng r) (k_disk r) (k_said r).
#[export] Instance upd_g_hostkey_sk C : Upd (@g_hostkey_sk C) := ltac:(derive_upd (@g_hostkey_sk C)).
#[export] Instance upd_g_hostkey_pk C : Upd (@g_hostkey_pk C) := ltac:(derive_upd (@g_hostkey_pk C)).
#[export] Instance upd_g_authkeys C : Upd (@g_authkeys C) := ltac:(derive_upd (@g_authkeys C)).
#[export] Instance upd_g_authkey_count C : Upd (@g_authkey_count C) := ltac:(derive_upd (@g_authkey_count C)).
#[export] Instance upd_k_rng C : Upd (@k_rng C) := ltac:(derive_upd (@k_rng C)).
#[export] Instance upd_k_disk C : Upd (@k_disk C) := ltac:(derive_upd (@k_disk C)).
#[export] Instance upd_k_said C : Upd (@k_said C) := ltac:(derive_upd (@k_said C)).

(** [fgets( line, n, f )]: up to [n - 1] bytes, the last one a newline or the last
    of the file; [None] at its end. *)
Fixpoint fgets_span (n : nat) (f : list Z) : list Z * list Z :=
  match n, f with
  | S n, b :: f => if decide (b = 10) then ([b], f) else let '(l, r) := fgets_span n f in (b :: l, r)
  | _, _ => ([], f)
  end.
Definition fgets (n : nat) (f : list Z) : option (list Z * list Z) :=
  match f with [] => None | _ => Some (fgets_span (n - 1) f) end.

Section setup.
(** [dossh_ed25519_key_pair], [rng_init], and the bytes a text stream delivers from
    a file. *)
Context {C : Crypto} (key_pair : list Z -> list Z * list Z) (rng_init : rng -> rng) (text_view : list Z -> list Z).

Definition say (n : notice) : M (keyring C) unit := modify (fun s => s <| k_said := k_said s ++ [n] |>).
(** [fopen( "DOSSHD.KEY", "wb" )], [fwrite], [fclose]: whether the file was opened. *)
Definition write_key (seed : list Z) : M (keyring C) bool :=
  d ← gets k_disk;
  match d_room d with
  | None => mret false
  | Some room => modify (fun s => s <| k_disk := d <| key_file := Some (take (Z.to_nat room) seed) |> |>) ;; mret true
  end.
Definition ssh_load_hostkey : M (keyring C) unit :=
  d ← gets k_disk;
  seed ← match key_file d with
         | Some f => if decide (len (take 32 f) = 32) then mret (Some (take 32 f)) else mret None
         | None => mret None
         end;
  seed ← match seed with
         | Some seed => mret seed
         | None =>
             r ← gets k_rng;
             modify (fun s => s <| k_rng := (rng_bytes 32 r).2 |>) ;;
             ok ← write_key (rng_bytes 32 r).1;
             say (if ok : bool then KeyGenerated else KeyEphemeral) ;;
             mret (rng_bytes 32 r).1
         end;
  modify (fun s => (s <| g_hostkey_sk := (key_pair seed).1 |>) <| g_hostkey_pk := (key_pair seed).2 |>).

(** The loop of [ssh_load_authkeys] on the rest [f] of the file; every round takes a
    byte of it. *)
Fixpoint authkeys_loop (fuel : nat) (f : list Z) : M (keyring C) unit :=
  match fuel with
  | O => mret tt
  | S fuel =>
      n ← gets g_authkey_count;
      if decide (n < SSH_MAX_AUTHKEYS) then
        match fgets 300 f with
        | None => mret tt
        | Some (line, f) =>
            k ← lift (ssh_parse_authkey_line (line ++ [0]));
            match k with
            | Some pk => modify (fun s => (s <| g_authkeys := <[Z.to_nat n := pk]> (g_authkeys s) |>) <| g_authkey_count := n + 1 |>)
            | None => mret tt
            end ;;
            authkeys_loop fuel f
        end
      else mret tt
  end.
Definition ssh_load_authkeys : M (keyring C) unit :=
  modify (fun s => s <| g_authkey_count := 0 |>) ;;
  d ← gets k_disk;
  match auth_file d with
  | None => mret tt
  | Some f =>
      authkeys_loop (S (length (text_view f))) (text_view f) ;;
      n ← gets g_authkey_count;
      when (bool_decide (n <> 0)) (say (KeysLoaded n))
  end.
Definition ssh_install_setup : M (keyring C) unit :=
  modify (fun s => s <| k_rng := rng_init (k_rng s) |>) ;; ssh_load_hostkey ;; ssh_load_authkeys.

(** ** The host key *)

Definition stored_seed (d : disk) : option (list Z) :=
  f ← key_file d; if decide (len (take 32 f) = 32) then Some (take 32 f) else None.
(** The seed the host key comes from, and the disk afterwards. *)
Definition hostkey_seed (s : keyring C) : list Z := default (rng_bytes 32 (k_rng s)).1 (stored_seed (k_disk s)).
Definition disk_after (s : keyring C) : disk :=
  match stored_seed (k_disk s), d_room (k_disk s) with
  | None, Some room => (k_disk s) <| key_file := Some (take (Z.to_nat room) (hostkey_seed s)) |>
  | _, _ => k_disk s
  end.
Definition hostkey_notice (d : disk) : list notice :=
  match stored_seed d, d_room d with Some _, _ => [] | None, Some _ => [KeyGenerated] | None, None => [KeyEphemeral] end.
Lemma load_hostkey_run s : wp ssh_load_hostkey (fun _ s' => k_disk s' = disk_after s
  /\ g_hostkey_sk s' = (key_pair (hostkey_seed s)).1 /\ g_hostkey_pk s' = (key_pair (hostkey_seed s)).2
  /\ k_said s' = k_said s ++ hostkey_notice (k_disk s)) s.
Proof.
  unfold ssh_load_hostkey, disk_after, hostkey_notice, hostkey_seed, stored_seed, write_key, say.
  destruct (k_disk s) as [[f|] a [room|]] eqn:Ed; apply wp_bind, wp_gets; rewrite Ed; cbn [key_file d_room mbind option_bind].
  all: try destruct (decide (len (take 32 f) = 32)); cbn [default].
  all: unfold wp, mbind, M_bind, gets, modify, mret, M_ret; cbn -[take upd Z.to_nat rng_bytes]; fld; rewrite ?Ed; cbn -[take upd Z.to_nat rng_bytes]; fld; rewrite ?Ed, ?app_nil_r; done.
Qed.

Context {HC : CryptoOk C}.
Lemma seed_length r : length (rng_bytes 32 r).1 = 32%nat.
Proof. pose proof (rng_bytes_length 32 r ltac:(lia)). lia. Qed.
(** C21: A key file that was read or completely written gives the same host key at every
    later start, whatever the generator does, and the disk is not written again. *)
Theorem hostkey_persists s s2 :
  is_Some (stored_seed (k_disk s)) \/ (exists room, d_room (k_disk s) = Some room /\ 32 <= room) ->
  wp (ssh_load_hostkey) (fun _ s1 => k_disk s2 = k_disk s1 ->
    wp (ssh_load_hostkey) (fun _ s3 => g_hostkey_sk s3 = g_hostkey_sk s1 /\ g_hostkey_pk s3 = g_hostkey_pk s1 /\ k_disk s3 = k_disk s1) s2) s.
Proof.
  pose proof (seed_length (k_rng s)) as Lr. intros H. eapply wp_mono; [apply load_hostkey_run|]. cbn beta. intros _ s1 (E1 & Es1 & Ep1 & N1) E2.
  eapply wp_mono; [apply load_hostkey_run|]. cbn beta. intros _ s3 (E3 & Es3 & Ep3 & _).
  assert (stored_seed (k_disk s1) = Some (hostkey_seed s)) as Hs.
  { rewrite E1. unfold disk_after, hostkey_seed. destruct (stored_seed (k_disk s)) as [x|] eqn:E; [exact E|]. destruct H as [[? ?]|(room & -> & Hr)]; [done|].
    cbn [default]. unfold stored_seed. fld. cbn [mbind option_bind]. rewrite take_take, Nat.min_l, take_ge by lia. by rewrite decide_True by lia. }
  rewrite Es3, Ep3, E3. unfold hostkey_seed at 1 2. unfold disk_after. rewrite E2, Hs. cbn [default]. by rewrite Es1, Ep1.
Qed.
(** When the disk is full the file is cut short although the program reports a
    generated key, and the next start makes another one. *)
Theorem hostkey_lost_on_full_disk s s2 room : stored_seed (k_disk s) = None -> d_room (k_disk s) = Some room -> 0 <= room < 32 ->
  wp ssh_load_hostkey (fun _ s1 => k_said s1 = k_said s ++ [KeyGenerated] /\
    (k_disk s2 = k_disk s1 -> hostkey_seed s2 = (rng_bytes 32 (k_rng s2)).1)) s.
Proof.
  intros Hn Hr Hroom. eapply wp_mono; [apply load_hostkey_run|]. cbn beta. intros _ s1 (E1 & _ & _ & N1).
  unfold hostkey_notice in N1. unfold disk_after in E1. rewrite Hn, Hr in N1, E1. split; [done|]. intros E2.
  unfold hostkey_seed at 1. rewrite E2, E1. unfold stored_seed. fld. cbn [mbind option_bind].
  rewrite decide_False; [done|]. rewrite !length_take. pose proof (seed_length (k_rng s)). lia.
Qed.
End setup.

(** ** The authorized keys *)

Lemma from_blob_total want blob : all_bytes blob -> 0 <= want -> len blob < 65536 ->
  exists r, ed25519_from_blob want blob (len blob) = Some r /\ match r with Some x => want <= len x /\ all_bytes x | None => True end.
Proof.
  intros Hb Hw Hl. unfold ed25519_from_blob.
  destruct (rd_string_spec blob (len blob) 0) as ([[[nm n] o]|] & -> & H); [done|unfold is_u16; lia|lia..| |by exists None].
  destruct H as (x & _ & Hx & _ & -> & -> & Ho). cbn [mbind option_bind].
  assert (exists ok, tok_eq nm (len x) "ssh-ed25519" = Some ok) as [ok ->].
  { unfold tok_eq. case_decide as D; [|by exists false]. unfold rd_is. rewrite <- D, Hx. by eexists. }
  cbn [mbind option_bind]. destruct ok; [|by exists None].
  destruct (rd_string_spec blob (len blob) (0 + 4 + len x)) as ([[[s m] o']|] & -> & H); [done|unfold is_u16; lia|lia..| |by exists None].
  destruct H as (y & _ & Hy & Es & -> & _ & _). cbn [mbind option_bind]. eexists. split; [reflexivity|]. case_decide as D; [|done].
  apply rd_bytes_Some in Hy as (_ & _ & Hy & _ & _). split; [lia|]. rewrite Es. by apply Forall_drop.
Qed.
Lemma b64_at_total p rem k : rem <= len p -> 0 <= k -> exists v, b64_at p rem k = Some v /\ -1 <= v < 64 /\ (rem <= k -> v = -1).
Proof.
  intros Hr Hk. unfold b64_at. case_decide as D.
  - destruct (rd_is_Some p k) as [b ->]; [lia|]. cbn [mbind option_bind]. eexists. split; [done|]. split; [|lia]. unfold b64val. repeat case_decide; lia.
  - exists (-1). split; [done|]. lia.
Qed.
Lemma b64_loop_total fuel : forall p rem out outmax, 0 <= rem <= len p -> all_bytes out -> len out <= outmax ->
  exists r, b64_loop fuel p rem out outmax = Some r /\ all_bytes r /\ len r <= outmax.
Proof.
  induction fuel as [|fuel IH]; intros p rem out outmax Hr Hb Ho; cbn [b64_loop]; [by exists out|]. case_decide; [by exists out|].
  destruct (b64_at_total p rem 0) as (c0 & -> & R0 & _); [lia..|]. destruct (b64_at_total p rem 1) as (c1 & -> & R1 & E1); [lia..|].
  destruct (b64_at_total p rem 2) as (c2 & -> & R2 & E2); [lia..|]. destruct (b64_at_total p rem 3) as (c3 & -> & R3 & E3); [lia..|]. cbn [mbind option_bind].
  assert (forall l v, all_bytes l -> all_bytes (l ++ [u8 v])) as App by (intros l v Hl; apply Forall_app; split; [done|apply Forall_singleton, u8_byte]).
  case_decide; [exists []; split; [done|]; split; [by apply Forall_nil|cbn; lia]|]. case_decide as D1; [exists []; split; [done|]; split; [by apply Forall_nil|cbn; lia]|].
  case_decide; [eexists; split; [done|]; split; [by apply App|rewrite length_app; cbn [length]; lia]|].
  case_decide; [exists []; split; [done|]; split; [by apply Forall_nil|cbn; lia]|]. case_decide as D2; [exists []; split; [done|]; split; [by apply Forall_nil|cbn; lia]|].
  case_decide; [eexists; split; [done|]; split; [by apply App, App|rewrite !length_app in *; cbn [length] in *; lia]|].
  case_decide; [exists []; split; [done|]; split; [by apply Forall_nil|cbn; lia]|]. case_decide as D3; [exists []; split; [done|]; split; [by apply Forall_nil|cbn; lia]|].
  apply IH; [unfold ptr; rewrite length_drop; lia|by apply App, App, App|rewrite !length_app in *; cbn [length] in *; lia].
Qed.
Lemma b64_strip_total n p : Z.of_nat n <= len p -> exists m, b64_strip n p = Some m /\ (m <= n)%nat.
Proof.
  induction n as [|n IH]; intros Hn; cbn [b64_strip]; [by exists 0%nat|]. destruct (rd_is_Some p (Z.of_nat n)) as [b ->]; [lia|]. cbn [mbind option_bind].
  case_decide; [|by exists (S n)]. destruct IH as (m & -> & Hm); [lia|]. exists m. split; [done|lia].
Qed.
(** The scans of a C string stop at its end. *)
Lemma skip_blanks_total l : exists k, skip_blanks (l ++ [0]) = Some (drop k l ++ [0]).
Proof.
  induction l as [|b l [k IH]]; cbn [app skip_blanks].
  - exists 0%nat. by rewrite decide_False by (intros [|]; done).
  - case_decide; [exists (S k); by rewrite IH|by exists 0%nat].
Qed.
Lemma b64_span_total l n : 0 <= n -> n + len l < 65536 -> exists m, b64_span (l ++ [0]) n = Some m /\ n <= m <= n + len l.
Proof.
  revert n. induction l as [|b l IH]; intros n Hn Hl; cbn [app b64_span length] in *.
  - rewrite decide_False by (intros [H|H]; [revert H; by vm_compute|done]). exists n. split; [done|lia].
  - case_decide; [|exists n; split; [done|lia]]. rewrite u16_id by (unfold is_u16; lia). destruct (IH (n + 1)) as (m & -> & Hm); [lia..|]. exists m. split; [done|lia].
Qed.
Lemma strlen_total l : exists n, strlen (l ++ [0]) = Some n /\ 0 <= n <= len l.
Proof.
  induction l as [|b l (n & IH & Hn)]; cbn [app strlen length].
  - exists 0. done.
  - case_decide; [exists 0; split; [done|lia]|]. rewrite IH. cbn [mbind option_bind]. exists (n + 1). split; [done|lia].
Qed.
(** A line of up to 299 bytes is parsed without a read outside it. *)
Lemma parse_line_total l : len l < 300 -> exists r, ssh_parse_authkey_line (l ++ [0]) = Some r /\ match r with Some k => length k = 32%nat /\ all_bytes k | None => True end.
Proof.
  intros Hl. unfold ssh_parse_authkey_line. destruct (skip_blanks_total l) as [k ->]. cbn [mbind option_bind]. set (l1 := drop k l).
  assert (len l1 < 300) as L1 by (unfold l1; rewrite length_drop; lia).
  destruct (rd_is_Some (l1 ++ [0]) 0) as [b ->]; [rewrite length_app; cbn [length]; lia|]. cbn [mbind option_bind]. case_decide; [by exists None|].
  destruct (strlen_total l1) as (n & -> & Hn). cbn [mbind option_bind]. case_decide; [by exists None|]. change (len (text "ssh-ed25519")) with 11 in *.
  assert (exists ok, rd_is (l1 ++ [0]) 0 (text "ssh-ed25519") = Some ok) as [ok ->].
  { unfold rd_is. destruct (rd_bytes_is_Some (l1 ++ [0]) 0 (len (text "ssh-ed25519"))) as [x ->]; [lia|lia|rewrite length_app; change (len (text "ssh-ed25519")) with 11; lia|]. by eexists. }
  cbn [mbind option_bind]. destruct ok; [|by exists None].
  assert (ptr (l1 ++ [0]) 11 = drop 11 l1 ++ [0]) as -> by (unfold ptr; by rewrite drop_app_le by lia).
  destruct (rd_is_Some (drop 11 l1 ++ [0]) 0) as [b2 ->]; [rewrite length_app; cbn [length]; lia|]. cbn [mbind option_bind]. case_decide; [|by exists None].
  destruct (skip_blanks_total (drop 11 l1)) as [k2 ->]. cbn [mbind option_bind]. set (l2 := drop k2 (drop 11 l1)).
  assert (len l2 < 300) as L2 by (unfold l2; rewrite !length_drop; lia).
  destruct (b64_span_total l2 0) as (m & -> & Hm); [lia..|]. cbn [mbind option_bind]. unfold b64_decode.
  destruct (b64_strip_total (Z.to_nat m) (l2 ++ [0])) as (m' & -> & Hm'); [rewrite length_app; lia|]. cbn [mbind option_bind].
  destruct (b64_loop_total (S m') (l2 ++ [0]) (Z.of_nat m') [] 80) as (blob & -> & Bb & Lb); [rewrite length_app; lia|by apply Forall_nil|cbn; lia|]. cbn [mbind option_bind].
  destruct (from_blob_total 32 blob Bb) as (r & E & Hr); [lia|lia|]. unfold ed25519_key_from_blob. rewrite E. cbn [mbind option_bind].
  destruct r as [key|]; [|by exists None]. destruct Hr as [Hk Bk]. destruct (rd_bytes_is_Some key 0 32) as [x Hx]; [lia..|]. rewrite Hx. cbn [mbind option_bind].
  exists (Some x). split; [done|]. split; [apply rd_bytes_Some in Hx as (_&_&_&Hx&_); lia|by eapply rd_bytes_bytes].
Qed.

(** The pieces of a file that [fgets] delivers, and the keys they contain. *)
Fixpoint lines (fuel : nat) (f : list Z) : list (list Z) :=
  match fuel with
  | O => []
  | S fuel => match fgets 300 f with None => [] | Some (l, f) => l :: lines fuel f end
  end.
Definition line_key (l : list Z) : option (list Z) := mjoin (ssh_parse_authkey_line (l ++ [0])).
Definition file_keys (f : list Z) : list (list Z) := omap line_key (lines (S (length f)) f).
Lemma fgets_span_app n f l r : fgets_span n f = (l, r) -> f = l ++ r /\ (length l <= n)%nat.
Proof.
  revert f l r. induction n as [|n IH]; intros f l r; cbn [fgets_span]; [intros [= <- <-]; by cbn|].
  destruct f as [|b f]; [intros [= <- <-]; split; [done|cbn; lia]|]. case_decide; [intros [= <- <-]; split; [by subst|cbn; lia]|].
  destruct (fgets_span n f) as [l' r'] eqn:E. intros [= <- <-]. destruct (IH _ _ _ E) as [-> ?]. split; [done|cbn [length]; lia].
Qed.
Lemma fgets_span_pos n b f : (0 < length (fgets_span (S n) (b :: f)).1)%nat.
Proof. cbn [fgets_span]. case_decide; [cbn; lia|]. destruct (fgets_span n f). cbn [fst length]. lia. Qed.
Lemma fgets_Some f l r : fgets 300 f = Some (l, r) -> f = l ++ r /\ (0 < length l < 300)%nat.
Proof.
  unfold fgets. destruct f as [|b f]; [done|]. intros H%(inj Some). pose proof (fgets_span_pos 298 b f) as P. change (S 298) with (300 - 1)%nat in P. rewrite H in P.
  destruct (fgets_span_app _ _ _ _ H) as [E L]. split; [done|]. cbn [fst] in P. split; [done|]. change 300%nat with (S (300 - 1)). lia.
Qed.
(** The pieces are the whole file, each shorter than the buffer. *)
Lemma lines_whole fuel : forall f, (length f < fuel)%nat -> concat (lines fuel f) = f /\ Forall (fun l => (0 < length l < 300)%nat) (lines fuel f).
Proof.
  induction fuel as [|fuel IH]; intros f Hf; [lia|]. cbn [lines]. destruct (fgets 300 f) as [[l r]|] eqn:E.
  - destruct (fgets_Some _ _ _ E) as [-> L]. rewrite length_app in Hf. destruct (IH r ltac:(lia)) as [E1 E2]. cbn [concat]. rewrite E1. split; [done|by constructor].
  - destruct f; [by cbn|done].
Qed.

Section authkeys.
Context {C : Crypto}.
Implicit Types s : keyring C.
Definition keys_ok s (ks : list (list Z)) : Prop :=
  length (g_authkeys s) = 8%nat /\ g_authkey_count s = len (take 8 ks) /\ take (length (take 8 ks)) (g_authkeys s) = take 8 ks.
Definition same_but_keys s s' : Prop :=
  k_disk s' = k_disk s /\ g_hostkey_sk s' = g_hostkey_sk s /\ g_hostkey_pk s' = g_hostkey_pk s /\ k_said s' = k_said s.
Lemma keys_push s ks pk : keys_ok s ks -> (length ks < 8)%nat ->
  keys_ok ((s <| g_authkeys := <[Z.to_nat (g_authkey_count s) := pk]> (g_authkeys s) |>) <| g_authkey_count := g_authkey_count s + 1 |>) (ks ++ [pk]).
Proof.
  intros (L & N & E) Lk. unfold keys_ok. fld. rewrite length_insert. rewrite (take_ge ks), (take_ge (ks ++ [pk])) in * by (rewrite ?length_app; cbn [length]; lia).
  rewrite N, Nat2Z.id, length_app. cbn [length]. split; [done|]. split; [lia|].
  rewrite Nat.add_1_r, (take_S_r _ _ pk) by (apply list_lookup_insert_eq; lia). by rewrite take_insert_ge, E by lia.
Qed.
Lemma authkeys_loop_spec fuel : forall f s ks, keys_ok s ks ->
  wp (authkeys_loop fuel f) (fun _ s' => keys_ok s' (ks ++ omap line_key (lines fuel f)) /\ same_but_keys s s') s.
Proof.
  induction fuel as [|fuel IH]; intros f s ks H; cbn [authkeys_loop lines]; [apply wp_ret; by rewrite app_nil_r|].
  apply wp_bind, wp_gets. case_decide as D.
  2: { apply wp_ret. split; [|done]. destruct H as (L & N & E). assert (8 <= length ks)%nat as Lk by (unfold SSH_MAX_AUTHKEYS in D; rewrite length_take in N; lia).
       unfold keys_ok. rewrite take_app_le by lia. done. }
  destruct (fgets 300 f) as [[l r]|] eqn:E; [|apply wp_ret; by rewrite app_nil_r].
  destruct (fgets_Some _ _ _ E) as [_ Ll]. destruct (parse_line_total l ltac:(lia)) as (k & Ek & _). apply wp_bind, (wp_lift _ k); [done|].
  assert (length ks < 8)%nat as Lk by (destruct H as (_ & N & _); unfold SSH_MAX_AUTHKEYS in D; rewrite length_take in N; lia).
  cbn [omap list_omap]. unfold line_key at 1. rewrite Ek. apply wp_bind. destruct k as [pk|]; cbn [mjoin option_join].
  - apply wp_modify. change (pk :: omap line_key (lines fuel r)) with ([pk] ++ omap line_key (lines fuel r)). rewrite app_assoc. eapply wp_mono; [apply IH, keys_push; done|].
    cbn beta. intros _ s' [H1 (S1 & S2 & S3 & S4)]. split; [done|]. split_and!; by rewrite ?S1, ?S2, ?S3, ?S4.
  - apply wp_ret. by apply IH.
Qed.
(** The authorized keys after the setup are the first eight keys of the file, in
    order; no file makes the parser leave the line buffer. *)
Theorem authkeys_loaded (text_view : list Z -> list Z) f s : auth_file (k_disk s) = Some f -> length (g_authkeys s) = 8%nat ->
  wp (ssh_load_authkeys text_view) (fun _ s' =>
    let keys := take 8 (file_keys (text_view f)) in
    g_authkey_count s' = len keys /\ take (length keys) (g_authkeys s') = keys
    /\ k_said s' = k_said s ++ (if decide (keys = []) then [] else [KeysLoaded (len keys)])) s.
Proof.
  intros Hf L. unfold ssh_load_authkeys. apply wp_bind, wp_modify, wp_bind, wp_gets. fld. rewrite Hf. apply wp_bind.
  eapply wp_mono; [apply (authkeys_loop_spec _ _ _ []); unfold keys_ok; by fld|]. cbn beta. intros _ s' [(_ & N & E) (_ & _ & _ & S4)].
  apply wp_bind, wp_gets. cbn [app] in *. change (omap line_key (lines (S (length (text_view f))) (text_view f))) with (file_keys (text_view f)) in *.
  unfold when. case_bool_decide as D.
  - apply wp_modify. fld. split; [done|]. split; [done|]. rewrite decide_False by (intros Z0; rewrite Z0 in N; done). by rewrite S4, N.
  - apply wp_ret. split; [done|]. split; [done|]. rewrite decide_True; [by rewrite S4, app_nil_r|]. apply nil_length_inv. lia.
Qed.
End authkeys.

Definition demo_disk : disk := Disk (Some (seqZ 1 40)) (Some (text "x")) None.
Definition demo_ring (d : disk) (r : Z) : keyring toy := Keyring toy [] [] [] 0 r d [].
Lemma hostkey_persists_witness :
  wp (ssh_load_hostkey (C := toy) (fun s => (s ++ s, s))) (fun _ s1 => k_disk (demo_ring demo_disk 9) = k_disk s1 ->
    wp (ssh_load_hostkey (C := toy) (fun s => (s ++ s, s))) (fun _ s3 => g_hostkey_sk s3 = g_hostkey_sk s1 /\ g_hostkey_pk s3 = g_hostkey_pk s1 /\ k_disk s3 = k_disk s1) (demo_ring demo_disk 9)) (demo_ring demo_disk 5).
Proof. apply (hostkey_persists (C := toy) (fun s => (s ++ s, s)) (demo_ring demo_disk 5) (demo_ring demo_disk 9)). left. by exists (seqZ 1 32). Defined.
