(* ===== verification/Tsr.v ===== *)
(** * Installation and removal of the resident program (src/dosshd/dosshd.c, net.c)

    The interrupt vectors, the INT 2Fh handler and its client [find_resident],
    [install], [uninstall], [status], [main] and the warm reboot, over a model of
    the parts of DOS they use: the vector table, the code found at an address, the
    memory control blocks, and a log of what was done to them. *)
From Stdlib Require Import ZArith Lia.
From stdpp Require Import base list numbers functions.
From S2P Require Import Prelude SshWire Net Ansikey Render Crypto Tick Cmdline HostKey.
Local Open Scope Z_scope.

(** ** The machine *)

(** Segment and offset. *)
Definition far : Type := Z * Z.
Record regs := Regs { r_ax : Z; r_bx : Z; r_cx : Z; r_dx : Z; r_si : Z; r_di : Z; r_es : Z }.
(** [struct resident_state] *)
Record resident_state := Resident { magic : list Z; rs_psp : Z; rs_mode : Z; rs_pkt_int : Z; rs_pkt_handle : Z; old_1c : far; old_2f : far }.
(** What INT 2Fh finds at an address: [mpx_isr] of a copy of the program with its
    state at [st], or another program that answers or chains on. *)
Inductive code := Mpx (st : far) | Foreign (h : regs -> regs + far).
Inductive msg :=
  | NotInstalled | MpxTaken | AlreadyInstalled | HookedAfter | Uninstalled | NoDriver | UsageText | BadIpText (a : list Z)
  | Installed (network : bool) (psp : Z) | ResidentText (c : config) (auth : list Z) (kb : Z) | EofText.
Inductive op :=
  | Store (a : far) (st : resident_state) | SetVect (n : Z) (p : far) | Cli | Sti | FreeMem (seg : Z) | ClearEnv (psp : Z)
  | Release (int_no handle : Z) | Keep (paras : Z) | Say (m : msg) | WarmFlag | Out (port v : Z).
Record dos := Dos {
  ivt : Z -> far;
  code_at : far -> code;
  state_at : far -> resident_state;
  paras_of : Z -> Z;  (* the size word of the memory block of a PSP *)
  env_of : Z -> Z;  (* the word at offset 2Ch of a PSP *)
  log : list op }.
#[export] Instance dos_eta : Eta dos := fun r => Dos (ivt r) (code_at r) (state_at r) (paras_of r) (env_of r) (log r).
#[export] Instance upd_ivt : Upd ivt := ltac:(derive_upd ivt).
#[export] Instance upd_state_at : Upd state_at := ltac:(derive_upd state_at).
#[export] Instance upd_env_of : Upd env_of := ltac:(derive_upd env_of).
#[export] Instance upd_log : Upd log := ltac:(derive_upd log).

Definition apply_op (o : op) (d : dos) : dos :=
  match o with
  | Store a st => d <| state_at := <[a := st]> (state_at d) |>
  | SetVect n p => d <| ivt := <[n := p]> (ivt d) |>
  | ClearEnv psp => d <| env_of := <[psp := 0]> (env_of d) |>
  | _ => d
  end.
Definition logged (o : op) (d : dos) : dos := (apply_op o d) <| log := log d ++ [o] |>.
Definition emit (o : op) : M dos unit := modify (logged o).

(** ** INT 2Fh *)

Definition MPX_ID : Z := 0xD5.
Definition STATE_MAGIC : list Z := text "DOSSH1".
Definition regs0 : regs := Regs 0 0 0 0 0 0 0.
Definition r_ah (r : regs) : Z := Z.land (Z.shiftr (r_ax r) 8) 255.
Definition r_al (r : regs) : Z := Z.land (r_ax r) 255.

(** [mpx_isr]; [chain] is [_chain_intr( state.old_2f )]. *)
Definition mpx_isr (st : far) (chain : regs -> option regs) (r : regs) : option regs :=
  if decide (r_ah r = MPX_ID /\ r_al r = 0)
  then Some (Regs (Z.lor (Z.shiftl (r_ah r) 8) 0xFF) (r_bx r) (fst st) (snd st) (r_si r) (r_di r) (r_es r))
  else chain r.
(** The interrupt with a chain of at most [n] handlers from [p] on. *)
Fixpoint int2f (n : nat) (d : dos) (p : far) (r : regs) : option regs :=
  match n with
  | O => None
  | S n =>
      match code_at d p with
      | Mpx st => mpx_isr st (int2f n d (old_2f (state_at d st))) r
      | Foreign h => match h r with inl r => Some r | inr q => int2f n d q r end
      end
  end.

(** The addresses of the running copy: its PSP, [tick_isr], [mpx_isr], [state],
    [pkt_receiver] and [g_mac]. *)
Record image := Image { im_psp : Z; im_tick : far; im_mpx : far; im_state : far; im_receiver : far; im_mac : far }.
Record system {C : Crypto} := System {
  s_dos : dos; s_net : net; s_tables : key_tables; s_rend : rend; s_mach : machine; s_ring : keyring C }.
Arguments system C : clear implicits.
#[export] Instance system_eta C : Eta (system C) := fun r => System C (s_dos r) (s_net r) (s_tables r) (s_rend r) (s_mach r) (s_ring r).
#[export] Instance upd_s_dos C : Upd (@s_dos C) := ltac:(derive_upd (@s_dos C)).
#[export] Instance upd_s_net C : Upd (@s_net C) := ltac:(derive_upd (@s_net C)).
#[export] Instance upd_s_tables C : Upd (@s_tables C) := ltac:(derive_upd (@s_tables C)).
#[export] Instance upd_s_rend C : Upd (@s_rend C) := ltac:(derive_upd (@s_rend C)).
#[export] Instance upd_s_ring C : Upd (@s_ring C) := ltac:(derive_upd (@s_ring C)).

Section machine.
(** The longest chain of handlers, and what the packet driver at an interrupt does:
    carry flag and AX, and the bytes it stores at ES:DI. *)
Context (chain_max : nat) (signature : far -> list Z) (driver : Z -> regs -> bool * Z) (driver_mac : Z -> regs -> list Z).

Definition probe : regs := Regs (Z.lor (Z.shiftl MPX_ID 8) 0) 0 0 0 0 0 0.
(** The resident state, and [*conflict]. *)
Definition find_resident : M dos (option far * bool) :=
  d ← gets id;
  r ← lift (int2f chain_max d (ivt d 0x2F) probe);
  if decide (r_al r <> 0xFF) then mret (None, false)
  else if decide (Z.lor (r_cx r) (r_dx r) <> 0 /\ take 6 (magic (state_at d (r_cx r, r_dx r))) = STATE_MAGIC)
  then mret (Some (r_cx r, r_dx r), false)
  else mret (None, true).

Definition block_paras (psp : Z) : M dos Z := gets (fun d => paras_of d psp).
Definition net_release (int_no handle : Z) : M dos unit := emit (Release int_no handle).

Definition uninstall : M dos Z :=
  f ← find_resident;
  match f with
  | (None, conflict) => emit (Say (if conflict : bool then MpxTaken else NotInstalled)) ;; mret 1
  | (Some a, _) =>
      st ← gets (fun d => state_at d a);
      paras ← block_paras (rs_psp st);
      let rend := u16 (rs_psp st + paras) in
      seg1c ← gets (fun d => fst (ivt d 0x1C));
      seg2f ← gets (fun d => fst (ivt d 0x2F));
      if decide (seg1c < rs_psp st \/ seg1c >= rend \/ seg2f < rs_psp st \/ seg2f >= rend)
      then emit (Say HookedAfter) ;; mret 1
      else
        emit Cli ;; emit (SetVect 0x1C (old_1c st)) ;; emit (SetVect 0x2F (old_2f st)) ;; emit Sti ;;
        when (bool_decide (rs_mode st <> 0)) (net_release (rs_pkt_int st) (rs_pkt_handle st)) ;;
        emit (FreeMem (rs_psp st)) ;; emit (Say Uninstalled) ;; mret 0
  end.
Definition status : M dos Z :=
  f ← find_resident;
  match f with
  | (Some a, _) => st ← gets (fun d => state_at d a); emit (Say (Installed (bool_decide (rs_mode st <> 0)) (rs_psp st))) ;; mret 0
  | (None, conflict) => emit (Say (if conflict : bool then MpxTaken else NotInstalled)) ;; mret 1
  end.

(** ** The packet driver (net.c) *)

(** [for( v = 0x60; v <= 0x7E; v++ )]: the first vector that is not null and leads to
    the signature, three bytes after the entry. *)
Definition is_driver (d : dos) (v : Z) : bool := bool_decide (ivt d v <> (0, 0) /\ signature (ivt d v) = text "PKT DRVR").
Definition pkt_find (d : dos) : option Z := head (filter (fun v => is_driver d v = true) (seqZ 0x60 31)).
Definition access_regs (receiver : far) : regs := Regs 0x0201 0xFFFF 0 0 0 (snd receiver) (fst receiver).
Definition pkt_access (receiver : far) (int_no : Z) : option Z :=
  match driver int_no (access_regs receiver) with (true, _) => None | (false, handle) => Some handle end.
Definition address_regs (mac : far) (handle : Z) : regs := Regs 0x0600 handle 6 0 0 (snd mac) (fst mac).
(** The driver interrupt and the handle, with what [net_open] makes of the stack; the
    addresses of [pkt_receiver] and [g_mac]. *)
Definition open_driver (receiver mac : far) (ip : list Z) (port : Z) (d : dos) (n : net) : option (option (Z * Z) * net) :=
  match ip with
  | [a; b; c; e] =>
      match pkt_find d with
      | None => option_map (fun x => (None, snd x)) (net_open false [] a b c e port n)
      | Some v =>
          match pkt_access receiver v with
          | None => option_map (fun x => (None, snd x)) (net_open false [] a b c e port n)
          | Some h => option_map (fun x => (Some (v, h), snd x)) (net_open true (driver_mac v (address_regs mac h)) a b c e port n)
          end
      end
  | _ => None
  end.

(** ** Installation *)

Context {C : Crypto} (im : image) (setup : M (keyring C) unit).
Definition on_dos {A} (m : M dos A) : M (system C) A := fun s => match m (s_dos s) with Some (a, d) => Some (a, s <| s_dos := d |>) | None => None end.
Definition emit_s (o : op) : M (system C) unit := on_dos (emit o).

Definition uart_init : M dos unit :=
  emit (Out 0x3F9 0x00) ;; emit (Out 0x3FB 0x80) ;; emit (Out 0x3F8 0x01) ;; emit (Out 0x3F9 0x00) ;; emit (Out 0x3FB 0x03) ;;
  emit (Out 0x3FA 0xC7) ;; emit (Out 0x3FC 0x03).
Definition kept_kb (paras : Z) : Z := u16 (u32 (u32 (paras * 16) + 1023) / 1024).
Definition authdesc (keys : Z) (have_pw : bool) : list Z :=
  if decide (keys <> 0) then (if have_pw then text "publickey+password" else text "publickey")
  else (if have_pw then text "password" else text "open (no /P)").

(** The end of [install], with the driver and the handle of [net_open]. *)
Definition go_resident (c : config) (drv : option (Z * Z)) : M (system C) Z :=
  d ← gets s_dos;
  emit_s (Store (im_state im) (Resident STATE_MAGIC (im_psp im) (if g_net c then 1 else 0)
    (match drv with Some (v, _) => v | None => 0 end) (match drv with Some (_, h) => h | None => 0 end) (ivt d 0x1C) (ivt d 0x2F))) ;;
  emit_s (SetVect 0x2F (im_mpx im)) ;; emit_s (SetVect 0x1C (im_tick im)) ;;
  env ← gets (fun s => env_of (s_dos s) (im_psp im));
  when (bool_decide (env <> 0)) (emit_s (FreeMem env) ;; emit_s (ClearEnv (im_psp im))) ;;
  paras ← on_dos (block_paras (im_psp im));
  n ← gets (fun s => g_authkey_count (s_ring s));
  emit_s (Say (ResidentText c (authdesc n (g_ssh_have_pw c)) (kept_kb paras))) ;;
  when (cl_eof c) (emit_s (Say EofText)) ;;
  emit_s (Keep paras) ;;
  mret 0.
Definition install (c : config) : M (system C) Z :=
  modify (fun s => s <| s_tables := ansi_key_init (s_tables s) |>) ;;
  e ← gets s_mach;
  (fun s => match render_reset e (s_rend s) with Some (_, r) => Some (tt, s <| s_rend := r |>) | None => None end) ;;
  when (g_ssh_mode c) (fun s => match setup (s_ring s) with Some (_, k) => Some (tt, s <| s_ring := k |>) | None => None end) ;;
  if g_net c then
    drv ← (fun s => match open_driver (im_receiver im) (im_mac im) (net_ip c) (net_port c) (s_dos s) (s_net s) with
                    | Some (drv, n) => Some (drv, s <| s_net := n |>) | None => None end);
    match drv with
    | None => emit_s (Say NoDriver) ;; mret 1
    | Some _ => go_resident c drv
    end
  else on_dos uart_init ;; go_resident c None.

Definition main (ssh_build : bool) (args : list (list Z)) : M (system C) Z :=
  match main_args ssh_build args with
  | Uninstall => on_dos uninstall
  | Status => on_dos status
  | Usage => emit_s (Say UsageText) ;; mret 1
  | BadIp a => emit_s (Say (BadIpText a)) ;; mret 1
  | Install c =>
      f ← on_dos find_resident;
      match f with
      | (Some _, _) => emit_s (Say AlreadyInstalled) ;; mret 1
      | (None, true) => emit_s (Say MpxTaken) ;; mret 1
      | (None, false) => install c
      end
  end.

(** [do_reboot]; the pause between the last two steps only waits. *)
Definition do_reboot (net_mode : bool) (int_no handle : Z) : M dos unit :=
  when net_mode (net_release int_no handle) ;; emit Cli ;; emit WarmFlag ;; emit (Out 0x64 0xFE) ;; emit Sti.
(** ** Removal *)

Definition emits (ops : list op) (d : dos) : dos := fold_left (fun d o => logged o d) ops d.
Lemma emits_app a b d : emits (a ++ b) d = emits b (emits a d).
Proof. apply fold_left_app. Qed.
Lemma emits_log ops d : log (emits ops d) = log d ++ ops.
Proof.
  revert d. induction ops as [|o ops IH]; intros d; cbn [emits fold_left]; [by rewrite app_nil_r|]. fold (emits ops). rewrite IH.
  unfold logged. fld. by rewrite <- app_assoc.
Qed.
Lemma find_pure d x d' : find_resident d = Some (x, d') -> d' = d.
Proof.
  unfold find_resident, gets, lift, mret, mbind, M_ret, M_bind, id. cbn. destruct (int2f _ _ _ _) as [r|]; [|done]. repeat case_decide; by intros [= _ <-].
Qed.

Definition removal (st : resident_state) : list op :=
  [Cli; SetVect 0x1C (old_1c st); SetVect 0x2F (old_2f st); Sti]
  ++ (if decide (rs_mode st = 0) then [] else [Release (rs_pkt_int st) (rs_pkt_handle st)]) ++ [FreeMem (rs_psp st); Say Uninstalled].
(** A vector leads into the memory block of the resident copy. *)
Definition inside (d : dos) (st : resident_state) (p : far) : Prop := rs_psp st <= fst p < u16 (rs_psp st + paras_of d (rs_psp st)).
#[export] Instance inside_dec d st p : Decision (inside d st p).
Proof. unfold inside. apply _. Defined.

Lemma uninstall_cases d a cf : find_resident d = Some ((Some a, cf), d) ->
  uninstall d = Some (if decide (inside d (state_at d a) (ivt d 0x1C) /\ inside d (state_at d a) (ivt d 0x2F))
                      then (0, emits (removal (state_at d a)) d) else (1, emits [Say HookedAfter] d)).
Proof.
  intros F. unfold uninstall, gets, block_paras, mbind, M_bind. rewrite F. cbn beta iota. unfold inside, gets. destruct (state_at d a) as [mg p md pi ph o1 o2] eqn:Est. cbn [rs_psp].
  destruct (decide (fst (ivt d 28) < p \/ _)) as [D|D].
  - rewrite decide_False by lia. done.
  - rewrite decide_True by lia. unfold removal, net_release, when, emit, modify, mret, M_ret, skip. cbn [rs_mode rs_psp old_1c old_2f rs_pkt_int rs_pkt_handle].
    destruct (decide (md = 0)) as [->|N]; [by rewrite bool_decide_eq_false_2 by (by intros [])|by rewrite bool_decide_eq_true_2].
Qed.
Lemma removal_vectors st d : ivt (emits (removal st) d) 0x1C = old_1c st /\ ivt (emits (removal st) d) 0x2F = old_2f st
  /\ (forall n, n <> 0x1C -> n <> 0x2F -> ivt (emits (removal st) d) n = ivt d n).
Proof.
  unfold removal. rewrite !emits_app.
  assert (forall o, (forall n p, o <> SetVect n p) -> forall d, ivt (logged o d) = ivt d) as Same by (intros [] H e; try done; exfalso; by eapply H).
  assert (forall e, ivt (emits [FreeMem (rs_psp st); Say Uninstalled] e) = ivt e) as -> by done.
  assert (forall e, ivt (emits (if decide (rs_mode st = 0) then [] else [Release (rs_pkt_int st) (rs_pkt_handle st)]) e) = ivt e) as -> by (intros e; by case_decide).
  cbn [emits fold_left]. unfold logged, apply_op. fld. split; [by rewrite fn_lookup_insert_ne, fn_lookup_insert by done|]. split; [by rewrite fn_lookup_insert|].
  intros n N1 N2. by rewrite !fn_lookup_insert_ne by done.
Qed.

(** While [uninstall] runs, the memory of the resident copy is free only when neither
    vector leads into it and the packet driver has been told to forget it. *)
Definition safe_log (st : resident_state) (done : list op) (d : dos) : Prop :=
  In (FreeMem (rs_psp st)) done ->
  ivt d 0x1C = old_1c st /\ ivt d 0x2F = old_2f st /\ (rs_mode st <> 0 -> In (Release (rs_pkt_int st) (rs_pkt_handle st)) done).
Lemma removal_safe st d k : safe_log st (take k (removal st)) (emits (take k (removal st)) d).
Proof.
  assert (forall n a b, n = 0x1C \/ n = 0x2F -> <[0x2F := b]> (<[0x1C := a]> (ivt d)) n = if decide (n = 0x1C) then a else b) as V.
  { intros n a b [->| ->]; [by rewrite fn_lookup_insert_ne, fn_lookup_insert by done|by rewrite fn_lookup_insert]. }
  unfold safe_log, removal. destruct (decide (rs_mode st = 0)) as [E|N]; cbn [app];
    do 7 (destruct k as [|k]; [cbn [take emits fold_left In]; try (intuition discriminate); intros _|]); cbn [take]; rewrite ?take_nil; cbn [take emits fold_left In]; intros _.
  all: unfold logged, apply_op; fld; rewrite !V by auto; cbn [decide]; split_and!; try done; tauto.
Qed.
Theorem uninstall_safe d rc d' k : uninstall d = Some (rc, d') ->
  exists ops, d' = emits ops d /\ (rc = 0 \/ forall p, ~ In (FreeMem p) ops)
    /\ exists st, safe_log st (take k ops) (emits (take k ops) d) /\ (rc = 0 -> In (FreeMem (rs_psp st)) ops /\ inside d st (ivt d 0x1C) /\ inside d st (ivt d 0x2F)).
Proof.
  intros H. destruct (find_resident d) as [[[f cf] d1]|] eqn:F; [|by unfold uninstall, mbind, M_bind in H; rewrite F in H].
  pose proof (find_pure _ _ _ F) as ->. destruct f as [a|].
  - rewrite (uninstall_cases d a cf F) in H. case_decide as D; injection H as <- <-.
    + exists (removal (state_at d a)). split; [done|]. split; [by left|]. exists (state_at d a). split; [apply removal_safe|]. intros _. split; [|done].
      unfold removal. rewrite !in_app_iff. right; right. by left.
    + exists [Say HookedAfter]. split; [done|]. assert (forall p j, ~ In (FreeMem p) (take j [Say HookedAfter])) as N by (intros p [|j]; cbn; rewrite ?take_nil; cbn; intuition discriminate).
      split; [right; intros p; apply (N p 1%nat)|]. exists (state_at d a). split; [intros X; by apply N in X|done].
  - assert (rc = 1 /\ d' = emits [Say (if cf then MpxTaken else NotInstalled)] d) as [-> ->].
    { unfold uninstall, mbind, M_bind in H. rewrite F in H. unfold emit, modify, mret, M_ret in H. injection H as <- <-. done. }
    set (m := if cf then _ else _). assert (forall p j, ~ In (FreeMem p) (take j [Say m])) as N by (intros p [|j]; cbn; rewrite ?take_nil; cbn; intuition discriminate).
    eexists. split; [done|]. split; [right; intros p; apply (N p 1%nat)|]. exists (state_at d (0, 0)). split; [intros X; by apply N in X|done].
Qed.
(** ** Installation, then removal *)

(** What [install] leaves: the vectors lead to the program, its state block names its
    memory, the driver and the vectors it found. *)
Record resident (c : config) (drv : option (Z * Z)) (d d' : dos) : Prop := {
  res_1c : ivt d' 0x1C = im_tick im;
  res_2f : ivt d' 0x2F = im_mpx im;
  res_vectors n : n <> 0x1C -> n <> 0x2F -> ivt d' n = ivt d n;
  res_state : state_at d' (im_state im) = Resident STATE_MAGIC (im_psp im) (if g_net c then 1 else 0)
    (match drv with Some (v, _) => v | None => 0 end) (match drv with Some (_, h) => h | None => 0 end) (ivt d 0x1C) (ivt d 0x2F);
  res_code : code_at d' = code_at d;
  res_paras : paras_of d' = paras_of d }.

Lemma wp_emit_s o Q s : Q tt (s <| s_dos := logged o (s_dos s) |>) -> wp (emit_s o) Q s.
Proof. done. Qed.
Lemma resident_more c drv d d' o : resident c drv d d' -> (forall a st, o <> Store a st) -> (forall n p, o <> SetVect n p) -> resident c drv d (logged o d').
Proof. intros [] HS HV. destruct o; try (exfalso; by eapply HS); try (exfalso; by eapply HV); split; unfold logged, apply_op; by fld. Qed.
Lemma go_resident_spec c drv s : wp (go_resident c drv) (fun rc s' => rc = 0 /\ resident c drv (s_dos s) (s_dos s') /\ s_net s' = s_net s) s.
Proof.
  unfold go_resident. apply wp_bind, wp_gets. do 3 (apply wp_bind, wp_emit_s).
  set (s1 := _ <| s_dos := _ |>). assert (resident c drv (s_dos s) (s_dos s1)) as R1.
  { unfold s1, logged, apply_op. split; fld; try done; [|by rewrite fn_lookup_insert].
    intros n N1 N2. by rewrite !fn_lookup_insert_ne by done. }
  assert (s_net s1 = s_net s) as N1 by done. clearbody s1.
  assert (forall o s1, (forall a st, o <> Store a st) -> (forall n p, o <> SetVect n p) -> resident c drv (s_dos s) (s_dos s1) /\ s_net s1 = s_net s ->
    wp (emit_s o) (fun _ s2 => resident c drv (s_dos s) (s_dos s2) /\ s_net s2 = s_net s) s1) as Step.
  { intros o s0 HS HV [HR HN]. apply wp_emit_s. fld. split; [by apply resident_more|done]. }
  apply wp_bind, wp_gets, wp_bind. apply (wp_mono _ (fun _ s2 => resident c drv (s_dos s) (s_dos s2) /\ s_net s2 = s_net s)).
  { unfold when. case_bool_decide; [|by apply wp_ret]. apply wp_bind. eapply wp_mono; [by apply Step|]. intros [] s2 H2. by apply Step. }
  intros [] s2 H2. apply wp_bind. apply (wp_mono _ (fun _ s2 => resident c drv (s_dos s) (s_dos s2) /\ s_net s2 = s_net s)).
  { unfold on_dos, block_paras, gets, wp. by fld. }
  intros paras s3 H3. apply wp_bind, wp_gets, wp_bind. eapply wp_mono; [by apply Step|]. intros [] s4 H4. apply wp_bind.
  apply (wp_mono _ (fun _ s2 => resident c drv (s_dos s) (s_dos s2) /\ s_net s2 = s_net s)).
  { unfold when. destruct (cl_eof c); [by apply Step|by apply wp_ret]. }
  intros [] s5 H5. apply wp_bind. eapply wp_mono; [by apply Step|]. intros [] s6 [H6 H7]. by apply wp_ret.
Qed.
Definition opened (c : config) (d : dos) (drv : option (Z * Z)) : Prop :=
  if g_net c then exists v h, drv = Some (v, h) /\ pkt_find d = Some v /\ pkt_access (im_receiver im) v = Some h else drv = None.
Lemma open_driver_found ip port d n drv n' : open_driver (im_receiver im) (im_mac im) ip port d n = Some (drv, n') -> drv <> None ->
  exists v h, drv = Some (v, h) /\ pkt_find d = Some v /\ pkt_access (im_receiver im) v = Some h.
Proof.
  unfold open_driver. destruct ip as [|a [|b [|c [|e [|]]]]]; try done. destruct (pkt_find d) as [v|]; [|by destruct (net_open _ _ _ _ _ _ _ _); [intros [= <- _]|]].
  destruct (pkt_access (im_receiver im) v) as [h|] eqn:A; [|by destruct (net_open _ _ _ _ _ _ _ _); [intros [= <- _]|]].
  destruct (net_open _ _ _ _ _ _ _ _); [|done]. intros [= <- _] _. by exists v, h.
Qed.
Lemma install_resident c s : wlp (install c) (fun rc s' =>
  rc = 1 /\ g_net c = true /\ s_dos s' = emits [Say NoDriver] (s_dos s) \/ rc = 0 /\ exists drv, opened c (s_dos s) drv /\ resident c drv (s_dos s) (s_dos s')) s.
Proof.
  unfold install. apply wlp_bind, wlp_modify, wlp_bind, wlp_gets, wlp_bind.
  set (s1 := s <| s_tables := _ |>). apply (wlp_mono _ (fun _ s2 => s_dos s2 = s_dos s)).
  { unfold wlp. by destruct (render_reset _ _) as [[]|]. }
  intros [] s2 E2. apply wlp_bind, (wlp_mono _ (fun _ s3 => s_dos s3 = s_dos s)).
  { unfold when. destruct (g_ssh_mode c); [|by apply wlp_ret]. unfold wlp. by destruct (setup _) as [[]|]. }
  intros [] s3 E3. unfold opened. destruct (g_net c) eqn:G.
  - apply wlp_bind. unfold wlp at 1. rewrite E3. destruct (open_driver _ _ _ _ _ _) as [[drv n]|] eqn:O; [|done]. set (s4 := s3 <| s_net := n |>).
    assert (s_dos s4 = s_dos s) as E4 by done. destruct drv as [vh|].
    + destruct (open_driver_found _ _ _ _ _ _ O) as (v & h & Evh & F); [done|]. eapply wp_wlp, wp_mono; [apply go_resident_spec|]. intros rc s5 (-> & R & _). right. split; [done|].
      rewrite E4 in R. exists (Some vh). split; [|done]. exists v, h. by split.
    + apply wlp_bind. apply wlp_ret. left. split; [done|]. split; [done|]. unfold emits. cbn [fold_left]. by rewrite <- E4.
  - apply wlp_bind. unfold wlp at 1, on_dos. rewrite E3. eapply wp_wlp, wp_mono; [apply go_resident_spec|]. cbn beta. intros rc s5 (-> & R & _). right. split; [done|].
    exists None. split; [done|]. by destruct R.
Qed.

(** The program fits the machine: its handlers lie in its memory block. *)
Record image_ok (d : dos) : Prop := {
  io_code : code_at d (im_mpx im) = Mpx (im_state im);
  io_tick : im_psp im <= fst (im_tick im) < im_psp im + paras_of d (im_psp im);
  io_mpx : im_psp im <= fst (im_mpx im) < im_psp im + paras_of d (im_psp im);
  io_end : 0 <= im_psp im /\ im_psp im + paras_of d (im_psp im) < 65536;
  io_state : Z.lor (fst (im_state im)) (snd (im_state im)) <> 0 }.
(** [d2] is the machine some time after the installation left [d1]: what concerns the
    resident copy is unchanged. *)
Record still_there (d1 d2 : dos) : Prop := {
  st_1c : ivt d2 0x1C = ivt d1 0x1C; st_2f : ivt d2 0x2F = ivt d1 0x2F;
  st_state : state_at d2 (im_state im) = state_at d1 (im_state im);
  st_code : code_at d2 (im_mpx im) = code_at d1 (im_mpx im);
  st_paras : paras_of d2 (im_psp im) = paras_of d1 (im_psp im) }.

Lemma found_resident c drv d d1 d2 : (0 < chain_max)%nat -> image_ok d -> resident c drv d d1 -> still_there d1 d2 ->
  find_resident d2 = Some ((Some (im_state im), false), d2).
Proof.
  intros Hc I R T. unfold find_resident, gets, lift, mret, mbind, M_ret, M_bind, id. cbn beta iota. rewrite (st_2f _ _ T), (res_2f _ _ _ _ R).
  destruct chain_max as [|n]; [lia|]. cbn [int2f]. rewrite (st_code _ _ T), (res_code _ _ _ _ R), (io_code _ I).
  unfold mpx_isr. rewrite decide_True by done. cbn [r_cx r_dx]. rewrite decide_False by (by intros []).
  replace (fst (im_state im), snd (im_state im)) with (im_state im) by (by destruct (im_state im)).
  rewrite (st_state _ _ T), (res_state _ _ _ _ R). rewrite decide_True; [done|]. split; [exact (io_state _ I)|done].
Qed.

(** C20: A successful installation can be undone: as long as nothing hooked the vectors
    after it, a second installation is refused, [/S] reports it, and [/U] puts back
    exactly the vectors it found, tells the driver it opened to forget it, and frees
    the memory. *)
Theorem install_then_remove c s s' d2 : (0 < chain_max)%nat -> image_ok (s_dos s) -> install c s = Some (0, s') -> still_there (s_dos s') d2 ->
  (exists drv, opened c (s_dos s) drv /\ exists d3, uninstall d2 = Some (0, d3)
    /\ ivt d3 0x1C = ivt (s_dos s) 0x1C /\ ivt d3 0x2F = ivt (s_dos s) 0x2F /\ (forall n, n <> 0x1C -> n <> 0x2F -> ivt d3 n = ivt d2 n)
    /\ exists before after, log d3 = log d2 ++ before ++ [FreeMem (im_psp im)] ++ after
      /\ match drv with Some (v, h) => In (Release v h) before | None => True end)
  /\ (exists d3, status d2 = Some (0, d3) /\ d3 = emits [Say (Installed (g_net c) (im_psp im))] d2).
Proof.
  intros Hc I Hi T. pose proof (install_resident c s) as W. unfold wlp in W. rewrite Hi in W. destruct W as [[? _]|(_ & drv & O & R)]; [lia|].
  pose proof (found_resident _ _ _ _ _ Hc I R T) as F. pose proof (res_state _ _ _ _ R) as Est. rewrite <- (st_state _ _ T) in Est.
  assert (forall p, im_psp im <= fst p < im_psp im + paras_of (s_dos s) (im_psp im) -> inside d2 (state_at d2 (im_state im)) p) as In2.
  { intros p Hp. unfold inside. rewrite Est. cbn [rs_psp]. rewrite (st_paras _ _ T), (res_paras _ _ _ _ R), u16_id; [done|]. pose proof (io_end _ I). unfold is_u16. lia. }
  split.
  - exists drv. split; [done|]. rewrite (uninstall_cases _ _ _ F), decide_True.
    2: { rewrite (st_1c _ _ T), (st_2f _ _ T), (res_1c _ _ _ _ R), (res_2f _ _ _ _ R). split; apply In2; [apply (io_tick _ I)|apply (io_mpx _ I)]. }
    eexists. split; [done|]. destruct (removal_vectors (state_at d2 (im_state im)) d2) as (V1 & V2 & V3). rewrite Est in *. split; [done|]. split; [done|]. split; [done|].
    unfold removal. cbn [rs_mode rs_psp old_1c old_2f rs_pkt_int rs_pkt_handle]. rewrite emits_log. eexists ([_; _; _; _] ++ _), [Say Uninstalled]. split; [by rewrite <- app_assoc|].
    destruct drv as [[v h]|]; [|done]. unfold opened in O. destruct (g_net c); [|done]. rewrite decide_False by done. apply in_or_app. right. by left.
  - unfold status, mbind, M_bind. rewrite F. unfold gets, emit, modify, mret, M_ret. cbn beta iota. rewrite Est. cbn [rs_mode rs_psp]. eexists. split; [reflexivity|]. by destruct (g_net c).
Qed.
Lemma hooked_after_refused d a cf : find_resident d = Some ((Some a, cf), d) ->
  ~ inside d (state_at d a) (ivt d 0x1C) \/ ~ inside d (state_at d a) (ivt d 0x2F) -> uninstall d = Some (1, emits [Say HookedAfter] d).
Proof. intros F N. rewrite (uninstall_cases _ _ _ F), decide_False by tauto. done. Qed.
(** [main] installs nothing when the resident copy, or another owner of the multiplex
    number, answers. *)
Lemma main_install_guard ssh args c s : main_args ssh args = Install c ->
  main ssh args s = match find_resident (s_dos s) with
    | Some ((Some _, _), _) => Some (1, s <| s_dos := emits [Say AlreadyInstalled] (s_dos s) |>)
    | Some ((None, true), _) => Some (1, s <| s_dos := emits [Say MpxTaken] (s_dos s) |>)
    | Some ((None, false), _) => install c s
    | None => None
    end.
Proof.
  intros E. unfold main. rewrite E. unfold mbind at 1, M_bind, on_dos at 1. destruct (find_resident (s_dos s)) as [[[f cf] d]|] eqn:F; [|done].
  apply find_pure in F as ->. assert (s <| s_dos := s_dos s |> = s) as -> by (by destruct s). by destruct f, cf.
Qed.
End machine.

(** ** A machine with a packet driver *)

Definition demo_code (p : far) : code := if decide (p = (0x2000, 0x40)) then Mpx (0x2100, 8) else Foreign (fun r => inl r).
Definition demo_dos : dos :=
  Dos (fun n => if decide (n = 0x60) then (0x1800, 0) else (0xF000, n)) demo_code (fun _ => Resident [] 0 0 0 0 (0, 0) (0, 0)) (fun _ => 0x800) (fun _ => 0x1700) [].
Definition demo_image : image := Image 0x1FF0 (0x2000, 0x10) (0x2000, 0x40) (0x2100, 8) (0x2000, 0x200) (0x2100, 0x100).
Definition demo_signature (p : far) : list Z := if decide (p = (0x1800, 0)) then text "PKT DRVR" else [].
Definition demo_driver (v : Z) (r : regs) : bool * Z := (false, 7).
Definition demo_system : system toy :=
  System toy demo_dos (net0 1) no_tables rend0 (Machine (repeat 0 256) [] []) (Keyring toy [] [] [] 0 5 (Disk None None None) []).
Definition demo_config : config := Config true [10; 0; 2; 15] 23 false [] false false [] false.
Definition demo_installed : system toy :=
  match install demo_signature demo_driver (fun _ _ => repeat 1 6) demo_image (mret tt) demo_config demo_system with Some (_, s) => s | None => demo_system end.
Lemma demo_installs : install demo_signature demo_driver (fun _ _ => repeat 1 6) demo_image (mret tt) demo_config demo_system = Some (0, demo_installed).
Proof.
  assert (match install demo_signature demo_driver (fun _ _ => repeat 1 6) demo_image (mret tt) demo_config demo_system with Some (rc, _) => rc | None => -1 end = 0) as E by (vm_compute; reflexivity).
  unfold demo_installed. destruct (install _ _ _ _ _ _ _) as [[rc s]|]; [by subst|discriminate E].
Qed.
Lemma demo_fits : image_ok demo_image (s_dos demo_system).
Proof. by split; vm_compute. Qed.
Lemma demo_stays : still_there demo_image (s_dos demo_installed) (s_dos demo_installed).
Proof. by split. Qed.
Lemma install_then_remove_witness :
  let d2 := s_dos demo_installed in let d := s_dos demo_system in
  (exists drv, opened demo_signature demo_driver demo_image demo_config d drv /\ exists d3, uninstall 2 d2 = Some (0, d3)
    /\ ivt d3 0x1C = ivt d 0x1C /\ ivt d3 0x2F = ivt d 0x2F /\ (forall n, n <> 0x1C -> n <> 0x2F -> ivt d3 n = ivt d2 n)
    /\ exists before after, log d3 = log d2 ++ before ++ [FreeMem (im_psp demo_image)] ++ after
      /\ match drv with Some (v, h) => In (Release v h) before | None => True end)
  /\ (exists d3, status 2 d2 = Some (0, d3) /\ d3 = emits [Say (Installed (g_net demo_config) (im_psp demo_image))] d2).
Proof. exact (install_then_remove 2 _ _ _ _ _ _ _ _ _ (Nat.lt_0_succ 1) demo_fits demo_installs demo_stays). Defined.
